(** * i915 GEM mmap management: a shallow embedding of
      drivers/gpu/drm/i915/gem/i915_gem_mman.c

    Integers are [Z] with the wrap-around of the C type written out
    ([u32], [u64]) and the kernel is taken to be LP64: [size_t],
    [unsigned long] and [pgoff_t] are 64 bits wide, [unsigned int] is 32.
    Collaborators that live outside the file (locking, page pinning, GGTT
    binding, the offset manager of the DRM core) are represented by their
    return values, supplied by an environment record, and by the events
    they leave in a trace. *)

From Stdlib Require Import ZArith Lia Bool List.
From stdpp Require Import base numbers list.

Local Open Scope Z_scope.

(** ** Machine integers *)

Definition u32 (x : Z) : Z := x mod 2 ^ 32.
Definition u64 (x : Z) : Z := x mod 2 ^ 64.

Definition UINT_MAX : Z := 2 ^ 32 - 1.
Definition PAGE_SHIFT : Z := 12.
Definition PAGE_SIZE : Z := Z.shiftl 1 PAGE_SHIFT.
Definition SZ_1M : Z := 1048576.

(** ** Error numbers (include/uapi/asm-generic/errno-base.h, errno.h) *)

Module Errno.
Definition EINTR : Z := 4.
Definition EIO : Z := 5.
Definition ENXIO : Z := 6.
Definition E2BIG : Z := 7.
Definition EAGAIN : Z := 11.
Definition ENOMEM : Z := 12.
Definition EACCES : Z := 13.
Definition EFAULT : Z := 14.
Definition EBUSY : Z := 16.
Definition ENODEV : Z := 19.
Definition EINVAL : Z := 22.
Definition ENOSPC : Z := 28.
Definition EDEADLK : Z := 35.
Definition ERESTARTSYS : Z := 512.
End Errno.
Import Errno.

(** ** Fault outcomes and the error translation *)

Inductive vm_fault_t : Set :=
| VM_FAULT_OOM
| VM_FAULT_SIGBUS
| VM_FAULT_NOPAGE.

(** The kernel log as far as [WARN_ONCE] is concerned: the static
    [__warned] flag of the call site and the messages printed so far
    (each message is represented by the error value it reports). *)
Record warn_state : Set := mk_warn_state {
  __warned : bool;
  dmesg : list Z
}.

Definition warn_init : warn_state := mk_warn_state false [].

(** [WARN_ONCE(condition, ...)]: prints when the condition holds and the
    call site has not printed before. *)
Definition WARN_ONCE (condition : bool) (err : Z) (k : warn_state) : warn_state :=
  if condition && negb (__warned k)
  then mk_warn_state true (dmesg k ++ [err])
  else k.

(** Once the call site has warned it stays silent: the log holds one
    message at most. *)
Definition warn_inv (k : warn_state) : Prop :=
  (__warned k = false /\ dmesg k = []) \/
  (__warned k = true /\ length (dmesg k) = 1%nat).

(** The error values the [switch] of [i915_error_to_vmf_fault] names. *)
Definition sigbus_errors : list Z :=
  [- EIO; - EFAULT; - ENODEV; - ENXIO; - E2BIG].
Definition nopage_errors : list Z :=
  [0; - EAGAIN; - ENOSPC; - ERESTARTSYS; - EINTR; - EBUSY].

Definition mem (x : Z) (l : list Z) : bool := existsb (Z.eqb x) l.

Definition i915_error_to_vmf_fault (err : Z) (k : warn_state)
  : vm_fault_t * warn_state :=
  if mem err sigbus_errors then (VM_FAULT_SIGBUS, k)
  else if err =? - ENOMEM then (VM_FAULT_OOM, k)
  else if mem err nopage_errors then (VM_FAULT_NOPAGE, k)
  else (* default: *) (VM_FAULT_SIGBUS, WARN_ONCE (negb (err =? 0)) err k).

(** The outcome alone. *)
Definition vmf_of_error (err : Z) : vm_fault_t :=
  fst (i915_error_to_vmf_fault err warn_init).

(** A sequence of translations sharing the one call site. *)
Fixpoint translate_all (errs : list Z) (k : warn_state) : warn_state :=
  match errs with
  | [] => k
  | e :: rest => translate_all rest (snd (i915_error_to_vmf_fault e k))
  end.

(** ** GGTT views *)

Inductive i915_ggtt_view_type : Set :=
| I915_GGTT_VIEW_NORMAL
| I915_GGTT_VIEW_PARTIAL.

(** [struct i915_ggtt_view], with [partial.offset] a [u64] and
    [partial.size] an [unsigned int]. *)
Record i915_ggtt_view : Set := mk_view {
  view_type : i915_ggtt_view_type;
  partial_offset : Z;
  partial_size : Z
}.

(** [struct i915_vma], the fields this file reads or writes. *)
Record i915_vma : Set := mk_vma {
  ggtt_view : i915_ggtt_view;
  vma_size : Z;
  vma_ggtt_offset : Z;          (* i915_ggtt_offset(vma) *)
  vma_userfault : bool;         (* I915_VMA_USERFAULT_BIT *)
  vma_ggtt_write : bool;        (* I915_VMA_GGTT_WRITE *)
  vma_mmo : option Z            (* vma->mmo, by the offset of its node *)
}.

(** ** Mapping records *)

Inductive i915_mmap_type : Set :=
| I915_MMAP_TYPE_GTT
| I915_MMAP_TYPE_WC
| I915_MMAP_TYPE_WB
| I915_MMAP_TYPE_UC.

(** The enumerators' values, in declaration order. *)
Definition mmap_type_val (t : i915_mmap_type) : Z :=
  match t with
  | I915_MMAP_TYPE_GTT => 0
  | I915_MMAP_TYPE_WC => 1
  | I915_MMAP_TYPE_WB => 2
  | I915_MMAP_TYPE_UC => 3
  end.

#[export] Instance i915_mmap_type_eq_dec : EqDecision i915_mmap_type.
Proof. solve_decision. Defined.

(** [struct drm_vma_offset_node]: the region of the device-wide offset
    space ([vm_node.start], [vm_node.size], in pages) and the files
    allowed to map it. *)
Record drm_vma_offset_node : Set := mk_node {
  node_start : Z;
  node_pages : Z;
  vm_files : list nat
}.

Record i915_mmap_offset : Set := mk_mmo {
  mmo_obj : nat;
  mmap_type : i915_mmap_type;
  vma_node : drm_vma_offset_node
}.

Definition drm_vma_node_start (n : drm_vma_offset_node) : Z := node_start n.
Definition drm_vma_node_offset_addr (n : drm_vma_offset_node) : Z :=
  u64 (Z.shiftl (node_start n) PAGE_SHIFT).

(** [obj->mmo.offsets]: a binary search tree of records ordered by kind.
    The colours and the rotations of lib/rbtree.c, which keep the in-order
    sequence, are left out. *)
Inductive rb_root : Set :=
| rb_nil
| rb_node (rb_left : rb_root) (entry : i915_mmap_offset) (rb_right : rb_root).

(** ** Buffer objects *)

Inductive i915_madv : Set :=
| I915_MADV_WILLNEED
| I915_MADV_DONTNEED
| __I915_MADV_PURGED.

#[export] Instance i915_madv_eq_dec : EqDecision i915_madv.
Proof. solve_decision. Defined.

(** [struct intel_memory_region], as read through [obj->mm.region.mem]. *)
Record intel_memory_region : Set := mk_region {
  avail : Z;                    (* atomic64_t: a signed 64-bit value *)
  gt_wedged : bool;             (* intel_gt_is_wedged(mem->gt) *)
  iomap_base : Z;
  region_start : Z
}.

(** [struct drm_i915_gem_object]: the fields and the attributes (read in
    the source through inline helpers of i915_gem_object.h) this file
    depends on. *)
#[local] Unset Elimination Schemes.
Inductive drm_i915_gem_object : Set := mk_obj {
  obj_id : nat;
  base_size : Z;                (* obj->base.size, a size_t *)
  base_resv : nat;              (* obj->base.resv *)
  obj_flags : Z;                (* obj->flags *)
  readonly : bool;              (* i915_gem_object_is_readonly *)
  tiled : bool;                 (* i915_gem_object_is_tiled *)
  tile_row_size : Z;            (* i915_gem_object_get_tile_row_size, unsigned int *)
  cache_none : bool;            (* has_cache_level(obj, I915_CACHE_NONE) *)
  is_lmem : bool;               (* i915_gem_object_is_lmem *)
  has_struct_page : bool;       (* i915_gem_object_has_struct_page *)
  has_pages : bool;             (* i915_gem_object_has_pages *)
  has_pinned_pages : bool;      (* i915_gem_object_has_pinned_pages *)
  mm_madv : i915_madv;          (* obj->mm.madv *)
  mm_region_mem : intel_memory_region;
  swapto : option drm_i915_gem_object;
  userfault_count : Z;          (* unsigned int *)
  ggtt_vmas : list i915_vma;    (* for_each_ggtt_vma(vma, obj) *)
  mmo_offsets : rb_root;        (* obj->mmo.offsets *)
  has_segments : bool;          (* i915_gem_object_has_segments *)
  is_segment : bool;            (* i915_gem_object_is_segment *)
  parent : option drm_i915_gem_object;
  segment_offset : Z
}.
#[local] Set Elimination Schemes.

Definition obj_pages (obj : drm_i915_gem_object) : Z :=
  Z.shiftr (base_size obj) PAGE_SHIFT.

(** ** Partial views *)

Definition tile_row_pages (obj : drm_i915_gem_object) : Z :=
  Z.shiftr (tile_row_size obj) PAGE_SHIFT.

(** [x ?: y] *)
Definition elvis (x y : Z) : Z := if x =? 0 then y else x.

(** [roundup(x, y)] of linux/math.h on [unsigned int] operands:
    [(((x) + (__y - 1)) / __y) * __y]. *)
Definition roundup (x y : Z) : Z :=
  u32 (u32 (x + u32 (y - 1)) / y * y).

(** [rounddown(x, y)] on an [unsigned long] [x]: [__x - (__x % (y))]. *)
Definition rounddown (x y : Z) : Z := x - x mod y.

Definition MIN_CHUNK_PAGES : Z := Z.shiftr SZ_1M PAGE_SHIFT.

(** The chunk after the first statement of [compute_partial_view]. *)
Definition partial_chunk (obj : drm_i915_gem_object) (chunk : Z) : Z :=
  if tiled obj then roundup chunk (elvis (tile_row_pages obj) 1) else chunk.

(** [compute_partial_view]; [None] stands for the division by zero that a
    zero chunk would cause in [rounddown]. *)
Definition compute_partial_view (obj : drm_i915_gem_object)
    (page_offset chunk : Z) : option i915_ggtt_view :=
  let chunk := partial_chunk obj chunk in
  if chunk =? 0 then None
  else
    let offset := rounddown page_offset chunk in
    let size := Z.min (u32 chunk) (u32 (u64 (obj_pages obj - offset))) in
    Some (mk_view
            (if chunk >=? obj_pages obj
             then I915_GGTT_VIEW_NORMAL else I915_GGTT_VIEW_PARTIAL)
            offset size).

(** Field updates of the object, one per field the source writes. *)
Definition set_swapto (obj : drm_i915_gem_object)
    (s : option drm_i915_gem_object) : drm_i915_gem_object :=
  mk_obj (obj_id obj) (base_size obj) (base_resv obj) (obj_flags obj)
    (readonly obj) (tiled obj) (tile_row_size obj) (cache_none obj)
    (is_lmem obj) (has_struct_page obj) (has_pages obj)
    (has_pinned_pages obj) (mm_madv obj) (mm_region_mem obj)
    s (userfault_count obj) (ggtt_vmas obj) (mmo_offsets obj)
    (has_segments obj) (is_segment obj) (parent obj) (segment_offset obj).

Definition set_flags_resv (obj : drm_i915_gem_object) (f : Z) (r : nat)
  : drm_i915_gem_object :=
  mk_obj (obj_id obj) (base_size obj) r f
    (readonly obj) (tiled obj) (tile_row_size obj) (cache_none obj)
    (is_lmem obj) (has_struct_page obj) (has_pages obj)
    (has_pinned_pages obj) (mm_madv obj) (mm_region_mem obj)
    (swapto obj) (userfault_count obj) (ggtt_vmas obj) (mmo_offsets obj)
    (has_segments obj) (is_segment obj) (parent obj) (segment_offset obj).

Definition set_userfault (obj : drm_i915_gem_object) (count : Z)
    (vmas : list i915_vma) : drm_i915_gem_object :=
  mk_obj (obj_id obj) (base_size obj) (base_resv obj) (obj_flags obj)
    (readonly obj) (tiled obj) (tile_row_size obj) (cache_none obj)
    (is_lmem obj) (has_struct_page obj) (has_pages obj)
    (has_pinned_pages obj) (mm_madv obj) (mm_region_mem obj)
    (swapto obj) count vmas (mmo_offsets obj)
    (has_segments obj) (is_segment obj) (parent obj) (segment_offset obj).

Definition set_mmo_offsets (obj : drm_i915_gem_object) (t : rb_root)
  : drm_i915_gem_object :=
  mk_obj (obj_id obj) (base_size obj) (base_resv obj) (obj_flags obj)
    (readonly obj) (tiled obj) (tile_row_size obj) (cache_none obj)
    (is_lmem obj) (has_struct_page obj) (has_pages obj)
    (has_pinned_pages obj) (mm_madv obj) (mm_region_mem obj)
    (swapto obj) (userfault_count obj) (ggtt_vmas obj) t
    (has_segments obj) (is_segment obj) (parent obj) (segment_offset obj).

(** ** Build configuration and device attributes *)

Record i915_config : Set := mk_config {
  CPTCFG_DRM_I915_CHICKEN_MMAP_SWAP : bool;
  CPTCFG_DRM_I915_CHICKEN_MMAP_SWAP_CREATE : bool;
  CPTCFG_DRM_I915_USERFAULT_AUTOSUSPEND : Z;
  I915_BO_CPU_CLEAR : Z         (* a flag bit of obj->flags *)
}.

(** [struct drm_i915_private], as read by the fault handlers. *)
Record drm_i915_private : Set := mk_i915 {
  HAS_FLAT_CCS : bool;
  HAS_LLC : bool;
  invalidate_lmem_mmaps : bool;
  gmadr_start : Z               (* to_gt(i915)->ggtt->gmadr.start *)
}.

(** ** Swap policy *)

(** Modelled from the spec: [i915_gem_object_create_shmem] lives in
    i915_gem_shmem.c. It yields a fresh host-memory-backed object of the
    requested size, with no pages yet and in its own synchronization
    domain, or fails. *)
Definition shmem_object (id : nat) (size : Z) : drm_i915_gem_object :=
  mk_obj id size id 0 false false 0 false
    false true false false I915_MADV_WILLNEED (mk_region 0 false 0 0)
    None 0 [] rb_nil false false None 0.

(** Modelled from the spec: [i915_gem_object_share_resv] lives in
    i915_gem_object.c. The shadow takes over the synchronization domain
    of the real object, so that both are locked together. *)
Definition i915_gem_object_share_resv (obj swp : drm_i915_gem_object)
  : drm_i915_gem_object :=
  set_flags_resv swp (obj_flags swp) (base_resv obj).

(** [create_swapto]. [shmem] is what [i915_gem_object_create_shmem]
    returns for this call: an error value or the identity of the fresh
    object. The result is the object left behind and the object to
    fault on. *)
Definition create_swapto (cfg : i915_config) (i915 : drm_i915_private)
    (shmem : Z + nat) (obj : drm_i915_gem_object) (write : bool)
  : drm_i915_gem_object * drm_i915_gem_object :=
  if negb (CPTCFG_DRM_I915_CHICKEN_MMAP_SWAP_CREATE cfg) then (obj, obj)
  else if negb (is_lmem obj) then (obj, obj)
  else if has_pages obj || bool_decide (mm_madv obj = __I915_MADV_PURGED)
  then (obj, obj)
  else
    (* Prefer to write directly to lmem unless we will evict *)
    let size := base_size obj in
    if write && (u64 (2 * size) <? u64 (avail (mm_region_mem obj)))
    then (obj, obj)
    else
      let size :=
        if HAS_FLAT_CCS i915 && negb (gt_wedged (mm_region_mem obj))
        then u64 (size + Z.shiftr size 8) else size in
      match shmem with
      | inl _ => (obj, obj)
      | inr id =>
          let swp := shmem_object id size in
          let swp := set_flags_resv swp
                       (Z.lor (obj_flags swp) (I915_BO_CPU_CLEAR cfg))
                       (base_resv swp) in
          let swp := i915_gem_object_share_resv obj swp in
          (set_swapto obj (Some swp), swp)
      end.

(** [use_swapto] *)
Definition use_swapto (cfg : i915_config) (i915 : drm_i915_private)
    (shmem : Z + nat) (obj : drm_i915_gem_object) (write : bool)
  : drm_i915_gem_object * drm_i915_gem_object :=
  if negb (CPTCFG_DRM_I915_CHICKEN_MMAP_SWAP cfg) then (obj, obj)
  else
    match swapto obj with
    | Some swp =>
        if bool_decide (mm_madv swp = I915_MADV_WILLNEED)
        then (obj, swp)
        else create_swapto cfg i915 shmem obj write
    | None => create_swapto cfg i915 shmem obj write
    end.

(** The shadow [create_swapto] builds for an object from the fresh
    object [id]. *)
Definition shadow_of (cfg : i915_config) (i915 : drm_i915_private)
    (obj : drm_i915_gem_object) (id : nat) : drm_i915_gem_object :=
  let size := base_size obj in
  let size :=
    if HAS_FLAT_CCS i915 && negb (gt_wedged (mm_region_mem obj))
    then u64 (size + Z.shiftr size 8) else size in
  set_flags_resv (shmem_object id size)
                 (Z.lor 0 (I915_BO_CPU_CLEAR cfg)) (base_resv obj).

(** ** The environment of a fault *)

(** Placement flags of i915_gem_gtt.h, kept symbolic; an or-ed
    combination is the list of its flags. *)
Inductive pin_flag : Set :=
| PIN_MAPPABLE
| PIN_NONBLOCK
| PIN_NOEVICT
| PIN_NOSEARCH
| PIN_OFFSET_GUARD
| GUARD_SZ_4K.

(** What a fault handler does to its collaborators, in program order. *)
Inductive event : Set :=
| EvRpmGet
| EvRpmPut
| EvWwInit
| EvWwBackoff
| EvWwFini
| EvLock
| EvPinPages
| EvUnpinPages
| EvResetLock
| EvResetUnlock
| EvGgttPin (view : option i915_ggtt_view) (flags : list pin_flag)
| EvVmaUnpin
| EvPinFence
| EvUnpinFence
| EvRemapIoMapping (addr pfn size : Z)
| EvWakerefAuto
| EvMigrate
| EvRemapIoSg (addr size offset iomap : Z)
| EvWakeUp
| EvUnmapMappingRange (holebegin holelen : Z).

(** The results of the collaborators. A fault makes numbered passes over
    its locking transaction; the first argument is the pass. *)
Record fault_env : Type := mk_env {
  obj_lock : nat -> Z;                    (* i915_gem_object_lock *)
  ww_backoff : nat -> Z;                  (* i915_gem_ww_ctx_backoff *)
  pin_pages_sync : nat -> Z;              (* i915_gem_object_pin_pages_sync *)
  reset_lock : nat -> Z;                  (* intel_gt_reset_lock_interruptible *)
  ggtt_pin : nat -> nat -> Z + nat;       (* i915_gem_object_ggtt_pin_ww, by
                                             attempt: an ERR_PTR or the vma,
                                             a position in ggtt_vmas *)
  pin_fence : nat -> Z;                   (* i915_vma_pin_fence_wait *)
  remap_io_mapping : nat -> Z;
  lookup_segment : Z -> option drm_i915_gem_object;
  create_shmem : nat -> Z + nat;          (* i915_gem_object_create_shmem *)
  should_migrate_smem : nat -> bool * bool; (* the result and *required *)
  migrate_to_smem : nat -> Z;             (* i915_gem_object_migrate_to_smem *)
  remap_io_sg : nat -> Z
}.

Definition VM_WRITE : Z := 2.

Record vm_area_struct : Set := mk_area {
  vm_start : Z;
  vm_end : Z;
  vm_pgoff : Z;
  vm_flags : Z;
  vm_private_data : i915_mmap_offset
}.

Record vm_fault : Set := mk_vmf {
  vmf_vma : vm_area_struct;
  address : Z
}.

Definition area_write (area : vm_area_struct) : bool :=
  negb (Z.land (vm_flags area) VM_WRITE =? 0).

(** [(vmf->address - area->vm_start) >> PAGE_SHIFT] *)
Definition fault_page_offset (vmf : vm_fault) : Z :=
  Z.shiftr (u64 (address vmf - vm_start (vmf_vma vmf))) PAGE_SHIFT.

(** The state a fault handler works on. *)
Record fault_state : Set := mk_fs {
  fs_obj : drm_i915_gem_object;
  userfault_list : list nat;    (* ggtt->userfault_list, by obj_id *)
  active_fault_handlers : Z;
  fs_warn : warn_state;
  fs_trace : list event
}.

Definition log (st : fault_state) (evs : list event) : fault_state :=
  mk_fs (fs_obj st) (userfault_list st) (active_fault_handlers st)
        (fs_warn st) (fs_trace st ++ evs).

Definition with_obj (st : fault_state) (obj : drm_i915_gem_object)
    (ufl : list nat) : fault_state :=
  mk_fs obj ufl (active_fault_handlers st) (fs_warn st) (fs_trace st).

(** How a run of a handler ends. [Oops] is a fault of the kernel itself
    (a division by zero, a wild pointer); [OutOfFuel] is the model running
    out of fuel. *)
Inductive run (A : Type) : Type :=
| Done (a : A)
| Oops
| OutOfFuel.
Arguments Done {A} a.
Arguments Oops {A}.
Arguments OutOfFuel {A}.

(** ** Userfault bookkeeping *)

Definition set_vma_userfault (v : i915_vma) (b : bool) : i915_vma :=
  mk_vma (ggtt_view v) (vma_size v) (vma_ggtt_offset v) b
         (vma_ggtt_write v) (vma_mmo v).

Definition set_vma_mmo_write (v : i915_vma) (mmo : option Z) (w : bool)
  : i915_vma :=
  mk_vma (ggtt_view v) (vma_size v) (vma_ggtt_offset v) (vma_userfault v)
         w mmo.

(** The marking in [vm_fault_gtt]:
    [if (!i915_vma_set_userfault(vma) && !obj->userfault_count++)
       list_add(&obj->userfault_link, &ggtt->userfault_list);]
    for the vma at position [i]. *)
Definition mark_userfault (obj : drm_i915_gem_object) (i : nat)
    (ufl : list nat) : drm_i915_gem_object * list nat :=
  match ggtt_vmas obj !! i with
  | None => (obj, ufl)
  | Some vma =>
      if vma_userfault vma then (obj, ufl)
      else
        (set_userfault obj (u32 (userfault_count obj + 1))
                       (<[i := set_vma_userfault vma true]> (ggtt_vmas obj)),
         if userfault_count obj =? 0 then obj_id obj :: ufl else ufl)
  end.

(** ** The aperture fault handler *)

Definition guard : list pin_flag := [PIN_OFFSET_GUARD; GUARD_SZ_4K].

(** [IS_ERR(vma) && vma != ERR_PTR(-EDEADLK)] *)
Definition is_err_not_deadlk (vma : Z + nat) : bool :=
  match vma with
  | inl e => negb (e =? - EDEADLK)
  | inr _ => false
  end.

(** The binding attempts of [vm_fault_gtt]: the whole object first, then
    the view of [compute_partial_view], then that view forced partial. *)
Definition gtt_bind (env : fault_env) (n : nat) (obj : drm_i915_gem_object)
    (page_offset : Z) (st : fault_state) : option (Z + nat) * fault_state :=
  let st := log st [EvGgttPin None
                      (guard ++ [PIN_MAPPABLE; PIN_NONBLOCK; PIN_NOEVICT])] in
  let vma := ggtt_pin env n 0%nat in
  if is_err_not_deadlk vma then
    match compute_partial_view obj page_offset MIN_CHUNK_PAGES with
    | None => (None, st)
    | Some view =>
        let flags :=
          [PIN_MAPPABLE; PIN_NOSEARCH] ++
          match view_type view with
          | I915_GGTT_VIEW_NORMAL => [PIN_NONBLOCK]
          | I915_GGTT_VIEW_PARTIAL => []
          end in
        let st := log st [EvGgttPin (Some view) (guard ++ flags)] in
        let vma := ggtt_pin env n 1%nat in
        if is_err_not_deadlk vma then
          let view := mk_view I915_GGTT_VIEW_PARTIAL
                              (partial_offset view) (partial_size view) in
          let st := log st [EvGgttPin (Some view) (guard ++ [PIN_MAPPABLE])] in
          (Some (ggtt_pin env n 2%nat), st)
        else (Some vma, st)
    end
  else (Some vma, st).

Definition err_fence : list event :=
  [EvUnpinFence; EvVmaUnpin; EvResetUnlock; EvUnpinPages].
Definition err_unpin : list event := [EvVmaUnpin; EvResetUnlock; EvUnpinPages].
Definition err_reset : list event := [EvResetUnlock; EvUnpinPages].
Definition err_pages : list event := [EvUnpinPages].

(** One pass of [vm_fault_gtt] from the label [retry] to the label
    [err_rpm]: the value of [ret] there, or [None] for an oops. *)
Definition gtt_pass (env : fault_env) (cfg : i915_config)
    (i915 : drm_i915_private) (vmf : vm_fault) (n : nat) (st : fault_state)
  : option Z * fault_state :=
  let area := vmf_vma vmf in
  let mmo := vm_private_data area in
  let obj := fs_obj st in
  let write := area_write area in
  let page_offset := fault_page_offset vmf in
  let st := log st [EvLock] in
  let ret := obj_lock env n in
  if negb (ret =? 0) then (Some ret, st)
  else if readonly obj && write then (Some (- EFAULT), st)
  else
    let st := log st [EvPinPages] in
    let ret := pin_pages_sync env n in
    if negb (ret =? 0) then (Some ret, st)
    else
      let st := log st [EvResetLock] in
      let ret := reset_lock env n in
      if negb (ret =? 0) then (Some ret, log st err_pages)
      else
        match gtt_bind env n obj page_offset st with
        | (None, st) => (None, st)
        | (Some (inl e), st) => (Some e, log st err_reset)
        | (Some (inr i), st) =>
            match ggtt_vmas obj !! i with
            | None => (None, st)
            | Some vma =>
                if negb (cache_none obj || HAS_LLC i915)
                then (Some (- EFAULT), log st err_unpin)
                else
                  let st := log st [EvPinFence] in
                  let ret := pin_fence env n in
                  if negb (ret =? 0) then (Some ret, log st err_unpin)
                  else
                    let st := log st
                      [EvRemapIoMapping
                         (u64 (vm_start area +
                               Z.shiftl (partial_offset (ggtt_view vma))
                                        PAGE_SHIFT))
                         (Z.shiftr (u64 (gmadr_start i915 +
                                         vma_ggtt_offset vma)) PAGE_SHIFT)
                         (Z.min (u64 (vma_size vma))
                                (u64 (vm_end area - vm_start area)))] in
                    let ret := remap_io_mapping env n in
                    if negb (ret =? 0) then (Some ret, log st err_fence)
                    else
                      let '(obj, ufl) :=
                        mark_userfault obj i (userfault_list st) in
                      let obj :=
                        set_userfault obj (userfault_count obj)
                          (alter (fun v =>
                                    set_vma_mmo_write v
                                      (Some (node_start (vma_node mmo)))
                                      (write || vma_ggtt_write v))
                                 i (ggtt_vmas obj)) in
                      let st := with_obj st obj ufl in
                      let st :=
                        if CPTCFG_DRM_I915_USERFAULT_AUTOSUSPEND cfg =? 0
                        then st else log st [EvWakerefAuto] in
                      (Some ret, log st err_fence)
            end
        end.

(** The [retry] loop of [vm_fault_gtt]: back off and take the pass again
    while the pass ends in -EDEADLK and the back-off succeeds. *)
Fixpoint gtt_retry (env : fault_env) (cfg : i915_config)
    (i915 : drm_i915_private) (vmf : vm_fault) (fuel n : nat)
    (st : fault_state) : run Z * fault_state :=
  match fuel with
  | O => (OutOfFuel, st)
  | S fuel =>
      match gtt_pass env cfg i915 vmf n st with
      | (None, st) => (Oops, st)
      | (Some ret, st) =>
          if ret =? - EDEADLK then
            let st := log st [EvWwBackoff] in
            let ret := ww_backoff env n in
            if ret =? 0 then gtt_retry env cfg i915 vmf fuel (S n) st
            else (Done ret, st)
          else (Done ret, st)
      end
  end.

Definition set_warn (st : fault_state) (k : warn_state) : fault_state :=
  mk_fs (fs_obj st) (userfault_list st) (active_fault_handlers st)
        k (fs_trace st).

(** [vm_fault_gtt] *)
Definition vm_fault_gtt (env : fault_env) (cfg : i915_config)
    (i915 : drm_i915_private) (vmf : vm_fault) (fuel : nat)
    (st : fault_state) : run vm_fault_t * fault_state :=
  let st := log st [EvRpmGet; EvWwInit] in
  match gtt_retry env cfg i915 vmf fuel 0%nat st with
  | (Done ret, st) =>
      let st := log st [EvWwFini; EvRpmPut] in
      let '(r, k) := i915_error_to_vmf_fault ret (fs_warn st) in
      (Done r, set_warn st k)
  | (Oops, st) => (Oops, st)
  | (OutOfFuel, st) => (OutOfFuel, st)
  end.

(** ** The direct fault handler *)

(** Conversion to [long]. *)
Definition s64 (x : Z) : Z :=
  let y := u64 x in if y <? 2 ^ 63 then y else y - 2 ^ 64.

(** The migration step of the transaction of [vm_fault_cpu],
    [if (i915_gem_object_should_migrate_smem(pg, &required)) { ... }]:
    [Some err] when the body is left by [continue] with [err], [None]
    when the body goes on (with [err] reset to 0). *)
Definition cpu_migrate (env : fault_env) (pg : drm_i915_gem_object)
    (n : nat) (st : fault_state) : option Z * fault_state :=
  let '(should, required) := should_migrate_smem env n in
  if should then
    let '(err, st) :=
      if has_pinned_pages pg then (- EFAULT, st)
      else (migrate_to_smem env n, log st [EvMigrate]) in
    if negb (err =? 0) && required then (Some err, st)
    else if err =? - EDEADLK then (Some err, st)
    else (* Migration not required, just best effort. *) (None, st)
  else (None, st).

(** The rest of the body: pin the pages, populate the window, unpin. *)
Definition cpu_populate (env : fault_env) (pg : drm_i915_gem_object)
    (vm_start vm_size obj_offset : Z) (n : nat) (st : fault_state)
  : Z * fault_state :=
  let st := log st [EvPinPages] in
  let err := pin_pages_sync env n in
  if negb (err =? 0) then (err, st)
  else
    let iomap :=
      if negb (has_struct_page pg)
      then u64 (iomap_base (mm_region_mem pg) -
                region_start (mm_region_mem pg))
      else u64 (-1) in
    (* PTEs are revoked in obj->ops->put_pages() *)
    let st := log st [EvRemapIoSg vm_start vm_size obj_offset iomap] in
    let err := remap_io_sg env n in
    (err, log st [EvUnpinPages]).

(** The body of the locking transaction of [vm_fault_cpu] in pass [n]:
    the value of [err] when the body is left, by [continue] or at its
    end. *)
Definition cpu_pass (env : fault_env) (cfg : i915_config)
    (i915 : drm_i915_private) (write : bool) (vm_start vm_size obj_offset : Z)
    (n : nat) (st : fault_state) : Z * fault_state :=
  let st := log st [EvLock] in
  let err := obj_lock env n in
  if negb (err =? 0) then (err, st)
  else
    let '(obj, pg) :=
      use_swapto cfg i915 (create_shmem env n) (fs_obj st) write in
    let st := with_obj st obj (userfault_list st) in
    (* Implicitly migrate BO to SMEM if criteria met *)
    match cpu_migrate env pg n st with
    | (Some err, st) => (err, st)
    | (None, st) => cpu_populate env pg vm_start vm_size obj_offset n st
    end.

(** Modelled from the spec: the macro [for_i915_gem_ww] and its helper
    [__i915_gem_ww_fini] live in i915_gem_ww.h. They implement the
    wound-wait discipline: when the body leaves -EDEADLK behind, every
    lock is dropped, the contended one is waited for
    ([i915_gem_ww_ctx_backoff]) and the body is run again; any other
    value, the error of a failed back-off included, ends the
    transaction. [ww_fini] is the value the macro leaves in [err]. *)
Definition ww_fini (env : fault_env) (n : nat) (err : Z) (st : fault_state)
  : Z * fault_state :=
  if err =? - EDEADLK then
    let e := ww_backoff env n in
    (if e =? 0 then - EDEADLK else e, log st [EvWwBackoff])
  else (err, st).

(** [do for_i915_gem_ww(&ww, err, true) { ... }
     while (err == -ENXIO || err == -ENOMEM);] *)
Fixpoint cpu_loop (env : fault_env) (cfg : i915_config)
    (i915 : drm_i915_private) (write : bool) (vm_start vm_size obj_offset : Z)
    (fuel n : nat) (st : fault_state) : run Z * fault_state :=
  match fuel with
  | O => (OutOfFuel, st)
  | S fuel =>
      let '(err, st) :=
        cpu_pass env cfg i915 write vm_start vm_size obj_offset n st in
      let '(err, st) := ww_fini env n err st in
      if err =? - EDEADLK then
        cpu_loop env cfg i915 write vm_start vm_size obj_offset fuel (S n) st
      else
        let st := log st [EvWwFini] in
        if (err =? - ENXIO) || (err =? - ENOMEM) then
          cpu_loop env cfg i915 write vm_start vm_size obj_offset fuel (S n)
                   (log st [EvWwInit])
        else (Done err, st)
  end.

Definition set_active (st : fault_state) (a : Z) : fault_state :=
  mk_fs (fs_obj st) (userfault_list st) a (fs_warn st) (fs_trace st).

(** The label [out] of [vm_fault_cpu]. *)
Definition cpu_out (ret : vm_fault_t) (st : fault_state)
  : run vm_fault_t * fault_state :=
  let a := active_fault_handlers st - 1 in
  let st := set_active st a in
  (Done ret, if a =? 0 then log st [EvWakeUp] else st).

(** The window of a segmented object: the segment, [vm_start], [vm_size]
    and [obj_offset] after the lookup, or [None] when no segment covers
    the offset. *)
Definition cpu_segment (env : fault_env) (area : vm_area_struct)
    (page_offset obj_offset : Z) (obj : drm_i915_gem_object)
  : option (drm_i915_gem_object * Z * Z * Z) :=
  if has_segments obj then
    match lookup_segment env
            (u64 (Z.shiftl (obj_offset + page_offset) PAGE_SHIFT)) with
    | None => None
    | Some seg =>
        let vm_size := base_size seg in
        let seg_pages := Z.shiftr (segment_offset seg) PAGE_SHIFT in
        let '(vm_start, vm_size, obj_offset) :=
          if seg_pages <? u64 obj_offset then
            let obj_offset := s64 (obj_offset - seg_pages) in
            (vm_start area,
             u64 (vm_size - Z.shiftl obj_offset PAGE_SHIFT), obj_offset)
          else
            (u64 (vm_start area + segment_offset seg -
                  Z.shiftl obj_offset PAGE_SHIFT), vm_size, 0) in
        Some (seg, vm_start, Z.min (vm_end area) (u64 (vm_start + vm_size)),
              obj_offset)
    end
  else Some (obj, vm_start area, vm_end area, obj_offset).

(** [area->vm_pgoff - drm_vma_node_start(&mmo->vma_node)], a [long] *)
Definition fault_obj_offset (vmf : vm_fault) : Z :=
  let area := vmf_vma vmf in
  s64 (vm_pgoff area - drm_vma_node_start (vma_node (vm_private_data area))).

(** The object to fault on and its window, for the fault [vmf]. *)
Definition cpu_window (env : fault_env) (vmf : vm_fault)
    (obj : drm_i915_gem_object)
  : option (drm_i915_gem_object * Z * Z * Z) :=
  cpu_segment env (vmf_vma vmf) (fault_page_offset vmf)
              (fault_obj_offset vmf) obj.

(** [vm_fault_cpu] *)
Definition vm_fault_cpu (env : fault_env) (cfg : i915_config)
    (i915 : drm_i915_private) (vmf : vm_fault) (fuel : nat)
    (st : fault_state) : run vm_fault_t * fault_state :=
  let area := vmf_vma vmf in
  let obj := fs_obj st in
  let write := area_write area in
  (* Sanity check that we allow writing into this object *)
  if readonly obj && write then (Done VM_FAULT_SIGBUS, st)
  else
    let st := set_active st (active_fault_handlers st + 1) in
    (* Do not service faults if invalidate_lmem_mmaps is set *)
    if invalidate_lmem_mmaps i915 then cpu_out VM_FAULT_SIGBUS st
    else
      match cpu_window env vmf obj with
      | None => cpu_out VM_FAULT_SIGBUS st
      | Some (obj, vm_start, vm_size, obj_offset) =>
          let vm_size := u64 (vm_size - vm_start) in
          let st := with_obj st obj (userfault_list st) in
          match cpu_loop env cfg i915 write vm_start vm_size obj_offset
                         fuel 0%nat (log st [EvWwInit]) with
          | (Done err, st) =>
              let '(ret, k) := i915_error_to_vmf_fault err (fs_warn st) in
              cpu_out ret (set_warn st k)
          | (Oops, st) => (Oops, st)
          | (OutOfFuel, st) => (OutOfFuel, st)
          end
      end.

(** ** Revocation of aperture mappings *)

(** Modelled from the spec: [i915_vma_revoke_mmap] lives in i915_vma.c.
    It is the inverse of the marking in [vm_fault_gtt]: a vma that is
    marked as faulted into userspace has its range unmapped and loses the
    mark, the userfault count of its object drops by one, and the object
    leaves the device-wide revocation list when the count reaches zero. A
    vma without the mark is left alone. *)
Definition i915_vma_revoke_mmap (i : nat) (st : fault_state) : fault_state :=
  let obj := fs_obj st in
  match ggtt_vmas obj !! i with
  | None => st
  | Some vma =>
      if negb (vma_userfault vma) then st
      else
        let st :=
          log st [EvUnmapMappingRange
                    (u64 (Z.shiftl (default 0 (vma_mmo vma)) PAGE_SHIFT +
                          Z.shiftl (partial_offset (ggtt_view vma)) PAGE_SHIFT))
                    (vma_size vma)] in
        let count := u32 (userfault_count obj - 1) in
        with_obj st
          (set_userfault obj count
             (<[i := set_vma_userfault vma false]> (ggtt_vmas obj)))
          (if count =? 0
           then filter (fun o => o <> obj_id obj) (userfault_list st)
           else userfault_list st)
  end.

(** [for_each_ggtt_vma(vma, obj) i915_vma_revoke_mmap(vma);] over the
    positions [i, i + k). *)
Fixpoint revoke_each (k : nat) (i : nat) (st : fault_state) : fault_state :=
  match k with
  | O => st
  | S k => revoke_each k (S i) (i915_vma_revoke_mmap i st)
  end.

(** [__i915_gem_object_release_mmap_gtt]. Its two assertions,
    [GEM_BUG_ON(!obj->userfault_count)] on entry and
    [GEM_BUG_ON(obj->userfault_count)] on exit, compile to nothing in a
    production build. *)
Definition __i915_gem_object_release_mmap_gtt (st : fault_state)
  : fault_state :=
  revoke_each (length (ggtt_vmas (fs_obj st))) 0 st.

(** [i915_gem_object_release_mmap_gtt] *)
Definition i915_gem_object_release_mmap_gtt (st : fault_state)
  : fault_state :=
  let st := log st [EvRpmGet] in
  let st :=
    if userfault_count (fs_obj st) =? 0 then st
    else __i915_gem_object_release_mmap_gtt st in
  log st [EvRpmPut].

(** The vmas of a list that are marked as faulted into userspace. *)
Fixpoint marked (l : list i915_vma) : nat :=
  match l with
  | [] => 0
  | v :: l => ((if vma_userfault v then 1 else 0) + marked l)%nat
  end.

(** The bookkeeping of [vm_fault_gtt]: the userfault count of the object
    is the number of its marked vmas. *)
Definition userfault_tracked (obj : drm_i915_gem_object) : Prop :=
  userfault_count obj = Z.of_nat (marked (ggtt_vmas obj)) /\
  Z.of_nat (length (ggtt_vmas obj)) <= UINT_MAX.

(** What holds before the vma at position [i] is revoked, for the
    object [id0] with [n] vmas and the revocation list [ufl0] at the
    start: the count is the number of marks still ahead, no mark is left
    behind, the object is off the list once the count is zero, and the
    other objects stay on the list. *)
Record revoke_inv (id0 n : nat) (ufl0 : list nat) (i : nat)
    (st : fault_state) : Prop := mk_revoke_inv {
  ri_id : obj_id (fs_obj st) = id0;
  ri_len : length (ggtt_vmas (fs_obj st)) = n;
  ri_bound : Z.of_nat n <= UINT_MAX;
  ri_count : userfault_count (fs_obj st)
             = Z.of_nat (marked (drop i (ggtt_vmas (fs_obj st))));
  ri_clear : marked (take i (ggtt_vmas (fs_obj st))) = 0%nat;
  ri_off : userfault_count (fs_obj st) = 0 -> id0 ∉ userfault_list st;
  ri_others : forall o, o <> id0 -> o ∈ userfault_list st <-> o ∈ ufl0
}.

(** ** Teardown of the other mappings *)

(** [rbtree_postorder_for_each_entry_safe]: children first. *)
Fixpoint rb_postorder (t : rb_root) : list i915_mmap_offset :=
  match t with
  | rb_nil => []
  | rb_node l m r => rb_postorder l ++ rb_postorder r ++ [m]
  end.

(** A call [drm_vma_node_unmap_range(&mmo->vma_node, mapping, offset,
    length)]. *)
Record unmap_call : Set := mk_unmap {
  um_mmo : i915_mmap_offset;
  um_offset : Z;
  um_length : Z
}.

(** [drm_vma_node_unmap_range] *)
Definition drm_vma_node_unmap_range (c : unmap_call) : event :=
  EvUnmapMappingRange
    (u64 (drm_vma_node_offset_addr (vma_node (um_mmo c)) + um_offset c))
    (um_length c).

(** The object whose registry [i915_gem_object_release_mmap_offset]
    walks and the offset of the range within its mappings: the parent for
    a segment, nothing for a segment whose parent is gone. *)
Definition release_target (obj : drm_i915_gem_object)
  : option (drm_i915_gem_object * Z) :=
  if is_segment obj then
    match parent obj with
    | None => None
    | Some p => Some (p, segment_offset obj)
    end
  else Some (obj, 0).

(** The calls [i915_gem_object_release_mmap_offset] makes, in order. *)
Definition release_mmap_offset_calls (obj : drm_i915_gem_object)
  : list unmap_call :=
  let unmap_size := base_size obj in
  match release_target obj with
  | None => []
  | Some (obj, vma_offset) =>
      flat_map
        (fun mmo =>
           (* vma_node_unmap for GTT mmaps handled already in
              __i915_gem_object_release_mmap_gtt *)
           if bool_decide (mmap_type mmo = I915_MMAP_TYPE_GTT) then []
           else [mk_unmap mmo vma_offset unmap_size])
        (rb_postorder (mmo_offsets obj))
  end.

(** [i915_gem_object_release_mmap_offset] *)
Definition i915_gem_object_release_mmap_offset (st : fault_state)
  : fault_state :=
  log st (map drm_vma_node_unmap_range
              (release_mmap_offset_calls (fs_obj st))).

(** [i915_gem_object_release_mmap] *)
Definition i915_gem_object_release_mmap (st : fault_state) : fault_state :=
  i915_gem_object_release_mmap_offset (i915_gem_object_release_mmap_gtt st).

(** ** The registry of mapping records *)

(** The walk of [lookup_mmo] from a node of the tree. *)
Fixpoint lookup_walk (rb : rb_root) (t : i915_mmap_type)
  : option i915_mmap_offset :=
  match rb with
  | rb_nil => None
  | rb_node l mmo r =>
      if bool_decide (mmap_type mmo = t) then Some mmo
      else if mmap_type_val (mmap_type mmo) <? mmap_type_val t
           then lookup_walk r t
           else lookup_walk l t
  end.

(** [lookup_mmo] *)
Definition lookup_mmo (obj : drm_i915_gem_object) (t : i915_mmap_type)
  : option i915_mmap_offset :=
  lookup_walk (mmo_offsets obj) t.

(** The walk of [insert_mmo]: the tree afterwards and the record of the
    same kind that was met on the way down, if any. *)
Fixpoint insert_walk (p : rb_root) (mmo : i915_mmap_offset)
  : rb_root * option i915_mmap_offset :=
  match p with
  | rb_nil => (rb_node rb_nil mmo rb_nil, None)
  | rb_node l pos r =>
      if bool_decide (mmap_type pos = mmap_type mmo) then (p, Some pos)
      else if mmap_type_val (mmap_type pos) <? mmap_type_val (mmap_type mmo)
           then let '(r', found) := insert_walk r mmo in
                (rb_node l pos r', found)
           else let '(l', found) := insert_walk l mmo in
                (rb_node l' pos r, found)
  end.

(** The device-wide offset manager of the DRM core (drm_vma_manager.c)
    and the reclamation of the address space of dead objects
    ([intel_gt_retire_requests] on every gt, then
    [i915_gem_drain_freed_objects]), as an interface. *)
Class VmaManager (M : Type) : Type := {
  (** the return value, the manager afterwards and, on success (0), the
      start of the region *)
  drm_vma_offset_add : M -> Z -> Z * M * Z;
  drm_vma_offset_remove : M -> drm_vma_offset_node -> M;
  drain_freed_objects : M -> M
}.

(** What happens to the manager, in order. *)
Inductive mgr_event : Set :=
| MgrAdd (pages : Z) (ret : Z)
| MgrReap
| MgrRemove (start : Z).

(** The device-wide manager, the object with its registry, and the
    history of the manager. *)
Record world (M : Type) : Type := mk_world {
  w_mgr : M;
  w_obj : drm_i915_gem_object;
  w_log : list mgr_event
}.
Arguments mk_world {M}.
Arguments w_mgr {M}.
Arguments w_obj {M}.
Arguments w_log {M}.

(** [insert_mmo]: the record the registry holds for the kind afterwards.
    When a record of the kind is already linked, the new one is given up:
    its region goes back to the manager and the linked record is
    returned. *)
Definition insert_mmo `{VmaManager M} (w : world M) (mmo : i915_mmap_offset)
  : i915_mmap_offset * world M :=
  match insert_walk (mmo_offsets (w_obj w)) mmo with
  | (_, Some pos) =>
      (pos,
       mk_world (drm_vma_offset_remove (w_mgr w) (vma_node mmo)) (w_obj w)
                (w_log w ++ [MgrRemove (node_start (vma_node mmo))]))
  | (t, None) =>
      (mmo, mk_world (w_mgr w) (set_mmo_offsets (w_obj w) t) (w_log w))
  end.

(** [vma_node_allow_once]; [new_ok] tells whether its [kmalloc] gave
    memory. *)
Definition vma_node_allow_once (new_ok : bool) (node : drm_vma_offset_node)
    (tag : nat) : Z * drm_vma_offset_node :=
  if bool_decide (tag ∈ vm_files node) then (0, node)
  else if negb new_ok then (- ENOMEM, node)
  else (0, mk_node (node_start node) (node_pages node) (tag :: vm_files node)).

(** Storing through a pointer to a linked record: the record of the kind
    gets the node. *)
Fixpoint store_node (rb : rb_root) (t : i915_mmap_type)
    (node : drm_vma_offset_node) : rb_root :=
  match rb with
  | rb_nil => rb_nil
  | rb_node l mmo r =>
      if bool_decide (mmap_type mmo = t)
      then rb_node l (mk_mmo (mmo_obj mmo) t node) r
      else if mmap_type_val (mmap_type mmo) <? mmap_type_val t
           then rb_node l mmo (store_node r t node)
           else rb_node (store_node l t node) mmo r
  end.

(** The label [out] of [i915_gem_mmap_offset_attach], for a linked
    record [mmo]. The record is a pointer into the registry: its node is
    read from, and written to, the registry's record of that kind. *)
Definition attach_out {M} (new_ok : bool) (w : world M)
    (mmo : i915_mmap_offset) (file : option nat)
  : (Z + i915_mmap_offset) * world M :=
  match file with
  | None => (inr mmo, w)
  | Some tag =>
      let cur := default mmo (lookup_mmo (w_obj w) (mmap_type mmo)) in
      let '(err, node) := vma_node_allow_once new_ok (vma_node cur) tag in
      let w :=
        mk_world (w_mgr w)
          (set_mmo_offsets (w_obj w)
             (store_node (mmo_offsets (w_obj w)) (mmap_type mmo) node))
          (w_log w) in
      if negb (err =? 0) then (inl err, w)
      else (inr (mk_mmo (mmo_obj mmo) (mmap_type mmo) node), w)
  end.

(** [drm_vma_offset_add] on the world, with its trace. *)
Definition world_add `{VmaManager M} (w : world M) (pages : Z)
  : Z * world M * Z :=
  let '(err, mgr, start) := drm_vma_offset_add (w_mgr w) pages in
  (err, mk_world mgr (w_obj w) (w_log w ++ [MgrAdd pages err]), start).

Definition world_reap `{VmaManager M} (w : world M) : world M :=
  mk_world (drain_freed_objects (w_mgr w)) (w_obj w) (w_log w ++ [MgrReap]).

(** [i915_gem_mmap_offset_attach]: an ERR_PTR or the record. [mmo_ok] and
    [new_ok] tell whether the [kmalloc] of the record and the one of
    [vma_node_allow_once] gave memory. *)
Definition i915_gem_mmap_offset_attach `{VmaManager M} (mmo_ok new_ok : bool)
    (w : world M) (mmap_type : i915_mmap_type) (file : option nat)
  : (Z + i915_mmap_offset) * world M :=
  let obj := w_obj w in
  match lookup_mmo obj mmap_type with
  | Some mmo => attach_out new_ok w mmo file
  | None =>
      if negb mmo_ok then (inl (- ENOMEM), w)
      else
        let pages := base_size obj / PAGE_SIZE in
        let mmo start := mk_mmo (obj_id obj) mmap_type (mk_node start pages []) in
        let '(err, w, start) := world_add w pages in
        if err =? 0 then
          let '(mmo, w) := insert_mmo w (mmo start) in
          attach_out new_ok w mmo file
        else
          (* Attempt to reap some mmap space from dead objects *)
          let w := world_reap w in
          let '(err, w, start) := world_add w pages in
          if negb (err =? 0) then (inl err, w)
          else
            let '(mmo, w) := insert_mmo w (mmo start) in
            attach_out new_ok w mmo file
  end.

(** [__assign_mmap_offset], after its checks of the object: the offset
    handed to userspace. *)
Definition assign_offset (r : Z + i915_mmap_offset) : Z + Z :=
  match r with
  | inl err => inl err
  | inr mmo => inr (drm_vma_node_offset_addr (vma_node mmo))
  end.

(** The parts of what [drm_vma_offset_add] returns. *)
Definition add_err `{VmaManager M} (m : M) (pages : Z) : Z :=
  fst (fst (drm_vma_offset_add m pages)).
Definition add_mgr `{VmaManager M} (m : M) (pages : Z) : M :=
  snd (fst (drm_vma_offset_add m pages)).
Definition add_start `{VmaManager M} (m : M) (pages : Z) : Z :=
  snd (drm_vma_offset_add m pages).

(** The pages [i915_gem_mmap_offset_attach] asks the manager for. *)
Definition attach_pages (obj : drm_i915_gem_object) : Z :=
  base_size obj / PAGE_SIZE.

(** The manager when the allocation is retried: after the first attempt
    and the reclamation. *)
Definition reclaimed `{VmaManager M} (w : world M) : M :=
  drain_freed_objects (add_mgr (w_mgr w) (attach_pages (w_obj w))).

(** ** Concurrent callers of [i915_gem_mmap_offset_attach]

    Each caller is a thread; a step of a thread is one of the sections
    the source runs under a lock ([obj->mmo.lock] in [lookup_mmo] and
    [insert_mmo], the manager's lock in the DRM core, the node's lock in
    [vma_node_allow_once]) or a step on memory of its own. Steps of
    different threads interleave freely. *)

Inductive attach_pc : Set :=
| AtLookup                                (* mmo = lookup_mmo(obj, mmap_type) *)
| AtKmalloc                               (* mmo = kmalloc(...) *)
| AtAdd1                                  (* the first drm_vma_offset_add *)
| AtReap                                  (* retire requests, drain freed objects *)
| AtAdd2                                  (* the second drm_vma_offset_add *)
| AtInsert (mmo : i915_mmap_offset)       (* insert_mmo, under the lock *)
| AtDiscard (mmo pos : i915_mmap_offset)  (* insert_mmo, after the unlock *)
| AtAllow (mmo : i915_mmap_offset)        (* out: *)
| AtReturn (r : Z + i915_mmap_offset).

Record attach_thread : Set := mk_thread {
  th_type : i915_mmap_type;
  th_file : option nat;
  th_pc : attach_pc
}.

(** One step of a thread; [km] tells whether a [kmalloc] made in this
    step gives memory. *)
Definition attach_step `{VmaManager M} (km : bool) (th : attach_thread)
    (w : world M) : attach_pc * world M :=
  let obj := w_obj w in
  let pages := base_size obj / PAGE_SIZE in
  let mmo start := mk_mmo (obj_id obj) (th_type th) (mk_node start pages []) in
  match th_pc th with
  | AtLookup =>
      match lookup_mmo obj (th_type th) with
      | Some mmo => (AtAllow mmo, w)
      | None => (AtKmalloc, w)
      end
  | AtKmalloc =>
      if km then (AtAdd1, w) else (AtReturn (inl (- ENOMEM)), w)
  | AtAdd1 =>
      let '(err, w, start) := world_add w pages in
      if err =? 0 then (AtInsert (mmo start), w) else (AtReap, w)
  | AtReap => (AtAdd2, world_reap w)
  | AtAdd2 =>
      let '(err, w, start) := world_add w pages in
      if negb (err =? 0) then (AtReturn (inl err), w)
      else (AtInsert (mmo start), w)
  | AtInsert mmo =>
      match insert_walk (mmo_offsets obj) mmo with
      | (_, Some pos) => (AtDiscard mmo pos, w)
      | (t, None) =>
          (AtAllow mmo, mk_world (w_mgr w) (set_mmo_offsets obj t) (w_log w))
      end
  | AtDiscard mmo pos =>
      (AtAllow pos,
       mk_world (drm_vma_offset_remove (w_mgr w) (vma_node mmo)) obj
                (w_log w ++ [MgrRemove (node_start (vma_node mmo))]))
  | AtAllow mmo =>
      let '(r, w) := attach_out km w mmo (th_file th) in (AtReturn r, w)
  | AtReturn r => (AtReturn r, w)
  end.

Definition set_pc (th : attach_thread) (pc : attach_pc) : attach_thread :=
  mk_thread (th_type th) (th_file th) pc.

Definition returned (th : attach_thread) : bool :=
  match th_pc th with AtReturn _ => true | _ => false end.

(** An interleaving: any thread that has not returned takes its step. *)
Inductive attach_interleave `{VmaManager M}
  : world M * list attach_thread -> world M * list attach_thread -> Prop :=
| interleave_step (w w' : world M) (ths : list attach_thread) (i : nat)
    (th : attach_thread) (km : bool) (pc : attach_pc) :
    ths !! i = Some th ->
    returned th = false ->
    attach_step km th w = (pc, w') ->
    attach_interleave (w, ths) (w', <[i := set_pc th pc]> ths).

(** A thread running alone for [k] steps on the given [kmalloc]
    results. *)
Fixpoint attach_run `{VmaManager M} (k : nat) (km : attach_pc -> bool)
    (th : attach_thread) (w : world M) : attach_pc * world M :=
  match k with
  | O => (th_pc th, w)
  | S k =>
      let '(pc, w) := attach_step (km (th_pc th)) th w in
      attach_run k km (set_pc th pc) w
  end.

(** The configurations an interleaving reaches. *)
Inductive attach_reachable `{VmaManager M}
    (init : world M * list attach_thread)
  : world M * list attach_thread -> Prop :=
| reach_init : attach_reachable init init
| reach_step (c c' : world M * list attach_thread) :
    attach_reachable init c ->
    attach_interleave c c' ->
    attach_reachable init c'.

(** The registry holds a record of the kind [t] with the region of
    [mmo]. *)
Definition holds (obj : drm_i915_gem_object) (t : i915_mmap_type)
    (mmo : i915_mmap_offset) : Prop :=
  mmap_type mmo = t /\
  exists cur, lookup_mmo obj t = Some cur /\
              node_start (vma_node cur) = node_start (vma_node mmo).

(** What a thread knows at its program point: the record it is about to
    link is of its kind; a record it has adopted or returns is held by
    the registry. *)
Definition pc_linked (obj : drm_i915_gem_object) (th : attach_thread)
  : Prop :=
  match th_pc th with
  | AtInsert mmo => mmap_type mmo = th_type th
  | AtDiscard mmo pos => mmap_type mmo = th_type th /\ holds obj (th_type th) pos
  | AtAllow mmo => holds obj (th_type th) mmo
  | AtReturn (inr mmo) => holds obj (th_type th) mmo
  | _ => True
  end.

(** Records stay: a kind that is held keeps its region. *)
Definition registry_grows (obj obj' : drm_i915_gem_object) : Prop :=
  forall t cur,
    lookup_mmo obj t = Some cur ->
    exists cur', lookup_mmo obj' t = Some cur' /\
                 node_start (vma_node cur') = node_start (vma_node cur).

(** A schedule names, step by step, the thread that runs and the result
    of the [kmalloc] it may make; a thread that is not there or has
    returned is passed over. *)
Definition schedule_step `{VmaManager M} (c : world M * list attach_thread)
    (s : nat * bool) : world M * list attach_thread :=
  match snd c !! fst s with
  | Some th =>
      if returned th then c
      else (snd (attach_step (snd s) th (fst c)),
            <[fst s := set_pc th (fst (attach_step (snd s) th (fst c)))]>
              (snd c))
  | None => c
  end.

Definition run_schedule `{VmaManager M} (sched : list (nat * bool))
    (c : world M * list attach_thread) : world M * list attach_thread :=
  fold_left schedule_step sched c.

(** The [kmalloc] results of a caller running alone. *)
Definition km_of (mmo_ok new_ok : bool) (pc : attach_pc) : bool :=
  match pc with
  | AtKmalloc => mmo_ok
  | _ => new_ok
  end.

(** ** A registry is well formed when it is a search tree *)

Fixpoint rb_all (P : i915_mmap_offset -> Prop) (t : rb_root) : Prop :=
  match t with
  | rb_nil => True
  | rb_node l m r => rb_all P l /\ P m /\ rb_all P r
  end.

Fixpoint rb_ordered (t : rb_root) : Prop :=
  match t with
  | rb_nil => True
  | rb_node l m r =>
      rb_all (fun x => mmap_type_val (mmap_type x)
                       < mmap_type_val (mmap_type m)) l /\
      rb_all (fun x => mmap_type_val (mmap_type m)
                       < mmap_type_val (mmap_type x)) r /\
      rb_ordered l /\ rb_ordered r
  end.

(** The invariant of the interleavings. *)
Definition attach_inv {M} (c : world M * list attach_thread) : Prop :=
  rb_ordered (mmo_offsets (w_obj (fst c))) /\
  Forall (pc_linked (w_obj (fst c))) (snd c).

(** The records of a kind, counted over the whole tree. *)
Definition kind_count (t : rb_root) (k : i915_mmap_type) : nat :=
  length (filter (fun m => mmap_type m = k) (rb_postorder t)).

(** ** A manager to run the model on *)

(** Modelled from the spec: the GlobalAddressAllocator is a single offset
    space from which regions are carved in units of pages and which gets
    space back when objects pending destruction are reclaimed. Here it
    counts the free pages and the pages held by dead objects and hands
    out regions at increasing offsets; an allocation that does not fit
    fails with -ENOSPC, as [drm_mm_insert_node] does. *)
Record page_pool : Set := mk_pool {
  pool_next : Z;
  pool_free : Z;
  pool_dead : Z
}.

#[export] Instance page_pool_manager : VmaManager page_pool := {
  drm_vma_offset_add m pages :=
    if pages <=? pool_free m
    then (0, mk_pool (pool_next m + pages) (pool_free m - pages) (pool_dead m),
          pool_next m)
    else (- ENOSPC, m, 0);
  drm_vma_offset_remove m node :=
    mk_pool (pool_next m) (pool_free m + node_pages node) (pool_dead m);
  drain_freed_objects m :=
    mk_pool (pool_next m) (pool_free m + pool_dead m) 0
}.

(** ** Events that pin, bind or map *)

(** The steps of a fault handler that pin pages, migrate or bind the
    object, take a fence or write page-table entries. *)
Definition touches_pages (e : event) : bool :=
  match e with
  | EvPinPages | EvGgttPin _ _ | EvPinFence | EvMigrate
  | EvRemapIoMapping _ _ _ | EvRemapIoSg _ _ _ _ => true
  | _ => false
  end.

(** [st'] is [st] with the events [evs] added to its trace, the object
    and the revocation list being the same. *)
Definition only_logs (st st' : fault_state) (evs : list event) : Prop :=
  fs_obj st' = fs_obj st /\
  userfault_list st' = userfault_list st /\
  fs_warn st' = fs_warn st /\
  fs_trace st' = fs_trace st ++ evs.

(** The error the migration step of pass [n] sees: -EFAULT for pinned
    pages, the result of the migration otherwise. *)
Definition migrate_error (env : fault_env) (pg : drm_i915_gem_object)
    (n : nat) : Z :=
  if has_pinned_pages pg then - EFAULT else migrate_to_smem env n.

(** The object the first pass of the direct handler faults on. *)
Definition first_target (env : fault_env) (cfg : i915_config)
    (i915 : drm_i915_private) (vmf : vm_fault) (obj : drm_i915_gem_object)
  : drm_i915_gem_object :=
  snd (use_swapto cfg i915 (create_shmem env 0) obj (area_write (vmf_vma vmf))).

(** [st'] continues the trace of [st]. *)
Definition extends (st st' : fault_state) : Prop :=
  exists evs, fs_trace st' = fs_trace st ++ evs.

(** ** Example data *)

Definition blank_region : intel_memory_region := mk_region 0 false 0 0.

(** An untiled, writable system-memory object without mappings. *)
Definition blank_object (id : nat) (size : Z) : drm_i915_gem_object :=
  mk_obj id size id 0 false false 0 true false true false false
         I915_MADV_WILLNEED blank_region None 0 [] rb_nil
         false false None 0.

(** A tiled object of the given size with the given tile row size, both
    in bytes. *)
Definition tiled_object (size row : Z) : drm_i915_gem_object :=
  mk_obj 1 size 1 0 false true row true false true false false
         I915_MADV_WILLNEED blank_region None 0 [] rb_nil
         false false None 0.

(** 4096 pages with tile rows of 64 pages. *)
Definition scenario_object : drm_i915_gem_object :=
  tiled_object (4096 * 4096) (64 * 4096).

(** 2^32 + 5 pages. *)
Definition huge_object : drm_i915_gem_object :=
  blank_object 1 ((2 ^ 32 + 5) * 4096).

(** A device-local object without resident pages whose home region has
    [free] bytes available. *)
Definition lmem_object (size free : Z) : drm_i915_gem_object :=
  mk_obj 1 size 1 0 false false 0 true true false false false
         I915_MADV_WILLNEED (mk_region free false 0 0) None 0 [] rb_nil
         false false None 0.

Definition swap_config : i915_config := mk_config true true 250 1.
Definition plain_device : drm_i915_private := mk_i915 false true false 0.

(** An object with a userfault count of 2: three vmas, two of them
    marked, and the object on the revocation list. *)
Definition marked_vma (start : Z) (b : bool) : i915_vma :=
  mk_vma (mk_view I915_GGTT_VIEW_PARTIAL start 256) (256 * 4096) 0 b false
         (Some 1024).

Definition twice_faulted : fault_state :=
  mk_fs (mk_obj 5 (4096 * 4096) 5 0 false true (64 * 4096) true false true
                true true I915_MADV_WILLNEED blank_region None 2
                [marked_vma 0 true; marked_vma 256 false; marked_vma 512 true]
                rb_nil false false None 0)
        [3; 5; 8]%nat 0 warn_init [].

(** A registry holding an Aperture record, a write-combined one and a
    write-back one, and an object that owns it. *)
Definition record_of (t : i915_mmap_type) (start : Z) : i915_mmap_offset :=
  mk_mmo 1 t (mk_node start 16 []).

Definition three_kinds : rb_root :=
  rb_node (rb_node rb_nil (record_of I915_MMAP_TYPE_GTT 1024) rb_nil)
          (record_of I915_MMAP_TYPE_WC 2048)
          (rb_node rb_nil (record_of I915_MMAP_TYPE_WB 4096) rb_nil).

Definition mapped_object : drm_i915_gem_object :=
  set_mmo_offsets (blank_object 1 (16 * 4096)) three_kinds.

(** A read-only object, a writable mapping of it and a fault in it. *)
Definition readonly_object : drm_i915_gem_object :=
  mk_obj 2 (16 * 4096) 2 0 true false 0 true false true false false
         I915_MADV_WILLNEED blank_region None 0 [] rb_nil
         false false None 0.

Definition writable_area : vm_area_struct :=
  mk_area 65536 (65536 + 16 * 4096) 1024 (Z.lor 1 VM_WRITE)
          (record_of I915_MMAP_TYPE_GTT 1024).

Definition write_fault : vm_fault := mk_vmf writable_area (65536 + 4096).

Definition readonly_state : fault_state :=
  mk_fs readonly_object [] 0 warn_init [].

(** Collaborators that always succeed: every lock is taken at once,
    nothing needs migrating, binding gives the first vma. *)
Definition calm_env : fault_env :=
  mk_env (fun _ => 0) (fun _ => 0) (fun _ => 0) (fun _ => 0)
         (fun _ _ => inr 0%nat) (fun _ => 0) (fun _ => 0)
         (fun _ => None) (fun _ => inl (- ENOMEM))
         (fun _ => (false, false)) (fun _ => 0) (fun _ => 0).

(** The same, but the wait for the object's lock is interrupted. *)
Definition interrupted_env : fault_env :=
  mk_env (fun _ => - EINTR) (fun _ => 0) (fun _ => 0) (fun _ => 0)
         (fun _ _ => inr 0%nat) (fun _ => 0) (fun _ => 0)
         (fun _ => None) (fun _ => inl (- ENOMEM))
         (fun _ => (false, false)) (fun _ => 0) (fun _ => 0).

(** A device-local object whose pages are pinned, mapped writable. *)
Definition pinned_object : drm_i915_gem_object :=
  mk_obj 4 (16 * 4096) 4 0 false false 0 true true false true true
         I915_MADV_WILLNEED (mk_region (2 ^ 30) false 0 0) None 0 [] rb_nil
         false false None 0.

Definition pinned_state : fault_state :=
  mk_fs pinned_object [] 0 warn_init [].

(** The same object with its pages not pinned. *)
Definition unpinned_object : drm_i915_gem_object :=
  mk_obj 4 (16 * 4096) 4 0 false false 0 true true false true false
         I915_MADV_WILLNEED (mk_region (2 ^ 30) false 0 0) None 0 [] rb_nil
         false false None 0.

Definition unpinned_state : fault_state :=
  mk_fs unpinned_object [] 0 warn_init [].

(** Migration is required by an atomic hint. *)
Definition required_env : fault_env :=
  mk_env (fun _ => 0) (fun _ => 0) (fun _ => 0) (fun _ => 0)
         (fun _ _ => inr 0%nat) (fun _ => 0) (fun _ => 0)
         (fun _ => None) (fun _ => inl (- ENOMEM))
         (fun _ => (true, true)) (fun _ => 0) (fun _ => 0).

(** Migration is optional and fails for lack of space. *)
Definition optional_env : fault_env :=
  mk_env (fun _ => 0) (fun _ => 0) (fun _ => 0) (fun _ => 0)
         (fun _ _ => inr 0%nat) (fun _ => 0) (fun _ => 0)
         (fun _ => None) (fun _ => inl (- ENOMEM))
         (fun _ => (true, false)) (fun _ => - ENOSPC) (fun _ => 0).

(** Migration is optional and is told to back off; the back-off is then
    interrupted. *)
Definition deadlock_env : fault_env :=
  mk_env (fun _ => 0) (fun _ => - EINTR) (fun _ => 0) (fun _ => 0)
         (fun _ _ => inr 0%nat) (fun _ => 0) (fun _ => 0)
         (fun _ => None) (fun _ => inl (- ENOMEM))
         (fun _ => (true, false)) (fun _ => - EDEADLK) (fun _ => 0).

(** An object of 16 pages without mapping records, in worlds whose
    offset space is used up: one where dead objects hold 16 pages, one
    where they hold 4. *)
Definition reclaimable_world : world page_pool :=
  mk_world (mk_pool 4096 0 16) (blank_object 1 (16 * 4096)) [].

Definition exhausted_world : world page_pool :=
  mk_world (mk_pool 4096 0 4) (blank_object 1 (16 * 4096)) [].

(** Two callers asking for a write-back mapping of one object race:
    both miss in the lookup and allocate a region, the first links its
    record, the second meets it. *)
Definition race_world : world page_pool :=
  mk_world (mk_pool 4096 64 0) (blank_object 1 (16 * 4096)) [].

Definition race_threads : list attach_thread :=
  [mk_thread I915_MMAP_TYPE_WB (Some 7%nat) AtLookup;
   mk_thread I915_MMAP_TYPE_WB (Some 9%nat) AtLookup].

Definition race_schedule : list (nat * bool) :=
  [(0, true); (1, true);        (* both look up and miss *)
   (0, true); (1, true);        (* both get memory for a record *)
   (0, true); (1, true);        (* both get a region *)
   (0, true);                   (* the first links its record *)
   (1, true); (1, true);        (* the second meets it and gives up its own *)
   (0, true); (1, true)]%nat.   (* both are put on the allow-list *)

(** ** Frames of the fault handlers *)

(** What the locking transaction of the direct handler leaves alone: the
    count of active handlers, and the wake-up of those who wait for it. *)
Definition body_frame (st st' : fault_state) : Prop :=
  active_fault_handlers st' = active_fault_handlers st /\
  exists evs, fs_trace st' = fs_trace st ++ evs /\
              Forall (fun e => e <> EvWakeUp) evs.

#[export] Instance i915_ggtt_view_type_eq_dec : EqDecision i915_ggtt_view_type.
Proof. solve_decision. Defined.

#[export] Instance i915_ggtt_view_eq_dec : EqDecision i915_ggtt_view.
Proof. solve_decision. Defined.

#[export] Instance pin_flag_eq_dec : EqDecision pin_flag.
Proof. solve_decision. Defined.

#[export] Instance event_eq_dec : EqDecision event.
Proof. solve_decision. Defined.

(** How often an event occurs in a trace. *)
Definition occurrences (e : event) (evs : list event) : nat :=
  length (filter (fun x => x = e) evs).

(** An aperture fault changes the userfault bookkeeping of the object,
    the count and the vmas, and nothing else of it. *)
Definition bookkeeping_only (obj obj' : drm_i915_gem_object) : Prop :=
  obj' = set_userfault obj (userfault_count obj') (ggtt_vmas obj') /\
  length (ggtt_vmas obj') = length (ggtt_vmas obj).

(** The bookkeeping of [vm_fault_gtt] as a whole: the count is the number
    of marked vmas, and the object is on the device-wide revocation list
    exactly while the count is positive. *)
Definition userfault_listed (st : fault_state) : Prop :=
  userfault_tracked (fs_obj st) /\
  (0 < userfault_count (fs_obj st) <-> obj_id (fs_obj st) ∈ userfault_list st).

(** What a fault adds to the books of revocation: marks and counts go
    up, the other objects on the list are left alone. *)
Definition userfault_step (st st' : fault_state) : Prop :=
  bookkeeping_only (fs_obj st) (fs_obj st') /\
  userfault_count (fs_obj st) <= userfault_count (fs_obj st') /\
  forall o, o <> obj_id (fs_obj st) ->
            o ∈ userfault_list st' <-> o ∈ userfault_list st.

(** The vma of a served fault after [vm_fault_gtt] has marked it: faulted
    into userspace, tied to the mapping record of the area, and written
    through when the area is writable. *)
Definition served_vma (vmf : vm_fault) (vma : i915_vma) : i915_vma :=
  set_vma_mmo_write (set_vma_userfault vma true)
    (Some (node_start (vma_node (vm_private_data (vmf_vma vmf)))))
    (area_write (vmf_vma vmf) || vma_ggtt_write vma).

(** The steps that put an object behind the aperture in front of
    userspace. *)
Definition maps_aperture (e : event) : bool :=
  match e with
  | EvPinFence | EvRemapIoMapping _ _ _ | EvWakerefAuto => true
  | _ => false
  end.

(** ** Requests for an offset *)

(** include/uapi/asm-generic/errno-base.h *)
Definition ENOENT : Z := 2.

(** include/uapi/drm/i915_drm.h: the flag of the legacy mmap ioctl and
    the kinds of the offset ioctl. *)
Definition I915_MMAP_WC : Z := 1.
Definition I915_MMAP_OFFSET_GTT : Z := 0.
Definition I915_MMAP_OFFSET_WC : Z := 1.
Definition I915_MMAP_OFFSET_WB : Z := 2.
Definition I915_MMAP_OFFSET_UC : Z := 3.

(** What the requests and the mmap path read of an object beyond
    [drm_i915_gem_object]: the hooks of [obj->ops], attributes behind the
    inline helpers of i915_gem_object.h, and what the debug message of
    [__assign_mmap_offset] looks at. *)
Record mmap_object : Set := mk_mmap_object {
  never_mmap : bool;            (* i915_gem_object_never_mmap *)
  ops_mmap_offset : option Z;   (* obj->ops->mmap_offset, by what it returns *)
  ops_mmap_ops : option nat;    (* obj->ops->mmap_ops, a table of the backend *)
  type_has_iomem : bool;        (* i915_gem_object_type_has(obj,
                                   I915_GEM_OBJECT_HAS_IOMEM) *)
  has_iomem : bool;             (* i915_gem_object_has_iomem *)
  level4_wa_active : bool;      (* i915_is_level4_wa_active(mem->gt) *)
  migrate_smem : bool;          (* i915_gem_object_should_migrate_smem(obj, NULL) *)
  mem_instance : Z              (* obj->mm.region.mem->instance *)
}.

(** What the requests read of the device. *)
Record mmap_device : Set := mk_mmap_device {
  pat_enabled : bool;           (* pat_enabled() *)
  ggtt_has_aperture : bool;     (* i915_ggtt_has_aperture(to_gt(i915)->ggtt) *)
  GRAPHICS_VER : Z;
  drm_dev_is_unplugged : bool;
  pci_resource_start_0 : Z;     (* pci_resource_start(pdev, 0) *)
  BARRIER_MMAP_PGOFF : Z        (* PRELIM_I915_PCI_BARRIER_MMAP_OFFSET
                                   >> PAGE_SHIFT *)
}.

(** What a request does besides the registry and the manager. *)
Inductive ioctl_event : Set :=
| IoLookup (handle : Z)         (* i915_gem_object_lookup(file, handle) *)
| IoPut                         (* i915_gem_object_put(obj) *)
| IoDbgLmem1                    (* drm_dbg: trying to mmap lmem1 under L4wa *)
| IoVmMmap (size offset : Z).   (* vm_mmap(file->filp, 0, size,
                                   PROT_READ | PROT_WRITE, MAP_SHARED,
                                   offset) *)

Record ioctl_state (M : Type) : Type := mk_ioctl {
  io_world : world M;
  io_trace : list ioctl_event
}.
Arguments mk_ioctl {M}.
Arguments io_world {M}.
Arguments io_trace {M}.

Definition io_log {M} (s : ioctl_state M) (evs : list ioctl_event)
  : ioctl_state M :=
  mk_ioctl (io_world s) (io_trace s ++ evs).

(** The collaborators of a request: the extension chain, the range check
    and the mmap it ends in; whether the two allocations find memory. *)
Record ioctl_env : Type := mk_ioctl_env {
  i915_user_extensions : Z -> Z;       (* by the user pointer *)
  range_overflows : Z -> Z -> Z -> bool; (* i915_utils.h, on u64 *)
  vm_mmap : Z -> Z -> Z + Z;           (* by size and offset: an error
                                          value or the address *)
  kmalloc_mmo : bool;
  kmalloc_file : bool
}.

(** [__assign_mmap_offset]: an error or the offset stored through
    [offset]. *)
Definition __assign_mmap_offset `{VmaManager M} (env : ioctl_env)
    (ops : mmap_object) (s : ioctl_state M) (mmap_type : i915_mmap_type)
    (file : nat) : (Z + Z) * ioctl_state M :=
  let obj := w_obj (io_world s) in
  if never_mmap ops then (inl (- ENODEV), s)
  else
    match ops_mmap_offset ops with
    | Some offset => (inr offset, s)
    | None =>
        if negb (bool_decide (mmap_type = I915_MMAP_TYPE_GTT)) &&
           negb (has_struct_page obj) && negb (type_has_iomem ops)
        then (inl (- ENODEV), s)
        else
          let s :=
            if is_lmem obj && level4_wa_active ops &&
               negb (migrate_smem ops) && (0 <? mem_instance ops)
            then io_log s [IoDbgLmem1] else s in
          let '(mmo, w) :=
            i915_gem_mmap_offset_attach (kmalloc_mmo env) (kmalloc_file env)
              (io_world s) mmap_type (Some file) in
          (assign_offset mmo, mk_ioctl w (io_trace s))
    end.

(** [__assign_mmap_offset_handle]; [found] is what the handle names for
    the file, if anything. *)
Definition __assign_mmap_offset_handle `{VmaManager M} (env : ioctl_env)
    (found : option mmap_object) (s : ioctl_state M) (file : nat)
    (handle : Z) (mmap_type : i915_mmap_type) : (Z + Z) * ioctl_state M :=
  let s := io_log s [IoLookup handle] in
  match found with
  | None => (inl (- ENOENT), s)
  | Some ops =>
      let '(err, s) := __assign_mmap_offset env ops s mmap_type file in
      (err, io_log s [IoPut])
  end.

(** [i915_gem_dumb_mmap_offset] *)
Definition i915_gem_dumb_mmap_offset `{VmaManager M} (env : ioctl_env)
    (dev : mmap_device) (found : option mmap_object) (s : ioctl_state M)
    (file : nat) (handle : Z) : (Z + Z) * ioctl_state M :=
  if pat_enabled dev
  then __assign_mmap_offset_handle env found s file handle I915_MMAP_TYPE_WC
  else if negb (ggtt_has_aperture dev) then (inl (- ENODEV), s)
  else __assign_mmap_offset_handle env found s file handle I915_MMAP_TYPE_GTT.

(** [struct drm_i915_gem_mmap_offset] *)
Record drm_i915_gem_mmap_offset : Set := mk_mmap_offset_args {
  mo_handle : Z;
  mo_pad : Z;
  mo_offset : Z;
  mo_flags : Z;
  mo_extensions : Z
}.

(** The [switch] of [i915_gem_mmap_offset_ioctl]: the kind asked for, or
    the error. *)
Definition mmap_offset_type (dev : mmap_device) (flags : Z)
  : Z + i915_mmap_type :=
  if flags =? I915_MMAP_OFFSET_GTT then
    if negb (ggtt_has_aperture dev) then inl (- ENODEV)
    else inr I915_MMAP_TYPE_GTT
  else if flags =? I915_MMAP_OFFSET_WC then
    if negb (pat_enabled dev) then inl (- ENODEV) else inr I915_MMAP_TYPE_WC
  else if flags =? I915_MMAP_OFFSET_WB then inr I915_MMAP_TYPE_WB
  else if flags =? I915_MMAP_OFFSET_UC then
    if negb (pat_enabled dev) then inl (- ENODEV) else inr I915_MMAP_TYPE_UC
  else inl (- EINVAL).

(** [i915_gem_mmap_offset_ioctl]: the return value and the arguments as
    userspace gets them back. *)
Definition i915_gem_mmap_offset_ioctl `{VmaManager M} (env : ioctl_env)
    (dev : mmap_device) (found : option mmap_object) (s : ioctl_state M)
    (file : nat) (args : drm_i915_gem_mmap_offset)
  : Z * drm_i915_gem_mmap_offset * ioctl_state M :=
  let err := i915_user_extensions env (mo_extensions args) in
  if negb (err =? 0) then (err, args, s)
  else
    match mmap_offset_type dev (mo_flags args) with
    | inl err => (err, args, s)
    | inr type =>
        match __assign_mmap_offset_handle env found s file (mo_handle args)
                type with
        | (inl err, s) => (err, args, s)
        | (inr offset, s) =>
            (0, mk_mmap_offset_args (mo_handle args) (mo_pad args) offset
                  (mo_flags args) (mo_extensions args), s)
        end
    end.

(** [struct drm_i915_gem_mmap] *)
Record drm_i915_gem_mmap : Set := mk_mmap_args {
  mm_handle : Z;
  mm_offset : Z;
  mm_size : Z;
  mm_addr_ptr : Z;
  mm_flags : Z
}.

(** [i915_gem_mmap_ioctl] *)
Definition i915_gem_mmap_ioctl `{VmaManager M} (env : ioctl_env)
    (dev : mmap_device) (found : option mmap_object) (s : ioctl_state M)
    (file : nat) (args : drm_i915_gem_mmap)
  : Z * drm_i915_gem_mmap * ioctl_state M :=
  if negb (Z.land (mm_flags args) (u64 (Z.lnot I915_MMAP_WC)) =? 0)
  then (- EINVAL, args, s)
  else if negb (Z.land (mm_flags args) I915_MMAP_WC =? 0) &&
          negb (pat_enabled dev)
  then (- ENODEV, args, s)
  else
    let s := io_log s [IoLookup (mm_handle args)] in
    match found with
    | None => (- ENOENT, args, s)
    | Some ops =>
        let obj := w_obj (io_world s) in
        if range_overflows env (mm_offset args) (mm_size args)
                           (u64 (base_size obj))
        then (- EINVAL, args, io_log s [IoPut])
        else
          let mmap_type :=
            if negb (Z.land (mm_flags args) I915_MMAP_WC =? 0)
            then I915_MMAP_TYPE_WC else I915_MMAP_TYPE_WB in
          match __assign_mmap_offset env ops s mmap_type file with
          | (inl err, s) => (err, args, io_log s [IoPut])
          | (inr offset, s) =>
              let map_offset := u64 (offset + mm_offset args) in
              let s := io_log s [IoVmMmap (mm_size args) map_offset] in
              match vm_mmap env (mm_size args) map_offset with
              | inl err => (err, args, io_log s [IoPut])
              | inr addr =>
                  (0, mk_mmap_args (mm_handle args) (mm_offset args)
                        (mm_size args) (u64 addr) (mm_flags args),
                   io_log s [IoPut])
              end
          end
    end.

(** The kinds a device can serve: the aperture kind needs a mappable
    aperture, the write-combined and the uncached kind need PAT. *)
Definition kind_supported (dev : mmap_device) (t : i915_mmap_type) : bool :=
  match t with
  | I915_MMAP_TYPE_GTT => ggtt_has_aperture dev
  | I915_MMAP_TYPE_WC | I915_MMAP_TYPE_UC => pat_enabled dev
  | I915_MMAP_TYPE_WB => true
  end.

(** The events of a request that took a reference on the object: the
    lookup first, the put last, and neither in between. *)
Definition reference_bracket (handle : Z) (evs : list ioctl_event) : Prop :=
  exists mid,
    evs = IoLookup handle :: mid ++ [IoPut] /\
    Forall (fun e => e <> IoPut /\ forall h, e <> IoLookup h) mid.

(** ** The mmap path *)

(** include/linux/mm.h; [VM_WRITE] is defined with the faults. *)
Definition VM_READ : Z := 1.
Definition VM_EXEC : Z := 4.
Definition VM_MAYREAD : Z := 16.
Definition VM_MAYWRITE : Z := 32.
Definition VM_MAYEXEC : Z := 64.
Definition VM_PFNMAP : Z := 1024.
Definition VM_IO : Z := 16384.
Definition VM_DONTEXPAND : Z := 262144.
Definition VM_DONTDUMP : Z := 67108864.

(** [pgprot_t], by how it was made. *)
Inductive pgprot_t : Set :=
| prot_of_mm                        (* what the mm core had put there *)
| vm_get_page_prot (flags : Z)
| pgprot_writecombine (prot : pgprot_t)
| pgprot_noncached (prot : pgprot_t)
| pgprot_decrypted (prot : pgprot_t).

(** The tables [vma->vm_ops] can point to. *)
Inductive vm_operations_struct : Set :=
| vm_ops_gtt
| vm_ops_cpu
| vm_ops_barrier
| mmap_ops_of_backend (table : nat).   (* obj->ops->mmap_ops *)

(** What [vma->vm_private_data] can point to. *)
Inductive private_data : Set :=
| private_none
| private_mmo (mmo : i915_mmap_offset)
| private_dev.

(** [struct vm_area_struct] as [mmap] sees it: the private data, the
    operations, the protection and the file are still to be set. *)
Record mmap_vma : Set := mk_mmap_vma {
  mv_start : Z;                 (* vm_start *)
  mv_end : Z;                   (* vm_end *)
  mv_pgoff : Z;                 (* vm_pgoff *)
  mv_flags : Z;                 (* vm_flags, an unsigned long *)
  mv_private : private_data;    (* vm_private_data *)
  mv_page_prot : pgprot_t;      (* vm_page_prot *)
  mv_ops : option vm_operations_struct;  (* vm_ops *)
  mv_file : nat                 (* vm_file *)
}.

Definition set_mv_flags (vma : mmap_vma) (flags : Z) : mmap_vma :=
  mk_mmap_vma (mv_start vma) (mv_end vma) (mv_pgoff vma) flags
              (mv_private vma) (mv_page_prot vma) (mv_ops vma) (mv_file vma).

(** The area a fault handler is given, once the private data is a
    mapping record. *)
Definition fault_area (vma : mmap_vma) : option vm_area_struct :=
  match mv_private vma with
  | private_mmo mmo =>
      Some (mk_area (mv_start vma) (mv_end vma) (mv_pgoff vma) (mv_flags vma)
                    mmo)
  | _ => None
  end.

(** What the mmap path does to its collaborators, in program order. *)
Inductive mmap_event : Set :=
| MmGetFileRcu (file : nat) (ok : bool)
| MmAnonGetfile
| MmShareMapping (file : nat)   (* file->f_mapping =
                                   i915->drm.anon_inode->i_mapping *)
| MmDevGet                      (* drm_dev_get *)
| MmDevPut                      (* drm_dev_put *)
| MmDisallowRc6                 (* pvc_wa_disallow_rc6 *)
| MmAllowRc6                    (* pvc_wa_allow_rc6 *)
| MmVmaSetFile (file : nat)
| MmFput (file : nat)
| MmObjGet                      (* i915_gem_object_get *)
| MmObjGetRcu (ok : bool)       (* i915_gem_object_get_rcu *)
| MmObjPut                      (* i915_gem_object_put *)
| MmInsertPfn (addr pfn : Z) (prot : pgprot_t).

#[export] Instance pgprot_t_eq_dec : EqDecision pgprot_t.
Proof. solve_decision. Defined.

#[export] Instance mmap_event_eq_dec : EqDecision mmap_event.
Proof. solve_decision. Defined.

Record mmap_state : Set := mk_mmap_state {
  gem_mmap_singleton : option nat;  (* i915->gem.mmap_singleton *)
  mm_trace : list mmap_event
}.

Definition mm_log (s : mmap_state) (evs : list mmap_event) : mmap_state :=
  mk_mmap_state (gem_mmap_singleton s) (mm_trace s ++ evs).

Definition set_singleton (s : mmap_state) (file : option nat) : mmap_state :=
  mk_mmap_state file (mm_trace s).

(** [vm_open] *)
Definition vm_open (s : mmap_state) : mmap_state :=
  mm_log s [MmDisallowRc6; MmObjGet].

(** [vm_close] *)
Definition vm_close (s : mmap_state) : mmap_state :=
  mm_log s [MmAllowRc6; MmObjPut].

(** [singleton_release], the [release] of the anonymous file [file]. *)
Definition singleton_release (file : nat) (s : mmap_state)
  : Z * mmap_state :=
  let s :=
    if bool_decide (gem_mmap_singleton s = Some file)
    then set_singleton s None else s in
  (0, mm_log s [MmDevPut]).

(** [mmap_singleton]: an ERR_PTR or the file. [got] is what
    [get_file_rcu] returns and [anon] what [anon_inode_getfile] returns,
    should they be called. *)
Definition mmap_singleton (got : bool) (anon : Z + nat) (s : mmap_state)
  : (Z + nat) * mmap_state :=
  let '(file, s) :=
    match gem_mmap_singleton s with
    | Some file =>
        (if got then Some file else None, mm_log s [MmGetFileRcu file got])
    | None => (None, s)
    end in
  match file with
  | Some file => (inr file, s)
  | None =>
      let s := mm_log s [MmAnonGetfile] in
      match anon with
      | inl err => (inl err, s)
      | inr file =>
          (* Everyone shares a single global address space *)
          let s := mm_log s [MmShareMapping file] in
          let s := set_singleton s (Some file) in
          (inr file, mm_log s [MmDevGet])
      end
  end.

(** [i915_gem_update_vma_info]: the return value and the vma
    afterwards. *)
Definition i915_gem_update_vma_info (got : bool) (anon : Z + nat)
    (obj : drm_i915_gem_object) (ops : mmap_object) (mmo : i915_mmap_offset)
    (vma : mmap_vma) (s : mmap_state) : Z * mmap_vma * mmap_state :=
  if readonly obj && negb (Z.land (mv_flags vma) VM_WRITE =? 0)
  then (- EINVAL, vma, s)
  else
    let vma :=
      if readonly obj
      then set_mv_flags vma (Z.land (mv_flags vma) (u64 (Z.lnot VM_MAYWRITE)))
      else vma in
    match mmap_singleton got anon s with
    | (inl err, s) => (err, vma, s)
    | (inr anon, s) =>
        let s := mm_log s [MmDisallowRc6] in
        let flags :=
          Z.lor (mv_flags vma)
                (Z.lor (Z.lor VM_PFNMAP VM_DONTEXPAND) VM_DONTDUMP) in
        let flags := if has_iomem ops then Z.lor flags VM_IO else flags in
        let pgoff := drm_vma_node_start (vma_node mmo) in
        (* Drop the initial creation reference, the vma is now holding
           one. *)
        let s := mm_log s [MmVmaSetFile anon; MmFput anon] in
        let set prot table :=
          mk_mmap_vma (mv_start vma) (mv_end vma) pgoff flags
                      (private_mmo mmo) prot (Some table) anon in
        match ops_mmap_ops ops with
        | Some table =>
            (0, set (pgprot_decrypted (vm_get_page_prot flags))
                    (mmap_ops_of_backend table), s)
        | None =>
            let '(prot, table) :=
              match mmap_type mmo with
              | I915_MMAP_TYPE_WC =>
                  (pgprot_writecombine (vm_get_page_prot flags), vm_ops_cpu)
              | I915_MMAP_TYPE_WB => (vm_get_page_prot flags, vm_ops_cpu)
              | I915_MMAP_TYPE_UC =>
                  (pgprot_noncached (vm_get_page_prot flags), vm_ops_cpu)
              | I915_MMAP_TYPE_GTT =>
                  (pgprot_writecombine (vm_get_page_prot flags), vm_ops_gtt)
              end in
            (0, set (pgprot_decrypted prot) table, s)
        end
    end.

(** The collaborators of [mmap] on the device file. *)
Record mmap_env : Type := mk_mmap_env {
  is_cow_mapping : Z -> bool;          (* mm.h, by the flags *)
  vmf_insert_pfn_prot : Z -> Z -> pgprot_t -> vm_fault_t;
  drm_vma_offset_exact_lookup_locked : Z -> Z -> option i915_mmap_offset;
                                       (* by start and pages: the record
                                          that holds the node *)
  get_file_rcu : bool;
  anon_inode_getfile : Z + nat;
  i915_gem_object_get_rcu : bool       (* the object is not yet on its way
                                          to be freed *)
}.

Definition LAST_DB_PAGE_OFFSET : Z := 0x7ff001.

(** [PHYS_PFN], include/linux/pfn.h *)
Definition PHYS_PFN (x : Z) : Z := Z.shiftr (u64 x) PAGE_SHIFT.

(** [i915_pci_barrier_mmap] *)
Definition i915_pci_barrier_mmap (env : mmap_env) (dev : mmap_device)
    (vma : mmap_vma) (s : mmap_state) : Z * mmap_vma * mmap_state :=
  if GRAPHICS_VER dev <? 12 then (- ENODEV, vma, s)
  else if PAGE_SIZE <? u64 (mv_end vma - mv_start vma)
  then (- EINVAL, vma, s)
  else if is_cow_mapping env (mv_flags vma) then (- EINVAL, vma, s)
  else if negb (Z.land (mv_flags vma) (Z.lor VM_READ VM_EXEC) =? 0)
  then (- EINVAL, vma, s)
  else
    let flags :=
      Z.land (mv_flags vma) (u64 (Z.lnot (Z.lor VM_MAYREAD VM_MAYEXEC))) in
    let flags :=
      Z.lor flags
            (Z.lor (Z.lor (Z.lor VM_PFNMAP VM_DONTEXPAND) VM_DONTDUMP)
                   VM_IO) in
    let vma := set_mv_flags vma flags in
    let prot := vm_get_page_prot flags in
    let pfn := PHYS_PFN (pci_resource_start_0 dev + LAST_DB_PAGE_OFFSET) in
    let s := mm_log s [MmInsertPfn (mv_start vma) pfn
                                   (pgprot_noncached prot)] in
    match vmf_insert_pfn_prot env (mv_start vma) pfn (pgprot_noncached prot)
    with
    | VM_FAULT_NOPAGE =>
        (0, mk_mmap_vma (mv_start vma) (mv_end vma) (mv_pgoff vma) flags
                        private_dev (mv_page_prot vma) (Some vm_ops_barrier)
                        (mv_file vma),
         mm_log s [MmDevGet])
    | _ => (- EFAULT, vma, s)
    end.

(** [barrier_open] and [barrier_close] *)
Definition barrier_open (s : mmap_state) : mmap_state := mm_log s [MmDevGet].
Definition barrier_close (s : mmap_state) : mmap_state := mm_log s [MmDevPut].

(** [vma_pages], include/linux/mm.h *)
Definition vma_pages (vma : mmap_vma) : Z :=
  Z.shiftr (u64 (mv_end vma - mv_start vma)) PAGE_SHIFT.

(** [i915_gem_mmap] by the file [priv]; [obj] and [ops] are the object
    of the record the lookup finds. *)
Definition i915_gem_mmap (env : mmap_env) (dev : mmap_device) (priv : nat)
    (obj : drm_i915_gem_object) (ops : mmap_object) (vma : mmap_vma)
    (s : mmap_state) : Z * mmap_vma * mmap_state :=
  if drm_dev_is_unplugged dev then (- ENODEV, vma, s)
  else if mv_pgoff vma =? BARRIER_MMAP_PGOFF dev
  then i915_pci_barrier_mmap env dev vma s
  else
    let node :=
      drm_vma_offset_exact_lookup_locked env (mv_pgoff vma) (vma_pages vma) in
    let '(held, s) :=
      match node with
      | Some mmo =>
          if bool_decide (priv ∈ vm_files (vma_node mmo))
          then
            (* Skip 0-refcnted objects as it is in the process of being
               destroyed *)
            (if i915_gem_object_get_rcu env then Some mmo else None,
             mm_log s [MmObjGetRcu (i915_gem_object_get_rcu env)])
          else (None, s)
      | None => (None, s)
      end in
    match held with
    | None => (match node with Some _ => - EACCES | None => - EINVAL end,
               vma, s)
    | Some mmo =>
        let '(err, vma, s) :=
          i915_gem_update_vma_info (get_file_rcu env) (anon_inode_getfile env)
                                   obj ops mmo vma s in
        if negb (err =? 0) then (err, vma, mm_log s [MmObjPut])
        else (err, vma, s)
    end.

(** The number of times an event of the mmap path occurs. *)
Definition count_event (e : mmap_event) (evs : list mmap_event) : nat :=
  length (filter (fun x => x = e) evs).

(** The references on the object and the holds on rc6 that a history of
    the mmap path leaves: those taken less those given back. *)
Definition obj_refs (evs : list mmap_event) : Z :=
  Z.of_nat (count_event MmObjGet evs)
  + Z.of_nat (count_event (MmObjGetRcu true) evs)
  - Z.of_nat (count_event MmObjPut evs).

Definition rc6_holds (evs : list mmap_event) : Z :=
  Z.of_nat (count_event MmDisallowRc6 evs)
  - Z.of_nat (count_event MmAllowRc6 evs).

Definition dev_refs (evs : list mmap_event) : Z :=
  Z.of_nat (count_event MmDevGet evs)
  - Z.of_nat (count_event MmDevPut evs).

(** The flag bits [i915_gem_update_vma_info] may change. *)
Definition setup_bits : Z :=
  Z.lor VM_MAYWRITE
        (Z.lor (Z.lor (Z.lor VM_PFNMAP VM_DONTEXPAND) VM_DONTDUMP) VM_IO).

(** The calls the mm core makes into the mmap path: [mmap] on the device
    file, and [open] and [close] of an area whose operations are
    [vm_ops_gtt] or [vm_ops_cpu]. *)
Inductive mmap_call : Type :=
| CallMmap (env : mmap_env) (dev : mmap_device) (priv : nat)
           (obj : drm_i915_gem_object) (ops : mmap_object) (vma : mmap_vma)
| CallOpen
| CallClose.

Definition run_call (s : mmap_state) (c : mmap_call) : mmap_state :=
  match c with
  | CallMmap env dev priv obj ops vma =>
      snd (i915_gem_mmap env dev priv obj ops vma s)
  | CallOpen => vm_open s
  | CallClose => vm_close s
  end.

Definition run_calls (calls : list mmap_call) (s : mmap_state)
  : mmap_state :=
  fold_left run_call calls s.

(** An ERR_PTR carries an error: [PTR_ERR] of what [anon_inode_getfile]
    returns on failure is not zero. *)
Definition anon_error (env : mmap_env) : Prop :=
  forall err, anon_inode_getfile env = inl err -> err <> 0.

Definition call_anon_error (c : mmap_call) : Prop :=
  match c with
  | CallMmap env _ _ _ _ _ => anon_error env
  | _ => True
  end.

(** The anonymous files made so far: those that were given the shared
    address space. *)
Definition created (evs : list mmap_event) : list nat :=
  omap (fun e => match e with
                 | MmShareMapping file => Some file
                 | _ => None
                 end) evs.

(** The histories of the anonymous file of a device, with the files
    released so far: [mmap_singleton] is called at any time, with
    [anon_inode_getfile] giving a file that was not there before;
    [singleton_release] is called once for a file that was made. *)
Inductive singleton_history : list nat -> mmap_state -> Prop :=
| history_start : singleton_history [] (mk_mmap_state None [])
| history_get (released : list nat) (s : mmap_state) (got : bool)
              (anon : Z + nat) :
    singleton_history released s ->
    (forall file, anon = inr file -> file ∉ created (mm_trace s)) ->
    singleton_history released (snd (mmap_singleton got anon s))
| history_release (released : list nat) (s : mmap_state) (file : nat) :
    singleton_history released s ->
    file ∈ created (mm_trace s) ->
    file ∉ released ->
    singleton_history (file :: released) (snd (singleton_release file s)).

(** ** Access to the contents of a mapping *)

(** What [vm_access] does to its collaborators, in program order. *)
Inductive access_event : Set :=
| AcWwInit
| AcLock
| AcPinMap                      (* i915_gem_object_pin_map(obj,
                                   I915_MAP_FORCE_WC) *)
| AcFlushMap (offset len : Z)   (* __i915_gem_object_flush_map *)
| AcUnpinMap
| AcWwBackoff
| AcWwFini.

(** The collaborators of [vm_access]; the lock, the back-off and the
    mapping by the pass over the locking transaction. *)
Record access_env : Type := mk_access_env {
  range_overflows_t : Z -> Z -> Z -> bool;  (* on u64: start, size, max *)
  lookup_segment_at : Z -> option (drm_i915_gem_object * Z);
                                (* i915_gem_object_lookup_segment: the
                                   segment and the offset into it *)
  access_lock : nat -> Z;       (* i915_gem_object_lock *)
  access_backoff : nat -> Z;    (* i915_gem_ww_ctx_backoff *)
  pin_map : nat -> Z            (* PTR_ERR of what i915_gem_object_pin_map
                                   returns, 0 for a mapping *)
}.

(** The bytes of the objects, by [obj_id], and what was done. *)
Record access_state : Type := mk_access_state {
  contents : nat -> list Z;
  ac_trace : list access_event
}.

Definition ac_log (st : access_state) (evs : list access_event)
  : access_state :=
  mk_access_state (contents st) (ac_trace st ++ evs).

Definition set_contents (st : access_state) (id : nat) (bytes : list Z)
  : access_state :=
  mk_access_state
    (fun i => if bool_decide (i = id) then bytes else contents st i)
    (ac_trace st).

(** [memcpy(vaddr + offset, buf, len)] into the mapping [bytes] of an
    object, and [memcpy(buf, vaddr + offset, len)] out of it: [None] when
    the copy leaves the mapping or the buffer. *)
Definition memcpy_to (bytes : list Z) (offset : Z) (buf : list Z) (len : Z)
  : option (list Z) :=
  if (offset + len <=? Z.of_nat (length bytes)) &&
     (len <=? Z.of_nat (length buf))
  then Some (take (Z.to_nat offset) bytes ++ take (Z.to_nat len) buf
             ++ drop (Z.to_nat (offset + len)) bytes)
  else None.

Definition memcpy_from (buf : list Z) (bytes : list Z) (offset len : Z)
  : option (list Z) :=
  if (offset + len <=? Z.of_nat (length bytes)) &&
     (len <=? Z.of_nat (length buf))
  then Some (take (Z.to_nat len) (drop (Z.to_nat offset) bytes)
             ++ drop (Z.to_nat len) buf)
  else None.

(** [vm_access] up to the locking transaction: the error it returns or
    the object to map and the offset into it. *)
Definition access_target (env : access_env) (area : vm_area_struct)
    (obj : drm_i915_gem_object) (addr len : Z) (write : bool)
  : Z + drm_i915_gem_object * Z :=
  if readonly obj && write then inl (- EACCES)
  else
    let addr := u64 (addr - vm_start area) in
    if range_overflows_t env addr (u64 len) (u64 (base_size obj))
    then inl (- EINVAL)
    else if has_segments obj then
      match lookup_segment_at env addr with
      | None => inl (- EINVAL)
      | Some (seg, offset) =>
          let offset := u64 offset in   (* an unsigned long *)
          if u64 (base_size seg - offset) <? u64 len
          then (* XXX more work to support multiple segments *)
            inl (- ENXIO)
          else inr (seg, offset)
      end
    else inr (obj, addr).

(** One pass from the label [retry] to the label [out]: the value of
    [err] and the buffer, or [None] when a copy faults. *)
Definition access_pass (env : access_env) (obj : drm_i915_gem_object)
    (offset : Z) (buf : list Z) (len : Z) (write : bool) (n : nat)
    (st : access_state) : option (Z * list Z) * access_state :=
  let st := ac_log st [AcLock] in
  let err := access_lock env n in
  if negb (err =? 0) then (Some (err, buf), st)
  else
    (* As this is primarily for debugging, let's focus on simplicity *)
    let st := ac_log st [AcPinMap] in
    let err := pin_map env n in
    if negb (err =? 0) then (Some (err, buf), st)
    else
      let bytes := contents st (obj_id obj) in
      if write then
        match memcpy_to bytes offset buf (u64 len) with
        | None => (None, st)
        | Some bytes =>
            let st := set_contents st (obj_id obj) bytes in
            (Some (0, buf), ac_log st [AcFlushMap offset len; AcUnpinMap])
        end
      else
        match memcpy_from buf bytes offset (u64 len) with
        | None => (None, st)
        | Some buf => (Some (0, buf), ac_log st [AcUnpinMap])
        end.

(** The locking transaction of [vm_access], from the label [retry] to
    the return. *)
Fixpoint access_retry (env : access_env) (obj : drm_i915_gem_object)
    (offset : Z) (buf : list Z) (len : Z) (write : bool) (fuel n : nat)
    (st : access_state) : run (Z * list Z) * access_state :=
  match fuel with
  | O => (OutOfFuel, st)
  | S fuel =>
      match access_pass env obj offset buf len write n st with
      | (None, st) => (Oops, st)
      | (Some (err, buf), st) =>
          let finish err st :=
            let st := ac_log st [AcWwFini] in
            (Done (if negb (err =? 0) then err else len, buf), st) in
          if err =? - EDEADLK then
            let st := ac_log st [AcWwBackoff] in
            let err := access_backoff env n in
            if err =? 0
            then access_retry env obj offset buf len write fuel (S n) st
            else finish err st
          else finish err st
      end
  end.

(** [vm_access]: the return value and the buffer afterwards. *)
Definition vm_access (env : access_env) (area : vm_area_struct)
    (obj : drm_i915_gem_object) (addr : Z) (buf : list Z) (len : Z)
    (write : bool) (fuel : nat) (st : access_state)
  : run (Z * list Z) * access_state :=
  match access_target env area obj addr len write with
  | inl err => (Done (err, buf), st)
  | inr (obj, offset) =>
      access_retry env obj offset buf len write fuel 0%nat
                   (ac_log st [AcWwInit])
  end.

(** The outcomes of the locking transaction of [vm_access] on the
    object [obj]: it fails, leaving the contents alone, or it copies. *)
Definition access_fails (env : access_env) (buf : list Z)
    (st : access_state) (r : run (Z * list Z) * access_state) : Prop :=
  contents (snd r) = contents st /\
  (fst r = OutOfFuel \/
   exists err k,
     err <> 0 /\ fst r = Done (err, buf) /\
     (err = access_lock env k \/ err = pin_map env k \/
      err = access_backoff env k)).

Definition access_copies (obj : drm_i915_gem_object) (offset : Z)
    (buf : list Z) (len : Z) (write : bool) (st : access_state)
    (r : run (Z * list Z) * access_state) : Prop :=
  if write then
    exists bytes,
      memcpy_to (contents st (obj_id obj)) offset buf (u64 len) = Some bytes /\
      fst r = Done (len, buf) /\
      contents (snd r)
      = fun i => if bool_decide (i = obj_id obj) then bytes
                 else contents st i
  else
    exists out,
      memcpy_from buf (contents st (obj_id obj)) offset (u64 len) = Some out /\
      fst r = Done (len, out) /\
      contents (snd r) = contents st.

Definition access_faults (obj : drm_i915_gem_object) (offset : Z)
    (buf : list Z) (len : Z) (write : bool) (st : access_state)
    (r : run (Z * list Z) * access_state) : Prop :=
  fst r = Oops /\ contents (snd r) = contents st /\
  if write
  then memcpy_to (contents st (obj_id obj)) offset buf (u64 len) = None
  else memcpy_from buf (contents st (obj_id obj)) offset (u64 len) = None.

(** ** More example data *)

(** Collaborators that always succeed, the binding giving the second vma
    of the object. *)
Definition second_vma_env : fault_env :=
  mk_env (fun _ => 0) (fun _ => 0) (fun _ => 0) (fun _ => 0)
         (fun _ _ => inr 1%nat) (fun _ => 0) (fun _ => 0)
         (fun _ => None) (fun _ => inl (- ENOMEM))
         (fun _ => (false, false)) (fun _ => 0) (fun _ => 0).


(** The first binding attempt finds no room, the second is told to back
    off. *)
Definition contended_env : fault_env :=
  mk_env (fun _ => 0) (fun _ => 0) (fun _ => 0) (fun _ => 0)
         (fun _ k => match k with
                     | O => inl (- ENOSPC)
                     | S _ => inl (- EDEADLK)
                     end)
         (fun _ => 0) (fun _ => 0)
         (fun _ => None) (fun _ => inl (- ENOMEM))
         (fun _ => (false, false)) (fun _ => 0) (fun _ => 0).

(** A snooped object with one vma, on a device without a shared
    last-level cache. *)
Definition snooped_state : fault_state :=
  mk_fs (mk_obj 6 (16 * 4096) 6 0 false false 0 false false true true true
                I915_MADV_WILLNEED blank_region None 0 [marked_vma 0 false]
                rb_nil false false None 0)
        [] 0 warn_init [].

Definition no_llc_device : drm_i915_private := mk_i915 false false false 0.

(** An object of 16 pages in two segments of 8 pages. *)
Definition segment_at (id : nat) (offset size : Z) : drm_i915_gem_object :=
  mk_obj id size id 0 false false 0 true true false false false
         I915_MADV_WILLNEED blank_region None 0 [] rb_nil
         false true None offset.

Definition segmented_object : drm_i915_gem_object :=
  mk_obj 9 (16 * 4096) 9 0 false false 0 true true false false false
         I915_MADV_WILLNEED blank_region None 0 [] rb_nil
         true false None 0.

Definition segmented_env : fault_env :=
  mk_env (fun _ => 0) (fun _ => 0) (fun _ => 0) (fun _ => 0)
         (fun _ _ => inr 0%nat) (fun _ => 0) (fun _ => 0)
         (fun offset =>
            if offset <? 8 * 4096 then Some (segment_at 10 0 (8 * 4096))
            else if offset <? 16 * 4096
                 then Some (segment_at 11 (8 * 4096) (8 * 4096))
                 else None)
         (fun _ => inl (- ENOMEM))
         (fun _ => (false, false)) (fun _ => 0) (fun _ => 0).

(** An object without hooks of its backend, a shared readable area of 16
    pages as [mmap] is given it, and a device that has not made its
    anonymous file yet. *)
Definition plain_ops : mmap_object :=
  mk_mmap_object false None None false false false false 0.

Definition fresh_vma : mmap_vma :=
  mk_mmap_vma 65536 (65536 + 16 * 4096) 4096 (Z.lor VM_READ VM_MAYREAD)
              private_none prot_of_mm None 0.

Definition idle_mmap : mmap_state := mk_mmap_state None [].

(** The lookup finds the write-back record of [three_kinds] with the
    file 7 on its list; the anonymous file is still to be made. *)
Definition listed_record : i915_mmap_offset :=
  mk_mmo 1 I915_MMAP_TYPE_WB (mk_node 4096 16 [7%nat]).

Definition lookup_env : mmap_env :=
  mk_mmap_env (fun _ => false) (fun _ _ _ => VM_FAULT_NOPAGE)
              (fun start pages =>
                 if (start =? 4096) && (pages =? 16) then Some listed_record
                 else None)
              false (inr 3%nat) true.

Definition modern_device : mmap_device :=
  mk_mmap_device true true 12 false 0 1048576.

(** Two anonymous files were made, the second while the first was on its
    way out; the first has been released since. *)
Definition second_singleton : mmap_state :=
  snd (singleton_release 3
         (snd (mmap_singleton false (inr 5%nat)
                 (snd (mmap_singleton false (inr 3%nat) idle_mmap))))).

(** Collaborators of [vm_access] that succeed at once, with the range
    check of i915_utils.h, and an object of eight bytes, all of them
    zero. *)
Definition calm_access_env : access_env :=
  mk_access_env (fun start size max => (max <=? start) || (max - start <? size))
                (fun _ => None) (fun _ => 0) (fun _ => 0) (fun _ => 0).

Definition zeroed : access_state :=
  mk_access_state (fun _ => [0; 0; 0; 0; 0; 0; 0; 0]) [].

(** A request for the write-back kind of the object of [race_world] by
    the file 7, with collaborators that succeed. *)
Definition calm_ioctl_env : ioctl_env :=
  mk_ioctl_env (fun _ => 0) (fun _ _ _ => false) (fun _ _ => inr 0) true true.

Definition write_back_request : drm_i915_gem_mmap_offset :=
  mk_mmap_offset_args 1 0 0 I915_MMAP_OFFSET_WB 0.

(** Migration is optional and is told to back off in the first pass; the
    back-off succeeds and the second pass migrates. *)
Definition backoff_env : fault_env :=
  mk_env (fun _ => 0) (fun _ => 0) (fun _ => 0) (fun _ => 0)
         (fun _ _ => inr 0%nat) (fun _ => 0) (fun _ => 0)
         (fun _ => None) (fun _ => inl (- ENOMEM))
         (fun _ => (true, false))
         (fun n => match n with O => - EDEADLK | S _ => 0 end) (fun _ => 0).

(** The object of [three_kinds] before its teardown. *)
Definition mapped_state : fault_state :=
  mk_fs mapped_object [] 0 warn_init [].
(** * Properties *)

(** ** Error translation *)

Lemma mem_In (x : Z) (l : list Z) : mem x l = true <-> In x l.
Proof.
  unfold mem. rewrite existsb_exists. split.
  - intros (y & Hy & Heq). apply Z.eqb_eq in Heq. now subst.
  - intros H. exists x. split; [assumption | apply Z.eqb_refl].
Qed.

Lemma mem_not_In (x : Z) (l : list Z) : mem x l = false <-> ~ In x l.
Proof.
  rewrite <- mem_In. destruct (mem x l); split; congruence.
Qed.

Lemma translate_keeps_warn_inv (err : Z) (k : warn_state) :
  warn_inv k -> warn_inv (snd (i915_error_to_vmf_fault err k)).
Proof.
  intros Hk. unfold i915_error_to_vmf_fault.
  destruct (mem err sigbus_errors); [exact Hk |].
  destruct (err =? - ENOMEM); [exact Hk |].
  destruct (mem err nopage_errors); [exact Hk |].
  cbn [snd]. unfold WARN_ONCE.
  destruct Hk as [[Hw Hd] | [Hw Hd]]; rewrite Hw.
  - destruct (err =? 0); cbn; [left; auto | right].
    rewrite Hd. auto.
  - rewrite andb_false_r. right; auto.
Qed.

Lemma translate_all_warn_inv (errs : list Z) (k : warn_state) :
  warn_inv k -> warn_inv (translate_all errs k).
Proof.
  revert k. induction errs as [| e rest IH]; intros k Hk; cbn.
  - exact Hk.
  - apply IH, translate_keeps_warn_inv, Hk.
Qed.

(** C5. The translation of fault-path errors is a total function onto
    the three outcomes: -ENOMEM gives the out-of-memory outcome; -EIO,
    -EFAULT, -ENODEV, -ENXIO and -E2BIG give the bus error; 0, -EAGAIN,
    -ENOSPC, -ERESTARTSYS, -EINTR and -EBUSY give the retryable no-page
    outcome; every other value gives the bus error and warns, and over
    any sequence of translations the warning is printed once at most
    (exactly when the call site had not warned before). *)
Theorem error_translation_three_outcomes :
  (forall k, i915_error_to_vmf_fault (- ENOMEM) k = (VM_FAULT_OOM, k)) /\
  (forall err k,
      In err [- EIO; - EFAULT; - ENODEV; - ENXIO; - E2BIG] ->
      i915_error_to_vmf_fault err k = (VM_FAULT_SIGBUS, k)) /\
  (forall err k,
      In err [0; - EAGAIN; - ENOSPC; - ERESTARTSYS; - EINTR; - EBUSY] ->
      i915_error_to_vmf_fault err k = (VM_FAULT_NOPAGE, k)) /\
  (forall err k,
      err <> - ENOMEM ->
      ~ In err [- EIO; - EFAULT; - ENODEV; - ENXIO; - E2BIG] ->
      ~ In err [0; - EAGAIN; - ENOSPC; - ERESTARTSYS; - EINTR; - EBUSY] ->
      i915_error_to_vmf_fault err k =
        (VM_FAULT_SIGBUS,
         mk_warn_state true
           (if __warned k then dmesg k else dmesg k ++ [err]))) /\
  (forall errs, (length (dmesg (translate_all errs warn_init)) <= 1)%nat).
Proof.
  repeat split.
  - intros err k Hin. cbn in Hin.
    repeat destruct Hin as [<- | Hin]; try reflexivity. contradiction.
  - intros err k Hin. cbn in Hin.
    repeat destruct Hin as [<- | Hin]; try reflexivity. contradiction.
  - intros err k Hne Hsig Hnop. unfold i915_error_to_vmf_fault.
    apply mem_not_In in Hsig. apply mem_not_In in Hnop.
    fold sigbus_errors nopage_errors in *.
    unfold sigbus_errors, nopage_errors in *. rewrite Hsig, Hnop.
    apply Z.eqb_neq in Hne. rewrite Hne.
    assert (H0 : err <> 0).
    { intros ->. cbn in Hnop. discriminate. }
    apply Z.eqb_neq in H0. unfold WARN_ONCE. rewrite H0. cbn.
    destruct k as [[|] d]; reflexivity.
  - intros errs.
    destruct (translate_all_warn_inv errs warn_init) as [[_ H] | [_ H]].
    + left; split; reflexivity.
    + rewrite H. cbn. lia.
    + rewrite H. lia.
Qed.

(** ** Partial views *)

Section PartialView.

Lemma shiftr_pages (x : Z) : Z.shiftr x PAGE_SHIFT = x / 4096.
Proof. unfold PAGE_SHIFT. now rewrite Z.shiftr_div_pow2 by lia. Qed.

Lemma MIN_CHUNK_PAGES_256 : MIN_CHUNK_PAGES = 256.
Proof. reflexivity. Qed.

Lemma elvis_positive (x : Z) : 0 <= x -> 0 < elvis x 1 /\ elvis x 1 <= x + 1.
Proof.
  intros Hx. unfold elvis. destruct (Z.eqb_spec x 0); lia.
Qed.

(** Without wrap-around [roundup] is the least multiple of [y] that is
    not below [x]. *)
Lemma roundup_exact (x y : Z) :
  0 <= x -> 0 < y -> x + y <= 2 ^ 32 ->
  roundup x y mod y = 0 /\ x <= roundup x y < x + y.
Proof.
  intros Hx Hy Hfit. unfold roundup, u32.
  rewrite (Z.mod_small (y - 1)) by lia.
  rewrite (Z.mod_small (x + (y - 1))) by lia.
  pose proof (Z.div_mod (x + (y - 1)) y ltac:(lia)) as Hdm.
  pose proof (Z.mod_pos_bound (x + (y - 1)) y Hy) as Hrem.
  assert (Hq : 0 <= (x + (y - 1)) / y) by (apply Z.div_pos; lia).
  rewrite (Z.mod_small ((x + (y - 1)) / y * y)) by nia.
  split.
  - apply Z.mod_mul. lia.
  - nia.
Qed.

Variable obj : drm_i915_gem_object.
Variables page_offset chunk : Z.

Hypothesis row_range : 0 <= tile_row_size obj.
Hypothesis chunk_min : MIN_CHUNK_PAGES <= chunk.
Hypothesis chunk_fits : chunk + tile_row_pages obj <= UINT_MAX.

Lemma tile_row_pages_nonneg : 0 <= tile_row_pages obj.
Proof.
  unfold tile_row_pages. rewrite shiftr_pages. apply Z.div_pos; lia.
Qed.

(** The window: the chunk, rounded up to whole tile rows for a tiled
    object. *)
Lemma partial_chunk_window :
  let window := partial_chunk obj chunk in
  let row := elvis (tile_row_pages obj) 1 in
  MIN_CHUNK_PAGES <= window <= UINT_MAX /\
  (if tiled obj
   then window mod row = 0 /\ chunk <= window < chunk + row
   else window = chunk).
Proof.
  pose proof tile_row_pages_nonneg as Hrow.
  pose proof (elvis_positive _ Hrow) as [Hpos Hle].
  pose proof MIN_CHUNK_PAGES_256 as Hmin.
  unfold UINT_MAX in *. cbn zeta. unfold partial_chunk.
  destruct (tiled obj).
  - destruct (roundup_exact chunk (elvis (tile_row_pages obj) 1))
      as [Hmod Hbounds]; [lia | lia | lia |].
    repeat split; try assumption; lia.
  - repeat split; lia.
Qed.

Hypothesis fault_inside : 0 <= page_offset < obj_pages obj.
Hypothesis pages_fit : obj_pages obj <= UINT_MAX.

Lemma partial_view_window :
  exists view,
    compute_partial_view obj page_offset chunk = Some view /\
    let window := partial_chunk obj chunk in
    partial_offset view = page_offset - page_offset mod window /\
    partial_size view = Z.min window (obj_pages obj - partial_offset view) /\
    partial_offset view <= page_offset
      < partial_offset view + partial_size view /\
    partial_offset view + partial_size view <= obj_pages obj.
Proof.
  destruct partial_chunk_window as [Hwin _].
  pose proof MIN_CHUNK_PAGES_256 as Hmin.
  unfold compute_partial_view, rounddown.
  set (window := partial_chunk obj chunk) in *.
  destruct (Z.eqb_spec window 0) as [H0 | _]; [lia |].
  eexists. split; [reflexivity |]. cbn.
  pose proof (Z.mod_pos_bound page_offset window ltac:(lia)) as Hrem.
  unfold UINT_MAX in *.
  assert (Hu : u32 window = window) by (unfold u32; apply Z.mod_small; lia).
  set (rest := obj_pages obj - (page_offset - page_offset mod window)).
  pose proof (Z.mod_le page_offset window ltac:(lia) ltac:(lia)) as Hle.
  assert (Hrest : 0 < rest < 2 ^ 32) by (unfold rest; lia).
  assert (Hr : u32 (u64 rest) = rest).
  { unfold u32, u64. rewrite (Z.mod_small rest (2 ^ 64)) by lia.
    apply Z.mod_small. lia. }
  rewrite Hu, Hr. unfold rest. repeat split; lia.
Qed.

End PartialView.

(** C3. For every object whose page count fits an [unsigned int], as
    the handler's own [unsigned int] chunk and view size take it to,
    every faulting page inside the object and every requested chunk of
    at least 1 MiB of pages (that rounds up without overflow): the
    window is the chunk, rounded up to whole tile rows when the object is
    tiled; the view starts at the fault rounded down to the window, spans
    the window or what is left of the object, contains the faulting page
    and ends within the object. In the scenario of 4096 pages, tile rows
    of 64 pages, a window of 256 pages and a fault at page 300 the view
    starts at page 256 and spans min(256, 4096 - 256) = 256 pages. *)
Theorem partial_view_covers_fault :
  (forall (obj : drm_i915_gem_object) (page_offset chunk : Z),
      0 <= tile_row_size obj ->
      MIN_CHUNK_PAGES <= chunk ->
      chunk + tile_row_pages obj <= UINT_MAX ->
      0 <= page_offset < obj_pages obj ->
      obj_pages obj <= UINT_MAX ->
      exists view,
        compute_partial_view obj page_offset chunk = Some view /\
        let window := partial_chunk obj chunk in
        let row := elvis (tile_row_pages obj) 1 in
        MIN_CHUNK_PAGES <= window /\
        (if tiled obj
         then window mod row = 0 /\ chunk <= window < chunk + row
         else window = chunk) /\
        partial_offset view = page_offset - page_offset mod window /\
        partial_size view = Z.min window (obj_pages obj - partial_offset view) /\
        partial_offset view <= page_offset
          < partial_offset view + partial_size view /\
        partial_offset view + partial_size view <= obj_pages obj) /\
  (forall obj : drm_i915_gem_object,
      obj_pages obj = 4096 -> tiled obj = true -> tile_row_pages obj = 64 ->
      compute_partial_view obj 300 256 =
        Some (mk_view I915_GGTT_VIEW_PARTIAL 256 (Z.min 256 (4096 - 256)))).
Proof.
  split.
  - intros obj page_offset chunk Hrow Hmin Hfit Hin Hpages.
    destruct (partial_view_window obj page_offset chunk)
      as (view & Hview & Hoff & Hsize & Hcontains & Hend); try assumption.
    destruct (partial_chunk_window obj chunk) as [Hwin Hrows];
      try assumption.
    exists view. cbn zeta in *. repeat split; try tauto; lia.
  - intros obj Hpages Htiled Hrow.
    unfold compute_partial_view, partial_chunk.
    rewrite Htiled, Hrow, Hpages. reflexivity.
Qed.

Lemma partial_view_covers_fault_witness :
  exists view,
    compute_partial_view scenario_object 300 MIN_CHUNK_PAGES = Some view /\
    partial_offset view <= 300 < partial_offset view + partial_size view /\
    partial_offset view + partial_size view <= obj_pages scenario_object.
Proof.
  destruct (proj1 partial_view_covers_fault scenario_object 300 MIN_CHUNK_PAGES)
    as (view & Hview & _ & _ & _ & _ & Hin & Hend);
    [vm_compute; congruence | vm_compute; congruence | vm_compute; congruence
    | vm_compute; split; congruence | vm_compute; congruence |].
  exists view. auto.
Defined.

(** The bound on the page count is the one the [unsigned int] of the
    view size asks for. An object of 2^32 + 5 pages (16 TiB) is more
    than the handler is given; were there one, the pages left behind the
    view's start would be truncated and, for a fault at page 100, the
    view would be the pages 0 to 4. *)
Lemma partial_view_misses_fault_in_huge_object :
  0 <= 100 < obj_pages huge_object /\
  compute_partial_view huge_object 100 MIN_CHUNK_PAGES =
    Some (mk_view I915_GGTT_VIEW_PARTIAL 0 5) /\
  ~ (0 <= 100 < 0 + 5).
Proof.
  split; [vm_compute; split; congruence |].
  split; [vm_compute; reflexivity | lia].
Qed.

(** When the first binding attempt of [vm_fault_gtt] fails, the second
    one asks for the view of [compute_partial_view]. *)
Lemma gtt_bind_second_request (env : fault_env) (n : nat)
    (obj : drm_i915_gem_object) (page_offset : Z) (st : fault_state)
    (view : i915_ggtt_view) :
  is_err_not_deadlk (ggtt_pin env n 0%nat) = true ->
  compute_partial_view obj page_offset MIN_CHUNK_PAGES = Some view ->
  In (EvGgttPin (Some view)
        (guard ++ [PIN_MAPPABLE; PIN_NOSEARCH] ++
         match view_type view with
         | I915_GGTT_VIEW_NORMAL => [PIN_NONBLOCK]
         | I915_GGTT_VIEW_PARTIAL => []
         end))
     (fs_trace (snd (gtt_bind env n obj page_offset st))).
Proof.
  intros Herr Hview. unfold gtt_bind. rewrite Herr, Hview.
  destruct (is_err_not_deadlk (ggtt_pin env n 1%nat)); cbn;
    rewrite ?in_app_iff; cbn; tauto.
Qed.

(** The chunk of the fault handler does not round to zero. *)
Lemma min_chunk_nonzero (obj : drm_i915_gem_object) :
  0 <= tile_row_size obj < 2 ^ 32 ->
  partial_chunk obj MIN_CHUNK_PAGES <> 0.
Proof.
  intros Hrow. change (2 ^ 32) with 4294967296 in Hrow.
  assert (Hpages : tile_row_pages obj < 1048576).
  { unfold tile_row_pages. rewrite shiftr_pages.
    apply Z.div_lt_upper_bound; lia. }
  pose proof MIN_CHUNK_PAGES_256 as Hmin.
  destruct (partial_chunk_window obj MIN_CHUNK_PAGES) as [Hwin _];
    unfold UINT_MAX; change (2 ^ 32) with 4294967296; lia.
Qed.

(** C10. Whenever the chunk, after rounding up to tile rows, is not
    below the page count of the object, [compute_partial_view] returns a
    view of type NORMAL (and a PARTIAL one otherwise), so that the second
    binding attempt of the fault handler asks for the whole object. *)
Theorem small_object_gets_normal_view
    (obj : drm_i915_gem_object) (page_offset chunk : Z) :
  partial_chunk obj chunk <> 0 ->
  exists view,
    compute_partial_view obj page_offset chunk = Some view /\
    (obj_pages obj <= partial_chunk obj chunk ->
     view_type view = I915_GGTT_VIEW_NORMAL) /\
    (partial_chunk obj chunk < obj_pages obj ->
     view_type view = I915_GGTT_VIEW_PARTIAL) /\
    (forall env n st,
        chunk = MIN_CHUNK_PAGES ->
        is_err_not_deadlk (ggtt_pin env n 0%nat) = true ->
        obj_pages obj <= partial_chunk obj chunk ->
        In (EvGgttPin (Some view)
              (guard ++ [PIN_MAPPABLE; PIN_NOSEARCH; PIN_NONBLOCK]))
           (fs_trace (snd (gtt_bind env n obj page_offset st)))).
Proof.
  intros Hnz. unfold compute_partial_view.
  destruct (Z.eqb_spec (partial_chunk obj chunk) 0) as [| _]; [contradiction |].
  eexists. split; [reflexivity |]. cbn [view_type partial_offset partial_size].
  split; [| split].
  - intros Hle. destruct (Z.geb_spec (partial_chunk obj chunk) (obj_pages obj));
      [reflexivity | lia].
  - intros Hlt. destruct (Z.geb_spec (partial_chunk obj chunk) (obj_pages obj));
      [lia | reflexivity].
  - intros env n st -> Herr Hle.
    pose proof (gtt_bind_second_request env n obj page_offset st) as Hreq.
    unfold compute_partial_view in Hreq.
    destruct (Z.eqb_spec (partial_chunk obj MIN_CHUNK_PAGES) 0) as [| _];
      [contradiction |].
    specialize (Hreq _ Herr eq_refl). cbn [view_type] in Hreq.
    destruct (Z.geb_spec (partial_chunk obj MIN_CHUNK_PAGES) (obj_pages obj));
      [exact Hreq | lia].
Qed.

Lemma small_object_gets_normal_view_witness :
  exists view,
    compute_partial_view (blank_object 1 (16 * 4096)) 3 MIN_CHUNK_PAGES
      = Some view /\
    view_type view = I915_GGTT_VIEW_NORMAL.
Proof.
  destruct (small_object_gets_normal_view
              (blank_object 1 (16 * 4096)) 3 MIN_CHUNK_PAGES)
    as (view & Hview & Hnormal & _).
  { apply min_chunk_nonzero. vm_compute. split; congruence. }
  exists view. split; [exact Hview |].
  apply Hnormal. vm_compute. congruence.
Defined.

(** ** Swap policy *)

Section SwapPolicy.

Variable cfg : i915_config.
Variable i915 : drm_i915_private.
Variable obj : drm_i915_gem_object.

(** Nothing is created, whatever the budget, unless the object is
    device-local, without pages and not purged, and creation is
    configured. *)
Lemma create_swapto_gates (shmem : Z + nat) (write : bool) :
  CPTCFG_DRM_I915_CHICKEN_MMAP_SWAP_CREATE cfg = false \/
  is_lmem obj = false \/ has_pages obj = true \/
  mm_madv obj = __I915_MADV_PURGED ->
  create_swapto cfg i915 shmem obj write = (obj, obj).
Proof.
  unfold create_swapto. intros [H | [H | [H | H]]].
  - now rewrite H.
  - rewrite H. now destruct (CPTCFG_DRM_I915_CHICKEN_MMAP_SWAP_CREATE cfg).
  - rewrite H.
    destruct (CPTCFG_DRM_I915_CHICKEN_MMAP_SWAP_CREATE cfg),
      (is_lmem obj); reflexivity.
  - rewrite H, bool_decide_eq_true_2 by reflexivity.
    rewrite orb_true_r.
    destruct (CPTCFG_DRM_I915_CHICKEN_MMAP_SWAP_CREATE cfg),
      (is_lmem obj); reflexivity.
Qed.

Hypothesis device_local : is_lmem obj = true.
Hypothesis no_pages : has_pages obj = false.
Hypothesis not_purged : mm_madv obj <> __I915_MADV_PURGED.
Hypothesis size_range : 0 <= base_size obj < 2 ^ 63.
Hypothesis avail_range : 0 <= avail (mm_region_mem obj) < 2 ^ 63.

Lemma budget_test :
  (u64 (2 * base_size obj) <? u64 (avail (mm_region_mem obj)))
  = (2 * base_size obj <? avail (mm_region_mem obj)).
Proof. unfold u64. rewrite !Z.mod_small by lia. reflexivity. Qed.

Lemma create_swapto_roomy (shmem : Z + nat) :
  2 * base_size obj < avail (mm_region_mem obj) ->
  create_swapto cfg i915 shmem obj true = (obj, obj).
Proof.
  intros Hroom. unfold create_swapto.
  destruct (CPTCFG_DRM_I915_CHICKEN_MMAP_SWAP_CREATE cfg); [| reflexivity].
  rewrite device_local, no_pages, bool_decide_eq_false_2 by assumption.
  cbn. rewrite budget_test.
  destruct (Z.ltb_spec (2 * base_size obj) (avail (mm_region_mem obj)));
    [reflexivity | lia].
Qed.

Lemma create_swapto_tight (id : nat) :
  CPTCFG_DRM_I915_CHICKEN_MMAP_SWAP_CREATE cfg = true ->
  avail (mm_region_mem obj) <= 2 * base_size obj ->
  create_swapto cfg i915 (inr id) obj true
  = (set_swapto obj (Some (shadow_of cfg i915 obj id)),
   shadow_of cfg i915 obj id).
Proof.
  intros Hcfg Htight. unfold create_swapto.
  rewrite Hcfg, device_local, no_pages, bool_decide_eq_false_2 by assumption.
  cbn [negb orb andb]. rewrite budget_test.
  destruct (Z.ltb_spec (2 * base_size obj) (avail (mm_region_mem obj)));
    [lia | reflexivity].
Qed.

End SwapPolicy.

(** C2 (amended). For a device-local object without resident pages that
    is not purged, faulted with write intent (size and free budget being
    below 2^63 bytes, so that nothing wraps): when twice the size of the
    object is below the free budget of the home region no shadow is
    created (the object is left as it is and the fault is served from
    the object, or from a shadow it already has that is marked
    will-need); when twice the size is at least the free budget, the swap
    policy is configured in, no will-need shadow exists yet and the
    host-memory allocation succeeds, a shadow backed by host memory is
    created, installed as the object's swapto target and put in the
    object's synchronization domain, and the fault is served from it. *)
Theorem swap_policy_on_write_fault (cfg : i915_config)
    (i915 : drm_i915_private) (obj : drm_i915_gem_object) (shmem : Z + nat) :
  is_lmem obj = true ->
  has_pages obj = false ->
  mm_madv obj <> __I915_MADV_PURGED ->
  0 <= base_size obj < 2 ^ 63 ->
  0 <= avail (mm_region_mem obj) < 2 ^ 63 ->
  (2 * base_size obj < avail (mm_region_mem obj) ->
   fst (use_swapto cfg i915 shmem obj true) = obj /\
   (snd (use_swapto cfg i915 shmem obj true) = obj \/
    swapto obj = Some (snd (use_swapto cfg i915 shmem obj true)))) /\
  (avail (mm_region_mem obj) <= 2 * base_size obj ->
   CPTCFG_DRM_I915_CHICKEN_MMAP_SWAP cfg = true ->
   CPTCFG_DRM_I915_CHICKEN_MMAP_SWAP_CREATE cfg = true ->
   (forall s, swapto obj = Some s -> mm_madv s <> I915_MADV_WILLNEED) ->
   forall id, shmem = inr id ->
     let swp := shadow_of cfg i915 obj id in
     use_swapto cfg i915 shmem obj true = (set_swapto obj (Some swp), swp) /\
     swapto (fst (use_swapto cfg i915 shmem obj true)) = Some swp /\
     base_resv swp = base_resv obj /\
     is_lmem swp = false /\ has_struct_page swp = true).
Proof.
  intros Hlmem Hpages Hmadv Hsize Havail. split.
  - intros Hroom. unfold use_swapto.
    destruct (CPTCFG_DRM_I915_CHICKEN_MMAP_SWAP cfg); cbn [negb];
      [| now auto].
    pose proof (create_swapto_roomy cfg i915 obj Hlmem Hpages Hmadv
                  Hsize Havail shmem Hroom) as Hcreate.
    destruct (swapto obj) as [s |]; [| rewrite Hcreate; now auto].
    destruct (bool_decide (mm_madv s = I915_MADV_WILLNEED));
      [now auto | rewrite Hcreate; now auto].
  - intros Htight Hswap Hcreate Hnone id ->. cbn zeta.
    assert (Huse : use_swapto cfg i915 (inr id) obj true
                   = (set_swapto obj (Some (shadow_of cfg i915 obj id)),
                      shadow_of cfg i915 obj id)).
    { unfold use_swapto. rewrite Hswap. cbn [negb].
      pose proof (create_swapto_tight cfg i915 obj Hlmem Hpages Hmadv
                    Hsize Havail id Hcreate Htight) as Hc.
      destruct (swapto obj) as [s |] eqn:Hs; [| exact Hc].
      rewrite bool_decide_eq_false_2 by (apply Hnone; reflexivity).
      exact Hc. }
    rewrite Huse. repeat split; reflexivity.
Qed.

Lemma swap_policy_on_write_fault_witness :
  fst (use_swapto swap_config plain_device (inr 7%nat)
         (lmem_object 8192 (2 ^ 30)) true) = lmem_object 8192 (2 ^ 30) /\
  swapto (fst (use_swapto swap_config plain_device (inr 7%nat)
                 (lmem_object 8192 4096) true))
  = Some (shadow_of swap_config plain_device (lmem_object 8192 4096) 7).
Proof.
  split.
  - apply (swap_policy_on_write_fault swap_config plain_device
             (lmem_object 8192 (2 ^ 30)) (inr 7%nat));
      vm_compute; (reflexivity || congruence || (split; congruence)).
  - apply (swap_policy_on_write_fault swap_config plain_device
             (lmem_object 8192 4096) (inr 7%nat));
      vm_compute; (reflexivity || congruence || (split; congruence)).
Defined.

(** C2, as stated, fails both ways. With 8192 bytes to map and 4096 bytes
    free, twice the size exceeds the budget and a shadow is created; with
    2^30 bytes free, twice the size is within the budget and none is. *)
Lemma swap_policy_budget_is_the_other_way :
  (2 * base_size (lmem_object 8192 4096)
     > avail (mm_region_mem (lmem_object 8192 4096)) /\
   swapto (fst (use_swapto swap_config plain_device (inr 7%nat)
                  (lmem_object 8192 4096) true)) <> None) /\
  (2 * base_size (lmem_object 8192 (2 ^ 30))
     < avail (mm_region_mem (lmem_object 8192 (2 ^ 30))) /\
   use_swapto swap_config plain_device (inr 7%nat)
     (lmem_object 8192 (2 ^ 30)) true
   = (lmem_object 8192 (2 ^ 30), lmem_object 8192 (2 ^ 30))).
Proof.
  split; split; vm_compute; congruence.
Qed.

(** ** Revocation of aperture mappings *)

Lemma marked_app (l1 l2 : list i915_vma) :
  marked (l1 ++ l2) = (marked l1 + marked l2)%nat.
Proof.
  induction l1 as [| v l1 IH]; cbn; [reflexivity |]. rewrite IH. lia.
Qed.

Lemma marked_le_length (l : list i915_vma) : (marked l <= length l)%nat.
Proof.
  induction l as [| v l IH]; cbn; [lia |]. destruct (vma_userfault v); lia.
Qed.

Lemma marked_insert (l : list i915_vma) (i : nat) (v v' : i915_vma) :
  l !! i = Some v ->
  (marked (<[i := v']> l) + (if vma_userfault v then 1 else 0)
   = marked l + (if vma_userfault v' then 1 else 0))%nat.
Proof.
  intros Hv. pose proof (lookup_lt_Some _ _ _ Hv) as Hlt.
  rewrite insert_take_drop by exact Hlt.
  rewrite <- (take_drop_middle l i v Hv) at 3.
  rewrite !marked_app. cbn [marked]. lia.
Qed.

(** The marking of [vm_fault_gtt] keeps the count in step with the
    marks. *)
Lemma mark_userfault_tracked (obj : drm_i915_gem_object) (i : nat)
    (ufl : list nat) :
  userfault_tracked obj -> userfault_tracked (fst (mark_userfault obj i ufl)).
Proof.
  intros [Hcount Hbound]. unfold mark_userfault.
  destruct (ggtt_vmas obj !! i) as [v |] eqn:Hv; [| now split].
  destruct (vma_userfault v) eqn:Hmark; [now split |].
  pose proof (marked_insert _ i v (set_vma_userfault v true) Hv) as Hins.
  rewrite Hmark in Hins. cbn in Hins.
  pose proof (marked_le_length
                (<[i := set_vma_userfault v true]> (ggtt_vmas obj))) as Hle.
  rewrite length_insert in Hle.
  split; cbn.
  - unfold u32, UINT_MAX in *. rewrite Z.mod_small; lia.
  - rewrite length_insert. exact Hbound.
Qed.

Section Revoke.

Variables (id0 n : nat) (ufl0 : list nat).

(** Revoking the vma at position [i] moves the invariant on. *)
Lemma revoke_inv_step (i : nat) (st : fault_state) :
  (i < n)%nat ->
  revoke_inv id0 n ufl0 i st ->
  revoke_inv id0 n ufl0 (S i) (i915_vma_revoke_mmap i st).
Proof.
  intros Hi [Hid Hlen Hbound Hcount Hclear Hoff Hothers].
  destruct (lookup_lt_is_Some_2 (ggtt_vmas (fs_obj st)) i) as [v Hv];
    [lia |].
  unfold i915_vma_revoke_mmap. rewrite Hv.
  rewrite (drop_S _ _ _ Hv) in Hcount. cbn [marked] in Hcount.
  pose proof (marked_le_length (drop (S i) (ggtt_vmas (fs_obj st)))) as Hm.
  rewrite length_drop in Hm.
  destruct (vma_userfault v) eqn:Hmark; cbn [negb].
  - (* marked: unmap, unmark, count down *)
    set (v' := set_vma_userfault v false).
    assert (Hu : u32 (userfault_count (fs_obj st) - 1)
                 = Z.of_nat (marked (drop (S i) (ggtt_vmas (fs_obj st))))).
    { unfold u32, UINT_MAX in *. rewrite Z.mod_small; lia. }
    assert (Hv' : <[i := v']> (ggtt_vmas (fs_obj st)) !! i = Some v').
    { apply list_lookup_insert_eq. lia. }
    split; cbn.
    + exact Hid.
    + rewrite length_insert. exact Hlen.
    + exact Hbound.
    + rewrite drop_insert_lt by lia. exact Hu.
    + rewrite (take_S_r _ _ _ Hv'), take_insert_ge by lia.
      rewrite marked_app, Hclear. reflexivity.
    + intros H0. rewrite H0, Z.eqb_refl.
      rewrite list_elem_of_filter. rewrite Hid. tauto.
    + intros o Ho. rewrite <- (Hothers o Ho).
      destruct (u32 (userfault_count (fs_obj st) - 1) =? 0); [| tauto].
      rewrite list_elem_of_filter, Hid. tauto.
  - (* not marked: left alone *)
    split; try assumption.
    rewrite (take_S_r _ _ _ Hv), marked_app, Hclear. cbn.
    rewrite Hmark. reflexivity.
Qed.

Lemma revoke_each_inv (k i : nat) (st : fault_state) :
  (i + k)%nat = n ->
  revoke_inv id0 n ufl0 i st ->
  revoke_inv id0 n ufl0 n (revoke_each k i st).
Proof.
  revert i st. induction k as [| k IH]; intros i st Hn Hinv; cbn.
  - replace i with n in Hinv by lia. exact Hinv.
  - apply IH; [lia |]. apply revoke_inv_step; [lia | exact Hinv].
Qed.

End Revoke.

(** After the loop nothing is marked and the count is zero: the
    assertion [GEM_BUG_ON(obj->userfault_count)] holds. *)
Lemma release_mmap_gtt_clears (st : fault_state) :
  userfault_tracked (fs_obj st) ->
  userfault_count (fs_obj st) <> 0 ->
  revoke_inv (obj_id (fs_obj st)) (length (ggtt_vmas (fs_obj st)))
             (userfault_list st) (length (ggtt_vmas (fs_obj st)))
             (__i915_gem_object_release_mmap_gtt st).
Proof.
  intros [Hcount Hbound] Hnz. unfold __i915_gem_object_release_mmap_gtt.
  apply revoke_each_inv; [lia |].
  split; try reflexivity; try assumption.
  intros H0. contradiction.
Qed.

(** C8. Releasing the aperture mappings is idempotent. On an object whose
    userfault count tracks its marked vmas, the first call leaves the
    count at exactly zero and no vma marked, takes the object off the
    device-wide revocation list (when the count was positive) and leaves
    the other objects on it; the second call returns at its test of the
    count: it touches neither the object nor the list, unmaps nothing,
    and the count stays zero. *)
Theorem release_mmap_gtt_idempotent (st : fault_state) :
  userfault_tracked (fs_obj st) ->
  let once := i915_gem_object_release_mmap_gtt st in
  let twice := i915_gem_object_release_mmap_gtt once in
  userfault_count (fs_obj once) = 0 /\
  marked (ggtt_vmas (fs_obj once)) = 0%nat /\
  (0 < userfault_count (fs_obj st) ->
   obj_id (fs_obj st) ∉ userfault_list once) /\
  (forall o, o <> obj_id (fs_obj st) ->
             o ∈ userfault_list once <-> o ∈ userfault_list st) /\
  fs_obj twice = fs_obj once /\
  userfault_list twice = userfault_list once /\
  fs_trace twice = fs_trace once ++ [EvRpmGet; EvRpmPut] /\
  userfault_count (fs_obj twice) = 0.
Proof.
  intros Htracked. cbn zeta.
  assert (Hfirst :
    userfault_count (fs_obj (i915_gem_object_release_mmap_gtt st)) = 0 /\
    marked (ggtt_vmas (fs_obj (i915_gem_object_release_mmap_gtt st))) = 0%nat /\
    (0 < userfault_count (fs_obj st) ->
     obj_id (fs_obj st) ∉ userfault_list (i915_gem_object_release_mmap_gtt st)) /\
    (forall o, o <> obj_id (fs_obj st) ->
       o ∈ userfault_list (i915_gem_object_release_mmap_gtt st)
       <-> o ∈ userfault_list st)).
  { unfold i915_gem_object_release_mmap_gtt. cbn [fs_obj log].
    destruct (Z.eqb_spec (userfault_count (fs_obj st)) 0) as [H0 | Hnz].
    - cbn. destruct Htracked as [Hcount _].
      repeat split; try tauto; lia.
    - pose proof (release_mmap_gtt_clears (log st [EvRpmGet]) Htracked Hnz)
        as [Hid Hlen Hbound Hcount Hclear Hoff Hothers].
      cbn [fs_obj log userfault_list] in *.
      rewrite <- Hlen, drop_all in Hcount. cbn in Hcount.
      rewrite <- Hlen, firstn_all in Hclear.
      repeat split; try assumption; try (apply Hothers; assumption).
      intros _. apply Hoff. exact Hcount. }
  destruct Hfirst as (Hzero & Hclear & Hoff & Hothers).
  repeat split; try assumption; try (apply Hothers; assumption).
  - unfold i915_gem_object_release_mmap_gtt at 1. cbn [fs_obj log].
    rewrite Hzero. reflexivity.
  - unfold i915_gem_object_release_mmap_gtt at 1. cbn [fs_obj log].
    rewrite Hzero. reflexivity.
  - unfold i915_gem_object_release_mmap_gtt at 1. cbn [fs_obj log].
    rewrite Hzero. cbn. rewrite <- app_assoc. reflexivity.
  - unfold i915_gem_object_release_mmap_gtt at 1. cbn [fs_obj log].
    rewrite Hzero. cbn. exact Hzero.
Qed.

Lemma release_mmap_gtt_idempotent_witness :
  userfault_count (fs_obj twice_faulted) = 2 /\
  obj_id (fs_obj twice_faulted) ∈ userfault_list twice_faulted /\
  userfault_count (fs_obj (i915_gem_object_release_mmap_gtt twice_faulted)) = 0 /\
  obj_id (fs_obj twice_faulted)
    ∉ userfault_list (i915_gem_object_release_mmap_gtt twice_faulted).
Proof.
  assert (Htracked : userfault_tracked (fs_obj twice_faulted)).
  { split; vm_compute; congruence. }
  pose proof (release_mmap_gtt_idempotent twice_faulted Htracked)
    as (Hzero & _ & Hoff & _).
  split; [reflexivity |].
  split; [apply list_elem_of_In; cbn; tauto |].
  split; [exact Hzero |].
  apply Hoff. vm_compute. reflexivity.
Defined.

(** ** Teardown of the other mappings *)

(** A record the lookup finds is a record of the tree. *)
Lemma lookup_walk_In (rb : rb_root) (t : i915_mmap_type)
    (mmo : i915_mmap_offset) :
  lookup_walk rb t = Some mmo ->
  In mmo (rb_postorder rb) /\ mmap_type mmo = t.
Proof.
  induction rb as [| l IHl pos r IHr]; cbn; [discriminate |].
  rewrite !in_app_iff. cbn.
  destruct (bool_decide_reflect (mmap_type pos = t)) as [Heq | _].
  - intros [= <-]. tauto.
  - destruct (mmap_type_val (mmap_type pos) <? mmap_type_val t);
      intros H; [apply IHr in H | apply IHl in H]; tauto.
Qed.

Lemma release_calls_In (obj target : drm_i915_gem_object) (vma_offset : Z)
    (c : unmap_call) :
  release_target obj = Some (target, vma_offset) ->
  In c (release_mmap_offset_calls obj) <->
  In (um_mmo c) (rb_postorder (mmo_offsets target)) /\
  mmap_type (um_mmo c) <> I915_MMAP_TYPE_GTT /\
  c = mk_unmap (um_mmo c) vma_offset (base_size obj).
Proof.
  intros Htarget. unfold release_mmap_offset_calls. rewrite Htarget.
  rewrite in_flat_map. split.
  - intros (mmo & Hin & Hc).
    destruct (bool_decide_reflect (mmap_type mmo = I915_MMAP_TYPE_GTT))
      as [| Hne]; [contradiction |].
    destruct Hc as [<- | []]. cbn. auto.
  - intros (Hin & Hne & Hc). exists (um_mmo c). split; [exact Hin |].
    rewrite bool_decide_eq_false_2 by exact Hne. left. now symmetry.
Qed.

(** What the calls of [i915_gem_object_release_mmap_offset] unmap: for
    every record that is not of the Aperture kind, in the order of the
    walk, the range of [base_size obj] bytes at the offset of the record
    plus [vma_offset]. *)
Lemma release_calls_events (obj target : drm_i915_gem_object)
    (vma_offset : Z) :
  release_target obj = Some (target, vma_offset) ->
  map drm_vma_node_unmap_range (release_mmap_offset_calls obj)
  = map (fun mmo =>
           EvUnmapMappingRange
             (u64 (drm_vma_node_offset_addr (vma_node mmo) + vma_offset))
             (base_size obj))
        (filter (fun mmo => mmap_type mmo <> I915_MMAP_TYPE_GTT)
                (rb_postorder (mmo_offsets target))).
Proof.
  intros Htarget. unfold release_mmap_offset_calls. rewrite Htarget.
  induction (rb_postorder (mmo_offsets target)) as [| mmo l IH];
    [reflexivity |].
  cbn [flat_map]. rewrite map_app, IH.
  destruct (bool_decide_reflect (mmap_type mmo = I915_MMAP_TYPE_GTT))
    as [Hgtt | Hother].
  - rewrite filter_cons_False by (intros Hne; now apply Hne). reflexivity.
  - rewrite filter_cons_True by exact Hother. reflexivity.
Qed.

Lemma offset_addr_u64 (node : drm_vma_offset_node) :
  u64 (drm_vma_node_offset_addr node + 0) = drm_vma_node_offset_addr node.
Proof.
  rewrite Z.add_0_r. unfold drm_vma_node_offset_addr, u64.
  apply Z.mod_mod. lia.
Qed.

(** C9. The teardown of mapping records on the way to destruction,
    [i915_gem_object_release_mmap_offset], unmaps every record of the
    object's registry whose kind is not Aperture (write-combined,
    write-back, uncached), over the whole object, and makes no call for
    an Aperture record; it leaves the object and its registry as they
    are. (For a segment the registry is the parent's and the range is the
    segment's.) What it unmaps is, for each such record once and in the
    order of the walk, the range of the object's size that begins at the
    offset of the record, the one handed to userspace for its mmap;
    nothing else is unmapped, so that the range of an Aperture record,
    which begins where no other record does, is not touched. Records of
    the Aperture kind are left to [i915_gem_object_release_mmap_gtt]. *)
Theorem release_mmap_offset_spares_gtt (obj : drm_i915_gem_object) :
  (forall c, In c (release_mmap_offset_calls obj) ->
             mmap_type (um_mmo c) <> I915_MMAP_TYPE_GTT) /\
  (is_segment obj = false ->
   forall mmo,
     In mmo (rb_postorder (mmo_offsets obj)) ->
     mmap_type mmo <> I915_MMAP_TYPE_GTT ->
     In (mk_unmap mmo 0 (base_size obj)) (release_mmap_offset_calls obj)) /\
  (is_segment obj = false ->
   forall t mmo,
     t <> I915_MMAP_TYPE_GTT ->
     lookup_mmo obj t = Some mmo ->
     In (mk_unmap mmo 0 (base_size obj)) (release_mmap_offset_calls obj)) /\
  (forall p mmo,
     is_segment obj = true -> parent obj = Some p ->
     In mmo (rb_postorder (mmo_offsets p)) ->
     mmap_type mmo <> I915_MMAP_TYPE_GTT ->
     In (mk_unmap mmo (segment_offset obj) (base_size obj))
        (release_mmap_offset_calls obj)) /\
  (forall st,
     fs_obj st = obj ->
     fs_obj (i915_gem_object_release_mmap_offset st) = obj /\
     fs_trace (i915_gem_object_release_mmap_offset st)
     = fs_trace st ++ map drm_vma_node_unmap_range
                          (release_mmap_offset_calls obj)) /\
  (forall st target vma_offset,
     fs_obj st = obj ->
     release_target obj = Some (target, vma_offset) ->
     fs_trace (i915_gem_object_release_mmap_offset st)
     = fs_trace st
       ++ map (fun mmo =>
                 EvUnmapMappingRange
                   (u64 (drm_vma_node_offset_addr (vma_node mmo)
                         + vma_offset))
                   (base_size obj))
              (filter (fun mmo => mmap_type mmo <> I915_MMAP_TYPE_GTT)
                      (rb_postorder (mmo_offsets target)))) /\
  (forall st,
     fs_obj st = obj -> release_target obj = None ->
     fs_trace (i915_gem_object_release_mmap_offset st) = fs_trace st) /\
  (forall st,
     fs_obj st = obj -> is_segment obj = false ->
     exists evs,
       fs_trace (i915_gem_object_release_mmap_offset st)
       = fs_trace st ++ evs /\
       (forall t mmo,
           t <> I915_MMAP_TYPE_GTT -> lookup_mmo obj t = Some mmo ->
           In (EvUnmapMappingRange
                 (drm_vma_node_offset_addr (vma_node mmo)) (base_size obj))
              evs) /\
       (forall e,
           In e evs ->
           exists mmo,
             In mmo (rb_postorder (mmo_offsets obj)) /\
             mmap_type mmo <> I915_MMAP_TYPE_GTT /\
             e = EvUnmapMappingRange
                   (drm_vma_node_offset_addr (vma_node mmo))
                   (base_size obj)) /\
       (forall g len,
           mmap_type g = I915_MMAP_TYPE_GTT ->
           (forall mmo,
               In mmo (rb_postorder (mmo_offsets obj)) ->
               mmap_type mmo <> I915_MMAP_TYPE_GTT ->
               drm_vma_node_offset_addr (vma_node mmo)
               <> drm_vma_node_offset_addr (vma_node g)) ->
           ~ In (EvUnmapMappingRange
                   (drm_vma_node_offset_addr (vma_node g)) len) evs)) /\
  (forall st,
     userfault_list (i915_gem_object_release_mmap_offset st)
     = userfault_list st /\
     active_fault_handlers (i915_gem_object_release_mmap_offset st)
     = active_fault_handlers st).
Proof.
  split; [| split; [| split; [| split; [| split; [| split; [| split;
                                                             [| split]]]]]]].
  - intros c Hc.
    destruct (release_target obj) as [[target off] |] eqn:Ht.
    + apply (release_calls_In _ _ _ _ Ht) in Hc. tauto.
    + unfold release_mmap_offset_calls in Hc. rewrite Ht in Hc. destruct Hc.
  - intros Hseg mmo Hin Hne.
    apply (release_calls_In obj obj 0).
    + unfold release_target. now rewrite Hseg.
    + cbn. auto.
  - intros Hseg t mmo Ht Hlook. apply lookup_walk_In in Hlook as [Hin <-].
    apply (release_calls_In obj obj 0).
    + unfold release_target. now rewrite Hseg.
    + cbn. auto.
  - intros p mmo Hseg Hparent Hin Hne.
    apply (release_calls_In obj p (segment_offset obj)).
    + unfold release_target. now rewrite Hseg, Hparent.
    + cbn. auto.
  - intros st <-. split; reflexivity.
  - intros st target vma_offset <- Htarget.
    unfold i915_gem_object_release_mmap_offset. cbn [log fs_trace].
    now rewrite (release_calls_events _ _ _ Htarget).
  - intros st <- Htarget.
    unfold i915_gem_object_release_mmap_offset, release_mmap_offset_calls.
    rewrite Htarget. cbn. apply app_nil_r.
  - intros st <- Hseg.
    assert (Htarget : release_target (fs_obj st) = Some (fs_obj st, 0)).
    { unfold release_target. now rewrite Hseg. }
    eexists. split.
    { unfold i915_gem_object_release_mmap_offset. cbn [log fs_trace].
      rewrite (release_calls_events _ _ _ Htarget). reflexivity. }
    assert (Hin : forall e,
               In e (map (fun mmo =>
                            EvUnmapMappingRange
                              (u64 (drm_vma_node_offset_addr (vma_node mmo)
                                    + 0))
                              (base_size (fs_obj st)))
                         (filter (fun mmo =>
                                    mmap_type mmo <> I915_MMAP_TYPE_GTT)
                                 (rb_postorder (mmo_offsets (fs_obj st)))))
               <-> exists mmo,
                   In mmo (rb_postorder (mmo_offsets (fs_obj st))) /\
                   mmap_type mmo <> I915_MMAP_TYPE_GTT /\
                   e = EvUnmapMappingRange
                         (drm_vma_node_offset_addr (vma_node mmo))
                         (base_size (fs_obj st))).
    { intros e. rewrite in_map_iff. split.
      - intros (mmo & <- & Hmmo). apply list_elem_of_In in Hmmo.
        apply list_elem_of_filter in Hmmo as (Hne & Hmmo).
        apply list_elem_of_In in Hmmo. exists mmo.
        now rewrite offset_addr_u64.
      - intros (mmo & Hmmo & Hne & ->). exists mmo.
        rewrite offset_addr_u64. split; [reflexivity |].
        apply list_elem_of_In, list_elem_of_filter. split; [exact Hne |].
        now apply list_elem_of_In. }
    split; [| split].
    + intros t mmo Ht Hlook. apply lookup_walk_In in Hlook as [Hmmo <-].
      apply Hin. now exists mmo.
    + intros e He. now apply Hin.
    + intros g len Hg Hapart He. apply Hin in He as (mmo & Hmmo & Hne & Heq).
      injection Heq as Haddr _. now apply (Hapart mmo Hmmo Hne).
  - intros st. split; reflexivity.
Qed.

Lemma release_mmap_offset_spares_gtt_witness :
  release_mmap_offset_calls mapped_object
  = [mk_unmap (record_of I915_MMAP_TYPE_WB 4096) 0 (16 * 4096);
     mk_unmap (record_of I915_MMAP_TYPE_WC 2048) 0 (16 * 4096)] /\
  In (mk_unmap (record_of I915_MMAP_TYPE_WB 4096) 0 (16 * 4096))
     (release_mmap_offset_calls mapped_object) /\
  fs_trace (i915_gem_object_release_mmap_offset mapped_state)
  = [EvUnmapMappingRange (4096 * 4096) (16 * 4096);
     EvUnmapMappingRange (2048 * 4096) (16 * 4096)] /\
  In (EvUnmapMappingRange
        (drm_vma_node_offset_addr
           (vma_node (record_of I915_MMAP_TYPE_WB 4096))) (16 * 4096))
     (fs_trace (i915_gem_object_release_mmap_offset mapped_state)) /\
  ~ In (EvUnmapMappingRange
          (drm_vma_node_offset_addr
             (vma_node (record_of I915_MMAP_TYPE_GTT 1024))) (16 * 4096))
       (fs_trace (i915_gem_object_release_mmap_offset mapped_state)).
Proof.
  split; [reflexivity |].
  split.
  { apply (proj1 (proj2 (proj2 (release_mmap_offset_spares_gtt
                                  mapped_object)))
             eq_refl I915_MMAP_TYPE_WB);
      [discriminate | reflexivity]. }
  split; [reflexivity |].
  destruct (release_mmap_offset_spares_gtt mapped_object)
    as (_ & _ & _ & _ & _ & _ & _ & Hevents & _).
  destruct (Hevents mapped_state eq_refl eq_refl)
    as (evs & Htrace & Hall & _ & Hspared).
  rewrite Htrace. cbn [mapped_state fs_trace app]. split.
  - apply (Hall I915_MMAP_TYPE_WB); [discriminate | reflexivity].
  - apply Hspared; [reflexivity |].
    intros mmo Hmmo Hne. cbn in Hmmo.
    destruct Hmmo as [<- | [<- | [<- | []]]];
      [now contradict Hne | vm_compute; congruence | vm_compute; congruence].
Defined.

(** ** Write faults on read-only objects *)

Section ReadOnly.

Variable env : fault_env.
Variable cfg : i915_config.
Variable i915 : drm_i915_private.
Variable vmf : vm_fault.

Hypothesis write_intent : area_write (vmf_vma vmf) = true.

Lemma only_logs_refl (st : fault_state) : only_logs st st [].
Proof. unfold only_logs. now rewrite app_nil_r. Qed.

Lemma only_logs_log (st st' : fault_state) (evs more : list event) :
  only_logs st st' evs -> only_logs st (log st' more) (evs ++ more).
Proof.
  intros (Hobj & Hufl & Hwarn & Htrace). unfold only_logs. cbn.
  now rewrite Htrace, app_assoc.
Qed.

(** A pass on a read-only object takes the lock and nothing else. *)
Lemma gtt_pass_readonly (n : nat) (st : fault_state) :
  readonly (fs_obj st) = true ->
  gtt_pass env cfg i915 vmf n st
  = (Some (if obj_lock env n =? 0 then - EFAULT else obj_lock env n),
     log st [EvLock]).
Proof.
  intros Hro. unfold gtt_pass. rewrite Hro, write_intent.
  destruct (obj_lock env n =? 0); reflexivity.
Qed.

(** However long the handler retries, it only takes the lock and backs
    off. *)
Lemma gtt_retry_readonly (fuel n : nat) (st0 st : fault_state)
    (evs : list event) :
  readonly (fs_obj st0) = true ->
  only_logs st0 st evs ->
  Forall (fun e => touches_pages e = false) evs ->
  exists evs',
    only_logs st0 (snd (gtt_retry env cfg i915 vmf fuel n st)) evs' /\
    Forall (fun e => touches_pages e = false) evs' /\
    fst (gtt_retry env cfg i915 vmf fuel n st) <> Oops.
Proof.
  intros Hro. revert n st evs.
  induction fuel as [| fuel IH]; intros n st evs Hlogs Hquiet; cbn.
  - exists evs. repeat split; try apply Hlogs; [exact Hquiet | discriminate].
  - assert (Hro' : readonly (fs_obj st) = true).
    { destruct Hlogs as (-> & _). exact Hro. }
    rewrite (gtt_pass_readonly n st Hro').
    assert (Hlock : only_logs st0 (log st [EvLock]) (evs ++ [EvLock]))
      by now apply only_logs_log.
    assert (Hq1 : Forall (fun e => touches_pages e = false) (evs ++ [EvLock])).
    { apply Forall_app. split; [exact Hquiet | now repeat constructor]. }
    destruct (_ =? - EDEADLK).
    + destruct (ww_backoff env n =? 0).
      * apply (IH (S n) _ ((evs ++ [EvLock]) ++ [EvWwBackoff])).
        -- now apply only_logs_log.
        -- apply Forall_app. split; [exact Hq1 | now repeat constructor].
      * exists ((evs ++ [EvLock]) ++ [EvWwBackoff]). cbn [fst snd].
        split; [now apply only_logs_log |].
        split; [| discriminate].
        apply Forall_app. split; [exact Hq1 | now repeat constructor].
    + exists (evs ++ [EvLock]). cbn [fst snd].
      split; [exact Hlock |]. split; [exact Hq1 | discriminate].
Qed.

(** What the retry loop returns once a pass ends without a successful
    back-off: -EFAULT when the lock is taken, the error of the lock or of
    the back-off otherwise. *)
Lemma gtt_retry_readonly_result (k fuel n : nat) (st : fault_state) :
  readonly (fs_obj st) = true ->
  (forall j, (j < k)%nat ->
             obj_lock env (n + j) = - EDEADLK /\ ww_backoff env (n + j) = 0) ->
  ~ (obj_lock env (n + k) = - EDEADLK /\ ww_backoff env (n + k) = 0) ->
  (k < fuel)%nat ->
  fst (gtt_retry env cfg i915 vmf fuel n st)
  = Done (if obj_lock env (n + k) =? 0 then - EFAULT
          else if obj_lock env (n + k) =? - EDEADLK
               then ww_backoff env (n + k)
               else obj_lock env (n + k)).
Proof.
  revert fuel n st.
  induction k as [| k IH]; intros fuel n st Hro Hwait Hlast Hfuel.
  - destruct fuel as [| fuel]; [lia |]. cbn [gtt_retry].
    rewrite (gtt_pass_readonly n st Hro).
    replace (n + 0)%nat with n in * by lia.
    destruct (Z.eqb_spec (obj_lock env n) 0) as [H0 | Hn0].
    + reflexivity.
    + destruct (Z.eqb_spec (obj_lock env n) (- EDEADLK)) as [Hd |];
        [| reflexivity].
      destruct (Z.eqb_spec (ww_backoff env n) 0) as [Hb |]; [| reflexivity].
      tauto.
  - destruct fuel as [| fuel]; [lia |]. cbn [gtt_retry].
    rewrite (gtt_pass_readonly n st Hro).
    destruct (Hwait 0%nat ltac:(lia)) as [Hl Hb].
    replace (n + 0)%nat with n in * by lia. rewrite Hl, Hb.
    change (- EDEADLK =? 0) with false.
    cbn [negb]. rewrite Z.eqb_refl. change (0 =? 0) with true. cbn iota.
    rewrite IH.
    + replace (S n + k)%nat with (n + S k)%nat by lia. reflexivity.
    + exact Hro.
    + intros j Hj. replace (S n + j)%nat with (n + S j)%nat by lia.
      apply Hwait. lia.
    + replace (S n + k)%nat with (n + S k)%nat by lia. exact Hlast.
    + lia.
Qed.

End ReadOnly.

Lemma vmf_of_error_any (err : Z) (k : warn_state) :
  fst (i915_error_to_vmf_fault err k) = vmf_of_error err.
Proof.
  unfold vmf_of_error, i915_error_to_vmf_fault.
  destruct (mem err sigbus_errors); [reflexivity |].
  destruct (err =? - ENOMEM); [reflexivity |].
  destruct (mem err nopage_errors); reflexivity.
Qed.

(** C4 (amended). A write fault on a read-only object populates no
    page-table entry, and the read-only check comes before any pinning,
    binding or remapping: the direct handler rejects the fault with
    SIGBUS before it does anything else; the aperture handler only takes
    the object's lock (backing off and retrying on a deadlock) and, once
    the lock is taken, rejects the fault with SIGBUS. When taking the
    lock or backing off fails instead, the aperture handler reports the
    translation of that error. *)
Theorem readonly_write_fault_rejected (env : fault_env) (cfg : i915_config)
    (i915 : drm_i915_private) (vmf : vm_fault) (st : fault_state) :
  readonly (fs_obj st) = true ->
  area_write (vmf_vma vmf) = true ->
  (forall fuel,
      vm_fault_cpu env cfg i915 vmf fuel st = (Done VM_FAULT_SIGBUS, st)) /\
  (forall fuel, exists evs,
      fs_trace (snd (vm_fault_gtt env cfg i915 vmf fuel st))
        = fs_trace st ++ evs /\
      Forall (fun e => touches_pages e = false) evs /\
      fs_obj (snd (vm_fault_gtt env cfg i915 vmf fuel st)) = fs_obj st /\
      userfault_list (snd (vm_fault_gtt env cfg i915 vmf fuel st))
        = userfault_list st /\
      fst (vm_fault_gtt env cfg i915 vmf fuel st) <> Oops) /\
  (forall k fuel,
      (forall j, (j < k)%nat ->
                 obj_lock env j = - EDEADLK /\ ww_backoff env j = 0) ->
      (k < fuel)%nat ->
      (obj_lock env k = 0 ->
       fst (vm_fault_gtt env cfg i915 vmf fuel st) = Done VM_FAULT_SIGBUS) /\
      (obj_lock env k <> 0 -> obj_lock env k <> - EDEADLK ->
       fst (vm_fault_gtt env cfg i915 vmf fuel st)
       = Done (vmf_of_error (obj_lock env k))) /\
      (obj_lock env k = - EDEADLK -> ww_backoff env k <> 0 ->
       fst (vm_fault_gtt env cfg i915 vmf fuel st)
       = Done (vmf_of_error (ww_backoff env k)))).
Proof.
  intros Hro Hwrite. split; [| split].
  - intros fuel. unfold vm_fault_cpu. now rewrite Hro, Hwrite.
  - intros fuel. unfold vm_fault_gtt.
    destruct (gtt_retry_readonly env cfg i915 vmf Hwrite fuel 0 st
                (log st [EvRpmGet; EvWwInit]) ([] ++ [EvRpmGet; EvWwInit]) Hro)
      as (evs & (Hobj & Hufl & Hwarn & Htrace) & Hquiet & Hno).
    { apply only_logs_log, only_logs_refl. }
    { now repeat constructor. }
    destruct (gtt_retry env cfg i915 vmf fuel 0 (log st [EvRpmGet; EvWwInit]))
      as [[ret | |] st'] eqn:Hrun; cbn [fst snd] in *.
    + destruct (i915_error_to_vmf_fault ret (fs_warn (log st' [EvWwFini; EvRpmPut])))
        as [r kw].
      exists (evs ++ [EvWwFini; EvRpmPut]). cbn.
      rewrite Htrace, app_assoc. repeat split; try assumption.
      * apply Forall_app. split; [exact Hquiet | now repeat constructor].
      * discriminate.
    + contradiction.
    + exists evs. repeat split; try assumption. discriminate.
  - intros k fuel Hwait Hfuel.
    assert (Hrun : forall last,
      ~ (obj_lock env k = - EDEADLK /\ ww_backoff env k = 0) ->
      last = (if obj_lock env k =? 0 then - EFAULT
              else if obj_lock env k =? - EDEADLK then ww_backoff env k
                   else obj_lock env k) ->
      fst (vm_fault_gtt env cfg i915 vmf fuel st) = Done (vmf_of_error last)).
    { intros last Hlast ->. unfold vm_fault_gtt.
      pose proof (gtt_retry_readonly_result env cfg i915 vmf Hwrite k fuel 0
                    (log st [EvRpmGet; EvWwInit]) Hro Hwait Hlast Hfuel) as Hres.
      cbn [Nat.add] in Hres.
      destruct (gtt_retry env cfg i915 vmf fuel 0 (log st [EvRpmGet; EvWwInit]))
        as [r st'].
      cbn [fst] in Hres. subst r.
      rewrite (surjective_pairing (i915_error_to_vmf_fault _ _)).
      cbn [fst]. now rewrite vmf_of_error_any. }
    split; [| split].
    + intros H0. rewrite (Hrun (- EFAULT)); [reflexivity | |].
      * rewrite H0. intros [Hd _]. discriminate Hd.
      * now rewrite H0.
    + intros Hn0 Hnd. apply Hrun; [tauto |].
      apply Z.eqb_neq in Hn0, Hnd. now rewrite Hn0, Hnd.
    + intros Hd Hb. apply Hrun; [tauto |].
      rewrite Hd. reflexivity.
Qed.

Lemma readonly_write_fault_rejected_witness :
  vm_fault_cpu calm_env swap_config plain_device write_fault 3 readonly_state
    = (Done VM_FAULT_SIGBUS, readonly_state) /\
  fst (vm_fault_gtt calm_env swap_config plain_device write_fault 3
         readonly_state) = Done VM_FAULT_SIGBUS.
Proof.
  destruct (readonly_write_fault_rejected calm_env swap_config plain_device
              write_fault readonly_state eq_refl eq_refl)
    as (Hcpu & _ & Hgtt).
  split; [apply Hcpu |].
  apply (Hgtt 0%nat 3%nat); [intros j Hj; lia | lia | reflexivity].
Defined.

(** C4, as stated, fails on the aperture path when the wait for the
    object's lock is interrupted: the fault on the read-only object ends
    with the retryable no-page outcome, not with SIGBUS. *)
Lemma interrupted_readonly_write_fault_is_retried :
  readonly (fs_obj readonly_state) = true /\
  area_write (vmf_vma write_fault) = true /\
  fst (vm_fault_gtt interrupted_env swap_config plain_device write_fault 3
         readonly_state) = Done VM_FAULT_NOPAGE /\
  fst (vm_fault_gtt interrupted_env swap_config plain_device write_fault 3
         readonly_state) <> Done VM_FAULT_SIGBUS.
Proof.
  repeat split; try reflexivity. vm_compute. discriminate.
Qed.

(** ** Migration in the direct fault handler *)

Lemma extends_refl (st : fault_state) : extends st st.
Proof. exists []. now rewrite app_nil_r. Qed.

Lemma extends_trans (a b c : fault_state) :
  extends a b -> extends b c -> extends a c.
Proof.
  intros [e1 H1] [e2 H2]. exists (e1 ++ e2). now rewrite H2, H1, app_assoc.
Qed.

Lemma extends_log (st : fault_state) (evs : list event) :
  extends st (log st evs).
Proof. now exists evs. Qed.

Lemma extends_with_obj (st : fault_state) (obj : drm_i915_gem_object)
    (ufl : list nat) : extends st (with_obj st obj ufl).
Proof. exists []. cbn. now rewrite app_nil_r. Qed.

Create HintDb trace.
#[local] Hint Resolve extends_refl extends_log extends_with_obj : trace.

Section DirectFault.

Variable env : fault_env.
Variable cfg : i915_config.
Variable i915 : drm_i915_private.

Lemma cpu_migrate_extends (pg : drm_i915_gem_object) (n : nat)
    (st : fault_state) : extends st (snd (cpu_migrate env pg n st)).
Proof.
  unfold cpu_migrate. destruct (should_migrate_smem env n) as [[|] required];
    [| cbn; auto with trace].
  destruct (has_pinned_pages pg); cbn [fst snd];
    repeat match goal with
           | |- context [if ?b then _ else _] => destruct b
           end; cbn; auto with trace.
Qed.

Lemma cpu_populate_extends (pg : drm_i915_gem_object)
    (vm_start vm_size obj_offset : Z) (n : nat) (st : fault_state) :
  extends st (snd (cpu_populate env pg vm_start vm_size obj_offset n st)).
Proof.
  unfold cpu_populate. destruct (negb (pin_pages_sync env n =? 0));
    cbn [snd]; [auto with trace |].
  eapply extends_trans; [| apply extends_log].
  eapply extends_trans; [| apply extends_log].
  apply extends_log.
Qed.

Lemma cpu_pass_extends (write : bool) (vm_start vm_size obj_offset : Z)
    (n : nat) (st : fault_state) :
  extends st
    (snd (cpu_pass env cfg i915 write vm_start vm_size obj_offset n st)).
Proof.
  unfold cpu_pass. destruct (negb (obj_lock env n =? 0)); cbn [snd];
    [auto with trace |].
  rewrite (surjective_pairing (use_swapto _ _ _ _ _)).
  match goal with
  | |- context [cpu_migrate env ?pg n ?s] =>
      pose proof (cpu_migrate_extends pg n s) as Hm;
      destruct (cpu_migrate env pg n s) as [[err |] st'] eqn:Hmig
  end; cbn [snd] in *.
  - eapply extends_trans; [| exact Hm].
    eapply extends_trans; [apply extends_log | apply extends_with_obj].
  - eapply extends_trans; [| apply cpu_populate_extends].
    eapply extends_trans; [| exact Hm].
    eapply extends_trans; [apply extends_log | apply extends_with_obj].
Qed.

Lemma ww_fini_extends (n : nat) (err : Z) (st : fault_state) :
  extends st (snd (ww_fini env n err st)).
Proof.
  unfold ww_fini. destruct (err =? - EDEADLK); cbn; auto with trace.
Qed.

Lemma cpu_loop_extends (write : bool) (vm_start vm_size obj_offset : Z)
    (fuel n : nat) (st : fault_state) :
  extends st
    (snd (cpu_loop env cfg i915 write vm_start vm_size obj_offset fuel n st)).
Proof.
  revert n st. induction fuel as [| fuel IH]; intros n st; cbn [cpu_loop];
    [apply extends_refl |].
  pose proof (cpu_pass_extends write vm_start vm_size obj_offset n st) as Hp.
  destruct (cpu_pass env cfg i915 write vm_start vm_size obj_offset n st)
    as [err st1].
  pose proof (ww_fini_extends n err st1) as Hf.
  destruct (ww_fini env n err st1) as [err' st2]. cbn [snd] in *.
  assert (H02 : extends st st2) by (eapply extends_trans; eassumption).
  destruct (err' =? - EDEADLK).
  - eapply extends_trans; [exact H02 | apply IH].
  - destruct ((err' =? - ENXIO) || (err' =? - ENOMEM)); cbn [snd].
    + eapply extends_trans; [exact H02 |].
      eapply extends_trans; [| apply IH].
      eapply extends_trans; apply extends_log.
    + eapply extends_trans; [exact H02 | apply extends_log].
Qed.

(** A pass that ends in an error other than -EDEADLK, -ENXIO and -ENOMEM
    ends the transaction: there is no further pass. *)
Lemma cpu_loop_final (write : bool) (vm_start vm_size obj_offset : Z)
    (fuel n : nat) (st : fault_state) :
  let pass := cpu_pass env cfg i915 write vm_start vm_size obj_offset n st in
  fst pass <> - EDEADLK -> fst pass <> - ENXIO -> fst pass <> - ENOMEM ->
  cpu_loop env cfg i915 write vm_start vm_size obj_offset (S fuel) n st
  = (Done (fst pass), log (snd pass) [EvWwFini]).
Proof.
  cbn zeta. intros Hd Hx Hm. cbn [cpu_loop].
  destruct (cpu_pass env cfg i915 write vm_start vm_size obj_offset n st)
    as [err st1]. cbn [fst snd] in *.
  unfold ww_fini. apply Z.eqb_neq in Hd, Hx, Hm.
  rewrite Hd. cbn iota. rewrite Hd, Hx, Hm. reflexivity.
Qed.

(** Whatever follows, the events of the first pass stay in the trace. *)
Lemma cpu_loop_extends_pass (write : bool) (vm_start vm_size obj_offset : Z)
    (fuel n : nat) (st : fault_state) :
  extends
    (snd (cpu_pass env cfg i915 write vm_start vm_size obj_offset n st))
    (snd (cpu_loop env cfg i915 write vm_start vm_size obj_offset
            (S fuel) n st)).
Proof.
  cbn [cpu_loop].
  destruct (cpu_pass env cfg i915 write vm_start vm_size obj_offset n st)
    as [err st1].
  pose proof (ww_fini_extends n err st1) as Hf.
  destruct (ww_fini env n err st1) as [err' st2]. cbn [snd] in *.
  destruct (err' =? - EDEADLK).
  - eapply extends_trans; [exact Hf | apply cpu_loop_extends].
  - destruct ((err' =? - ENXIO) || (err' =? - ENOMEM)); cbn [snd].
    + eapply extends_trans; [exact Hf |].
      eapply extends_trans; [| apply cpu_loop_extends].
      eapply extends_trans; apply extends_log.
    + eapply extends_trans; [exact Hf | apply extends_log].
Qed.

(** Required migration of pinned pages: the pass is left with -EFAULT
    right after the policy decision. *)
Lemma cpu_pass_required_pinned (write : bool)
    (vm_start vm_size obj_offset : Z) (n : nat) (st : fault_state) :
  let swap := use_swapto cfg i915 (create_shmem env n) (fs_obj st) write in
  obj_lock env n = 0 ->
  should_migrate_smem env n = (true, true) ->
  has_pinned_pages (snd swap) = true ->
  cpu_pass env cfg i915 write vm_start vm_size obj_offset n st
  = (- EFAULT, with_obj (log st [EvLock]) (fst swap) (userfault_list st)).
Proof.
  cbn zeta. intros Hlock Hshould Hpinned. unfold cpu_pass.
  rewrite Hlock. cbn [Z.eqb negb fs_obj log userfault_list].
  rewrite (surjective_pairing (use_swapto _ _ _ _ _)).
  unfold cpu_migrate. rewrite Hshould, Hpinned. reflexivity.
Qed.

(** Optional migration: unless it asks for a back-off, its result is
    dropped and the pass goes on to pin and populate. *)
Lemma cpu_pass_optional (write : bool)
    (vm_start vm_size obj_offset : Z) (n : nat) (st : fault_state) :
  let swap := use_swapto cfg i915 (create_shmem env n) (fs_obj st) write in
  let st1 := with_obj (log st [EvLock]) (fst swap) (userfault_list st) in
  obj_lock env n = 0 ->
  should_migrate_smem env n = (true, false) ->
  migrate_error env (snd swap) n <> - EDEADLK ->
  cpu_pass env cfg i915 write vm_start vm_size obj_offset n st
  = cpu_populate env (snd swap) vm_start vm_size obj_offset n
      (if has_pinned_pages (snd swap) then st1 else log st1 [EvMigrate]).
Proof.
  cbn zeta. intros Hlock Hshould Herr. unfold cpu_pass.
  rewrite Hlock. cbn [Z.eqb negb fs_obj log userfault_list].
  rewrite (surjective_pairing (use_swapto _ _ _ _ _)).
  unfold cpu_migrate, migrate_error in *. rewrite Hshould.
  destruct (has_pinned_pages _).
  - reflexivity.
  - rewrite andb_false_r. apply Z.eqb_neq in Herr. now rewrite Herr.
Qed.

(** A pass whose optional migration is told to back off is left at
    once, with nothing pinned or populated. *)
Lemma cpu_pass_optional_deadlock (write : bool)
    (vm_start vm_size obj_offset : Z) (n : nat) (st : fault_state) :
  let swap := use_swapto cfg i915 (create_shmem env n) (fs_obj st) write in
  obj_lock env n = 0 ->
  should_migrate_smem env n = (true, false) ->
  migrate_error env (snd swap) n = - EDEADLK ->
  cpu_pass env cfg i915 write vm_start vm_size obj_offset n st
  = (- EDEADLK,
     log (with_obj (log st [EvLock]) (fst swap) (userfault_list st))
         [EvMigrate]).
Proof.
  cbn zeta. intros Hlock Hshould Herr. unfold cpu_pass.
  rewrite Hlock. cbn [Z.eqb negb fs_obj log userfault_list].
  rewrite (surjective_pairing (use_swapto _ _ _ _ _)).
  unfold cpu_migrate, migrate_error in *. rewrite Hshould.
  destruct (has_pinned_pages _); [discriminate Herr |].
  rewrite Herr. reflexivity.
Qed.

(** The locking transaction after a pass that ends in -EDEADLK: it backs
    off; the body is run again when the back-off succeeds, and otherwise
    the error of the back-off is what the pass leaves behind. *)
Lemma cpu_loop_deadlock (write : bool) (vm_start vm_size obj_offset : Z)
    (fuel n : nat) (st : fault_state) :
  let pass := cpu_pass env cfg i915 write vm_start vm_size obj_offset n st in
  let st2 := log (snd pass) [EvWwBackoff] in
  let e := ww_backoff env n in
  fst pass = - EDEADLK ->
  cpu_loop env cfg i915 write vm_start vm_size obj_offset (S fuel) n st
  = if (e =? 0) || (e =? - EDEADLK)
    then cpu_loop env cfg i915 write vm_start vm_size obj_offset fuel (S n)
                  st2
    else if (e =? - ENXIO) || (e =? - ENOMEM)
    then cpu_loop env cfg i915 write vm_start vm_size obj_offset fuel (S n)
                  (log (log st2 [EvWwFini]) [EvWwInit])
    else (Done e, log st2 [EvWwFini]).
Proof.
  cbn zeta. intros Hd. cbn [cpu_loop].
  destruct (cpu_pass env cfg i915 write vm_start vm_size obj_offset n st)
    as [err st1]. cbn [fst snd] in *. subst err.
  unfold ww_fini. change (- EDEADLK =? - EDEADLK) with true. cbn iota.
  destruct (ww_backoff env n =? 0) eqn:H0; cbn [orb].
  - reflexivity.
  - destruct (ww_backoff env n =? - EDEADLK); reflexivity.
Qed.

(** A pass begins by taking the lock. *)
Lemma cpu_pass_extends_lock (write : bool) (vm_start vm_size obj_offset : Z)
    (n : nat) (st : fault_state) :
  extends (log st [EvLock])
    (snd (cpu_pass env cfg i915 write vm_start vm_size obj_offset n st)).
Proof.
  unfold cpu_pass. destruct (negb (obj_lock env n =? 0)); cbn [snd];
    [apply extends_refl |].
  rewrite (surjective_pairing (use_swapto _ _ _ _ _)).
  match goal with
  | |- context [cpu_migrate env ?pg n ?s] =>
      pose proof (cpu_migrate_extends pg n s) as Hm;
      destruct (cpu_migrate env pg n s) as [[err |] st'] eqn:Hmig
  end; cbn [snd] in *.
  - eapply extends_trans; [| exact Hm]. apply extends_with_obj.
  - eapply extends_trans; [| apply cpu_populate_extends].
    eapply extends_trans; [| exact Hm]. apply extends_with_obj.
Qed.

End DirectFault.

(** The events the first pass of the direct handler leaves when it runs
    up to the pinning of the pages. *)
Lemma vm_fault_cpu_extends_loop (env : fault_env) (cfg : i915_config)
    (i915 : drm_i915_private) (vmf : vm_fault) (fuel : nat)
    (st : fault_state) (target : drm_i915_gem_object)
    (vm_start vm_end obj_offset : Z) :
  readonly (fs_obj st) && area_write (vmf_vma vmf) = false ->
  invalidate_lmem_mmaps i915 = false ->
  cpu_window env vmf (fs_obj st) = Some (target, vm_start, vm_end, obj_offset) ->
  extends
    (snd (cpu_loop env cfg i915 (area_write (vmf_vma vmf)) vm_start
            (u64 (vm_end - vm_start)) obj_offset fuel 0
            (log (with_obj (set_active st (active_fault_handlers st + 1))
                           target (userfault_list st)) [EvWwInit])))
    (snd (vm_fault_cpu env cfg i915 vmf fuel st)).
Proof.
  intros Hro Hinv Hwin. unfold vm_fault_cpu. rewrite Hro, Hinv, Hwin.
  cbn [userfault_list set_active].
  destruct (cpu_loop _ _ _ _ _ _ _ _ _ _) as [[err | |] st'];
    cbn [snd]; try apply extends_refl.
  destruct (i915_error_to_vmf_fault err (fs_warn st')) as [ret k].
  unfold cpu_out. cbn [snd].
  destruct (_ =? 0); [| exists []; cbn; now rewrite app_nil_r].
  exists [EvWakeUp]. reflexivity.
Qed.

(** C7 (amended). In the direct fault handler, once the object's lock is
    taken: when migration to system memory is required and the pages of
    the target are pinned, the fault ends with SIGBUS after this one pass
    (one lock, no back-off, nothing pinned or populated); when migration
    is optional and the attempt fails with anything but a request to
    back off (-EDEADLK), the error is dropped and the pass goes on to pin
    the pages and, when they are pinned, to populate the window, the
    outcome being that of the population. When the optional attempt is
    told to back off, the pass is left at once with nothing pinned or
    populated and the locking transaction backs off: when the back-off
    succeeds the body is run again, beginning with the lock, and when it
    fails its error is what the pass leaves behind, so that the fault
    ends with the outcome of that error (unless it is one the loops run
    again for). The first two parts and the last are about the first
    pass of a fault; the third to fifth say the same of any pass of the
    locking transaction. *)
Theorem direct_fault_migration_policy (env : fault_env) (cfg : i915_config)
    (i915 : drm_i915_private) (vmf : vm_fault) (st : fault_state)
    (target : drm_i915_gem_object) (vm_start vm_end obj_offset : Z) :
  readonly (fs_obj st) && area_write (vmf_vma vmf) = false ->
  invalidate_lmem_mmaps i915 = false ->
  cpu_window env vmf (fs_obj st) = Some (target, vm_start, vm_end, obj_offset) ->
  obj_lock env 0 = 0 ->
  let pg := first_target env cfg i915 vmf target in
  let run fuel := vm_fault_cpu env cfg i915 vmf fuel st in
  (should_migrate_smem env 0 = (true, true) ->
   has_pinned_pages pg = true ->
   forall fuel, (0 < fuel)%nat ->
     fst (run fuel) = Done VM_FAULT_SIGBUS /\
     exists tail,
       fs_trace (snd (run fuel))
       = fs_trace st ++ [EvWwInit; EvLock; EvWwFini] ++ tail /\
       Forall (fun e => e = EvWakeUp) tail) /\
  (should_migrate_smem env 0 = (true, false) ->
   migrate_error env pg 0 <> - EDEADLK ->
   forall fuel, (0 < fuel)%nat ->
     (exists rest,
        fs_trace (snd (run fuel))
        = fs_trace st ++ [EvWwInit; EvLock] ++
          (if has_pinned_pages pg then [] else [EvMigrate]) ++
          [EvPinPages] ++ rest /\
        (pin_pages_sync env 0 = 0 ->
         exists iomap rest',
           rest = [EvRemapIoSg vm_start (u64 (vm_end - vm_start))
                               obj_offset iomap; EvUnpinPages] ++ rest')) /\
     (pin_pages_sync env 0 = 0 ->
      remap_io_sg env 0 <> - EDEADLK ->
      remap_io_sg env 0 <> - ENXIO ->
      remap_io_sg env 0 <> - ENOMEM ->
      fst (run fuel) = Done (vmf_of_error (remap_io_sg env 0)))) /\
  (forall write vm_start vm_size obj_offset fuel n st',
      let swap :=
        use_swapto cfg i915 (create_shmem env n) (fs_obj st') write in
      obj_lock env n = 0 ->
      should_migrate_smem env n = (true, true) ->
      has_pinned_pages (snd swap) = true ->
      fst (cpu_loop env cfg i915 write vm_start vm_size obj_offset
                    (S fuel) n st') = Done (- EFAULT) /\
      vmf_of_error (- EFAULT) = VM_FAULT_SIGBUS) /\
  (forall write vm_start vm_size obj_offset n st',
      let swap :=
        use_swapto cfg i915 (create_shmem env n) (fs_obj st') write in
      let st1 := with_obj (log st' [EvLock]) (fst swap) (userfault_list st') in
      obj_lock env n = 0 ->
      should_migrate_smem env n = (true, false) ->
      migrate_error env (snd swap) n <> - EDEADLK ->
      cpu_pass env cfg i915 write vm_start vm_size obj_offset n st'
      = cpu_populate env (snd swap) vm_start vm_size obj_offset n
          (if has_pinned_pages (snd swap) then st1 else log st1 [EvMigrate])) /\
  (forall write vm_start vm_size obj_offset fuel n st',
      let swap :=
        use_swapto cfg i915 (create_shmem env n) (fs_obj st') write in
      let st1 :=
        log (with_obj (log st' [EvLock]) (fst swap) (userfault_list st'))
            [EvMigrate] in
      let st2 := log st1 [EvWwBackoff] in
      let e := ww_backoff env n in
      obj_lock env n = 0 ->
      should_migrate_smem env n = (true, false) ->
      migrate_error env (snd swap) n = - EDEADLK ->
      cpu_pass env cfg i915 write vm_start vm_size obj_offset n st'
      = (- EDEADLK, st1) /\
      cpu_loop env cfg i915 write vm_start vm_size obj_offset (S fuel) n st'
      = if (e =? 0) || (e =? - EDEADLK)
        then cpu_loop env cfg i915 write vm_start vm_size obj_offset fuel
                      (S n) st2
        else if (e =? - ENXIO) || (e =? - ENOMEM)
        then cpu_loop env cfg i915 write vm_start vm_size obj_offset fuel
                      (S n) (log (log st2 [EvWwFini]) [EvWwInit])
        else (Done e, log st2 [EvWwFini])) /\
  (should_migrate_smem env 0 = (true, false) ->
   migrate_error env pg 0 = - EDEADLK ->
   (ww_backoff env 0 = 0 ->
    forall fuel, (1 < fuel)%nat ->
      exists rest,
        fs_trace (snd (run fuel))
        = fs_trace st
          ++ [EvWwInit; EvLock; EvMigrate; EvWwBackoff; EvLock] ++ rest) /\
   (ww_backoff env 0 <> 0 -> ww_backoff env 0 <> - EDEADLK ->
    ww_backoff env 0 <> - ENXIO -> ww_backoff env 0 <> - ENOMEM ->
    forall fuel, (0 < fuel)%nat ->
      fst (run fuel) = Done (vmf_of_error (ww_backoff env 0)) /\
      exists tail,
        fs_trace (snd (run fuel))
        = fs_trace st
          ++ [EvWwInit; EvLock; EvMigrate; EvWwBackoff; EvWwFini] ++ tail /\
        Forall (fun e => e = EvWakeUp) tail)).
Proof.
  intros Hro Hinv Hwin Hlock. cbn zeta.
  assert (Hany :
    (forall write vm_start vm_size obj_offset fuel n st',
        obj_lock env n = 0 ->
        should_migrate_smem env n = (true, true) ->
        has_pinned_pages
          (snd (use_swapto cfg i915 (create_shmem env n) (fs_obj st') write))
        = true ->
        fst (cpu_loop env cfg i915 write vm_start vm_size obj_offset
                      (S fuel) n st') = Done (- EFAULT) /\
        vmf_of_error (- EFAULT) = VM_FAULT_SIGBUS) /\
    (forall write vm_start vm_size obj_offset n st',
        obj_lock env n = 0 ->
        should_migrate_smem env n = (true, false) ->
        migrate_error env
          (snd (use_swapto cfg i915 (create_shmem env n) (fs_obj st') write)) n
        <> - EDEADLK ->
        cpu_pass env cfg i915 write vm_start vm_size obj_offset n st'
        = cpu_populate env
            (snd (use_swapto cfg i915 (create_shmem env n) (fs_obj st') write))
            vm_start vm_size obj_offset n
            (if has_pinned_pages
                  (snd (use_swapto cfg i915 (create_shmem env n)
                                   (fs_obj st') write))
             then with_obj (log st' [EvLock])
                    (fst (use_swapto cfg i915 (create_shmem env n)
                                     (fs_obj st') write))
                    (userfault_list st')
             else log (with_obj (log st' [EvLock])
                         (fst (use_swapto cfg i915 (create_shmem env n)
                                          (fs_obj st') write))
                         (userfault_list st')) [EvMigrate]))).
  { split.
    - intros write' vs vsz oo fuel n st' Hl Hs Hp.
      pose proof (cpu_pass_required_pinned env cfg i915 write' vs vsz oo n st'
                    Hl Hs Hp) as Hpass.
      rewrite cpu_loop_final; rewrite Hpass; cbn [fst snd];
        try discriminate.
      split; reflexivity.
    - intros write' vs vsz oo n st' Hl Hs He.
      exact (cpu_pass_optional env cfg i915 write' vs vsz oo n st' Hl Hs He). }
  destruct Hany as [Hany1 Hany2].
  assert (Hdead :
    forall write vm_start vm_size obj_offset fuel n st',
      obj_lock env n = 0 ->
      should_migrate_smem env n = (true, false) ->
      migrate_error env
        (snd (use_swapto cfg i915 (create_shmem env n) (fs_obj st') write)) n
      = - EDEADLK ->
      cpu_pass env cfg i915 write vm_start vm_size obj_offset n st'
      = (- EDEADLK,
         log (with_obj (log st' [EvLock])
                (fst (use_swapto cfg i915 (create_shmem env n) (fs_obj st')
                                 write))
                (userfault_list st')) [EvMigrate]) /\
      cpu_loop env cfg i915 write vm_start vm_size obj_offset (S fuel) n st'
      = if (ww_backoff env n =? 0) || (ww_backoff env n =? - EDEADLK)
        then cpu_loop env cfg i915 write vm_start vm_size obj_offset fuel
               (S n)
               (log (log (with_obj (log st' [EvLock])
                            (fst (use_swapto cfg i915 (create_shmem env n)
                                             (fs_obj st') write))
                            (userfault_list st')) [EvMigrate])
                    [EvWwBackoff])
        else if (ww_backoff env n =? - ENXIO) || (ww_backoff env n =? - ENOMEM)
        then cpu_loop env cfg i915 write vm_start vm_size obj_offset fuel
               (S n)
               (log (log (log (log (with_obj (log st' [EvLock])
                                      (fst (use_swapto cfg i915
                                              (create_shmem env n)
                                              (fs_obj st') write))
                                      (userfault_list st')) [EvMigrate])
                              [EvWwBackoff]) [EvWwFini]) [EvWwInit])
        else (Done (ww_backoff env n),
              log (log (log (with_obj (log st' [EvLock])
                               (fst (use_swapto cfg i915 (create_shmem env n)
                                                (fs_obj st') write))
                               (userfault_list st')) [EvMigrate])
                       [EvWwBackoff]) [EvWwFini])).
  { intros write' vs vsz oo fuel n st' Hl Hs He.
    pose proof (cpu_pass_optional_deadlock env cfg i915 write' vs vsz oo n st'
                  Hl Hs He) as Hpass.
    split; [exact Hpass |].
    rewrite cpu_loop_deadlock; rewrite Hpass; reflexivity. }
  set (write := area_write (vmf_vma vmf)).
  set (s0 := log (with_obj (set_active st (active_fault_handlers st + 1))
                           target (userfault_list st)) [EvWwInit]).
  assert (Hrun : forall fuel,
    vm_fault_cpu env cfg i915 vmf fuel st
    = match cpu_loop env cfg i915 write vm_start (u64 (vm_end - vm_start))
                     obj_offset fuel 0 s0 with
      | (Done err, st') =>
          let '(ret, k) := i915_error_to_vmf_fault err (fs_warn st') in
          cpu_out ret (set_warn st' k)
      | (Oops, st') => (Oops, st')
      | (OutOfFuel, st') => (OutOfFuel, st')
      end).
  { intros fuel. unfold vm_fault_cpu. now rewrite Hro, Hinv, Hwin. }
  split; [| split; [| split; [exact Hany1 | split; [exact Hany2
                                                   | split; [exact Hdead |]]]]].
  - intros Hshould Hpinned [| fuel] Hfuel; [lia |].
    pose proof (cpu_pass_required_pinned env cfg i915 write vm_start
                  (u64 (vm_end - vm_start)) obj_offset 0 s0
                  Hlock Hshould Hpinned) as Hpass.
    rewrite Hrun, cpu_loop_final; rewrite Hpass; cbn [fst snd];
      try discriminate.
    rewrite (surjective_pairing (i915_error_to_vmf_fault _ _)).
    rewrite vmf_of_error_any. unfold cpu_out. cbn [fst snd].
    split; [reflexivity |].
    destruct (_ =? 0).
    + exists [EvWakeUp]. cbn. rewrite <- !app_assoc.
      split; [reflexivity | now repeat constructor].
    + exists []. cbn. rewrite <- !app_assoc.
      split; [reflexivity | constructor].
  - intros Hshould Herr [| fuel] Hfuel; [lia |].
    pose proof (cpu_pass_optional env cfg i915 write vm_start
                  (u64 (vm_end - vm_start)) obj_offset 0 s0
                  Hlock Hshould Herr) as Hpass.
    cbn [fs_obj s0 log with_obj] in Hpass.
    fold (first_target env cfg i915 vmf target) in Hpass.
    split.
    + pose proof (vm_fault_cpu_extends_loop env cfg i915 vmf (S fuel) st
                    target vm_start vm_end obj_offset Hro Hinv Hwin) as Hext.
      pose proof (cpu_loop_extends_pass env cfg i915 write vm_start
                    (u64 (vm_end - vm_start)) obj_offset fuel 0 s0) as Hfirst.
      fold write s0 in Hext.
      destruct (extends_trans _ _ _ Hfirst Hext) as [more Hmore].
      rewrite Hmore, Hpass. unfold cpu_populate.
      destruct (Z.eqb_spec (pin_pages_sync env 0) 0) as [Hpin | Hpin];
        cbn [negb snd].
      * eexists. split.
        -- destruct (has_pinned_pages _); cbn; rewrite <- !app_assoc;
             cbn; reflexivity.
        -- intros _. eexists. eexists. reflexivity.
      * exists more. split; [| intros H0; contradiction].
        destruct (has_pinned_pages _); cbn; rewrite <- !app_assoc;
          cbn; reflexivity.
    + intros Hpin Hd Hx Hm.
      rewrite Hrun, cpu_loop_final; rewrite Hpass; unfold cpu_populate;
        rewrite Hpin; cbn [Z.eqb negb fst snd]; try assumption.
      rewrite (surjective_pairing (i915_error_to_vmf_fault _ _)).
      rewrite vmf_of_error_any. reflexivity.
  - intros Hshould Herr.
    destruct (Hdead write vm_start (u64 (vm_end - vm_start)) obj_offset 0%nat
                0%nat s0 Hlock Hshould Herr) as (Hpass & _).
    cbn [fs_obj s0 log with_obj userfault_list set_active] in Hpass.
    split.
    + intros Hback [| [| fuel]] Hfuel; try lia.
      pose proof (vm_fault_cpu_extends_loop env cfg i915 vmf (S (S fuel)) st
                    target vm_start vm_end obj_offset Hro Hinv Hwin) as Hext.
      fold write s0 in Hext.
      rewrite cpu_loop_deadlock in Hext by (now rewrite Hpass).
      rewrite Hback, Hpass in Hext. cbn [Z.eqb orb snd] in Hext.
      match type of Hext with
      | extends (snd (cpu_loop _ _ _ _ _ _ _ _ _ ?s2)) _ =>
          pose proof (cpu_loop_extends_pass env cfg i915 write vm_start
                        (u64 (vm_end - vm_start)) obj_offset fuel 1 s2)
            as Hloop;
          pose proof (cpu_pass_extends_lock env cfg i915 write vm_start
                        (u64 (vm_end - vm_start)) obj_offset 1 s2) as Hlk
      end.
      destruct (extends_trans _ _ _ Hlk (extends_trans _ _ _ Hloop Hext))
        as [rest Hrest].
      exists rest. rewrite Hrest. cbn. rewrite <- ?app_assoc. reflexivity.
    + intros H0 Hd Hx Hm [| fuel] Hfuel; [lia |].
      rewrite Hrun, cpu_loop_deadlock by (now rewrite Hpass).
      apply Z.eqb_neq in H0, Hd, Hx, Hm. rewrite H0, Hd, Hx, Hm, Hpass.
      cbn [orb fst snd].
      rewrite (surjective_pairing (i915_error_to_vmf_fault _ _)).
      rewrite vmf_of_error_any. unfold cpu_out. cbn [fst snd].
      split; [reflexivity |]. unfold s0.
      cbn [active_fault_handlers set_warn log with_obj set_active].
      destruct (active_fault_handlers st + 1 - 1 =? 0).
      * exists [EvWakeUp]. cbn. rewrite <- ?app_assoc.
        split; [reflexivity | now repeat constructor].
      * exists []. cbn. rewrite <- ?app_assoc.
        split; [reflexivity | constructor].
Qed.

Lemma direct_fault_migration_policy_witness :
  fst (vm_fault_cpu required_env swap_config plain_device write_fault 2
         pinned_state) = Done VM_FAULT_SIGBUS /\
  fst (vm_fault_cpu optional_env swap_config plain_device write_fault 2
         unpinned_state) = Done VM_FAULT_NOPAGE /\
  fst (vm_fault_cpu deadlock_env swap_config plain_device write_fault 2
         unpinned_state) = Done VM_FAULT_NOPAGE /\
  exists rest,
    fs_trace (snd (vm_fault_cpu backoff_env swap_config plain_device
                     write_fault 2 unpinned_state))
    = [EvWwInit; EvLock; EvMigrate; EvWwBackoff; EvLock] ++ rest.
Proof.
  split; [| split; [| split]].
  - destruct (direct_fault_migration_policy required_env swap_config
                plain_device write_fault pinned_state pinned_object
                65536 (65536 + 16 * 4096) 0)
      as (Hrequired & _);
      [reflexivity | reflexivity | reflexivity | reflexivity |].
    apply Hrequired; [reflexivity | reflexivity | lia].
  - destruct (direct_fault_migration_policy optional_env swap_config
                plain_device write_fault unpinned_state unpinned_object
                65536 (65536 + 16 * 4096) 0)
      as (_ & Hoptional & _);
      [reflexivity | reflexivity | reflexivity | reflexivity |].
    destruct (Hoptional eq_refl ltac:(discriminate) 2%nat ltac:(lia))
      as (_ & Hret).
    apply Hret; [reflexivity | discriminate | discriminate | discriminate].
  - destruct (direct_fault_migration_policy deadlock_env swap_config
                plain_device write_fault unpinned_state unpinned_object
                65536 (65536 + 16 * 4096) 0)
      as (_ & _ & _ & _ & _ & Hdeadlock);
      [reflexivity | reflexivity | reflexivity | reflexivity |].
    destruct (Hdeadlock eq_refl eq_refl) as (_ & Hfails).
    apply (Hfails ltac:(discriminate) ltac:(discriminate)
                  ltac:(discriminate) ltac:(discriminate) 2%nat ltac:(lia)).
  - destruct (direct_fault_migration_policy backoff_env swap_config
                plain_device write_fault unpinned_state unpinned_object
                65536 (65536 + 16 * 4096) 0)
      as (_ & _ & _ & _ & _ & Hdeadlock);
      [reflexivity | reflexivity | reflexivity | reflexivity |].
    destruct (Hdeadlock eq_refl eq_refl) as (Hrestarts & _).
    apply (Hrestarts eq_refl 2%nat ltac:(lia)).
Defined.

(** C7, as stated, fails when the optional migration is told to back
    off (-EDEADLK): the pass is left at once, and when the back-off is
    interrupted the fault ends without pinning or populating anything. *)
Lemma optional_migration_deadlock_does_not_proceed :
  should_migrate_smem deadlock_env 0 = (true, false) /\
  has_pinned_pages unpinned_object = false /\
  migrate_to_smem deadlock_env 0 <> 0 /\
  vm_fault_cpu deadlock_env swap_config plain_device write_fault 5
    unpinned_state
  = (Done VM_FAULT_NOPAGE,
     mk_fs unpinned_object [] 0 warn_init
       [EvWwInit; EvLock; EvMigrate; EvWwBackoff; EvWwFini; EvWakeUp]) /\
  ~ In EvPinPages
       (fs_trace (snd (vm_fault_cpu deadlock_env swap_config plain_device
                         write_fault 5 unpinned_state))).
Proof.
  split; [reflexivity |]. split; [reflexivity |].
  split; [discriminate |]. split; [reflexivity |].
  cbn. intros H. repeat destruct H as [H | H]; try discriminate H. exact H.
Qed.

(** ** The registry as a search tree *)

Lemma mmap_type_val_inj (a b : i915_mmap_type) :
  mmap_type_val a = mmap_type_val b -> a = b.
Proof. destruct a, b; cbn; intros H; congruence. Qed.

Lemma rb_all_impl (P Q : i915_mmap_offset -> Prop) (t : rb_root) :
  (forall m, P m -> Q m) -> rb_all P t -> rb_all Q t.
Proof.
  intros HPQ. induction t as [| l IHl m r IHr]; cbn; [tauto |].
  intros (Hl & Hm & Hr). auto.
Qed.

(** The walk of [insert_mmo] meets what the walk of [lookup_mmo] finds:
    they take the same way down. *)
Lemma insert_walk_found (p : rb_root) (mmo : i915_mmap_offset) :
  snd (insert_walk p mmo) = lookup_walk p (mmap_type mmo).
Proof.
  induction p as [| l IHl pos r IHr]; cbn; [reflexivity |].
  destruct (bool_decide (mmap_type pos = mmap_type mmo)); [reflexivity |].
  destruct (_ <? _).
  - destruct (insert_walk r mmo) as [r' found]. exact IHr.
  - destruct (insert_walk l mmo) as [l' found]. exact IHl.
Qed.

(** A record that is met leaves the tree as it is. *)
Lemma insert_walk_same (p : rb_root) (mmo pos : i915_mmap_offset) :
  snd (insert_walk p mmo) = Some pos -> fst (insert_walk p mmo) = p.
Proof.
  induction p as [| l IHl q r IHr]; cbn; [discriminate |].
  destruct (bool_decide (mmap_type q = mmap_type mmo)); [reflexivity |].
  destruct (_ <? _).
  - destruct (insert_walk r mmo) as [r' found]. cbn in *.
    intros H. now rewrite (IHr H).
  - destruct (insert_walk l mmo) as [l' found]. cbn in *.
    intros H. now rewrite (IHl H).
Qed.

(** After the walk the lookup of the kind finds the record that was met
    or else the new one: the assertion
    [GEM_BUG_ON(lookup_mmo(obj, mmap_type) != mmo)]. *)
Lemma lookup_after_insert (p : rb_root) (mmo : i915_mmap_offset) :
  lookup_walk (fst (insert_walk p mmo)) (mmap_type mmo)
  = Some (default mmo (snd (insert_walk p mmo))).
Proof.
  induction p as [| l IHl q r IHr]; cbn.
  - now rewrite bool_decide_eq_true_2.
  - destruct (bool_decide_reflect (mmap_type q = mmap_type mmo)) as [Heq | Hne];
      cbn.
    + now rewrite bool_decide_eq_true_2.
    + destruct (_ <? _) eqn:Hlt.
      * destruct (insert_walk r mmo) as [r' found]. cbn in *.
        now rewrite bool_decide_eq_false_2, Hlt.
      * destruct (insert_walk l mmo) as [l' found]. cbn in *.
        now rewrite bool_decide_eq_false_2, Hlt.
Qed.

(** The other kinds are looked up as before. *)
Lemma lookup_other_after_insert (p : rb_root) (mmo : i915_mmap_offset)
    (t : i915_mmap_type) :
  t <> mmap_type mmo ->
  lookup_walk (fst (insert_walk p mmo)) t = lookup_walk p t.
Proof.
  intros Ht. induction p as [| l IHl q r IHr]; cbn.
  - rewrite bool_decide_eq_false_2 by congruence.
    now destruct (_ <? _).
  - destruct (bool_decide (mmap_type q = mmap_type mmo)); [reflexivity |].
    destruct (mmap_type_val (mmap_type q) <? mmap_type_val (mmap_type mmo)).
    + destruct (insert_walk r mmo) as [r' found]. cbn in *.
      now rewrite IHr.
    + destruct (insert_walk l mmo) as [l' found]. cbn in *.
      now rewrite IHl.
Qed.

Lemma insert_walk_all (P : i915_mmap_offset -> Prop) (p : rb_root)
    (mmo : i915_mmap_offset) :
  P mmo -> rb_all P p -> rb_all P (fst (insert_walk p mmo)).
Proof.
  intros Hmmo. induction p as [| l IHl q r IHr]; cbn; [tauto |].
  intros (Hl & Hq & Hr).
  destruct (bool_decide (mmap_type q = mmap_type mmo)); [cbn; tauto |].
  destruct (_ <? _).
  - destruct (insert_walk r mmo) as [r' found]. cbn in *. tauto.
  - destruct (insert_walk l mmo) as [l' found]. cbn in *. tauto.
Qed.

(** Linking keeps the tree a search tree. *)
Lemma insert_walk_ordered (p : rb_root) (mmo : i915_mmap_offset) :
  rb_ordered p -> rb_ordered (fst (insert_walk p mmo)).
Proof.
  induction p as [| l IHl q r IHr]; cbn; [tauto |].
  intros (Hl & Hr & Hol & Hor).
  destruct (bool_decide_reflect (mmap_type q = mmap_type mmo)) as [| Hne];
    [cbn; tauto |].
  destruct (Z.ltb_spec (mmap_type_val (mmap_type q))
                       (mmap_type_val (mmap_type mmo))) as [Hlt | Hge].
  - pose proof (insert_walk_all
                  (fun x => mmap_type_val (mmap_type q)
                            < mmap_type_val (mmap_type x)) r mmo Hlt Hr).
    destruct (insert_walk r mmo) as [r' found]. cbn in *. tauto.
  - assert (Hgt : mmap_type_val (mmap_type mmo) < mmap_type_val (mmap_type q)).
    { destruct (Z.eq_dec (mmap_type_val (mmap_type mmo))
                         (mmap_type_val (mmap_type q))) as [Heq |]; [| lia].
      apply mmap_type_val_inj in Heq. congruence. }
    pose proof (insert_walk_all
                  (fun x => mmap_type_val (mmap_type x)
                            < mmap_type_val (mmap_type q)) l mmo Hgt Hl).
    destruct (insert_walk l mmo) as [l' found]. cbn in *. tauto.
Qed.

Lemma kind_count_node (l r : rb_root) (m : i915_mmap_offset)
    (k : i915_mmap_type) :
  kind_count (rb_node l m r) k
  = (kind_count l k + kind_count r k
     + (if decide (mmap_type m = k) then 1 else 0))%nat.
Proof.
  unfold kind_count. cbn [rb_postorder].
  rewrite !filter_app, !length_app, filter_cons, filter_nil.
  destruct (decide (mmap_type m = k)); cbn; lia.
Qed.

Lemma kind_count_absent (t : rb_root) (k : i915_mmap_type) :
  rb_all (fun x => mmap_type x <> k) t -> kind_count t k = 0%nat.
Proof.
  induction t as [| l IHl m r IHr]; [reflexivity |].
  cbn [rb_all]. intros (Hl & Hm & Hr). rewrite kind_count_node.
  rewrite (IHl Hl), (IHr Hr). now destruct (decide (mmap_type m = k)).
Qed.

(** A search tree holds one record of a kind at most. *)
Lemma ordered_kind_count (t : rb_root) (k : i915_mmap_type) :
  rb_ordered t -> (kind_count t k <= 1)%nat.
Proof.
  induction t as [| l IHl m r IHr]; [cbn; lia |].
  cbn [rb_ordered]. intros (Hl & Hr & Hol & Hor). rewrite kind_count_node.
  specialize (IHl Hol). specialize (IHr Hor).
  destruct (Z.lt_trichotomy (mmap_type_val (mmap_type m)) (mmap_type_val k))
    as [Hlt | [Heq | Hgt]].
  - rewrite (kind_count_absent l k).
    + destruct (decide (mmap_type m = k)) as [<- |]; lia.
    + eapply rb_all_impl; [| exact Hl]. cbn. intros x Hx Hk. rewrite Hk in Hx. lia.
  - rewrite (kind_count_absent l k), (kind_count_absent r k).
    + destruct (decide (mmap_type m = k)); lia.
    + eapply rb_all_impl; [| exact Hr]. cbn. intros x Hx Hk. rewrite Hk in Hx. lia.
    + eapply rb_all_impl; [| exact Hl]. cbn. intros x Hx Hk. rewrite Hk in Hx. lia.
  - rewrite (kind_count_absent r k).
    + destruct (decide (mmap_type m = k)) as [<- |]; lia.
    + eapply rb_all_impl; [| exact Hr]. cbn. intros x Hx Hk. rewrite Hk in Hx. lia.
Qed.

(** Storing a node keeps the kinds, hence the order and the way down. *)
Lemma store_node_all (P : i915_mmap_type -> Prop) (rb : rb_root)
    (t : i915_mmap_type) (node : drm_vma_offset_node) :
  rb_all (fun x => P (mmap_type x)) rb ->
  rb_all (fun x => P (mmap_type x)) (store_node rb t node).
Proof.
  induction rb as [| l IHl m r IHr]; cbn; [tauto |].
  intros (Hl & Hm & Hr).
  destruct (bool_decide_reflect (mmap_type m = t)) as [<- |]; cbn; [tauto |].
  destruct (_ <? _); cbn; tauto.
Qed.

Lemma store_node_ordered (rb : rb_root) (t : i915_mmap_type)
    (node : drm_vma_offset_node) :
  rb_ordered rb -> rb_ordered (store_node rb t node).
Proof.
  induction rb as [| l IHl m r IHr]; cbn; [tauto |].
  intros (Hl & Hr & Hol & Hor).
  destruct (bool_decide_reflect (mmap_type m = t)) as [<- |]; cbn; [tauto |].
  destruct (_ <? _); cbn.
  - repeat split; try tauto.
    apply (store_node_all (fun k => mmap_type_val (mmap_type m)
                                    < mmap_type_val k)). exact Hr.
  - repeat split; try tauto.
    apply (store_node_all (fun k => mmap_type_val k
                                    < mmap_type_val (mmap_type m))). exact Hl.
Qed.

Lemma lookup_store_same (rb : rb_root) (t : i915_mmap_type)
    (node : drm_vma_offset_node) :
  lookup_walk (store_node rb t node) t
  = (fun m => mk_mmo (mmo_obj m) t node) <$> lookup_walk rb t.
Proof.
  induction rb as [| l IHl m r IHr]; cbn; [reflexivity |].
  destruct (bool_decide_reflect (mmap_type m = t)) as [Hmt | Hmt]; cbn.
  - now rewrite bool_decide_eq_true_2.
  - destruct (_ <? _) eqn:Hlt; cbn;
      now rewrite bool_decide_eq_false_2, Hlt by assumption.
Qed.

Lemma lookup_store_other (rb : rb_root) (t t' : i915_mmap_type)
    (node : drm_vma_offset_node) :
  t' <> t ->
  lookup_walk (store_node rb t node) t' = lookup_walk rb t'.
Proof.
  intros Hne. induction rb as [| l IHl m r IHr]; cbn; [reflexivity |].
  destruct (bool_decide_reflect (mmap_type m = t)) as [Hmt | Hmt]; cbn.
  - rewrite !bool_decide_eq_false_2 by congruence. now rewrite Hmt.
  - destruct (mmap_type_val (mmap_type m) <? mmap_type_val t); cbn;
      destruct (bool_decide (mmap_type m = t')); try reflexivity;
      destruct (mmap_type_val (mmap_type m) <? mmap_type_val t'); auto.
Qed.

(** ** Allocation of the offset region *)

Section Attach.

Context `{VmaManager M}.

Lemma world_add_eq (w : world M) (pages : Z) :
  world_add w pages
  = (add_err (w_mgr w) pages,
     mk_world (add_mgr (w_mgr w) pages) (w_obj w)
              (w_log w ++ [MgrAdd pages (add_err (w_mgr w) pages)]),
     add_start (w_mgr w) pages).
Proof.
  unfold world_add, add_err, add_mgr, add_start.
  now destruct (drm_vma_offset_add (w_mgr w) pages) as [[err mgr] start].
Qed.

(** Linking a record of a kind the registry does not hold yet. *)
Lemma insert_mmo_new (w : world M) (mmo : i915_mmap_offset) :
  lookup_mmo (w_obj w) (mmap_type mmo) = None ->
  insert_mmo w mmo
  = (mmo,
     mk_world (w_mgr w)
       (set_mmo_offsets (w_obj w)
          (fst (insert_walk (mmo_offsets (w_obj w)) mmo)))
       (w_log w)).
Proof.
  intros Hnone. unfold insert_mmo.
  pose proof (insert_walk_found (mmo_offsets (w_obj w)) mmo) as Hfound.
  unfold lookup_mmo in Hnone. rewrite Hnone in Hfound.
  destruct (insert_walk (mmo_offsets (w_obj w)) mmo) as [t found].
  cbn in *. now subst found.
Qed.

Lemma allow_once_keeps_region (new_ok : bool) (node : drm_vma_offset_node)
    (tag : nat) :
  node_start (snd (vma_node_allow_once new_ok node tag)) = node_start node /\
  node_pages (snd (vma_node_allow_once new_ok node tag)) = node_pages node.
Proof.
  unfold vma_node_allow_once.
  destruct (bool_decide (tag ∈ vm_files node)); [now split |].
  destruct new_ok; now split.
Qed.

Lemma allow_once_result (new_ok : bool) (node : drm_vma_offset_node)
    (tag : nat) :
  fst (vma_node_allow_once new_ok node tag)
  = if bool_decide (tag ∈ vm_files node) || new_ok then 0 else - ENOMEM.
Proof.
  unfold vma_node_allow_once.
  destruct (bool_decide (tag ∈ vm_files node)); [reflexivity |].
  now destruct new_ok.
Qed.

(** The label [out] for a record the registry holds. *)
Lemma attach_out_linked (new_ok : bool) (w : world M)
    (mmo : i915_mmap_offset) (file : option nat) :
  lookup_mmo (w_obj w) (mmap_type mmo) = Some mmo ->
  w_log (snd (attach_out new_ok w mmo file)) = w_log w /\
  w_mgr (snd (attach_out new_ok w mmo file)) = w_mgr w /\
  (exists cur,
      lookup_mmo (w_obj (snd (attach_out new_ok w mmo file))) (mmap_type mmo)
        = Some cur /\
      node_start (vma_node cur) = node_start (vma_node mmo) /\
      node_pages (vma_node cur) = node_pages (vma_node mmo)) /\
  (file = None \/ new_ok = true ->
   exists r, fst (attach_out new_ok w mmo file) = inr r /\
             node_start (vma_node r) = node_start (vma_node mmo)) /\
  (forall tag, file = Some tag -> new_ok = false ->
               tag ∉ vm_files (vma_node mmo) ->
               fst (attach_out new_ok w mmo file) = inl (- ENOMEM)).
Proof.
  intros Hlinked. unfold attach_out.
  destruct file as [tag |]; cbn [fst snd].
  - rewrite Hlinked. change (default mmo (Some mmo)) with mmo.
    pose proof (allow_once_keeps_region new_ok (vma_node mmo) tag)
      as [Hstart Hpages].
    pose proof (allow_once_result new_ok (vma_node mmo) tag) as Hres.
    destruct (vma_node_allow_once new_ok (vma_node mmo) tag) as [err node].
    cbn [fst snd] in *.
    assert (Hcur : lookup_mmo
                     (set_mmo_offsets (w_obj w)
                        (store_node (mmo_offsets (w_obj w)) (mmap_type mmo)
                                    node)) (mmap_type mmo)
                   = Some (mk_mmo (mmo_obj mmo) (mmap_type mmo) node)).
    { unfold lookup_mmo in *. cbn. rewrite lookup_store_same, Hlinked.
      reflexivity. }
    split; [now destruct (negb (err =? 0)) |].
    split; [now destruct (negb (err =? 0)) |].
    split; [| split].
    + exists (mk_mmo (mmo_obj mmo) (mmap_type mmo) node).
      split; [| split; [exact Hstart | exact Hpages]].
      destruct (negb (err =? 0)); exact Hcur.
    + intros [Hfile | ->]; [discriminate |].
      rewrite orb_true_r in Hres. subst err. cbn. eauto.
    + intros tag' [= <-] -> Hout.
      rewrite bool_decide_eq_false_2 in Hres by exact Hout.
      cbn in Hres. subst err. reflexivity.
  - split; [reflexivity |]. split; [reflexivity |].
    split; [eauto |]. split; [eauto |]. discriminate.
Qed.

(** C6 (amended). When the registry holds no record of the kind and the
    first allocation of the offset region fails, the address space of
    dead objects is reclaimed and the allocation is retried, both exactly
    once. If the retry fails too, the operation fails with the error of
    the allocation and the registry is as before. If the retry succeeds,
    the record is linked into the registry with the region allocated, and
    the operation returns it, unless the requester cannot be added to the
    allow-list of the record for lack of memory: then the operation fails
    with -ENOMEM. *)
Theorem attach_reclaims_and_retries_once (new_ok : bool) (w : world M)
    (t : i915_mmap_type) (file : option nat) :
  let pages := attach_pages (w_obj w) in
  let err1 := add_err (w_mgr w) pages in
  let err2 := add_err (reclaimed w) pages in
  let start := add_start (reclaimed w) pages in
  let result := i915_gem_mmap_offset_attach true new_ok w t file in
  lookup_mmo (w_obj w) t = None ->
  err1 <> 0 ->
  w_log (snd result)
    = w_log w ++ [MgrAdd pages err1; MgrReap; MgrAdd pages err2] /\
  w_mgr (snd result) = add_mgr (reclaimed w) pages /\
  (err2 <> 0 -> fst result = inl err2 /\ w_obj (snd result) = w_obj w) /\
  (err2 = 0 ->
   (exists mmo,
       lookup_mmo (w_obj (snd result)) t = Some mmo /\
       mmap_type mmo = t /\
       node_start (vma_node mmo) = start /\
       node_pages (vma_node mmo) = pages) /\
   (file = None \/ new_ok = true ->
    exists mmo, fst result = inr mmo /\ node_start (vma_node mmo) = start) /\
   (forall tag, file = Some tag -> new_ok = false ->
                fst result = inl (- ENOMEM))).
Proof.
  cbn zeta. intros Hnone Herr1.
  unfold i915_gem_mmap_offset_attach. rewrite Hnone. cbn [negb].
  fold (attach_pages (w_obj w)). rewrite world_add_eq.
  apply Z.eqb_neq in Herr1. rewrite Herr1.
  unfold world_reap. cbn [w_mgr w_obj w_log]. rewrite world_add_eq.
  cbn [w_mgr w_obj w_log]. fold (reclaimed w).
  set (pages := attach_pages (w_obj w)).
  set (err2 := add_err (reclaimed w) pages).
  set (start := add_start (reclaimed w) pages).
  set (mmo := mk_mmo (obj_id (w_obj w)) t (mk_node start pages [])).
  rewrite <- !app_assoc. cbn [app].
  destruct (Z.eqb_spec err2 0) as [H0 | Hn0]; cbn [negb].
  - (* the retry succeeded: link the record, then the label out *)
    set (w2 := mk_world (add_mgr (reclaimed w) pages) (w_obj w)
                 (w_log w ++ [MgrAdd pages (add_err (w_mgr w) pages);
                              MgrReap; MgrAdd pages err2])).
    assert (Hnone2 : lookup_mmo (w_obj w2) (mmap_type mmo) = None)
      by exact Hnone.
    rewrite (insert_mmo_new w2 mmo Hnone2).
    set (w3 := mk_world _ _ _).
    assert (Hlinked : lookup_mmo (w_obj w3) (mmap_type mmo) = Some mmo).
    { unfold lookup_mmo, w3. cbn [w_obj mmo_offsets set_mmo_offsets].
      rewrite lookup_after_insert, insert_walk_found.
      unfold lookup_mmo in Hnone2. now rewrite Hnone2. }
    destruct (attach_out_linked new_ok w3 mmo file Hlinked)
      as (Hlog & Hmgr & (cur & Hcur & Hcs & Hcp) & Hok & Hfail).
    split; [exact Hlog |]. split; [exact Hmgr |].
    split; [intros Hne; contradiction |]. intros _.
    split; [| split].
    + exists cur. repeat split; try assumption.
      apply lookup_walk_In in Hcur. tauto.
    + exact Hok.
    + intros tag Hfile Hnew. apply (Hfail tag Hfile Hnew).
      cbn. apply not_elem_of_nil.
  - cbn [fst snd w_log w_mgr w_obj].
    repeat split; try reflexivity; try contradiction.
Qed.

End Attach.

Lemma attach_reclaims_and_retries_once_witness :
  (exists mmo,
      fst (i915_gem_mmap_offset_attach true true reclaimable_world
             I915_MMAP_TYPE_WB (Some 9%nat)) = inr mmo /\
      node_start (vma_node mmo) = 4096) /\
  fst (i915_gem_mmap_offset_attach true true exhausted_world
         I915_MMAP_TYPE_WB (Some 9%nat)) = inl (- ENOSPC) /\
  w_log (snd (i915_gem_mmap_offset_attach true true exhausted_world
                I915_MMAP_TYPE_WB (Some 9%nat)))
  = [MgrAdd 16 (- ENOSPC); MgrReap; MgrAdd 16 (- ENOSPC)].
Proof.
  assert (Hfull : forall w : world page_pool,
             pool_free (w_mgr w) = 0 -> attach_pages (w_obj w) = 16 ->
             add_err (w_mgr w) (attach_pages (w_obj w)) <> 0).
  { intros w Hfree Hpages. unfold add_err. cbn. rewrite Hfree, Hpages.
    cbn. discriminate. }
  pose proof (attach_reclaims_and_retries_once true reclaimable_world
                I915_MMAP_TYPE_WB (Some 9%nat) eq_refl
                (Hfull reclaimable_world eq_refl eq_refl))
    as (_ & _ & _ & Hgood).
  pose proof (attach_reclaims_and_retries_once true exhausted_world
                I915_MMAP_TYPE_WB (Some 9%nat) eq_refl
                (Hfull exhausted_world eq_refl eq_refl))
    as (Hlog & _ & Hbad & _).
  split; [| split].
  - apply (Hgood eq_refl). now right.
  - apply Hbad. discriminate.
  - exact Hlog.
Defined.

(** C6, as stated, fails when the retry succeeds but the requester cannot
    be put on the allow-list of the new record: the region is allocated
    after the reclamation and the operation still fails. *)
Lemma attach_fails_after_successful_retry :
  lookup_mmo (w_obj reclaimable_world) I915_MMAP_TYPE_WB = None /\
  w_log (snd (i915_gem_mmap_offset_attach true false reclaimable_world
                I915_MMAP_TYPE_WB (Some 9%nat)))
  = [MgrAdd 16 (- ENOSPC); MgrReap; MgrAdd 16 0] /\
  fst (i915_gem_mmap_offset_attach true false reclaimable_world
         I915_MMAP_TYPE_WB (Some 9%nat)) = inl (- ENOMEM).
Proof.
  repeat split; reflexivity.
Qed.

(** ** Concurrent callers *)

Lemma registry_grows_refl (obj : drm_i915_gem_object) : registry_grows obj obj.
Proof. intros t cur Hcur. eauto. Qed.

Lemma holds_grows (obj obj' : drm_i915_gem_object) (t : i915_mmap_type)
    (mmo : i915_mmap_offset) :
  registry_grows obj obj' -> holds obj t mmo -> holds obj' t mmo.
Proof.
  intros Hgrow (Hty & cur & Hcur & Hstart). split; [exact Hty |].
  destruct (Hgrow t cur Hcur) as (cur' & Hcur' & Hstart').
  exists cur'. split; [exact Hcur' | congruence].
Qed.

Lemma pc_linked_grows (obj obj' : drm_i915_gem_object) (th : attach_thread) :
  registry_grows obj obj' -> pc_linked obj th -> pc_linked obj' th.
Proof.
  intros Hgrow. unfold pc_linked.
  destruct (th_pc th) as [| | | | | mmo | mmo pos | mmo | [err | mmo]];
    try tauto; eauto using holds_grows.
  intros [Hty Hpos]. eauto using holds_grows.
Qed.

Section Interleaving.

Context `{VmaManager M}.

(** Linking changes the registry for the kind of the new record only. *)
Lemma insert_grows (obj : drm_i915_gem_object) (mmo : i915_mmap_offset) :
  registry_grows obj
    (set_mmo_offsets obj (fst (insert_walk (mmo_offsets obj) mmo))).
Proof.
  intros t cur Hcur. unfold lookup_mmo in *. cbn.
  destruct (decide (t = mmap_type mmo)) as [-> | Hne].
  - pose proof (insert_walk_found (mmo_offsets obj) mmo) as Hfound.
    rewrite Hcur in Hfound.
    rewrite (insert_walk_same _ _ _ Hfound). eauto.
  - rewrite lookup_other_after_insert by exact Hne. eauto.
Qed.

(** Storing a node with the same start keeps every region. *)
Lemma store_grows (obj : drm_i915_gem_object) (t : i915_mmap_type)
    (cur : i915_mmap_offset) (node : drm_vma_offset_node) :
  lookup_mmo obj t = Some cur ->
  node_start node = node_start (vma_node cur) ->
  registry_grows obj
    (set_mmo_offsets obj (store_node (mmo_offsets obj) t node)).
Proof.
  intros Hcur Hstart t' cur' Hcur'. unfold lookup_mmo in *. cbn.
  destruct (decide (t' = t)) as [-> | Hne].
  - rewrite lookup_store_same, Hcur. cbn. eexists. split; [reflexivity |].
    cbn. congruence.
  - rewrite lookup_store_other by exact Hne. eauto.
Qed.

(** A step of a thread keeps the registry a search tree, keeps every
    region, and leaves the thread with a record the registry holds. *)
Lemma attach_step_inv (km : bool) (th : attach_thread) (w w' : world M)
    (pc : attach_pc) :
  rb_ordered (mmo_offsets (w_obj w)) ->
  pc_linked (w_obj w) th ->
  attach_step km th w = (pc, w') ->
  rb_ordered (mmo_offsets (w_obj w')) /\
  registry_grows (w_obj w) (w_obj w') /\
  pc_linked (w_obj w') (set_pc th pc).
Proof.
  intros Hord Hlinked Hstep. unfold attach_step in Hstep.
  unfold pc_linked in *. cbn [th_pc th_type set_pc].
  destruct (th_pc th) as [| | | | | mmo | mmo pos | mmo | r] eqn:Hpc.
  - (* lookup *)
    destruct (lookup_mmo (w_obj w) (th_type th)) as [mmo |] eqn:Hlook;
      injection Hstep as <- <-;
      (split; [exact Hord |]); (split; [apply registry_grows_refl |]);
      [| exact I].
    destruct (lookup_walk_In _ _ _ Hlook) as [_ Hty].
    split; [exact Hty | eauto].
  - (* kmalloc *)
    destruct km; injection Hstep as <- <-;
      (split; [exact Hord |]); (split; [apply registry_grows_refl |]);
      exact I.
  - (* the first add *)
    rewrite world_add_eq in Hstep.
    destruct (_ =? 0); injection Hstep as <- <-; cbn;
      (split; [exact Hord |]); (split; [apply registry_grows_refl |]);
      [reflexivity | exact I].
  - (* reclamation *)
    injection Hstep as <- <-. cbn.
    split; [exact Hord |]. split; [apply registry_grows_refl | exact I].
  - (* the second add *)
    rewrite world_add_eq in Hstep.
    destruct (negb _); injection Hstep as <- <-; cbn;
      (split; [exact Hord |]); (split; [apply registry_grows_refl |]);
      [exact I | reflexivity].
  - (* insert_mmo, under the lock *)
    pose proof (insert_walk_found (mmo_offsets (w_obj w)) mmo) as Hfound.
    pose proof (lookup_after_insert (mmo_offsets (w_obj w)) mmo) as Hafter.
    pose proof (insert_walk_ordered (mmo_offsets (w_obj w)) mmo Hord) as Hord'.
    pose proof (insert_grows (w_obj w) mmo) as Hgrow.
    destruct (insert_walk (mmo_offsets (w_obj w)) mmo) as [t [pos |]];
      cbn [fst snd] in *; injection Hstep as <- <-; cbn [w_obj].
    + split; [exact Hord |]. split; [apply registry_grows_refl |].
      split; [exact Hlinked |].
      symmetry in Hfound. destruct (lookup_walk_In _ _ _ Hfound) as [_ Hty].
      split; [congruence |]. exists pos. unfold lookup_mmo.
      rewrite <- Hlinked. split; [exact Hfound | reflexivity].
    + split; [exact Hord' |]. split; [exact Hgrow |].
      split; [exact Hlinked |]. exists mmo. unfold lookup_mmo. cbn.
      rewrite <- Hlinked. split; [exact Hafter | reflexivity].
  - (* insert_mmo, after the unlock *)
    injection Hstep as <- <-. cbn [w_obj].
    split; [exact Hord |]. split; [apply registry_grows_refl | tauto].
  - (* out *)
    destruct Hlinked as (Hty & cur & Hcur & Hstart).
    unfold attach_out in Hstep.
    destruct (th_file th) as [tag |].
    + rewrite Hty, Hcur in Hstep. change (default mmo (Some cur)) with cur in Hstep.
      destruct (allow_once_keeps_region km (vma_node cur) tag) as [Hns _].
      destruct (vma_node_allow_once km (vma_node cur) tag) as [err node].
      cbn [snd] in Hns.
      assert (Hgrow : registry_grows (w_obj w)
                (set_mmo_offsets (w_obj w)
                   (store_node (mmo_offsets (w_obj w)) (th_type th) node)))
        by (eapply store_grows; eassumption).
      assert (Hord' : rb_ordered
                (store_node (mmo_offsets (w_obj w)) (th_type th) node))
        by (apply store_node_ordered; exact Hord).
      destruct (negb (err =? 0)); injection Hstep as <- <-; cbn [w_obj];
        (split; [exact Hord' |]); (split; [exact Hgrow |]); [exact I |].
      split; [reflexivity |].
      eexists. unfold lookup_mmo in *. cbn.
      rewrite lookup_store_same, Hcur. cbn. split; [reflexivity |].
      reflexivity.
    + injection Hstep as <- <-.
      split; [exact Hord |]. split; [apply registry_grows_refl |].
      split; [exact Hty | eauto].
  - (* returned *)
    injection Hstep as <- <-.
    split; [exact Hord |]. split; [apply registry_grows_refl |].
    exact Hlinked.
Qed.

Lemma interleave_inv (c c' : world M * list attach_thread) :
  attach_inv c -> attach_interleave c c' -> attach_inv c'.
Proof.
  intros [Hord Hall] Hstep.
  destruct Hstep as [w w' ths i th km pc Hth Hrun Hstep]. cbn [fst snd] in *.
  pose proof (proj1 (Forall_lookup _ _) Hall i th Hth) as Hlinked.
  destruct (attach_step_inv km th w w' pc Hord Hlinked Hstep)
    as (Hord' & Hgrow & Hlinked').
  split; [exact Hord' |]. cbn [fst snd].
  apply Forall_insert; [| exact Hlinked'].
  eapply Forall_impl; [exact Hall |].
  intros th'. apply pc_linked_grows. exact Hgrow.
Qed.

Lemma reachable_inv (init c : world M * list attach_thread) :
  attach_inv init -> attach_reachable init c -> attach_inv c.
Proof.
  intros Hinit Hreach. induction Hreach as [| c c' Hreach IH Hstep].
  - exact Hinit.
  - eapply interleave_inv; eassumption.
Qed.

(** C1. Whatever the interleaving of any number of callers of
    [i915_gem_mmap_offset_attach] on an object, the registry of the
    object holds one record of a kind at most; two callers of the same
    kind that return a record return the same offset; and a caller that
    comes to link its record when the registry already holds one of the
    kind leaves the registry alone, gives its region back to the manager
    and continues with the record it found. *)
Theorem one_record_per_kind (w0 w : world M) (ths0 ths : list attach_thread) :
  rb_ordered (mmo_offsets (w_obj w0)) ->
  Forall (fun th => th_pc th = AtLookup) ths0 ->
  attach_reachable (w0, ths0) (w, ths) ->
  (forall k, (kind_count (mmo_offsets (w_obj w)) k <= 1)%nat) /\
  (forall i j thi thj mi mj,
      ths !! i = Some thi -> ths !! j = Some thj ->
      th_type thi = th_type thj ->
      th_pc thi = AtReturn (inr mi) -> th_pc thj = AtReturn (inr mj) ->
      assign_offset (inr mi) = assign_offset (inr mj)) /\
  (forall i th mmo pos km,
      ths !! i = Some th ->
      th_pc th = AtInsert mmo ->
      lookup_mmo (w_obj w) (th_type th) = Some pos ->
      attach_step km th w = (AtDiscard mmo pos, w) /\
      attach_step km (set_pc th (AtDiscard mmo pos)) w
      = (AtAllow pos,
         mk_world (drm_vma_offset_remove (w_mgr w) (vma_node mmo)) (w_obj w)
                  (w_log w ++ [MgrRemove (node_start (vma_node mmo))]))).
Proof.
  intros Hord0 Hstart Hreach.
  assert (Hinv : attach_inv (w, ths)).
  { apply (reachable_inv (w0, ths0)); [| exact Hreach].
    split; [exact Hord0 |]. cbn [fst snd].
    eapply Forall_impl; [exact Hstart |].
    intros th Hpc. unfold pc_linked. now rewrite Hpc. }
  destruct Hinv as [Hord Hall]. cbn [fst snd] in *.
  split; [| split].
  - intros k. apply ordered_kind_count. exact Hord.
  - intros i j thi thj mi mj Hi Hj Hty Hpci Hpcj.
    pose proof (proj1 (Forall_lookup _ _) Hall i thi Hi) as Hli.
    pose proof (proj1 (Forall_lookup _ _) Hall j thj Hj) as Hlj.
    unfold pc_linked in Hli, Hlj. rewrite Hpci in Hli. rewrite Hpcj in Hlj.
    destruct Hli as (_ & ci & Hci & Hsi). destruct Hlj as (_ & cj & Hcj & Hsj).
    rewrite Hty in Hci. rewrite Hci in Hcj. injection Hcj as <-.
    cbn. unfold drm_vma_node_offset_addr. congruence.
  - intros i th mmo pos km Hth Hpc Hpos.
    pose proof (proj1 (Forall_lookup _ _) Hall i th Hth) as Hl.
    unfold pc_linked in Hl. rewrite Hpc in Hl.
    pose proof (insert_walk_found (mmo_offsets (w_obj w)) mmo) as Hfound.
    unfold lookup_mmo in Hpos. rewrite Hl, Hpos in Hfound.
    unfold attach_step. rewrite Hpc. cbn [th_pc set_pc].
    destruct (insert_walk (mmo_offsets (w_obj w)) mmo) as [t found].
    cbn [snd] in Hfound. subst found. split; reflexivity.
Qed.

Lemma run_schedule_reachable (sched : list (nat * bool))
    (init c : world M * list attach_thread) :
  attach_reachable init c ->
  attach_reachable init (run_schedule sched c).
Proof.
  revert c. induction sched as [| [i km] sched IH]; intros c Hc; cbn.
  - exact Hc.
  - apply IH. unfold schedule_step. cbn [fst snd].
    destruct (snd c !! i) as [th |] eqn:Hth; [| exact Hc].
    destruct (returned th) eqn:Hret; [exact Hc |].
    apply (reach_step init c); [exact Hc |].
    destruct c as [w ths]. cbn [fst snd] in *.
    apply (interleave_step w _ ths i th km); try assumption.
    apply surjective_pairing.
Qed.

(** A caller running alone goes through the steps of
    [i915_gem_mmap_offset_attach]. *)
Lemma attach_run_sequential (mmo_ok new_ok : bool) (w : world M)
    (t : i915_mmap_type) (file : option nat) :
  attach_run 8 (km_of mmo_ok new_ok) (mk_thread t file AtLookup) w
  = (AtReturn (fst (i915_gem_mmap_offset_attach mmo_ok new_ok w t file)),
     snd (i915_gem_mmap_offset_attach mmo_ok new_ok w t file)).
Proof.
  unfold i915_gem_mmap_offset_attach, insert_mmo.
  cbn [attach_run attach_step th_pc th_type th_file set_pc km_of].
  destruct (lookup_mmo (w_obj w) t) as [mmo |].
  { cbn [attach_run attach_step th_pc th_type th_file set_pc km_of].
    now destruct (attach_out new_ok w mmo file). }
  cbn [attach_run attach_step th_pc th_type th_file set_pc km_of].
  destruct mmo_ok; cbn [negb]; [| reflexivity].
  cbn [attach_run attach_step th_pc th_type th_file set_pc km_of].
  rewrite !world_add_eq.
  destruct (add_err (w_mgr w) (base_size (w_obj w) / PAGE_SIZE) =? 0).
  - cbn [attach_run attach_step th_pc th_type th_file set_pc km_of w_obj].
    destruct (insert_walk _ _) as [tr [pos |]];
      cbn [attach_run attach_step th_pc th_type th_file set_pc km_of w_obj
           w_mgr w_log];
      now destruct (attach_out new_ok _ _ file).
  - cbn [attach_run attach_step th_pc th_type th_file set_pc km_of w_obj
         world_reap w_mgr w_log].
    rewrite !world_add_eq. cbn [w_mgr w_obj w_log].
    destruct (add_err _ _ =? 0); cbn [negb]; [| reflexivity].
    cbn [attach_run attach_step th_pc th_type th_file set_pc km_of w_obj].
    destruct (insert_walk _ _) as [tr [pos |]];
      cbn [attach_run attach_step th_pc th_type th_file set_pc km_of w_obj
           w_mgr w_log];
      now destruct (attach_out new_ok _ _ file).
Qed.

Lemma attach_run_inv (k : nat) (km : attach_pc -> bool) (th : attach_thread)
    (w : world M) :
  rb_ordered (mmo_offsets (w_obj w)) ->
  pc_linked (w_obj w) th ->
  rb_ordered (mmo_offsets (w_obj (snd (attach_run k km th w)))) /\
  pc_linked (w_obj (snd (attach_run k km th w)))
            (set_pc th (fst (attach_run k km th w))).
Proof.
  revert th w. induction k as [| k IH]; intros th w Hord Hlinked; cbn.
  - split; [exact Hord |]. now destruct th.
  - destruct (attach_step (km (th_pc th)) th w) as [pc w'] eqn:Hstep.
    destruct (attach_step_inv _ _ _ _ _ Hord Hlinked Hstep)
      as (Hord' & _ & Hlinked').
    exact (IH (set_pc th pc) w' Hord' Hlinked').
Qed.

(** A call that returns a record leaves it in the registry. *)
Lemma attach_returns_linked (mmo_ok new_ok : bool) (w : world M)
    (t : i915_mmap_type) (file : option nat) (mmo : i915_mmap_offset) :
  rb_ordered (mmo_offsets (w_obj w)) ->
  fst (i915_gem_mmap_offset_attach mmo_ok new_ok w t file) = inr mmo ->
  rb_ordered (mmo_offsets
                (w_obj (snd (i915_gem_mmap_offset_attach mmo_ok new_ok w t file)))) /\
  holds (w_obj (snd (i915_gem_mmap_offset_attach mmo_ok new_ok w t file))) t mmo.
Proof.
  intros Hord Hret.
  pose proof (attach_run_inv 8 (km_of mmo_ok new_ok)
                (mk_thread t file AtLookup) w Hord I) as [Hord' Hlinked].
  rewrite attach_run_sequential in Hord', Hlinked. cbn [fst snd] in *.
  split; [exact Hord' |].
  unfold pc_linked in Hlinked. cbn [th_pc th_type set_pc] in Hlinked.
  now rewrite Hret in Hlinked.
Qed.

(** Successive calls: the second finds the record of the first, allocates
    nothing and returns the same offset. *)
Lemma successive_attach_same_offset (a b a' b' : bool) (w : world M)
    (t : i915_mmap_type) (file file' : option nat)
    (m1 m2 : i915_mmap_offset) :
  let first := i915_gem_mmap_offset_attach a b w t file in
  let second := i915_gem_mmap_offset_attach a' b' (snd first) t file' in
  rb_ordered (mmo_offsets (w_obj w)) ->
  fst first = inr m1 ->
  fst second = inr m2 ->
  assign_offset (inr m1) = assign_offset (inr m2) /\
  w_log (snd second) = w_log (snd first) /\
  w_mgr (snd second) = w_mgr (snd first).
Proof.
  cbn zeta. intros Hord H1 H2.
  destruct (attach_returns_linked a b w t file m1 Hord H1)
    as (Hord1 & _ & cur & Hcur & Hstart).
  set (w1 := snd (i915_gem_mmap_offset_attach a b w t file)) in *.
  unfold i915_gem_mmap_offset_attach in H2 |- *. rewrite Hcur in H2 |- *.
  destruct (lookup_walk_In _ _ _ Hcur) as [_ Hty].
  assert (Hlinked : lookup_mmo (w_obj w1) (mmap_type cur) = Some cur)
    by now rewrite Hty.
  destruct (attach_out_linked b' w1 cur file' Hlinked)
    as (Hlog & Hmgr & Hheld & Hok & Hfail).
  split; [| split; assumption].
  assert (H2s : node_start (vma_node m2) = node_start (vma_node cur)).
  { destruct file' as [tag |].
    - unfold attach_out in H2. rewrite Hlinked in H2.
      change (default cur (Some cur)) with cur in H2.
      destruct (allow_once_keeps_region b' (vma_node cur) tag) as [Hns _].
      destruct (vma_node_allow_once b' (vma_node cur) tag) as [err node].
      destruct (negb (err =? 0)); [discriminate |].
      cbn in H2, Hns. injection H2 as <-. exact Hns.
    - cbn in H2. now injection H2 as <-. }
  cbn. unfold drm_vma_node_offset_addr. congruence.
Qed.

End Interleaving.

Lemma one_record_per_kind_witness :
  let final := run_schedule race_schedule (race_world, race_threads) in
  kind_count (mmo_offsets (w_obj (fst final))) I915_MMAP_TYPE_WB = 1%nat /\
  (exists m0 m1,
      th_pc <$> snd final !! 0%nat = Some (AtReturn (inr m0)) /\
      th_pc <$> snd final !! 1%nat = Some (AtReturn (inr m1)) /\
      assign_offset (inr m0) = assign_offset (inr m1)) /\
  w_log (fst final) = [MgrAdd 16 0; MgrAdd 16 0; MgrRemove 4112].
Proof.
  cbn zeta.
  destruct (one_record_per_kind race_world
              (fst (run_schedule race_schedule (race_world, race_threads)))
              race_threads
              (snd (run_schedule race_schedule (race_world, race_threads))))
    as (Hcount & Hsame & _).
  - exact I.
  - repeat constructor.
  - rewrite <- surjective_pairing.
    apply run_schedule_reachable, reach_init.
  - split; [reflexivity |]. split; [| reflexivity].
    eexists. eexists. split; [reflexivity |]. split; [reflexivity |].
    eapply (Hsame 0%nat 1%nat); reflexivity.
Defined.

(** ** The exits of the direct fault handler *)

Lemma vmf_oom_only_enomem (err : Z) (k : warn_state) :
  fst (i915_error_to_vmf_fault err k) = VM_FAULT_OOM -> err = - ENOMEM.
Proof.
  unfold i915_error_to_vmf_fault.
  destruct (mem err sigbus_errors); [discriminate |].
  destruct (Z.eqb_spec err (- ENOMEM)) as [-> | _]; [reflexivity |].
  destruct (mem err nopage_errors); discriminate.
Qed.

Section DirectFaultExits.

Variable env : fault_env.
Variable cfg : i915_config.
Variable i915 : drm_i915_private.
Variable write : bool.
Variables vm_start vm_size obj_offset : Z.

Lemma body_frame_refl (st : fault_state) : body_frame st st.
Proof. split; [reflexivity |]. exists []. now rewrite app_nil_r. Qed.

Lemma body_frame_trans (a b c : fault_state) :
  body_frame a b -> body_frame b c -> body_frame a c.
Proof.
  intros [Ha (e1 & H1 & F1)] [Hb (e2 & H2 & F2)]. split; [congruence |].
  exists (e1 ++ e2). rewrite H2, H1, app_assoc. split; [reflexivity |].
  now apply Forall_app.
Qed.

Lemma body_frame_log (st : fault_state) (evs : list event) :
  Forall (fun e => e <> EvWakeUp) evs -> body_frame st (log st evs).
Proof. intros F. split; [reflexivity |]. now exists evs. Qed.

Lemma body_frame_with_obj (st : fault_state) (obj : drm_i915_gem_object)
    (ufl : list nat) : body_frame st (with_obj st obj ufl).
Proof. split; [reflexivity |]. exists []. cbn. now rewrite app_nil_r. Qed.

Ltac frame_step :=
  first
    [ apply body_frame_refl
    | apply body_frame_with_obj
    | apply body_frame_log; repeat constructor; discriminate
    | eapply body_frame_trans; [| apply body_frame_log; repeat constructor;
                                  discriminate] ].

Lemma cpu_migrate_frame (pg : drm_i915_gem_object) (n : nat)
    (st : fault_state) : body_frame st (snd (cpu_migrate env pg n st)).
Proof.
  unfold cpu_migrate. destruct (should_migrate_smem env n) as [[|] required];
    [| apply body_frame_refl].
  destruct (has_pinned_pages pg); cbn [fst snd];
    repeat match goal with
           | |- context [if ?b then _ else _] => destruct b
           end; cbn [snd]; frame_step.
Qed.

Lemma cpu_populate_frame (pg : drm_i915_gem_object) (n : nat)
    (st : fault_state) :
  body_frame st (snd (cpu_populate env pg vm_start vm_size obj_offset n st)).
Proof.
  unfold cpu_populate. destruct (negb (pin_pages_sync env n =? 0));
    cbn [snd]; [frame_step |].
  repeat frame_step.
Qed.

Lemma cpu_pass_frame (n : nat) (st : fault_state) :
  body_frame st
    (snd (cpu_pass env cfg i915 write vm_start vm_size obj_offset n st)).
Proof.
  unfold cpu_pass. destruct (negb (obj_lock env n =? 0)); cbn [snd];
    [frame_step |].
  rewrite (surjective_pairing (use_swapto _ _ _ _ _)).
  match goal with
  | |- context [cpu_migrate env ?pg n ?s] =>
      pose proof (cpu_migrate_frame pg n s) as Hm;
      destruct (cpu_migrate env pg n s) as [[err |] st'] eqn:Hmig
  end; cbn [snd] in *.
  - eapply body_frame_trans; [| exact Hm].
    eapply body_frame_trans; [| apply body_frame_with_obj]. frame_step.
  - eapply body_frame_trans; [| apply cpu_populate_frame].
    eapply body_frame_trans; [| exact Hm].
    eapply body_frame_trans; [| apply body_frame_with_obj]. frame_step.
Qed.

Lemma ww_fini_frame (n : nat) (err : Z) (st : fault_state) :
  body_frame st (snd (ww_fini env n err st)).
Proof.
  unfold ww_fini. destruct (err =? - EDEADLK); cbn [snd]; frame_step.
Qed.

(** The transaction ends only with an error that asks for no further
    pass, and it leaves the count of active handlers alone. *)
Lemma cpu_loop_exit (fuel n : nat) (st : fault_state) :
  let r := cpu_loop env cfg i915 write vm_start vm_size obj_offset fuel n st in
  body_frame st (snd r) /\
  fst r <> Oops /\
  forall err, fst r = Done err ->
              err <> - ENXIO /\ err <> - ENOMEM /\ err <> - EDEADLK.
Proof.
  cbn zeta. revert n st.
  induction fuel as [| fuel IH]; intros n st; cbn [cpu_loop].
  - split; [apply body_frame_refl |]. split; discriminate.
  - pose proof (cpu_pass_frame n st) as Hp.
    destruct (cpu_pass env cfg i915 write vm_start vm_size obj_offset n st)
      as [err st1].
    pose proof (ww_fini_frame n err st1) as Hf.
    destruct (ww_fini env n err st1) as [err' st2]. cbn [snd] in *.
    assert (H02 : body_frame st st2) by (eapply body_frame_trans; eassumption).
    destruct (Z.eqb_spec err' (- EDEADLK)) as [Hd | Hd].
    + destruct (IH (S n) st2) as (Hfr & Hno & Hex).
      split; [eapply body_frame_trans; eassumption |]. now split.
    + destruct (Z.eqb_spec err' (- ENXIO)) as [Hx | Hx]; cbn [orb].
      * destruct (IH (S n) (log (log st2 [EvWwFini]) [EvWwInit]))
          as (Hfr & Hno & Hex).
        split; [| now split].
        eapply body_frame_trans; [| exact Hfr].
        eapply body_frame_trans; [exact H02 |]. repeat frame_step.
      * destruct (Z.eqb_spec err' (- ENOMEM)) as [Hm | Hm].
        -- destruct (IH (S n) (log (log st2 [EvWwFini]) [EvWwInit]))
             as (Hfr & Hno & Hex).
           split; [| now split].
           eapply body_frame_trans; [| exact Hfr].
           eapply body_frame_trans; [exact H02 |]. repeat frame_step.
        -- cbn [fst snd]. split; [| split; [discriminate |]].
           ++ eapply body_frame_trans; [exact H02 |]. frame_step.
           ++ intros e [= <-]. now repeat split.
Qed.

End DirectFaultExits.

(** X1. The direct fault handler never reports out of memory and never
    faults itself. Its locking transaction is run again for as long as the
    body leaves -ENXIO or -ENOMEM behind (or a deadlock whose back-off
    succeeded), so the error that reaches the translation is none of
    these. *)
Theorem direct_fault_never_reports_oom (env : fault_env) (cfg : i915_config)
    (i915 : drm_i915_private) (vmf : vm_fault) (fuel : nat)
    (st : fault_state) :
  fst (vm_fault_cpu env cfg i915 vmf fuel st) <> Done VM_FAULT_OOM /\
  fst (vm_fault_cpu env cfg i915 vmf fuel st) <> Oops /\
  (forall write vm_start vm_size obj_offset n st0 err,
      fst (cpu_loop env cfg i915 write vm_start vm_size obj_offset fuel n st0)
      = Done err ->
      err <> - ENXIO /\ err <> - ENOMEM /\ err <> - EDEADLK).
Proof.
  split; [| split].
  - unfold vm_fault_cpu.
    destruct (readonly (fs_obj st) && area_write (vmf_vma vmf));
      [discriminate |].
    destruct (invalidate_lmem_mmaps i915); [discriminate |].
    destruct (cpu_window env vmf (fs_obj st)) as [[[[obj vs] ve] oo] |];
      [| discriminate].
    match goal with
    | |- context [cpu_loop ?e ?c ?i ?w ?a ?b ?o ?f ?n ?s] =>
        destruct (cpu_loop_exit e c i w a b o f n s) as (_ & _ & Hex);
        destruct (cpu_loop e c i w a b o f n s) as [[err | |] st1]
    end; cbn [fst] in *; try discriminate.
    destruct (Hex err eq_refl) as (_ & Hm & _).
    pose proof (vmf_oom_only_enomem err (fs_warn st1)) as Hoom.
    destruct (i915_error_to_vmf_fault err (fs_warn st1)) as [ret k].
    cbn [fst cpu_out] in *. intros [= ->]. now apply Hm, Hoom.
  - unfold vm_fault_cpu.
    destruct (readonly (fs_obj st) && area_write (vmf_vma vmf));
      [discriminate |].
    destruct (invalidate_lmem_mmaps i915); [discriminate |].
    destruct (cpu_window env vmf (fs_obj st)) as [[[[obj vs] ve] oo] |];
      [| discriminate].
    match goal with
    | |- context [cpu_loop ?e ?c ?i ?w ?a ?b ?o ?f ?n ?s] =>
        destruct (cpu_loop_exit e c i w a b o f n s) as (_ & Hno & _);
        destruct (cpu_loop e c i w a b o f n s) as [[err | |] st1]
    end; cbn [fst] in *; try discriminate; try contradiction.
    destruct (i915_error_to_vmf_fault err (fs_warn st1)) as [ret k].
    discriminate.
  - intros write vm_start vm_size obj_offset n st0 err.
    apply (cpu_loop_exit env cfg i915 write vm_start vm_size obj_offset
             fuel n st0).
Qed.

(** X2. The direct fault handler leaves the count of active fault
    handlers as it found it on every way out: it raises the count after
    the read-only check and lowers it at its label [out]. Those who wait
    for the count are woken exactly when the handler had raised it from
    zero; until the handler returns the count stays raised by one. *)
Theorem direct_fault_balances_active_handlers (env : fault_env)
    (cfg : i915_config) (i915 : drm_i915_private) (vmf : vm_fault)
    (fuel : nat) (st : fault_state) :
  let r := vm_fault_cpu env cfg i915 vmf fuel st in
  (forall ret, fst r = Done ret ->
     active_fault_handlers (snd r) = active_fault_handlers st /\
     exists evs,
       fs_trace (snd r) = fs_trace st ++ evs /\
       (In EvWakeUp evs <->
        active_fault_handlers st = 0 /\
        readonly (fs_obj st) && area_write (vmf_vma vmf) = false)) /\
  (fst r = OutOfFuel ->
   active_fault_handlers (snd r) = active_fault_handlers st + 1).
Proof.
  cbn zeta. unfold vm_fault_cpu.
  destruct (readonly (fs_obj st) && area_write (vmf_vma vmf)) eqn:Hro.
  { split; [| discriminate]. intros ret _. split; [reflexivity |].
    exists []. rewrite app_nil_r. split; [reflexivity |].
    split; [intros [] | intros [_ H]; discriminate]. }
  assert (Hout : forall ret s evs,
             active_fault_handlers s = active_fault_handlers st + 1 ->
             fs_trace s = fs_trace st ++ evs ->
             Forall (fun e => e <> EvWakeUp) evs ->
             active_fault_handlers (snd (cpu_out ret s))
             = active_fault_handlers st /\
             exists evs',
               fs_trace (snd (cpu_out ret s)) = fs_trace st ++ evs' /\
               (In EvWakeUp evs' <->
                active_fault_handlers st = 0 /\ false = false)).
  { intros ret s evs Ha Ht Hq. unfold cpu_out. cbn [snd].
    rewrite Ha. replace (active_fault_handlers st + 1 - 1)
      with (active_fault_handlers st) by lia.
    destruct (Z.eqb_spec (active_fault_handlers st) 0) as [H0 | Hn0].
    - split; [cbn; lia |]. exists (evs ++ [EvWakeUp]). cbn.
      rewrite Ht, app_assoc. split; [reflexivity |].
      split; [now auto |]. intros _. apply in_or_app. right. now left.
    - split; [reflexivity |]. exists evs. cbn. split; [exact Ht |].
      split; [| tauto]. intros Hin.
      rewrite List.Forall_forall in Hq. now destruct (Hq _ Hin). }
  destruct (invalidate_lmem_mmaps i915).
  { split; [| discriminate]. intros ret _.
    apply (Hout _ _ []); [reflexivity | now rewrite app_nil_r | constructor]. }
  destruct (cpu_window env vmf (fs_obj st)) as [[[[obj vs] ve] oo] |].
  2:{ split; [| discriminate]. intros ret _.
      apply (Hout _ _ []); [reflexivity | now rewrite app_nil_r | constructor]. }
  match goal with
  | |- context [cpu_loop ?e ?c ?i ?w ?a ?b ?o ?f ?n ?s] =>
      destruct (cpu_loop_exit e c i w a b o f n s)
        as ((Hact & evs & Htr & Hq) & Hno & _);
      destruct (cpu_loop e c i w a b o f n s) as [[err | |] st1]
  end; cbn [fst snd] in *.
  - split; [| destruct (i915_error_to_vmf_fault _ _); discriminate].
    intros ret _.
    destruct (i915_error_to_vmf_fault err (fs_warn st1)) as [ret' k].
    apply (Hout _ _ ([EvWwInit] ++ evs)).
    + cbn. exact Hact.
    + cbn. rewrite Htr. cbn. now rewrite <- app_assoc.
    + constructor; [discriminate | exact Hq].
  - contradiction.
  - split; [discriminate |]. intros _. exact Hact.
Qed.

(** ** The cleanup of the aperture fault handler *)

Lemma occurrences_app (e : event) (a b : list event) :
  occurrences e (a ++ b) = (occurrences e a + occurrences e b)%nat.
Proof. unfold occurrences. now rewrite filter_app, length_app. Qed.

Lemma occurrences_absent (e : event) (evs : list event) :
  Forall (fun x => x <> e) evs -> occurrences e evs = 0%nat.
Proof.
  unfold occurrences. induction 1 as [| x l Hx _ IH]; [reflexivity |].
  rewrite filter_cons_False by exact Hx. exact IH.
Qed.

(** The binding attempts: one to three requests, and a result that does
    not depend on the trace. *)
Lemma gtt_bind_events (env : fault_env) (n : nat)
    (obj : drm_i915_gem_object) (page_offset : Z) (st : fault_state) :
  exists evs,
    snd (gtt_bind env n obj page_offset st) = log st evs /\
    Forall (fun e => exists v f, e = EvGgttPin v f) evs /\
    (1 <= length evs <= 3)%nat /\
    forall st', fst (gtt_bind env n obj page_offset st')
                = fst (gtt_bind env n obj page_offset st).
Proof.
  unfold gtt_bind.
  destruct (is_err_not_deadlk (ggtt_pin env n 0%nat)).
  - destruct (compute_partial_view obj page_offset MIN_CHUNK_PAGES)
      as [view |].
    + destruct (is_err_not_deadlk (ggtt_pin env n 1%nat)); cbn [fst snd].
      * eexists. split; [unfold log; cbn; rewrite <- !app_assoc; reflexivity |].
        split; [| split; [cbn; lia | reflexivity]].
        repeat constructor; eauto.
      * eexists. split; [unfold log; cbn; rewrite <- !app_assoc; reflexivity |].
        split; [| split; [cbn; lia | reflexivity]].
        repeat constructor; eauto.
    + eexists. split; [reflexivity |].
      split; [| split; [cbn; lia | reflexivity]]. repeat constructor; eauto.
  - eexists. split; [reflexivity |].
    split; [| split; [cbn; lia | reflexivity]]. repeat constructor; eauto.
Qed.

Lemma occurrences_requests (e : event) (evs : list event) :
  Forall (fun x => exists v f, x = EvGgttPin v f) evs ->
  (forall v f, e <> EvGgttPin v f) ->
  occurrences e evs = 0%nat.
Proof.
  intros Hall Hne. apply occurrences_absent.
  eapply Forall_impl; [exact Hall |].
  intros x (v & f & ->) Heq. now apply (Hne v f).
Qed.

Ltac count_events :=
  repeat match goal with
         | H : Forall (fun x => exists v f, x = EvGgttPin v f) ?l
           |- context [occurrences ?e (?a ++ ?l ++ ?b)] =>
             rewrite (occurrences_app e a (l ++ b)),
               (occurrences_app e l b),
               (occurrences_requests e l H) by discriminate
         end;
  repeat match goal with
         | |- context [occurrences ?e ?l] =>
             let v := eval lazy in (occurrences e l) in
             progress change (occurrences e l) with v
         end.

Ltac quiet_events :=
  repeat first
    [ assumption
    | exact I
    | apply Forall_nil
    | apply Forall_app; split
    | apply Forall_cons; split; [cbn; intuition discriminate |] ].

Ltac pass_leaf :=
  split; [cbn [fst snd fs_trace log with_obj]; rewrite <- ?app_assoc;
          rewrite ?app_nil_r; reflexivity |];
  split;
  [ intros Hsome; try (now destruct Hsome);
    count_events;
    repeat match goal with
           | H : (?x =? 0) = _ |- context [?x =? 0] => rewrite H
           end;
    repeat split; try reflexivity;
    repeat match goal with
           | |- context [if ?b then _ else _] => destruct b
           | |- context [match ?b with _ => _ end] => destruct b
           end; reflexivity
  | count_events; repeat split; try lia; quiet_events ].

(** The events of a pass of [vm_fault_gtt]: what is taken on the way in
    and what the cleanup labels give back. *)
Lemma gtt_pass_events (env : fault_env) (cfg : i915_config)
    (i915 : drm_i915_private) (vmf : vm_fault) (n : nat) (st : fault_state) :
  let r := gtt_pass env cfg i915 vmf n st in
  let bound := fst (gtt_bind env n (fs_obj st) (fault_page_offset vmf) st) in
  exists evs,
    fs_trace (snd r) = fs_trace st ++ evs /\
    (fst r <> None ->
     occurrences EvUnpinPages evs
     = (if pin_pages_sync env n =? 0 then occurrences EvPinPages evs
        else 0%nat) /\
     occurrences EvResetUnlock evs
     = (if reset_lock env n =? 0 then occurrences EvResetLock evs
        else 0%nat) /\
     occurrences EvUnpinFence evs
     = (if pin_fence env n =? 0 then occurrences EvPinFence evs else 0%nat) /\
     occurrences EvVmaUnpin evs
     = match bound with
       | Some (inr _) => occurrences EvResetUnlock evs
       | _ => 0%nat
       end) /\
    (occurrences EvPinPages evs <= 1)%nat /\
    (occurrences EvResetLock evs <= occurrences EvPinPages evs)%nat /\
    (occurrences EvPinFence evs <= occurrences EvResetLock evs)%nat /\
    Forall (fun e => ~ In e [EvRpmGet; EvRpmPut; EvWwInit; EvWwFini;
                             EvWwBackoff]) evs.
Proof.
  cbn zeta. unfold gtt_pass.
  set (obj := fs_obj st). set (po := fault_page_offset vmf).
  assert (Hquiet : forall l,
             Forall (fun x => exists v f, x = EvGgttPin v f) l ->
             Forall (fun e => ~ In e [EvRpmGet; EvRpmPut; EvWwInit; EvWwFini;
                                      EvWwBackoff]) l).
  { intros l Hl. eapply Forall_impl; [exact Hl |].
    intros x (v & f & ->). cbn. intuition discriminate. }
  destruct (obj_lock env n =? 0) eqn:Hlock; cbn [negb fst snd].
  2:{ exists [EvLock]. pass_leaf. }
  destruct (readonly obj && area_write (vmf_vma vmf)); cbn [fst snd].
  { exists [EvLock]. pass_leaf. }
  destruct (pin_pages_sync env n =? 0) eqn:Hpin; cbn [negb fst snd].
  2:{ exists [EvLock; EvPinPages]. pass_leaf. }
  destruct (reset_lock env n =? 0) eqn:Hreset; cbn [negb fst snd].
  2:{ exists [EvLock; EvPinPages; EvResetLock; EvUnpinPages]. pass_leaf. }
  match goal with
  | |- context [gtt_bind env n obj po (log ?s0 ?e0)] =>
      destruct (gtt_bind_events env n obj po (log s0 e0))
        as (bevs & Hsnd & Hreq & _ & Hfst);
      rewrite (Hfst st);
      destruct (gtt_bind env n obj po (log s0 e0)) as [bound stb]
  end.
  cbn [fst snd] in *. subst stb. pose proof (Hquiet _ Hreq) as Hq.
  clear Hquiet Hfst.
  destruct bound as [[e | i] |].
  - exists ([EvLock; EvPinPages; EvResetLock] ++ bevs ++ err_reset).
    pass_leaf.
  - destruct (ggtt_vmas obj !! i) as [vma |].
    2:{ exists ([EvLock; EvPinPages; EvResetLock] ++ bevs ++ []). pass_leaf. }
    destruct (negb (cache_none obj || HAS_LLC i915)).
    { exists ([EvLock; EvPinPages; EvResetLock] ++ bevs ++ err_unpin).
      pass_leaf. }
    destruct (pin_fence env n =? 0) eqn:Hfence; cbn [negb fst snd].
    2:{ exists ([EvLock; EvPinPages; EvResetLock] ++ bevs
                ++ EvPinFence :: err_unpin). pass_leaf. }
    destruct (remap_io_mapping env n =? 0) eqn:Hremap; cbn [negb fst snd].
    2:{ eexists ([EvLock; EvPinPages; EvResetLock] ++ bevs
                 ++ EvPinFence :: EvRemapIoMapping _ _ _ :: err_fence).
        pass_leaf. }
    destruct (mark_userfault obj i (userfault_list _)) as [obj' ufl'].
    destruct (CPTCFG_DRM_I915_USERFAULT_AUTOSUSPEND cfg =? 0).
    + eexists ([EvLock; EvPinPages; EvResetLock] ++ bevs
               ++ EvPinFence :: EvRemapIoMapping _ _ _ :: err_fence).
      pass_leaf.
    + eexists ([EvLock; EvPinPages; EvResetLock] ++ bevs
               ++ EvPinFence :: EvRemapIoMapping _ _ _ :: EvWakerefAuto
               :: err_fence).
      pass_leaf.
  - exists ([EvLock; EvPinPages; EvResetLock] ++ bevs ++ []). pass_leaf.
Qed.

(** The retry loop adds the events of its passes and its back-offs. *)
Lemma gtt_retry_events (env : fault_env) (cfg : i915_config)
    (i915 : drm_i915_private) (vmf : vm_fault) (fuel n : nat)
    (st : fault_state) :
  exists mid,
    fs_trace (snd (gtt_retry env cfg i915 vmf fuel n st))
    = fs_trace st ++ mid /\
    Forall (fun e => ~ In e [EvRpmGet; EvRpmPut; EvWwInit; EvWwFini]) mid.
Proof.
  revert n st. induction fuel as [| fuel IH]; intros n st; cbn [gtt_retry].
  - exists []. cbn. now rewrite app_nil_r.
  - destruct (gtt_pass_events env cfg i915 vmf n st)
      as (evs & Htr & _ & _ & _ & _ & Hq).
    assert (Hq' : Forall (fun e => ~ In e [EvRpmGet; EvRpmPut; EvWwInit;
                                           EvWwFini]) evs).
    { eapply Forall_impl; [exact Hq |]. cbn. intros e He Hin. tauto. }
    destruct (gtt_pass env cfg i915 vmf n st) as [[ret |] st1];
      cbn [snd] in Htr.
    2:{ exists evs. now split. }
    destruct (ret =? - EDEADLK).
    + destruct (ww_backoff env n =? 0).
      * destruct (IH (S n) (log st1 [EvWwBackoff])) as (mid & Hmid & Hqm).
        exists (evs ++ [EvWwBackoff] ++ mid). split.
        -- rewrite Hmid. cbn. rewrite Htr. now rewrite <- !app_assoc.
        -- apply Forall_app. split; [exact Hq' |].
           apply Forall_app. split; [| exact Hqm].
           repeat constructor. cbn. intuition discriminate.
      * exists (evs ++ [EvWwBackoff]). cbn. rewrite Htr, app_assoc.
        split; [reflexivity |]. apply Forall_app. split; [exact Hq' |].
        repeat constructor. cbn. intuition discriminate.
    + exists evs. now split.
Qed.

(** X3. The aperture fault handler gives back what it took. In every
    pass that does not oops, the pages are unpinned once if they were
    pinned and not at all otherwise, and likewise for the reset lock, the
    fence and the vma of the binding; a pass pins, locks and fences once
    at most. A fault that returns has taken the runtime-pm wakeref and
    opened the locking context first and has closed the context and
    dropped the wakeref last, each once. *)
Theorem aperture_fault_releases_what_it_acquired (env : fault_env)
    (cfg : i915_config) (i915 : drm_i915_private) (vmf : vm_fault) :
  (forall n st,
      let r := gtt_pass env cfg i915 vmf n st in
      let bound :=
        fst (gtt_bind env n (fs_obj st) (fault_page_offset vmf) st) in
      exists evs,
        fs_trace (snd r) = fs_trace st ++ evs /\
        (fst r <> None ->
         occurrences EvUnpinPages evs
         = (if pin_pages_sync env n =? 0 then occurrences EvPinPages evs
            else 0%nat) /\
         occurrences EvResetUnlock evs
         = (if reset_lock env n =? 0 then occurrences EvResetLock evs
            else 0%nat) /\
         occurrences EvUnpinFence evs
         = (if pin_fence env n =? 0 then occurrences EvPinFence evs
            else 0%nat) /\
         occurrences EvVmaUnpin evs
         = match bound with
           | Some (inr _) => occurrences EvResetUnlock evs
           | _ => 0%nat
           end) /\
        (occurrences EvPinPages evs <= 1)%nat /\
        (occurrences EvResetLock evs <= occurrences EvPinPages evs)%nat /\
        (occurrences EvPinFence evs <= occurrences EvResetLock evs)%nat) /\
  (forall fuel st ret,
      fst (vm_fault_gtt env cfg i915 vmf fuel st) = Done ret ->
      exists mid,
        fs_trace (snd (vm_fault_gtt env cfg i915 vmf fuel st))
        = fs_trace st ++ [EvRpmGet; EvWwInit] ++ mid ++ [EvWwFini; EvRpmPut] /\
        Forall (fun e => ~ In e [EvRpmGet; EvRpmPut; EvWwInit; EvWwFini])
               mid).
Proof.
  split.
  - intros n st. cbn zeta.
    destruct (gtt_pass_events env cfg i915 vmf n st)
      as (evs & Htr & Hrel & H1 & H2 & H3 & _).
    exists evs. repeat split; try assumption; now apply Hrel.
  - intros fuel st ret. unfold vm_fault_gtt.
    destruct (gtt_retry_events env cfg i915 vmf fuel 0
                (log st [EvRpmGet; EvWwInit])) as (mid & Hmid & Hq).
    destruct (gtt_retry env cfg i915 vmf fuel 0 (log st [EvRpmGet; EvWwInit]))
      as [[err | |] st1]; cbn [fst snd] in *; try discriminate.
    destruct (i915_error_to_vmf_fault err _) as [r k]. cbn [fst snd].
    intros _. exists mid. split; [| exact Hq].
    cbn. rewrite Hmid. cbn. now rewrite <- !app_assoc.
Qed.

(** ** The userfault bookkeeping of the aperture fault handler *)

Lemma marked_alter (f : i915_vma -> i915_vma) (l : list i915_vma) (i : nat) :
  (forall v, vma_userfault (f v) = vma_userfault v) ->
  marked (alter f i l) = marked l.
Proof.
  intros Hf. revert i. induction l as [| v l IH]; intros [| i]; cbn;
    try reflexivity.
  - now rewrite Hf.
  - now rewrite IH.
Qed.

Lemma bookkeeping_only_refl (obj : drm_i915_gem_object) :
  bookkeeping_only obj obj.
Proof. split; [now destruct obj | reflexivity]. Qed.

Lemma bookkeeping_only_trans (a b c : drm_i915_gem_object) :
  bookkeeping_only a b -> bookkeeping_only b c -> bookkeeping_only a c.
Proof.
  intros [Hab Lab] [Hbc Lbc]. split; [| congruence].
  rewrite Hbc at 1. rewrite Hab. reflexivity.
Qed.

Lemma bookkeeping_only_set (obj : drm_i915_gem_object) (count : Z)
    (vmas : list i915_vma) :
  length vmas = length (ggtt_vmas obj) ->
  bookkeeping_only obj (set_userfault obj count vmas).
Proof. intros Hlen. split; [reflexivity | exact Hlen]. Qed.

(** Marking a vma keeps the books: the count follows the marks, the
    object is put on the list when its first vma is marked, and nobody
    else is touched. *)
Lemma mark_userfault_listed (obj : drm_i915_gem_object) (i : nat)
    (ufl : list nat) :
  userfault_tracked obj ->
  (0 < userfault_count obj <-> obj_id obj ∈ ufl) ->
  let r := mark_userfault obj i ufl in
  userfault_tracked (fst r) /\
  (0 < userfault_count (fst r) <-> obj_id (fst r) ∈ snd r) /\
  bookkeeping_only obj (fst r) /\
  userfault_count obj <= userfault_count (fst r) /\
  (forall o, o <> obj_id obj -> o ∈ snd r <-> o ∈ ufl) /\
  (forall v, ggtt_vmas obj !! i = Some v ->
             0 < userfault_count (fst r) /\
             ggtt_vmas (fst r) !! i = Some (set_vma_userfault v true)).
Proof.
  intros Htracked Hlisted. cbn zeta.
  pose proof (mark_userfault_tracked obj i ufl Htracked) as Htracked'.
  destruct Htracked as [Hcount Hbound].
  unfold mark_userfault in *.
  destruct (ggtt_vmas obj !! i) as [v |] eqn:Hv; cbn [fst snd] in *.
  2:{ repeat split; try tauto; try lia; try apply bookkeeping_only_refl;
        discriminate. }
  destruct (vma_userfault v) eqn:Hmark; cbn [fst snd] in *.
  - assert (Hpos : 0 < userfault_count obj).
    { rewrite Hcount.
      rewrite <- (take_drop_middle _ _ _ Hv), marked_app. cbn [marked].
      rewrite Hmark. lia. }
    repeat split; try tauto; try lia; try apply bookkeeping_only_refl.
    match goal with H : Some _ = Some _ |- _ => injection H as <- end.
    rewrite Hv. f_equal. destruct v. cbn in *. now subst.
  - pose proof (marked_insert _ i v (set_vma_userfault v true) Hv) as Hins.
    rewrite Hmark in Hins. cbn in Hins.
    pose proof (marked_le_length
                  (<[i := set_vma_userfault v true]> (ggtt_vmas obj))) as Hle.
    rewrite length_insert in Hle.
    assert (Hu : u32 (userfault_count obj + 1) = userfault_count obj + 1).
    { unfold u32, UINT_MAX in *. rewrite Z.mod_small; lia. }
    rewrite Hu in *. cbn [userfault_count obj_id set_userfault ggtt_vmas].
    split; [exact Htracked' |].
    split; [| split; [| split; [| split]]].
    + split; [intros _ | lia].
      destruct (Z.eqb_spec (userfault_count obj) 0) as [H0 | Hn0].
      * apply elem_of_cons. now left.
      * apply Hlisted. lia.
    + apply bookkeeping_only_set. now rewrite length_insert.
    + lia.
    + intros o Ho. destruct (userfault_count obj =? 0); [| tauto].
      rewrite elem_of_cons. tauto.
    + intros v' [= <-]. split; [lia |].
      apply list_lookup_insert_eq. now apply lookup_lt_Some in Hv.
Qed.

(** What a pass does to the state: nothing but its trace, unless it
    serves the fault, and then it marks the vma it has bound. *)
Lemma gtt_pass_state (env : fault_env) (cfg : i915_config)
    (i915 : drm_i915_private) (vmf : vm_fault) (n : nat) (st : fault_state) :
  let r := gtt_pass env cfg i915 vmf n st in
  let mmo := vm_private_data (vmf_vma vmf) in
  let write := area_write (vmf_vma vmf) in
  active_fault_handlers (snd r) = active_fault_handlers st /\
  fs_warn (snd r) = fs_warn st /\
  ((fs_obj (snd r) = fs_obj st /\ userfault_list (snd r) = userfault_list st /\
    forall evs, fs_trace (snd r) = fs_trace st ++ evs ->
                remap_io_mapping env n = 0 ->
                Forall (fun e => forall a b c, e <> EvRemapIoMapping a b c) evs)
   \/
   (exists i vma,
       fst (gtt_bind env n (fs_obj st) (fault_page_offset vmf) st)
       = Some (inr i) /\
       ggtt_vmas (fs_obj st) !! i = Some vma /\
       obj_lock env n = 0 /\
       readonly (fs_obj st) && write = false /\
       pin_pages_sync env n = 0 /\
       reset_lock env n = 0 /\
       cache_none (fs_obj st) || HAS_LLC i915 = true /\
       pin_fence env n = 0 /\
       remap_io_mapping env n = 0 /\
       fst r = Some 0 /\
       let m := mark_userfault (fs_obj st) i (userfault_list st) in
       fs_obj (snd r)
       = set_userfault (fst m) (userfault_count (fst m))
           (alter (fun v =>
                     set_vma_mmo_write v (Some (node_start (vma_node mmo)))
                                       (write || vma_ggtt_write v))
                  i (ggtt_vmas (fst m))) /\
       userfault_list (snd r) = snd m)).
Proof.
  cbn zeta. unfold gtt_pass.
  set (obj := fs_obj st). set (po := fault_page_offset vmf).
  assert (Hnone : forall (bevs tail : list event),
             Forall (fun x => exists v f, x = EvGgttPin v f) bevs ->
             Forall (fun e => forall a b c, e <> EvRemapIoMapping a b c) tail ->
             forall evs,
               fs_trace st ++ evs = fs_trace st ++ bevs ++ tail ->
               Forall (fun e => forall a b c, e <> EvRemapIoMapping a b c) evs).
  { intros bevs tail Hb Ht evs Heq. apply app_inv_head in Heq. subst evs.
    apply Forall_app. split; [| exact Ht].
    eapply Forall_impl; [exact Hb |]. intros x (v & f & ->). discriminate. }
  destruct (Z.eqb_spec (obj_lock env n) 0) as [Hlock | Hlock]; cbn [negb fst snd].
  2:{ repeat split. left. repeat split. intros evs Heq _.
      apply (Hnone [] [EvLock]); [constructor | | now rewrite <- Heq].
      repeat constructor. discriminate. }
  destruct (readonly obj && area_write (vmf_vma vmf)) eqn:Hro; cbn [fst snd].
  { repeat split. left. repeat split. intros evs Heq _.
    apply (Hnone [] [EvLock]); [constructor | | now rewrite <- Heq].
    repeat constructor. discriminate. }
  destruct (Z.eqb_spec (pin_pages_sync env n) 0) as [Hpin | Hpin];
    cbn [negb fst snd].
  2:{ repeat split. left. repeat split. intros evs Heq _.
      apply (Hnone [] [EvLock; EvPinPages]); [constructor | |].
      - repeat constructor; discriminate.
      - rewrite <- Heq. cbn. now rewrite <- !app_assoc. }
  destruct (Z.eqb_spec (reset_lock env n) 0) as [Hreset | Hreset];
    cbn [negb fst snd].
  2:{ repeat split. left. repeat split. intros evs Heq _.
      apply (Hnone [] [EvLock; EvPinPages; EvResetLock; EvUnpinPages]);
        [constructor | |].
      - repeat constructor; discriminate.
      - rewrite <- Heq. cbn. now rewrite <- !app_assoc. }
  match goal with
  | |- context [gtt_bind env n obj po (log ?s0 ?e0)] =>
      destruct (gtt_bind_events env n obj po (log s0 e0))
        as (bevs & Hsnd & Hreq & _ & Hfst);
      rewrite (Hfst st);
      destruct (gtt_bind env n obj po (log s0 e0)) as [bound stb]
  end.
  cbn [fst snd] in *. subst stb. clear Hfst.
  assert (Hpre : forall (tail : list event),
             Forall (fun e => forall a b c, e <> EvRemapIoMapping a b c) tail ->
             forall evs,
               fs_trace st ++ evs
               = (((fs_trace st ++ [EvLock]) ++ [EvPinPages]) ++ [EvResetLock])
                   ++ bevs ++ tail ->
               Forall (fun e => forall a b c, e <> EvRemapIoMapping a b c) evs).
  { intros tail Ht evs Heq. rewrite <- !app_assoc in Heq.
    apply app_inv_head in Heq. subst evs.
    repeat (apply Forall_cons; split; [discriminate |]).
    apply Forall_app. split; [| exact Ht].
    eapply Forall_impl; [exact Hreq |]. intros x (v & f & ->). discriminate. }
  destruct bound as [[e | i] |].
  - repeat split. left. repeat split. intros evs Heq _.
    apply (Hpre err_reset); [repeat constructor; discriminate |].
    rewrite <- Heq. cbn. now rewrite <- !app_assoc.
  - destruct (ggtt_vmas obj !! i) as [vma |] eqn:Hvma.
    2:{ repeat split. left. repeat split. intros evs Heq _.
        apply (Hpre []); [constructor |].
        rewrite <- Heq. cbn. now rewrite <- !app_assoc, app_nil_r. }
    destruct (cache_none obj || HAS_LLC i915) eqn:Hcache; cbn [negb].
    2:{ repeat split. left. repeat split. intros evs Heq _.
        apply (Hpre err_unpin); [repeat constructor; discriminate |].
        rewrite <- Heq. cbn. now rewrite <- !app_assoc. }
    destruct (Z.eqb_spec (pin_fence env n) 0) as [Hfence | Hfence];
      cbn [negb fst snd].
    2:{ repeat split. left. repeat split. intros evs Heq _.
        apply (Hpre (EvPinFence :: err_unpin));
          [repeat constructor; discriminate |].
        rewrite <- Heq. cbn. now rewrite <- !app_assoc. }
    destruct (Z.eqb_spec (remap_io_mapping env n) 0) as [Hremap | Hremap];
      cbn [negb fst snd].
    2:{ repeat split. left. repeat split. intros evs Heq H0. contradiction. }
    destruct (mark_userfault obj i (userfault_list _)) as [obj' ufl'] eqn:Hm.
    cbn [userfault_list log] in Hm.
    rewrite Hlock, Hpin, Hreset, Hfence, Hremap.
    destruct (CPTCFG_DRM_I915_USERFAULT_AUTOSUSPEND cfg =? 0);
      cbn [fst snd fs_obj userfault_list active_fault_handlers fs_warn
           log with_obj];
      (split; [reflexivity |]; split; [reflexivity |]; right;
       exists i, vma; cbn zeta; fold obj; rewrite Hm;
       repeat split; try reflexivity; assumption).
  - repeat split. left. repeat split. intros evs Heq _.
    apply (Hpre []); [constructor |].
    rewrite <- Heq. cbn. now rewrite <- !app_assoc, app_nil_r.
Qed.

Lemma bookkeeping_only_id (obj obj' : drm_i915_gem_object) :
  bookkeeping_only obj obj' -> obj_id obj' = obj_id obj.
Proof. intros [-> _]. reflexivity. Qed.

Lemma userfault_step_refl (st : fault_state) : userfault_step st st.
Proof.
  split; [apply bookkeeping_only_refl |]. split; [lia | tauto].
Qed.

Lemma userfault_step_trans (a b c : fault_state) :
  userfault_step a b -> userfault_step b c -> userfault_step a c.
Proof.
  intros (Hab & Cab & Lab) (Hbc & Cbc & Lbc).
  split; [eapply bookkeeping_only_trans; eassumption |].
  split; [lia |]. intros o Ho. rewrite Lbc, Lab; [tauto | exact Ho |].
  now rewrite (bookkeeping_only_id _ _ Hab).
Qed.

Lemma userfault_step_same (st st' : fault_state) :
  fs_obj st' = fs_obj st -> userfault_list st' = userfault_list st ->
  userfault_step st st'.
Proof.
  intros Ho Hl. unfold userfault_step. rewrite Ho, Hl.
  split; [apply bookkeeping_only_refl |]. split; [lia | tauto].
Qed.

Lemma userfault_listed_same (st st' : fault_state) :
  fs_obj st' = fs_obj st -> userfault_list st' = userfault_list st ->
  userfault_listed st -> userfault_listed st'.
Proof. intros Ho Hl. unfold userfault_listed. now rewrite Ho, Hl. Qed.

(** A pass keeps the books of revocation. *)
Lemma gtt_pass_listed (env : fault_env) (cfg : i915_config)
    (i915 : drm_i915_private) (vmf : vm_fault) (n : nat) (st : fault_state) :
  userfault_listed st ->
  userfault_listed (snd (gtt_pass env cfg i915 vmf n st)) /\
  userfault_step st (snd (gtt_pass env cfg i915 vmf n st)).
Proof.
  intros Hl.
  destruct (gtt_pass_state env cfg i915 vmf n st)
    as (_ & _ & [(Ho & Hu & _) | (i & vma & _ & Hv & _ & _ & _ & _ & _ & _ & _
                                    & _ & Ho & Hu)]).
  - split; [now apply (userfault_listed_same st) |].
    now apply userfault_step_same.
  - cbn zeta in Ho.
    destruct Hl as [Htr Hli].
    destruct (mark_userfault_listed (fs_obj st) i (userfault_list st) Htr Hli)
      as (Htr1 & Hli1 & Hbk & Hmono & Hoth & _).
    set (m := mark_userfault (fs_obj st) i (userfault_list st)) in *.
    set (f := fun v => set_vma_mmo_write v _ _) in Ho.
    assert (Hmk : marked (alter f i (ggtt_vmas (fst m)))
                  = marked (ggtt_vmas (fst m))).
    { apply marked_alter. intros v. reflexivity. }
    split; [split; [split |] | split; [| split]]; rewrite ?Ho, ?Hu;
      cbn [userfault_count ggtt_vmas obj_id set_userfault].
    + rewrite Hmk. apply Htr1.
    + rewrite length_alter. apply Htr1.
    + exact Hli1.
    + eapply bookkeeping_only_trans; [exact Hbk |].
      apply bookkeeping_only_set. apply length_alter.
    + exact Hmono.
    + exact Hoth.
Qed.

(** So does the retry loop, however many passes it takes. *)
Lemma gtt_retry_listed (env : fault_env) (cfg : i915_config)
    (i915 : drm_i915_private) (vmf : vm_fault) (fuel n : nat)
    (st : fault_state) :
  userfault_listed st ->
  userfault_listed (snd (gtt_retry env cfg i915 vmf fuel n st)) /\
  userfault_step st (snd (gtt_retry env cfg i915 vmf fuel n st)).
Proof.
  revert n st. induction fuel as [| fuel IH]; intros n st Hl;
    cbn [gtt_retry].
  - split; [exact Hl | apply userfault_step_refl].
  - destruct (gtt_pass_listed env cfg i915 vmf n st Hl) as [Hl1 Hs1].
    destruct (gtt_pass env cfg i915 vmf n st) as [[ret |] st1];
      cbn [snd] in *; [| now split].
    destruct (ret =? - EDEADLK); [| now split].
    assert (Hl2 : userfault_listed (log st1 [EvWwBackoff]))
      by now apply (userfault_listed_same st1).
    assert (Hs2 : userfault_step st (log st1 [EvWwBackoff])).
    { eapply userfault_step_trans; [exact Hs1 |].
      now apply userfault_step_same. }
    destruct (ww_backoff env n =? 0); [| now split].
    destruct (IH (S n) _ Hl2) as [Hl3 Hs3].
    split; [exact Hl3 |]. eapply userfault_step_trans; eassumption.
Qed.

(** X4. The aperture fault handler keeps the books of revocation: on an
    object whose userfault count is the number of its marked vmas and
    which is on the device-wide revocation list exactly while that count
    is positive, any fault, whatever its outcome and however many passes
    it takes, leaves both facts standing. It changes nothing of the
    object but the count and the vmas, never lowers the count, and leaves
    the other objects on the list where they are. *)
Theorem aperture_fault_keeps_the_books (env : fault_env) (cfg : i915_config)
    (i915 : drm_i915_private) (vmf : vm_fault) (fuel : nat)
    (st : fault_state) :
  userfault_listed st ->
  let st' := snd (vm_fault_gtt env cfg i915 vmf fuel st) in
  userfault_listed st' /\
  fs_obj st' = set_userfault (fs_obj st) (userfault_count (fs_obj st'))
                             (ggtt_vmas (fs_obj st')) /\
  length (ggtt_vmas (fs_obj st')) = length (ggtt_vmas (fs_obj st)) /\
  userfault_count (fs_obj st) <= userfault_count (fs_obj st') /\
  (forall o, o <> obj_id (fs_obj st) ->
             o ∈ userfault_list st' <-> o ∈ userfault_list st).
Proof.
  intros Hl. cbn zeta. unfold vm_fault_gtt.
  assert (Hl0 : userfault_listed (log st [EvRpmGet; EvWwInit]))
    by now apply (userfault_listed_same st).
  destruct (gtt_retry_listed env cfg i915 vmf fuel 0 _ Hl0) as [Hl1 Hs1].
  destruct (gtt_retry env cfg i915 vmf fuel 0 (log st [EvRpmGet; EvWwInit]))
    as [[err | |] st1]; cbn [snd] in *.
  - destruct (i915_error_to_vmf_fault err _) as [r k]. cbn [snd].
    destruct Hs1 as ([Hb Hlen] & Hmono & Hoth).
    split; [now apply (userfault_listed_same st1) |].
    cbn [fs_obj userfault_list set_warn log] in *.
    split; [exact Hb |]. split; [exact Hlen |]. split; [exact Hmono | exact Hoth].
  - destruct Hs1 as ([Hb Hlen] & Hmono & Hoth).
    cbn [fs_obj userfault_list log] in *. split; [exact Hl1 |].
    split; [exact Hb |]. split; [exact Hlen |]. split; [exact Hmono | exact Hoth].
  - destruct Hs1 as ([Hb Hlen] & Hmono & Hoth).
    cbn [fs_obj userfault_list log] in *. split; [exact Hl1 |].
    split; [exact Hb |]. split; [exact Hlen |]. split; [exact Hmono | exact Hoth].
Qed.

Lemma twice_faulted_listed : userfault_listed twice_faulted.
Proof.
  split; [split; vm_compute; congruence |].
  split; [intros _; cbn; rewrite !elem_of_cons; auto
         | intros _; reflexivity].
Qed.

Lemma aperture_fault_keeps_the_books_witness :
  userfault_listed twice_faulted /\
  userfault_listed
    (snd (vm_fault_gtt second_vma_env swap_config plain_device write_fault 3
                       twice_faulted)) /\
  userfault_count (fs_obj twice_faulted)
  <= userfault_count
       (fs_obj (snd (vm_fault_gtt second_vma_env swap_config plain_device
                                  write_fault 3 twice_faulted))).
Proof.
  split; [exact twice_faulted_listed |].
  destruct (aperture_fault_keeps_the_books second_vma_env swap_config
              plain_device write_fault 3 twice_faulted twice_faulted_listed)
    as (Hlisted & _ & _ & Hcount & _).
  split; [exact Hlisted | exact Hcount].
Defined.

Lemma mark_userfault_bookkeeping (obj : drm_i915_gem_object) (i : nat)
    (ufl : list nat) :
  bookkeeping_only obj (fst (mark_userfault obj i ufl)).
Proof.
  unfold mark_userfault. destruct (ggtt_vmas obj !! i) as [v |];
    [| apply bookkeeping_only_refl].
  destruct (vma_userfault v); [apply bookkeeping_only_refl |].
  apply bookkeeping_only_set. apply length_insert.
Qed.

Lemma gtt_pass_bookkeeping (env : fault_env) (cfg : i915_config)
    (i915 : drm_i915_private) (vmf : vm_fault) (n : nat) (st : fault_state) :
  bookkeeping_only (fs_obj st) (fs_obj (snd (gtt_pass env cfg i915 vmf n st))).
Proof.
  destruct (gtt_pass_state env cfg i915 vmf n st)
    as (_ & _ & [(Ho & _) | (i & vma & _ & _ & _ & _ & _ & _ & _ & _ & _
                               & _ & Ho & _)]).
  - rewrite Ho. apply bookkeeping_only_refl.
  - cbn zeta in Ho. rewrite Ho.
    eapply bookkeeping_only_trans; [apply mark_userfault_bookkeeping |].
    apply bookkeeping_only_set. apply length_alter.
Qed.

(** A pass that goes all the way: the fault is served and the vma
    marked. *)
Lemma gtt_pass_served (env : fault_env) (cfg : i915_config)
    (i915 : drm_i915_private) (vmf : vm_fault) (n : nat) (st : fault_state)
    (i : nat) (vma : i915_vma) :
  obj_lock env n = 0 ->
  readonly (fs_obj st) && area_write (vmf_vma vmf) = false ->
  pin_pages_sync env n = 0 ->
  reset_lock env n = 0 ->
  fst (gtt_bind env n (fs_obj st) (fault_page_offset vmf) st)
  = Some (inr i) ->
  ggtt_vmas (fs_obj st) !! i = Some vma ->
  cache_none (fs_obj st) || HAS_LLC i915 = true ->
  pin_fence env n = 0 ->
  remap_io_mapping env n = 0 ->
  let r := gtt_pass env cfg i915 vmf n st in
  let m := mark_userfault (fs_obj st) i (userfault_list st) in
  let area := vmf_vma vmf in
  fst r = Some 0 /\
  fs_obj (snd r)
  = set_userfault (fst m) (userfault_count (fst m))
      (alter (fun v =>
                set_vma_mmo_write v
                  (Some (node_start (vma_node (vm_private_data area))))
                  (area_write area || vma_ggtt_write v))
             i (ggtt_vmas (fst m))) /\
  userfault_list (snd r) = snd m /\
  In (EvRemapIoMapping
        (u64 (vm_start area
              + Z.shiftl (partial_offset (ggtt_view vma)) PAGE_SHIFT))
        (Z.shiftr (u64 (gmadr_start i915 + vma_ggtt_offset vma)) PAGE_SHIFT)
        (Z.min (u64 (vma_size vma)) (u64 (vm_end area - vm_start area))))
     (fs_trace (snd r)).
Proof.
  intros Hlock Hro Hpin Hreset Hbind Hvma Hcache Hfence Hremap. cbn zeta.
  unfold gtt_pass. rewrite Hlock, Hro, Hpin, Hreset. cbn [Z.eqb negb].
  match goal with
  | |- context [gtt_bind env n ?o ?p (log ?s0 ?e0)] =>
      destruct (gtt_bind_events env n o p (log s0 e0))
        as (bevs & Hsnd & _ & _ & Hfst);
      specialize (Hfst st); rewrite Hbind in Hfst;
      destruct (gtt_bind env n o p (log s0 e0)) as [bound stb]
  end.
  cbn [fst snd] in *. subst bound stb.
  rewrite Hvma, Hcache, Hfence, Hremap. cbn [Z.eqb negb].
  cbn [userfault_list log].
  destruct (mark_userfault (fs_obj st) i (userfault_list st)) as [obj' ufl'].
  destruct (CPTCFG_DRM_I915_USERFAULT_AUTOSUSPEND cfg =? 0);
    cbn [fst snd fs_obj userfault_list fs_trace log with_obj];
    repeat split; rewrite !in_app_iff; cbn [In]; auto 20.
Qed.

(** X5. A fault that the aperture handler serves in its first pass (the
    lock is taken, the pages are pinned, the reset lock is held, the
    binding gives a vma, the object is coherent through the aperture, the
    fence is taken and the page-table entries are written) ends with the
    no-page outcome, has remapped the window of the vma onto the aperture,
    and leaves the vma marked as faulted into userspace, tied to the
    mapping record of the area and marked as written through when the
    area is writable; the userfault count of the object is positive and
    the object is on the revocation list, so that a later release will
    find the mapping. *)
Theorem served_aperture_fault_is_marked (env : fault_env) (cfg : i915_config)
    (i915 : drm_i915_private) (vmf : vm_fault) (fuel : nat)
    (st : fault_state) (i : nat) (vma : i915_vma) :
  userfault_listed st ->
  (0 < fuel)%nat ->
  obj_lock env 0 = 0 ->
  readonly (fs_obj st) && area_write (vmf_vma vmf) = false ->
  pin_pages_sync env 0 = 0 ->
  reset_lock env 0 = 0 ->
  fst (gtt_bind env 0 (fs_obj st) (fault_page_offset vmf) st)
  = Some (inr i) ->
  ggtt_vmas (fs_obj st) !! i = Some vma ->
  cache_none (fs_obj st) || HAS_LLC i915 = true ->
  pin_fence env 0 = 0 ->
  remap_io_mapping env 0 = 0 ->
  let r := vm_fault_gtt env cfg i915 vmf fuel st in
  let area := vmf_vma vmf in
  fst r = Done VM_FAULT_NOPAGE /\
  ggtt_vmas (fs_obj (snd r)) !! i = Some (served_vma vmf vma) /\
  0 < userfault_count (fs_obj (snd r)) /\
  obj_id (fs_obj st) ∈ userfault_list (snd r) /\
  In (EvRemapIoMapping
        (u64 (vm_start area
              + Z.shiftl (partial_offset (ggtt_view vma)) PAGE_SHIFT))
        (Z.shiftr (u64 (gmadr_start i915 + vma_ggtt_offset vma)) PAGE_SHIFT)
        (Z.min (u64 (vma_size vma)) (u64 (vm_end area - vm_start area))))
     (fs_trace (snd r)).
Proof.
  intros [Htr Hli] Hfuel Hlock Hro Hpin Hreset Hbind Hvma Hcache Hfence
    Hremap.
  cbn zeta. unfold vm_fault_gtt.
  destruct fuel as [| fuel]; [lia |]. cbn [gtt_retry].
  set (st0 := log st [EvRpmGet; EvWwInit]).
  assert (Hbind0 : fst (gtt_bind env 0 (fs_obj st0) (fault_page_offset vmf) st0)
                   = Some (inr i)).
  { destruct (gtt_bind_events env 0 (fs_obj st) (fault_page_offset vmf) st)
      as (_ & _ & _ & _ & Hfst).
    rewrite <- Hbind. apply Hfst. }
  destruct (gtt_pass_served env cfg i915 vmf 0 st0 i vma Hlock Hro Hpin
              Hreset Hbind0 Hvma Hcache Hfence Hremap)
    as (Hret & Hobj & Hufl & Hin).
  destruct (gtt_pass env cfg i915 vmf 0 st0) as [ret st1].
  cbn [fst snd] in *. subst ret.
  change (0 =? - EDEADLK) with false. cbn iota.
  unfold i915_error_to_vmf_fault.
  change (mem 0 sigbus_errors) with false.
  change (0 =? - ENOMEM) with false.
  change (mem 0 nopage_errors) with true. cbn iota. cbn [fst snd].
  cbn [fs_obj userfault_list fs_trace set_warn log].
  destruct (mark_userfault_listed (fs_obj st) i (userfault_list st) Htr Hli)
    as (_ & Hli1 & Hbk & _ & _ & Hmark).
  destruct (Hmark vma Hvma) as [Hpos Hlook].
  split; [reflexivity |]. rewrite Hobj, Hufl.
  cbn [ggtt_vmas userfault_count set_userfault].
  split; [| split; [exact Hpos | split]].
  - rewrite list_lookup_alter_eq.
    change (fs_obj st0) with (fs_obj st).
    change (userfault_list st0) with (userfault_list st).
    rewrite Hlook. reflexivity.
  - rewrite <- (bookkeeping_only_id _ _ Hbk). now apply Hli1.
  - apply in_or_app. now left.
Qed.

Lemma served_aperture_fault_is_marked_witness :
  fst (vm_fault_gtt second_vma_env swap_config plain_device write_fault 3
                    twice_faulted) = Done VM_FAULT_NOPAGE /\
  ggtt_vmas (fs_obj (snd (vm_fault_gtt second_vma_env swap_config plain_device
                                       write_fault 3 twice_faulted))) !! 1%nat
  = Some (served_vma write_fault (marked_vma 256 false)) /\
  0 < userfault_count
        (fs_obj (snd (vm_fault_gtt second_vma_env swap_config plain_device
                                   write_fault 3 twice_faulted))).
Proof.
  destruct (served_aperture_fault_is_marked second_vma_env swap_config
              plain_device write_fault 3 twice_faulted 1
              (marked_vma 256 false))
    as (Hret & Hvma & Hcount & _);
    [exact twice_faulted_listed | lia | reflexivity | reflexivity
    | reflexivity | reflexivity | vm_compute; reflexivity | reflexivity
    | reflexivity | reflexivity | reflexivity |].
  split; [exact Hret | split; [exact Hvma | exact Hcount]].
Defined.

(** ** What the aperture fault handler never does *)

(** Unless the chunk rounds to zero, the binding returns what one of its
    three attempts gave. *)
Lemma gtt_bind_bound (env : fault_env) (n : nat) (obj : drm_i915_gem_object)
    (page_offset : Z) (st : fault_state) :
  partial_chunk obj MIN_CHUNK_PAGES <> 0 ->
  exists k, (k <= 2)%nat /\
            fst (gtt_bind env n obj page_offset st) = Some (ggtt_pin env n k).
Proof.
  intros Hnz. unfold gtt_bind, compute_partial_view.
  apply Z.eqb_neq in Hnz. rewrite Hnz.
  destruct (is_err_not_deadlk (ggtt_pin env n 0%nat));
    [| exists 0%nat; split; [lia | reflexivity]].
  cbn [view_type partial_offset partial_size].
  destruct (is_err_not_deadlk (ggtt_pin env n 1%nat)).
  - exists 2%nat. split; [lia | reflexivity].
  - exists 1%nat. split; [lia | reflexivity].
Qed.

Lemma bookkeeping_only_chunk (obj obj' : drm_i915_gem_object) :
  bookkeeping_only obj obj' ->
  tile_row_size obj' = tile_row_size obj /\
  length (ggtt_vmas obj') = length (ggtt_vmas obj).
Proof. intros [Heq Hlen]. split; [| exact Hlen]. now rewrite Heq. Qed.

Lemma gtt_pass_no_oops (env : fault_env) (cfg : i915_config)
    (i915 : drm_i915_private) (vmf : vm_fault) (n : nat) (st : fault_state) :
  0 <= tile_row_size (fs_obj st) < 2 ^ 32 ->
  (forall k i, ggtt_pin env n k = inr i ->
               (i < length (ggtt_vmas (fs_obj st)))%nat) ->
  fst (gtt_pass env cfg i915 vmf n st) <> None.
Proof.
  intros Hrow Hvma. unfold gtt_pass.
  destruct (negb (obj_lock env n =? 0)); [discriminate |].
  destruct (readonly (fs_obj st) && area_write (vmf_vma vmf));
    [discriminate |].
  destruct (negb (pin_pages_sync env n =? 0)); [discriminate |].
  destruct (negb (reset_lock env n =? 0)); [discriminate |].
  match goal with
  | |- context [gtt_bind env n ?o ?p ?s] =>
      destruct (gtt_bind_bound env n o p s (min_chunk_nonzero _ Hrow))
        as (k & _ & Hk);
      destruct (gtt_bind env n o p s) as [bound stb]
  end.
  cbn [fst] in Hk. subst bound.
  destruct (ggtt_pin env n k) as [e | i] eqn:Hpin; [discriminate |].
  apply Hvma in Hpin. apply lookup_lt_is_Some_2 in Hpin as [vma ->].
  destruct (negb (cache_none (fs_obj st) || HAS_LLC i915)); [discriminate |].
  destruct (negb (pin_fence env n =? 0)); [discriminate |].
  destruct (negb (remap_io_mapping env n =? 0)); [discriminate |].
  destruct (mark_userfault _ _ _). discriminate.
Qed.

Lemma gtt_retry_no_oops (env : fault_env) (cfg : i915_config)
    (i915 : drm_i915_private) (vmf : vm_fault) (fuel n : nat)
    (st : fault_state) :
  0 <= tile_row_size (fs_obj st) < 2 ^ 32 ->
  (forall m k i, ggtt_pin env m k = inr i ->
                 (i < length (ggtt_vmas (fs_obj st)))%nat) ->
  fst (gtt_retry env cfg i915 vmf fuel n st) <> Oops.
Proof.
  revert n st. induction fuel as [| fuel IH]; intros n st Hrow Hvma;
    cbn [gtt_retry]; [discriminate |].
  pose proof (gtt_pass_no_oops env cfg i915 vmf n st Hrow (Hvma n)) as Hno.
  destruct (bookkeeping_only_chunk _ _ (gtt_pass_bookkeeping env cfg i915 vmf n st))
    as [Hrow' Hlen'].
  destruct (gtt_pass env cfg i915 vmf n st) as [[ret |] st1];
    cbn [fst snd] in *; [| contradiction].
  destruct (ret =? - EDEADLK); [| discriminate].
  destruct (ww_backoff env n =? 0); [| discriminate].
  apply IH; cbn [fs_obj log]; [now rewrite Hrow' |].
  intros m k i Hpin. rewrite Hlen'. eapply Hvma; eassumption.
Qed.

(** X6. The aperture fault handler does not fault itself. When the tile
    row size of the object is an [unsigned int] and the binding returns
    vmas of the object, no pass divides by zero in the partial view (the
    1 MiB chunk never rounds to zero) or follows a vma that is not there,
    however many passes the fault takes. *)
Theorem aperture_fault_never_oopses (env : fault_env) (cfg : i915_config)
    (i915 : drm_i915_private) (vmf : vm_fault) (fuel : nat)
    (st : fault_state) :
  0 <= tile_row_size (fs_obj st) < 2 ^ 32 ->
  (forall n k i, ggtt_pin env n k = inr i ->
                 (i < length (ggtt_vmas (fs_obj st)))%nat) ->
  fst (vm_fault_gtt env cfg i915 vmf fuel st) <> Oops /\
  (forall n page_offset st',
      fst (gtt_bind env n (fs_obj st) page_offset st') <> None).
Proof.
  intros Hrow Hvma. split.
  - unfold vm_fault_gtt.
    pose proof (gtt_retry_no_oops env cfg i915 vmf fuel 0
                  (log st [EvRpmGet; EvWwInit]) Hrow Hvma) as Hno.
    destruct (gtt_retry env cfg i915 vmf fuel 0 (log st [EvRpmGet; EvWwInit]))
      as [[err | |] st1]; cbn [fst] in *; try discriminate;
      [| contradiction].
    destruct (i915_error_to_vmf_fault err _). discriminate.
  - intros n page_offset st'.
    destruct (gtt_bind_bound env n (fs_obj st) page_offset st'
                (min_chunk_nonzero _ Hrow)) as (k & _ & ->).
    discriminate.
Qed.

Lemma aperture_fault_never_oopses_witness :
  0 <= tile_row_size (fs_obj twice_faulted) < 2 ^ 32 /\
  fst (vm_fault_gtt second_vma_env swap_config plain_device write_fault 3
                    twice_faulted) <> Oops.
Proof.
  assert (Hrow : 0 <= tile_row_size (fs_obj twice_faulted) < 2 ^ 32).
  { vm_compute. split; congruence. }
  split; [exact Hrow |].
  apply (aperture_fault_never_oopses second_vma_env swap_config plain_device
           write_fault 3 twice_faulted Hrow).
  intros n k i Hpin. injection Hpin as <-. cbn. lia.
Defined.

Lemma requests_map_nothing (evs : list event) :
  Forall (fun x => exists v f, x = EvGgttPin v f) evs ->
  Forall (fun e => maps_aperture e = false) evs.
Proof.
  intros H. eapply Forall_impl; [exact H |]. now intros x (v & f & ->).
Qed.

(** A pass on an object that is snooped, on a device without a shared
    last-level cache, stops at the coherency check at the latest. *)
Lemma gtt_pass_snooped (env : fault_env) (cfg : i915_config)
    (i915 : drm_i915_private) (vmf : vm_fault) (n : nat) (st : fault_state) :
  cache_none (fs_obj st) = false ->
  HAS_LLC i915 = false ->
  let r := gtt_pass env cfg i915 vmf n st in
  (exists evs, only_logs st (snd r) evs /\
               Forall (fun e => maps_aperture e = false) evs) /\
  (obj_lock env n = 0 ->
   readonly (fs_obj st) && area_write (vmf_vma vmf) = false ->
   pin_pages_sync env n = 0 ->
   reset_lock env n = 0 ->
   forall i vma,
     fst (gtt_bind env n (fs_obj st) (fault_page_offset vmf) st)
     = Some (inr i) ->
     ggtt_vmas (fs_obj st) !! i = Some vma ->
     fst r = Some (- EFAULT)).
Proof.
  intros Hcache Hllc. cbn zeta. unfold gtt_pass.
  assert (Hquiet : forall l, Forall (fun e => maps_aperture e = false) l ->
                             Forall (fun e => maps_aperture e = false) l)
    by auto.
  destruct (Z.eqb_spec (obj_lock env n) 0) as [Hlock | Hlock];
    cbn [negb fst snd].
  2:{ split; [| intros H; contradiction].
      eexists. split; [repeat apply only_logs_log; apply only_logs_refl |].
      now repeat constructor. }
  destruct (readonly (fs_obj st) && area_write (vmf_vma vmf)) eqn:Hro;
    cbn [fst snd].
  { split; [| intros _ H; discriminate].
    eexists. split; [repeat apply only_logs_log; apply only_logs_refl |].
    now repeat constructor. }
  destruct (Z.eqb_spec (pin_pages_sync env n) 0) as [Hpin | Hpin];
    cbn [negb fst snd].
  2:{ split; [| intros _ _ H; contradiction].
      eexists. split; [repeat apply only_logs_log; apply only_logs_refl |].
      now repeat constructor. }
  destruct (Z.eqb_spec (reset_lock env n) 0) as [Hreset | Hreset];
    cbn [negb fst snd].
  2:{ split; [| intros _ _ _ H; contradiction].
      eexists. split; [repeat apply only_logs_log; apply only_logs_refl |].
      now repeat constructor. }
  match goal with
  | |- context [gtt_bind env n ?o ?p (log ?s0 ?e0)] =>
      destruct (gtt_bind_events env n o p (log s0 e0))
        as (bevs & Hsnd & Hreq & _ & Hfst);
      rewrite (Hfst st);
      destruct (gtt_bind env n o p (log s0 e0)) as [bound stb]
  end.
  cbn [fst snd] in *. subst stb. clear Hfst Hquiet.
  apply requests_map_nothing in Hreq.
  destruct bound as [[e | i] |].
  - split; [| intros _ _ _ _ i vma H; discriminate].
    eexists. split; [repeat apply only_logs_log; apply only_logs_refl |].
    repeat (apply Forall_app; split); try exact Hreq; now repeat constructor.
  - destruct (ggtt_vmas (fs_obj st) !! i) as [vma |] eqn:Hvma.
    + rewrite Hcache, Hllc. cbn [orb negb fst snd].
      split; [| reflexivity].
      eexists. split; [repeat apply only_logs_log; apply only_logs_refl |].
      repeat (apply Forall_app; split); try exact Hreq; now repeat constructor.
    + split; [| intros _ _ _ _ i' vma [= <-] H; congruence].
      eexists. split; [repeat apply only_logs_log; apply only_logs_refl |].
      repeat (apply Forall_app; split); try exact Hreq; now repeat constructor.
  - split; [| intros _ _ _ _ i vma H; discriminate].
    eexists. split; [repeat apply only_logs_log; apply only_logs_refl |].
    repeat (apply Forall_app; split); try exact Hreq; now repeat constructor.
Qed.

Lemma only_logs_trans (a b c : fault_state) (e1 e2 : list event) :
  only_logs a b e1 -> only_logs b c e2 -> only_logs a c (e1 ++ e2).
Proof.
  intros (Ho1 & Hu1 & Hw1 & Ht1) (Ho2 & Hu2 & Hw2 & Ht2).
  unfold only_logs. rewrite Ho2, Hu2, Hw2, Ht2, Ht1, app_assoc. tauto.
Qed.

Lemma gtt_retry_snooped (env : fault_env) (cfg : i915_config)
    (i915 : drm_i915_private) (vmf : vm_fault) (fuel n : nat)
    (st : fault_state) :
  cache_none (fs_obj st) = false ->
  HAS_LLC i915 = false ->
  exists evs, only_logs st (snd (gtt_retry env cfg i915 vmf fuel n st)) evs /\
              Forall (fun e => maps_aperture e = false) evs.
Proof.
  intros Hcache Hllc. revert n st Hcache.
  induction fuel as [| fuel IH]; intros n st Hcache; cbn [gtt_retry].
  - exists []. split; [apply only_logs_refl | constructor].
  - destruct (gtt_pass_snooped env cfg i915 vmf n st Hcache Hllc)
      as [(evs & Hlogs & Hq) _].
    destruct (gtt_pass env cfg i915 vmf n st) as [[ret |] st1];
      cbn [snd] in *; [| now exists evs].
    destruct (ret =? - EDEADLK); [| now exists evs].
    assert (Hlogs2 : only_logs st (log st1 [EvWwBackoff]) (evs ++ [EvWwBackoff]))
      by now apply only_logs_log.
    assert (Hq2 : Forall (fun e => maps_aperture e = false)
                    (evs ++ [EvWwBackoff])).
    { apply Forall_app. split; [exact Hq | now repeat constructor]. }
    destruct (ww_backoff env n =? 0);
      [| exists (evs ++ [EvWwBackoff]); now split].
    destruct (IH (S n) (log st1 [EvWwBackoff])) as (evs3 & Hlogs3 & Hq3).
    { cbn [fs_obj log]. destruct Hlogs as (-> & _). exact Hcache. }
    exists ((evs ++ [EvWwBackoff]) ++ evs3).
    split; [eapply only_logs_trans; eassumption |].
    apply Forall_app. now split.
Qed.

(** X7. An object that is snooped (its cache level is not "none") is not
    put in front of userspace through the aperture of a device without a
    shared last-level cache: a fault on it, whatever its outcome and
    however many passes it takes, takes no fence, writes no page-table
    entry, touches neither the object nor the revocation list, and, when
    its first pass gets as far as a bound vma, ends with SIGBUS. *)
Theorem snooped_object_is_not_mapped_through_aperture (env : fault_env)
    (cfg : i915_config) (i915 : drm_i915_private) (vmf : vm_fault)
    (fuel : nat) (st : fault_state) :
  cache_none (fs_obj st) = false ->
  HAS_LLC i915 = false ->
  let r := vm_fault_gtt env cfg i915 vmf fuel st in
  (exists evs, fs_trace (snd r) = fs_trace st ++ evs /\
               Forall (fun e => maps_aperture e = false) evs) /\
  fs_obj (snd r) = fs_obj st /\
  userfault_list (snd r) = userfault_list st /\
  ((0 < fuel)%nat ->
   obj_lock env 0 = 0 ->
   readonly (fs_obj st) && area_write (vmf_vma vmf) = false ->
   pin_pages_sync env 0 = 0 ->
   reset_lock env 0 = 0 ->
   forall i vma,
     fst (gtt_bind env 0 (fs_obj st) (fault_page_offset vmf) st)
     = Some (inr i) ->
     ggtt_vmas (fs_obj st) !! i = Some vma ->
     fst r = Done VM_FAULT_SIGBUS).
Proof.
  intros Hcache Hllc. cbn zeta. unfold vm_fault_gtt.
  set (st0 := log st [EvRpmGet; EvWwInit]).
  destruct (gtt_retry_snooped env cfg i915 vmf fuel 0 st0 Hcache Hllc)
    as (evs & (Ho & Hu & Hw & Ht) & Hq).
  split; [| split; [| split]].
  - destruct (gtt_retry env cfg i915 vmf fuel 0 st0) as [[err | |] st1];
      cbn [snd] in *.
    + destruct (i915_error_to_vmf_fault err _) as [r k]. cbn [snd].
      exists ([EvRpmGet; EvWwInit] ++ evs ++ [EvWwFini; EvRpmPut]).
      cbn [fs_trace set_warn log]. rewrite Ht. cbn [st0 fs_trace log].
      rewrite <- !app_assoc. split; [reflexivity |].
      apply Forall_app. split; [now repeat constructor |].
      apply Forall_app. split; [exact Hq | now repeat constructor].
    + exists ([EvRpmGet; EvWwInit] ++ evs). rewrite Ht. cbn [st0 fs_trace log].
      rewrite <- !app_assoc. split; [reflexivity |].
      apply Forall_app. split; [now repeat constructor | exact Hq].
    + exists ([EvRpmGet; EvWwInit] ++ evs). rewrite Ht. cbn [st0 fs_trace log].
      rewrite <- !app_assoc. split; [reflexivity |].
      apply Forall_app. split; [now repeat constructor | exact Hq].
  - destruct (gtt_retry env cfg i915 vmf fuel 0 st0) as [[err | |] st1];
      cbn [snd] in *; try exact Ho.
    destruct (i915_error_to_vmf_fault err _) as [r k]. exact Ho.
  - destruct (gtt_retry env cfg i915 vmf fuel 0 st0) as [[err | |] st1];
      cbn [snd] in *; try exact Hu.
    destruct (i915_error_to_vmf_fault err _) as [r k]. exact Hu.
  - intros Hfuel Hlock Hro Hpin Hreset i vma Hbind Hvma.
    destruct fuel as [| fuel]; [lia |]. cbn [gtt_retry].
    assert (Hbind0 : fst (gtt_bind env 0 (fs_obj st0) (fault_page_offset vmf)
                            st0) = Some (inr i)).
    { destruct (gtt_bind_events env 0 (fs_obj st) (fault_page_offset vmf) st)
        as (_ & _ & _ & _ & Hfst).
      rewrite <- Hbind. apply Hfst. }
    destruct (gtt_pass_snooped env cfg i915 vmf 0 st0 Hcache Hllc)
      as [_ Hret].
    specialize (Hret Hlock Hro Hpin Hreset i vma Hbind0 Hvma).
    destruct (gtt_pass env cfg i915 vmf 0 st0) as [ret st1].
    cbn [fst] in Hret. subst ret.
    change (- EFAULT =? - EDEADLK) with false. cbn iota.
    reflexivity.
Qed.

Lemma snooped_object_is_not_mapped_through_aperture_witness :
  cache_none (fs_obj snooped_state) = false /\
  HAS_LLC no_llc_device = false /\
  fst (vm_fault_gtt calm_env swap_config no_llc_device write_fault 3
                    snooped_state) = Done VM_FAULT_SIGBUS /\
  fs_obj (snd (vm_fault_gtt calm_env swap_config no_llc_device write_fault 3
                            snooped_state)) = fs_obj snooped_state.
Proof.
  split; [reflexivity |]. split; [reflexivity |].
  destruct (snooped_object_is_not_mapped_through_aperture calm_env
              swap_config no_llc_device write_fault 3 snooped_state
              eq_refl eq_refl)
    as (_ & Hobj & _ & Hret).
  split; [| exact Hobj].
  apply (Hret ltac:(lia) eq_refl eq_refl eq_refl eq_refl 0%nat
              (marked_vma 0 false));
    [vm_compute; reflexivity | reflexivity].
Defined.

Lemma gtt_bind_deadlock (env : fault_env) (n : nat)
    (obj : drm_i915_gem_object) (page_offset : Z) (st : fault_state)
    (k : nat) :
  (k <= 2)%nat ->
  (forall j, (j < k)%nat -> is_err_not_deadlk (ggtt_pin env n j) = true) ->
  ggtt_pin env n k = inl (- EDEADLK) ->
  partial_chunk obj MIN_CHUNK_PAGES <> 0 ->
  exists reqs,
    gtt_bind env n obj page_offset st
    = (Some (inl (- EDEADLK)), log st reqs) /\
    length reqs = S k /\
    Forall (fun e => exists v f, e = EvGgttPin v f) reqs.
Proof.
  intros Hk Hbefore Hdead Hnz. unfold gtt_bind, compute_partial_view.
  apply Z.eqb_neq in Hnz. rewrite Hnz.
  cbn [view_type partial_offset partial_size].
  destruct k as [| [| [| k]]]; [| | | lia].
  - rewrite Hdead. cbn [is_err_not_deadlk]. rewrite Z.eqb_refl. cbn [negb].
    eexists. split; [reflexivity |]. split; [reflexivity |].
    repeat constructor; eauto.
  - rewrite (Hbefore 0%nat) by lia. rewrite Hdead.
    cbn [is_err_not_deadlk]. rewrite Z.eqb_refl. cbn [negb].
    eexists. split; [unfold log; cbn; rewrite <- !app_assoc; reflexivity |].
    split; [reflexivity |]. repeat constructor; eauto.
  - rewrite (Hbefore 0%nat), (Hbefore 1%nat) by lia. rewrite Hdead.
    eexists. split; [unfold log; cbn; rewrite <- !app_assoc; reflexivity |].
    split; [reflexivity |]. repeat constructor; eauto.
Qed.

(** X8. A deadlock reported by a binding attempt is not masked by the
    fall-backs. Whichever of the three attempts reports -EDEADLK (the
    earlier ones having failed otherwise), no further view is tried: the
    pass has made exactly that many requests, gives back the reset lock
    and the pages, leaves object and revocation list alone and ends with
    -EDEADLK, so that the handler backs off and, when the back-off
    succeeds, takes the next pass. *)
Theorem binding_deadlock_ends_the_attempts (env : fault_env)
    (cfg : i915_config) (i915 : drm_i915_private) (vmf : vm_fault)
    (n : nat) (st : fault_state) (k : nat) :
  obj_lock env n = 0 ->
  readonly (fs_obj st) && area_write (vmf_vma vmf) = false ->
  pin_pages_sync env n = 0 ->
  reset_lock env n = 0 ->
  partial_chunk (fs_obj st) MIN_CHUNK_PAGES <> 0 ->
  (k <= 2)%nat ->
  (forall j, (j < k)%nat -> is_err_not_deadlk (ggtt_pin env n j) = true) ->
  ggtt_pin env n k = inl (- EDEADLK) ->
  let r := gtt_pass env cfg i915 vmf n st in
  fst r = Some (- EDEADLK) /\
  fs_obj (snd r) = fs_obj st /\
  userfault_list (snd r) = userfault_list st /\
  (exists reqs,
      fs_trace (snd r)
      = fs_trace st ++ [EvLock; EvPinPages; EvResetLock] ++ reqs
        ++ [EvResetUnlock; EvUnpinPages] /\
      length reqs = S k /\
      Forall (fun e => exists v f, e = EvGgttPin v f) reqs) /\
  (forall fuel,
      gtt_retry env cfg i915 vmf (S fuel) n st
      = if ww_backoff env n =? 0
        then gtt_retry env cfg i915 vmf fuel (S n) (log (snd r) [EvWwBackoff])
        else (Done (ww_backoff env n), log (snd r) [EvWwBackoff])).
Proof.
  intros Hlock Hro Hpin Hreset Hnz Hk Hbefore Hdead. cbn zeta.
  assert (Hpass : exists reqs,
             gtt_pass env cfg i915 vmf n st
             = (Some (- EDEADLK),
                log (log (log (log (log st [EvLock]) [EvPinPages])
                               [EvResetLock]) reqs) err_reset) /\
             length reqs = S k /\
             Forall (fun e => exists v f, e = EvGgttPin v f) reqs).
  { unfold gtt_pass. rewrite Hlock, Hro, Hpin, Hreset.
    change (negb (0 =? 0)) with false. cbn iota.
    match goal with
    | |- context [gtt_bind env n ?o ?p ?s] =>
        destruct (gtt_bind_deadlock env n o p s k Hk Hbefore Hdead Hnz)
          as (reqs & -> & Hlen & Hreq)
    end.
    exists reqs. now repeat split. }
  destruct Hpass as (reqs & Hpass & Hlen & Hreq).
  split; [now rewrite Hpass |]. split; [now rewrite Hpass |].
  split; [now rewrite Hpass |]. split.
  - exists reqs. rewrite Hpass. cbn [snd fs_trace log].
    rewrite <- !app_assoc. now repeat split.
  - intros fuel. cbn [gtt_retry]. rewrite Hpass. cbn [snd].
    rewrite Z.eqb_refl. reflexivity.
Qed.

Lemma binding_deadlock_ends_the_attempts_witness :
  ggtt_pin contended_env 0 1 = inl (- EDEADLK) /\
  fst (gtt_pass contended_env swap_config plain_device write_fault 0
                twice_faulted) = Some (- EDEADLK) /\
  fs_obj (snd (gtt_pass contended_env swap_config plain_device write_fault 0
                        twice_faulted)) = fs_obj twice_faulted.
Proof.
  split; [reflexivity |].
  destruct (binding_deadlock_ends_the_attempts contended_env swap_config
              plain_device write_fault 0 twice_faulted 1)
    as (Hret & Hobj & _);
    [reflexivity | reflexivity | reflexivity | reflexivity
    | vm_compute; congruence | lia | | reflexivity |].
  { intros j Hj. assert (j = 0)%nat as -> by lia. reflexivity. }
  split; [exact Hret | exact Hobj].
Defined.

(** ** Linking and looking up mapping records *)

Section Linking.

Context `{VmaManager M}.

Lemma attach_out_other (new_ok : bool) (w : world M)
    (mmo : i915_mmap_offset) (file : option nat) (t : i915_mmap_type) :
  t <> mmap_type mmo ->
  lookup_mmo (w_obj (snd (attach_out new_ok w mmo file))) t
  = lookup_mmo (w_obj w) t.
Proof.
  intros Hne. unfold attach_out. destruct file as [tag |]; [| reflexivity].
  destruct (vma_node_allow_once _ _ _) as [err node].
  destruct (negb (err =? 0)); cbn [snd w_obj]; unfold lookup_mmo; cbn;
    now apply lookup_store_other.
Qed.

(** X9. The assertion of [i915_gem_mmap_offset_attach] after linking,
    [GEM_BUG_ON(lookup_mmo(obj, mmap_type) != mmo)], holds: whatever
    [insert_mmo] returns is what [lookup_mmo] finds for the kind
    afterwards. The record returned is of the kind asked for; the records
    of the other kinds are found as before; a search tree stays a search
    tree. When the kind was not held, the record returned is the new one
    and the manager is left alone; when it was held, the record returned
    is the one that was held, the registry is unchanged and the region of
    the new record goes back to the manager. *)
Theorem insert_mmo_returns_what_lookup_finds (w : world M)
    (mmo : i915_mmap_offset) :
  let r := insert_mmo w mmo in
  lookup_mmo (w_obj (snd r)) (mmap_type mmo) = Some (fst r) /\
  mmap_type (fst r) = mmap_type mmo /\
  (forall t, t <> mmap_type mmo ->
             lookup_mmo (w_obj (snd r)) t = lookup_mmo (w_obj w) t) /\
  (rb_ordered (mmo_offsets (w_obj w)) ->
   rb_ordered (mmo_offsets (w_obj (snd r)))) /\
  (lookup_mmo (w_obj w) (mmap_type mmo) = None ->
   fst r = mmo /\ w_mgr (snd r) = w_mgr w /\ w_log (snd r) = w_log w) /\
  (forall pos, lookup_mmo (w_obj w) (mmap_type mmo) = Some pos ->
               fst r = pos /\ w_obj (snd r) = w_obj w /\
               w_mgr (snd r) = drm_vma_offset_remove (w_mgr w) (vma_node mmo) /\
               w_log (snd r)
               = w_log w ++ [MgrRemove (node_start (vma_node mmo))]).
Proof.
  cbn zeta. unfold insert_mmo, lookup_mmo.
  pose proof (insert_walk_found (mmo_offsets (w_obj w)) mmo) as Hfound.
  pose proof (lookup_after_insert (mmo_offsets (w_obj w)) mmo) as Hafter.
  pose proof (insert_walk_same (mmo_offsets (w_obj w)) mmo) as Hsame.
  pose proof (fun t => lookup_other_after_insert (mmo_offsets (w_obj w)) mmo t)
    as Hother.
  pose proof (insert_walk_ordered (mmo_offsets (w_obj w)) mmo) as Hord.
  pose proof (lookup_walk_In (mmo_offsets (w_obj w)) (mmap_type mmo)) as Hin.
  destruct (insert_walk (mmo_offsets (w_obj w)) mmo) as [t [pos |]];
    cbn [fst snd w_obj w_mgr w_log default] in *.
  - specialize (Hsame pos eq_refl). subst t.
    repeat split; try assumption; try congruence.
    symmetry in Hfound. now apply Hin in Hfound.
  - repeat split; try assumption; try congruence; cbn; auto.
Qed.

(** Linking a record of a new kind and letting the requester in. *)
Lemma link_and_allow (new_ok : bool) (w : world M) (mmo : i915_mmap_offset)
    (file : option nat) :
  lookup_mmo (w_obj w) (mmap_type mmo) = None ->
  let r := attach_out new_ok (snd (insert_mmo w mmo)) mmo file in
  insert_mmo w mmo = (mmo, snd (insert_mmo w mmo)) /\
  w_log (snd r) = w_log w /\
  w_mgr (snd r) = w_mgr w /\
  forall t, t <> mmap_type mmo ->
            lookup_mmo (w_obj (snd r)) t = lookup_mmo (w_obj w) t.
Proof.
  intros Hnone. cbn zeta. rewrite (insert_mmo_new w mmo Hnone). cbn [snd].
  set (w1 := mk_world _ _ _).
  assert (Hlinked : lookup_mmo (w_obj w1) (mmap_type mmo) = Some mmo).
  { unfold lookup_mmo, w1. cbn. rewrite lookup_after_insert.
    rewrite insert_walk_found. unfold lookup_mmo in Hnone. now rewrite Hnone. }
  destruct (attach_out_linked new_ok w1 mmo file Hlinked) as (Hlog & Hmgr & _).
  split; [reflexivity |]. split; [exact Hlog |]. split; [exact Hmgr |].
  intros t Ht. rewrite attach_out_other by exact Ht.
  unfold lookup_mmo, w1. cbn. now apply lookup_other_after_insert.
Qed.

(** X10. [i915_gem_mmap_offset_attach] goes to the device-wide offset
    manager only for a kind the registry does not hold yet. When the
    record is there, or when no memory is to be had for a new one, the
    manager is neither asked nor changed (and without memory the
    operation fails with -ENOMEM, leaving everything as it was). The
    address space of dead objects is reclaimed exactly when the first
    allocation fails; a caller on its own never gives a region back. The
    records of the other kinds are found as before. *)
Theorem attach_asks_the_manager_only_for_a_new_kind (mmo_ok new_ok : bool)
    (w : world M) (t : i915_mmap_type) (file : option nat) :
  let r := i915_gem_mmap_offset_attach mmo_ok new_ok w t file in
  let pages := attach_pages (w_obj w) in
  (exists evs,
      w_log (snd r) = w_log w ++ evs /\
      Forall (fun e => forall s, e <> MgrRemove s) evs /\
      (evs <> [] <-> lookup_mmo (w_obj w) t = None /\ mmo_ok = true) /\
      (In MgrReap evs <->
       lookup_mmo (w_obj w) t = None /\ mmo_ok = true /\
       add_err (w_mgr w) pages <> 0)) /\
  (lookup_mmo (w_obj w) t <> None \/ mmo_ok = false ->
   w_mgr (snd r) = w_mgr w) /\
  (lookup_mmo (w_obj w) t = None -> mmo_ok = false ->
   fst r = inl (- ENOMEM) /\ snd r = w) /\
  (forall t', t' <> t ->
              lookup_mmo (w_obj (snd r)) t' = lookup_mmo (w_obj w) t').
Proof.
  cbn zeta. unfold i915_gem_mmap_offset_attach.
  destruct (lookup_mmo (w_obj w) t) as [mmo |] eqn:Hlook.
  { (* the record is there *)
    pose proof Hlook as Hin. apply lookup_walk_In in Hin as [_ Hty].
    assert (Hlinked : lookup_mmo (w_obj w) (mmap_type mmo) = Some mmo)
      by now rewrite Hty.
    destruct (attach_out_linked new_ok w mmo file Hlinked)
      as (Hlog & Hmgr & _).
    split; [| split; [| split]].
    - exists []. rewrite app_nil_r. split; [exact Hlog |].
      split; [constructor |]. split.
      + split; [congruence | intros [Hn _]; discriminate].
      + split; [intros [] | intros [Hn _]; discriminate].
    - intros _. exact Hmgr.
    - discriminate.
    - intros t' Ht'. apply attach_out_other. congruence. }
  destruct mmo_ok; cbn [negb].
  2:{ (* no memory for a record *)
      split; [| split; [| split]]; cbn [fst snd]; auto.
      exists []. rewrite app_nil_r. split; [reflexivity |].
      split; [constructor |]. split.
      - split; [congruence | intros [_ Hn]; discriminate].
      - split; [intros [] | intros (_ & Hn & _); discriminate]. }
  fold (attach_pages (w_obj w)). rewrite world_add_eq.
  set (pages := attach_pages (w_obj w)).
  destruct (Z.eqb_spec (add_err (w_mgr w) pages) 0) as [Herr | Herr].
  { (* the first allocation succeeds *)
    match goal with
    | |- context [insert_mmo ?w1 ?mmo] =>
        destruct (link_and_allow new_ok w1 mmo file Hlook)
          as (Hins & Hlog & Hmgr & Hother)
    end.
    rewrite Hins. cbn beta iota. cbn [w_log w_mgr w_obj mmap_type] in *.
    split; [| split; [| split]].
    - exists [MgrAdd pages (add_err (w_mgr w) pages)].
      split; [exact Hlog |]. split; [repeat constructor; discriminate |].
      split; [split; [now auto | discriminate] |].
      split; [| intros (_ & _ & Hn); contradiction].
      cbn. intros [Hr | []]. discriminate.
    - intros [Hn | Hn]; [contradiction | discriminate].
    - discriminate.
    - exact Hother. }
  (* the first allocation fails: reclaim and retry *)
  unfold world_reap. cbn [w_mgr w_obj w_log]. rewrite world_add_eq.
  cbn [w_mgr w_obj w_log]. fold pages.
  destruct (Z.eqb_spec (add_err (drain_freed_objects
                                   (add_mgr (w_mgr w) pages)) pages) 0)
    as [Herr2 | Herr2]; cbn [negb].
  - match goal with
    | |- context [insert_mmo ?w1 ?mmo] =>
        destruct (link_and_allow new_ok w1 mmo file Hlook)
          as (Hins & Hlog & Hmgr & Hother)
    end.
    rewrite Hins. cbn beta iota. cbn [w_log w_mgr w_obj mmap_type] in *.
    split; [| split; [| split]].
    + eexists. split; [rewrite Hlog; rewrite <- !app_assoc; reflexivity |].
      split; [repeat constructor; discriminate |].
      split; [split; [now auto | discriminate] |].
      split; [now auto |]. intros _. cbn. auto.
    + intros [Hn | Hn]; [contradiction | discriminate].
    + discriminate.
    + exact Hother.
  - cbn [fst snd w_log w_obj w_mgr].
    split; [| split; [| split]].
    + eexists. split; [rewrite <- !app_assoc; reflexivity |].
      split; [repeat constructor; discriminate |].
      split; [split; [now auto | discriminate] |].
      split; [now auto |]. intros _. cbn. auto.
    + intros [Hn | Hn]; [contradiction | discriminate].
    + discriminate.
    + reflexivity.
Qed.

End Linking.

(** ** The allow-list of a mapping record *)

(** X11. Letting a requester in is idempotent, and the memory for a new
    entry is only missed when an entry is needed. A requester that is on
    the allow-list already is let in with the node unchanged even when
    the allocation made up front has failed; once let in, any further
    call succeeds and changes nothing; a failure is -ENOMEM, happens only
    to a new requester without memory and leaves the node as it was. The
    other requesters are on the list after the call exactly if they were
    before, the region of the node is kept, and a list without
    duplicates stays one. *)
Theorem allow_once_is_idempotent (new_ok again_ok : bool)
    (node : drm_vma_offset_node) (tag : nat) :
  let r := vma_node_allow_once new_ok node tag in
  (tag ∈ vm_files node -> r = (0, node)) /\
  (fst r = 0 ->
   tag ∈ vm_files (snd r) /\
   vma_node_allow_once again_ok (snd r) tag = (0, snd r)) /\
  (fst r <> 0 ->
   fst r = - ENOMEM /\ snd r = node /\ new_ok = false /\
   tag ∉ vm_files node) /\
  (forall g, g <> tag -> g ∈ vm_files (snd r) <-> g ∈ vm_files node) /\
  node_start (snd r) = node_start node /\
  node_pages (snd r) = node_pages node /\
  (NoDup (vm_files node) -> NoDup (vm_files (snd r))).
Proof.
  cbn zeta. unfold vma_node_allow_once.
  destruct (bool_decide_reflect (tag ∈ vm_files node)) as [Hin | Hout].
  - cbn [fst snd]. rewrite bool_decide_eq_true_2 by exact Hin.
    repeat split; try tauto; try assumption; try contradiction.
  - destruct new_ok; cbn [negb fst snd vm_files].
    + assert (Hnew : tag ∈ tag :: vm_files node) by (apply elem_of_cons; auto).
      rewrite bool_decide_eq_true_2 by exact Hnew.
      repeat split; try tauto; try assumption; try contradiction.
      * intros Hg. apply elem_of_cons in Hg. tauto.
      * intros Hg. apply elem_of_cons. tauto.
      * intros Hnd. now apply NoDup_cons.
    + repeat split; try tauto; try assumption; try contradiction;
        discriminate.
Qed.

(** ** The swap policy on read faults *)

(** X12. The free budget of the home region is only consulted for
    writes. A read fault on a device-local object without resident pages
    that is not purged, with the swap policy configured in and no
    will-need shadow at hand, is served from a fresh host-memory shadow
    whatever the budget says: the shadow is the object the allocation
    gave, sized like the object (plus 1/256 for the compression state on a
    device with flat CCS that is not wedged), flagged to be cleared by the
    CPU, and it is installed as the object's swapto target, taking the
    place of a shadow that is no longer will-need. When the shadow cannot
    be allocated, for a read or a write, the fault is served from the
    object itself, which is left as it is. *)
Theorem read_fault_ignores_the_budget (cfg : i915_config)
    (i915 : drm_i915_private) (obj : drm_i915_gem_object) :
  is_lmem obj = true ->
  has_pages obj = false ->
  mm_madv obj <> __I915_MADV_PURGED ->
  CPTCFG_DRM_I915_CHICKEN_MMAP_SWAP cfg = true ->
  CPTCFG_DRM_I915_CHICKEN_MMAP_SWAP_CREATE cfg = true ->
  (forall s, swapto obj = Some s -> mm_madv s <> I915_MADV_WILLNEED) ->
  (forall id, exists swp,
      use_swapto cfg i915 (inr id) obj false
      = (set_swapto obj (Some swp), swp) /\
      obj_id swp = id /\
      base_size swp
      = (if HAS_FLAT_CCS i915 && negb (gt_wedged (mm_region_mem obj))
         then u64 (base_size obj + Z.shiftr (base_size obj) 8)
         else base_size obj) /\
      Z.land (obj_flags swp) (I915_BO_CPU_CLEAR cfg) = I915_BO_CPU_CLEAR cfg) /\
  (forall err write, use_swapto cfg i915 (inl err) obj write = (obj, obj)).
Proof.
  intros Hlmem Hpages Hmadv Hswap Hcreate Hstale.
  assert (Huse : forall shmem write,
             use_swapto cfg i915 shmem obj write
             = create_swapto cfg i915 shmem obj write).
  { intros shmem write. unfold use_swapto. rewrite Hswap. cbn [negb].
    destruct (swapto obj) as [s |] eqn:Hs; [| reflexivity].
    rewrite bool_decide_eq_false_2; [reflexivity |]. now apply Hstale. }
  split.
  - intros id. rewrite Huse. unfold create_swapto.
    rewrite Hcreate, Hlmem, Hpages. cbn [negb orb andb].
    rewrite bool_decide_eq_false_2 by exact Hmadv.
    eexists. split; [reflexivity |]. cbn.
    split; [reflexivity |]. split; [reflexivity |]. apply Z.land_diag.
  - intros err write. rewrite Huse. unfold create_swapto.
    rewrite Hcreate, Hlmem, Hpages. cbn [negb orb].
    rewrite bool_decide_eq_false_2 by exact Hmadv.
    now destruct (write && _).
Qed.

Lemma read_fault_ignores_the_budget_witness :
  exists swp,
    use_swapto swap_config plain_device (inr 7%nat)
               (lmem_object 8192 (2 ^ 30)) false
    = (set_swapto (lmem_object 8192 (2 ^ 30)) (Some swp), swp) /\
    obj_id swp = 7%nat /\ base_size swp = 8192.
Proof.
  destruct (read_fault_ignores_the_budget swap_config plain_device
              (lmem_object 8192 (2 ^ 30)))
    as (Hread & _);
    [reflexivity | reflexivity | vm_compute; congruence | reflexivity
    | reflexivity | intros s Hs; vm_compute in Hs; discriminate Hs |].
  destruct (Hread 7%nat) as (swp & Huse & Hid & Hsize & _).
  exists swp. split; [exact Huse | split; [exact Hid | exact Hsize]].
Defined.

(** ** The window of a segment in the direct fault handler *)

Lemma shiftl_pages (x : Z) : Z.shiftl x PAGE_SHIFT = x * 4096.
Proof. unfold PAGE_SHIFT. now rewrite Z.shiftl_mul_pow2 by lia. Qed.

Lemma u64_small (x : Z) : 0 <= x < 2 ^ 64 -> u64 x = x.
Proof. intros Hx. unfold u64. now apply Z.mod_small. Qed.

Lemma s64_small (x : Z) : 0 <= x < 2 ^ 63 -> s64 x = x.
Proof.
  intros Hx. unfold s64. rewrite u64_small by lia.
  destruct (Z.ltb_spec x (2 ^ 63)); [reflexivity | lia].
Qed.

(** X13. For a segmented object the direct fault handler populates the
    window of one segment, and that window stays inside the mapping. When
    the segment found covers the faulting page, the window starts at the
    start of the area or, if the segment starts later, where the segment
    starts in the area; it ends where the segment or the area ends,
    whichever comes first; it contains the faulting page; it is no longer
    than what is left of the segment; and the page offset handed to the
    population is the offset of the start of the window within the
    segment. *)
Theorem segment_window_stays_in_the_area (env : fault_env)
    (area : vm_area_struct) (page_offset obj_offset : Z)
    (obj seg : drm_i915_gem_object) :
  has_segments obj = true ->
  lookup_segment env (u64 (Z.shiftl (obj_offset + page_offset) PAGE_SHIFT))
  = Some seg ->
  0 <= vm_start area <= vm_end area ->
  vm_end area < 2 ^ 62 ->
  0 <= obj_offset < 2 ^ 48 ->
  0 <= page_offset < 2 ^ 48 ->
  0 <= segment_offset seg < 2 ^ 60 ->
  segment_offset seg mod 4096 = 0 ->
  0 < base_size seg < 2 ^ 60 ->
  segment_offset seg <= (obj_offset + page_offset) * 4096
    < segment_offset seg + base_size seg ->
  vm_start area + page_offset * 4096 < vm_end area ->
  exists window_start window_end seg_offset,
    cpu_segment env area page_offset obj_offset obj
    = Some (seg, window_start, window_end, seg_offset) /\
    vm_start area <= window_start /\
    window_start <= vm_start area + page_offset * 4096 < window_end /\
    window_end <= vm_end area /\
    0 <= seg_offset /\
    window_end - window_start <= base_size seg - seg_offset * 4096 /\
    segment_offset seg + seg_offset * 4096
    = obj_offset * 4096 + (window_start - vm_start area).
Proof.
  intros Hsegs Hlook Harea Hend Hoo Hpo Hso Halign Hsize Hcover Hfault.
  unfold cpu_segment. rewrite Hsegs, Hlook.
  change (2 ^ 62) with 4611686018427387904 in *.
  change (2 ^ 60) with 1152921504606846976 in *.
  change (2 ^ 48) with 281474976710656 in *.
  assert (Hpages : segment_offset seg
                   = 4096 * Z.shiftr (segment_offset seg) PAGE_SHIFT).
  { rewrite shiftr_pages. apply Z.div_exact; lia. }
  set (seg_pages := Z.shiftr (segment_offset seg) PAGE_SHIFT) in *.
  assert (Hsp : 0 <= seg_pages) by lia.
  rewrite (u64_small obj_offset)
    by (change (2 ^ 64) with 18446744073709551616; lia).
  destruct (Z.ltb_spec seg_pages obj_offset) as [Hlt | Hge].
  - rewrite (s64_small (obj_offset - seg_pages))
      by (change (2 ^ 63) with 9223372036854775808; lia).
    rewrite shiftl_pages.
    rewrite (u64_small (base_size seg - _))
      by (change (2 ^ 64) with 18446744073709551616; lia).
    rewrite (u64_small (vm_start area + _))
      by (change (2 ^ 64) with 18446744073709551616; lia).
    eexists _, _, _. split; [reflexivity |]. lia.
  - rewrite shiftl_pages.
    rewrite (u64_small (vm_start area + segment_offset seg - _))
      by (change (2 ^ 64) with 18446744073709551616; lia).
    rewrite (u64_small (_ + base_size seg))
      by (change (2 ^ 64) with 18446744073709551616; lia).
    eexists _, _, _. split; [reflexivity |]. lia.
Qed.

Lemma segment_window_stays_in_the_area_witness :
  exists window_start window_end seg_offset,
    cpu_segment segmented_env writable_area 9 0 segmented_object
    = Some (segment_at 11 (8 * 4096) (8 * 4096), window_start, window_end,
            seg_offset) /\
    vm_start writable_area <= window_start /\
    window_end <= vm_end writable_area.
Proof.
  destruct (segment_window_stays_in_the_area segmented_env writable_area 9 0
              segmented_object (segment_at 11 (8 * 4096) (8 * 4096)))
    as (ws & we & so & Hseg & Hlo & _ & Hhi & _);
    [reflexivity | vm_compute; reflexivity | vm_compute; split; congruence
    | vm_compute; reflexivity | vm_compute; split; congruence
    | vm_compute; split; congruence | vm_compute; split; congruence
    | vm_compute; reflexivity | vm_compute; split; congruence
    | vm_compute; split; congruence | vm_compute; reflexivity |].
  exists ws, we, so. split; [exact Hseg | split; [exact Hlo | exact Hhi]].
Defined.

(** ** Requests for an offset *)

Section Requests.

Context `{VmaManager M}.

(** The label [out] for a record the registry holds: an error is -ENOMEM
    for a requester that is not on the allow-list; a record returned is
    the one the registry holds afterwards, with the requester let in. *)
Lemma attach_out_result (new_ok : bool) (w : world M)
    (mmo : i915_mmap_offset) (file : option nat) :
  lookup_mmo (w_obj w) (mmap_type mmo) = Some mmo ->
  match fst (attach_out new_ok w mmo file) with
  | inl err => err = - ENOMEM
  | inr r =>
      lookup_mmo (w_obj (snd (attach_out new_ok w mmo file))) (mmap_type mmo)
      = Some r /\
      mmap_type r = mmap_type mmo /\
      node_start (vma_node r) = node_start (vma_node mmo) /\
      forall tag, file = Some tag -> tag ∈ vm_files (vma_node r)
  end.
Proof.
  intros Hlinked. unfold attach_out. destruct file as [tag |].
  - rewrite Hlinked. change (default mmo (Some mmo)) with mmo.
    unfold vma_node_allow_once.
    destruct (bool_decide_reflect (tag ∈ vm_files (vma_node mmo)))
      as [Hin | Hout]; cbn [fst snd negb Z.eqb].
    + repeat split.
      * unfold lookup_mmo in *. cbn. now rewrite lookup_store_same, Hlinked.
      * now intros tag' [= <-].
    + destruct new_ok; cbn [fst snd negb Z.eqb]; [| reflexivity].
      repeat split.
      * unfold lookup_mmo in *. cbn. now rewrite lookup_store_same, Hlinked.
      * intros tag' [= <-]. cbn. apply elem_of_cons. now left.
  - cbn [fst snd]. repeat split; [exact Hlinked | discriminate].
Qed.

(** What [i915_gem_mmap_offset_attach] returns: an error is not zero; a
    record is the one the registry holds for the kind afterwards, and the
    requester is on its allow-list. *)
Lemma attach_result (mmo_ok new_ok : bool) (w : world M)
    (t : i915_mmap_type) (file : option nat) :
  let r := i915_gem_mmap_offset_attach mmo_ok new_ok w t file in
  match fst r with
  | inl err => err <> 0
  | inr mmo =>
      lookup_mmo (w_obj (snd r)) t = Some mmo /\
      mmap_type mmo = t /\
      forall tag, file = Some tag -> tag ∈ vm_files (vma_node mmo)
  end.
Proof.
  cbn zeta. unfold i915_gem_mmap_offset_attach.
  assert (Hout : forall (w1 : world M) mmo,
             mmap_type mmo = t ->
             lookup_mmo (w_obj w1) (mmap_type mmo) = Some mmo ->
             match fst (attach_out new_ok w1 mmo file) with
             | inl err => err <> 0
             | inr r =>
                 lookup_mmo (w_obj (snd (attach_out new_ok w1 mmo file))) t
                 = Some r /\
                 mmap_type r = t /\
                 forall tag, file = Some tag -> tag ∈ vm_files (vma_node r)
             end).
  { intros w1 mmo Hty Hlinked.
    pose proof (attach_out_result new_ok w1 mmo file Hlinked) as Hres.
    destruct (fst (attach_out new_ok w1 mmo file)) as [err | r].
    - subst err. discriminate.
    - rewrite Hty in Hres. tauto. }
  assert (Hnew : forall (w1 : world M) mmo,
             mmap_type mmo = t ->
             lookup_mmo (w_obj w1) t = None ->
             match fst (let '(m, w2) := insert_mmo w1 mmo in
                        attach_out new_ok w2 m file) with
             | inl err => err <> 0
             | inr r =>
                 lookup_mmo
                   (w_obj (snd (let '(m, w2) := insert_mmo w1 mmo in
                                attach_out new_ok w2 m file))) t = Some r /\
                 mmap_type r = t /\
                 forall tag, file = Some tag -> tag ∈ vm_files (vma_node r)
             end).
  { intros w1 mmo Hty Hnone. rewrite <- Hty in Hnone.
    rewrite (insert_mmo_new w1 mmo Hnone). cbn beta iota.
    apply Hout; [exact Hty |].
    unfold lookup_mmo in *. cbn. rewrite lookup_after_insert.
    now rewrite insert_walk_found, Hnone. }
  destruct (lookup_mmo (w_obj w) t) as [mmo |] eqn:Hlook.
  { pose proof Hlook as Hin. apply lookup_walk_In in Hin as [_ Hty].
    apply Hout; [exact Hty | now rewrite Hty]. }
  destruct mmo_ok; cbn [negb fst]; [| discriminate].
  rewrite world_add_eq.
  destruct (Z.eqb_spec (add_err (w_mgr w) (base_size (w_obj w) / PAGE_SIZE)) 0)
    as [Herr | Herr].
  { apply Hnew; [reflexivity | exact Hlook]. }
  unfold world_reap. cbn [w_mgr w_obj w_log]. rewrite world_add_eq.
  cbn [w_mgr w_obj w_log].
  match goal with
  | |- context [negb (?e =? 0)] => destruct (Z.eqb_spec e 0) as [Herr2 | Herr2]
  end; cbn [negb fst]; [| exact Herr2].
  apply Hnew; [reflexivity | exact Hlook].
Qed.

(** The records of the other kinds are found as before. *)
Lemma attach_other_kinds (mmo_ok new_ok : bool) (w : world M)
    (t : i915_mmap_type) (file : option nat) (t' : i915_mmap_type) :
  t' <> t ->
  lookup_mmo (w_obj (snd (i915_gem_mmap_offset_attach mmo_ok new_ok w t file)))
             t'
  = lookup_mmo (w_obj w) t'.
Proof.
  intros Hne. unfold i915_gem_mmap_offset_attach.
  destruct (lookup_mmo (w_obj w) t) as [mmo |] eqn:Hlook.
  { apply lookup_walk_In in Hlook as [_ Hty].
    apply attach_out_other. congruence. }
  destruct mmo_ok; cbn [negb snd]; [| reflexivity].
  rewrite world_add_eq.
  destruct (_ =? 0).
  { match goal with
    | |- context [insert_mmo ?w1 ?mmo] =>
        destruct (link_and_allow new_ok w1 mmo file Hlook)
          as (Hins & _ & _ & Hother)
    end.
    rewrite Hins. cbn beta iota. now apply Hother. }
  unfold world_reap. cbn [w_mgr w_obj w_log]. rewrite world_add_eq.
  cbn [w_mgr w_obj w_log].
  destruct (negb (_ =? 0)); [reflexivity |].
  match goal with
  | |- context [insert_mmo ?w1 ?mmo] =>
      destruct (link_and_allow new_ok w1 mmo file Hlook)
        as (Hins & _ & _ & Hother)
  end.
  rewrite Hins. cbn beta iota. now apply Hother.
Qed.

(** What [__assign_mmap_offset] does: it says at most the debug message,
    leaves the other kinds alone, and returns an error that is not zero,
    the offset of the backend's hook, or the offset of the record the
    registry then holds, with the requester let in. *)
Lemma assign_result (env : ioctl_env) (ops : mmap_object)
    (s : ioctl_state M) (t : i915_mmap_type) (file : nat) :
  let r := __assign_mmap_offset env ops s t file in
  let obj' := w_obj (io_world (snd r)) in
  (exists evs, io_trace (snd r) = io_trace s ++ evs /\
               Forall (fun e => e = IoDbgLmem1) evs) /\
  (forall t', t' <> t ->
              lookup_mmo obj' t' = lookup_mmo (w_obj (io_world s)) t') /\
  (never_mmap ops = true \/ ops_mmap_offset ops <> None \/
   (t <> I915_MMAP_TYPE_GTT /\ has_struct_page (w_obj (io_world s)) = false /\
    type_has_iomem ops = false) ->
   io_world (snd r) = io_world s) /\
  match fst r with
  | inl err => err <> 0
  | inr offset =>
      never_mmap ops = false /\
      match ops_mmap_offset ops with
      | Some hook => offset = hook
      | None =>
          exists cur,
            lookup_mmo obj' t = Some cur /\
            offset = drm_vma_node_offset_addr (vma_node cur) /\
            file ∈ vm_files (vma_node cur)
      end
  end.
Proof.
  cbn zeta. unfold __assign_mmap_offset.
  assert (Hnil : exists evs : list ioctl_event,
             io_trace s = io_trace s ++ evs /\
             Forall (fun e => e = IoDbgLmem1) evs).
  { exists []. now rewrite app_nil_r. }
  assert (Hdbg : forall b : bool,
             io_world (if b then io_log s [IoDbgLmem1] else s) = io_world s /\
             exists evs,
               io_trace (if b then io_log s [IoDbgLmem1] else s)
               = io_trace s ++ evs /\
               Forall (fun e => e = IoDbgLmem1) evs).
  { intros [|]; [| now split]. split; [reflexivity |].
    exists [IoDbgLmem1]. now repeat constructor. }
  destruct (never_mmap ops) eqn:Hnever; cbn [fst snd].
  { repeat split; try assumption; discriminate. }
  destruct (ops_mmap_offset ops) as [hook |] eqn:Hhook; cbn [fst snd].
  { repeat split; try assumption; reflexivity. }
  destruct (bool_decide_reflect (t = I915_MMAP_TYPE_GTT)) as [Hgtt | Hgtt];
    cbn [negb andb].
  - set (s1 := if _ : bool then io_log s [IoDbgLmem1] else s).
    destruct (Hdbg _ : io_world s1 = io_world s /\ _) as [Hw1 Htr1].
    rewrite Hw1.
    pose proof (attach_result (kmalloc_mmo env) (kmalloc_file env)
                  (io_world s) t (Some file)) as Hres.
    pose proof (attach_other_kinds (kmalloc_mmo env) (kmalloc_file env)
                  (io_world s) t (Some file)) as Hoth.
    destruct (i915_gem_mmap_offset_attach _ _ (io_world s) t (Some file))
      as [[err | mmo] w']; cbn [fst snd io_world io_trace assign_offset] in *.
    + repeat split; try assumption.
      intros [Hn | [Hn | (Hn & _)]]; [discriminate | now destruct Hn |
                                       contradiction].
    + repeat split; try assumption.
      * intros [Hn | [Hn | (Hn & _)]]; [discriminate | now destruct Hn |
                                         contradiction].
      * exists mmo. destruct Hres as (Hl & _ & Hf). repeat split; auto.
  - destruct (negb (has_struct_page (w_obj (io_world s))) &&
              negb (type_has_iomem ops)) eqn:Hmem; cbn [fst snd].
    { repeat split; try assumption; discriminate. }
    set (s1 := if _ : bool then io_log s [IoDbgLmem1] else s).
    destruct (Hdbg _ : io_world s1 = io_world s /\ _) as [Hw1 Htr1].
    rewrite Hw1.
    pose proof (attach_result (kmalloc_mmo env) (kmalloc_file env)
                  (io_world s) t (Some file)) as Hres.
    pose proof (attach_other_kinds (kmalloc_mmo env) (kmalloc_file env)
                  (io_world s) t (Some file)) as Hoth.
    assert (Hno : ~ (false = true \/ None <> (None : option Z) \/
                     t <> I915_MMAP_TYPE_GTT /\
                     has_struct_page (w_obj (io_world s)) = false /\
                     type_has_iomem ops = false)).
    { intros [Hn | [Hn | (_ & Hp & Hi)]]; [discriminate | now destruct Hn |].
      rewrite Hp, Hi in Hmem. discriminate. }
    destruct (i915_gem_mmap_offset_attach _ _ (io_world s) t (Some file))
      as [[err | mmo] w']; cbn [fst snd io_world io_trace assign_offset] in *.
    + repeat split; try assumption. intros Hn. now destruct Hno.
    + repeat split; try assumption.
      * intros Hn. now destruct Hno.
      * exists mmo. destruct Hres as (Hl & _ & Hf). repeat split; auto.
Qed.

Lemma mmap_offset_type_kind (dev : mmap_device) (flags : Z)
    (t : i915_mmap_type) :
  mmap_offset_type dev flags = inr t <->
  flags = mmap_type_val t /\ kind_supported dev t = true.
Proof.
  unfold mmap_offset_type, I915_MMAP_OFFSET_GTT, I915_MMAP_OFFSET_WC,
    I915_MMAP_OFFSET_WB, I915_MMAP_OFFSET_UC.
  split.
  - repeat match goal with
           | |- context [?x =? ?y] => destruct (Z.eqb_spec x y); try subst
           end;
      destruct (ggtt_has_aperture dev) eqn:Ha, (pat_enabled dev) eqn:Hp;
      cbn; intros [= <-]; cbn; auto.
  - intros [-> Hs]. destruct t; cbn in *; try rewrite Hs; reflexivity.
Qed.

Lemma mmap_offset_type_error (dev : mmap_device) (flags err : Z) :
  mmap_offset_type dev flags = inl err ->
  (err = - ENODEV /\
   exists t, flags = mmap_type_val t /\ kind_supported dev t = false) \/
  (err = - EINVAL /\ forall t, flags <> mmap_type_val t).
Proof.
  unfold mmap_offset_type, I915_MMAP_OFFSET_GTT, I915_MMAP_OFFSET_WC,
    I915_MMAP_OFFSET_WB, I915_MMAP_OFFSET_UC.
  destruct (Z.eqb_spec flags 0) as [-> | H0].
  { destruct (ggtt_has_aperture dev) eqn:Ha; cbn; intros [= <-].
    left. split; [reflexivity |]. now exists I915_MMAP_TYPE_GTT. }
  destruct (Z.eqb_spec flags 1) as [-> | H1].
  { destruct (pat_enabled dev) eqn:Hp; cbn; intros [= <-].
    left. split; [reflexivity |]. now exists I915_MMAP_TYPE_WC. }
  destruct (Z.eqb_spec flags 2) as [-> | H2]; [discriminate |].
  destruct (Z.eqb_spec flags 3) as [-> | H3].
  { destruct (pat_enabled dev) eqn:Hp; cbn; intros [= <-].
    left. split; [reflexivity |]. now exists I915_MMAP_TYPE_UC. }
  intros [= <-]. right. split; [reflexivity |]. intros [] Heq; cbn in Heq; lia.
Qed.

(** What [__assign_mmap_offset_handle] does on top: the lookup first,
    and, when the handle names an object, the put last. *)
Lemma handle_result (env : ioctl_env) (found : option mmap_object)
    (s : ioctl_state M) (file : nat) (handle : Z) (t : i915_mmap_type) :
  let r := __assign_mmap_offset_handle env found s file handle t in
  let r0 ops := __assign_mmap_offset env ops (io_log s [IoLookup handle])
                                     t file in
  match found with
  | None => r = (inl (- ENOENT), io_log s [IoLookup handle])
  | Some ops =>
      fst r = fst (r0 ops) /\
      io_world (snd r) = io_world (snd (r0 ops)) /\
      exists mid,
        io_trace (snd r) = io_trace s ++ IoLookup handle :: mid ++ [IoPut] /\
        Forall (fun e => e = IoDbgLmem1) mid
  end.
Proof.
  cbn zeta. unfold __assign_mmap_offset_handle. destruct found as [ops |];
    [| reflexivity].
  destruct (assign_result env ops (io_log s [IoLookup handle]) t file)
    as ((evs & Htr & Hq) & _).
  destruct (__assign_mmap_offset env ops (io_log s [IoLookup handle]) t file)
    as [err s1]. cbn [fst snd io_log io_world io_trace] in *.
  split; [reflexivity |]. split; [reflexivity |].
  exists evs. split; [| exact Hq]. rewrite Htr. now rewrite <- !app_assoc.
Qed.

(** The registry after [__assign_mmap_offset_handle] differs from the
    one before only at the kind asked for, and only when the handle names
    an object. *)
Lemma handle_other_kinds (env : ioctl_env) (found : option mmap_object)
    (s : ioctl_state M) (file : nat) (handle : Z) (t t' : i915_mmap_type) :
  lookup_mmo
    (w_obj (io_world
              (snd (__assign_mmap_offset_handle env found s file handle t))))
    t'
  <> lookup_mmo (w_obj (io_world s)) t' ->
  t' = t /\ found <> None.
Proof.
  intros Hdiff.
  pose proof (handle_result env found s file handle t) as Hres.
  cbn zeta in Hres. destruct found as [ops |].
  - destruct Hres as (_ & Hw & _). rewrite Hw in Hdiff.
    split; [| discriminate].
    destruct (decide (t' = t)) as [Heq | Hne]; [exact Heq |].
    destruct (assign_result env ops (io_log s [IoLookup handle]) t file)
      as (_ & Hoth & _).
    now rewrite (Hoth t' Hne) in Hdiff.
  - rewrite Hres in Hdiff. now destruct Hdiff.
Qed.

(** X14. The offset requests never make a mapping record of a kind the
    device cannot serve, and never of a kind other than the one asked
    for. [i915_gem_mmap_offset_ioctl] touches the registry only at the
    kind its flags name, and only when the extension chain is accepted,
    the kind is served (the aperture kind needs a mappable aperture, the
    write-combined and uncached kinds need PAT, write-back needs nothing)
    and the handle names an object; it succeeds only then. A rejected
    extension chain returns its error, flags that name no kind -EINVAL, a
    kind that is not served -ENODEV, all three before the handle is
    looked up. [i915_gem_dumb_mmap_offset] asks for the write-combined
    kind when PAT is enabled, else for the aperture kind when there is a
    mappable aperture, else fails with -ENODEV. *)
Theorem offset_requests_serve_only_supported_kinds (env : ioctl_env)
    (dev : mmap_device) (found : option mmap_object) (s : ioctl_state M)
    (file : nat) (args : drm_i915_gem_mmap_offset) (handle : Z) :
  let r := i915_gem_mmap_offset_ioctl env dev found s file args in
  let d := i915_gem_dumb_mmap_offset env dev found s file handle in
  let ext := i915_user_extensions env (mo_extensions args) in
  let obj := w_obj (io_world s) in
  (forall t,
      lookup_mmo (w_obj (io_world (snd r))) t <> lookup_mmo obj t ->
      ext = 0 /\ mo_flags args = mmap_type_val t /\
      kind_supported dev t = true /\ found <> None) /\
  (fst (fst r) = 0 ->
   ext = 0 /\ found <> None /\
   exists t, mo_flags args = mmap_type_val t /\ kind_supported dev t = true) /\
  (ext <> 0 -> r = (ext, args, s)) /\
  (ext = 0 -> (forall t, mo_flags args <> mmap_type_val t) ->
   r = (- EINVAL, args, s)) /\
  (ext = 0 ->
   forall t, mo_flags args = mmap_type_val t ->
             kind_supported dev t = false -> r = (- ENODEV, args, s)) /\
  (forall t,
      lookup_mmo (w_obj (io_world (snd d))) t <> lookup_mmo obj t ->
      t = (if pat_enabled dev then I915_MMAP_TYPE_WC else I915_MMAP_TYPE_GTT)
      /\ kind_supported dev t = true /\ found <> None) /\
  (pat_enabled dev = false -> ggtt_has_aperture dev = false ->
   d = (inl (- ENODEV), s)).
Proof.
  cbn zeta. unfold i915_gem_mmap_offset_ioctl, i915_gem_dumb_mmap_offset.
  split; [| split; [| split; [| split; [| split; [| split]]]]].
  - intros t.
    destruct (Z.eqb_spec (i915_user_extensions env (mo_extensions args)) 0)
      as [Hext | Hext]; cbn [negb fst snd]; [| intros Hd; now destruct Hd].
    destruct (mmap_offset_type dev (mo_flags args)) as [err | t0] eqn:Hty;
      cbn [fst snd]; [intros Hd; now destruct Hd |].
    apply mmap_offset_type_kind in Hty as [Hflags Hsup].
    pose proof (handle_other_kinds env found s file (mo_handle args) t0 t)
      as Hoth.
    destruct (__assign_mmap_offset_handle env found s file (mo_handle args) t0)
      as [[err | offset] s1]; cbn [fst snd] in *; intros Hd;
      destruct (Hoth Hd) as [-> Hf]; now repeat split.
  - destruct (Z.eqb_spec (i915_user_extensions env (mo_extensions args)) 0)
      as [Hext | Hext]; cbn [negb fst snd]; [| intros H0; contradiction].
    destruct (mmap_offset_type dev (mo_flags args)) as [err | t0] eqn:Hty;
      cbn [fst snd].
    { intros ->. apply mmap_offset_type_error in Hty as [[He _] | [He _]];
        discriminate. }
    apply mmap_offset_type_kind in Hty as [Hflags Hsup].
    pose proof (handle_result env found s file (mo_handle args) t0) as Hres.
    cbn zeta in Hres. destruct found as [ops |].
    + intros _. split; [exact Hext |]. split; [discriminate |]. eauto.
    + rewrite Hres. cbn [fst]. discriminate.
  - intros Hext. apply Z.eqb_neq in Hext. now rewrite Hext.
  - intros Hext Hnone. rewrite Hext. cbn [Z.eqb negb].
    destruct (mmap_offset_type dev (mo_flags args)) as [err | t0] eqn:Hty.
    + apply mmap_offset_type_error in Hty as [(_ & t & Hf & _) | [-> _]];
        [now destruct (Hnone t) | reflexivity].
    + apply mmap_offset_type_kind in Hty as [Hf _]. now destruct (Hnone t0).
  - intros Hext t Hflags Hsup. rewrite Hext. cbn [Z.eqb negb].
    destruct (mmap_offset_type dev (mo_flags args)) as [err | t0] eqn:Hty.
    + apply mmap_offset_type_error in Hty as [[-> _] | [_ Hn]];
        [reflexivity | now destruct (Hn t)].
    + apply mmap_offset_type_kind in Hty as [Hf Hs].
      rewrite Hflags in Hf. apply mmap_type_val_inj in Hf. subst t0.
      congruence.
  - intros t. destruct (pat_enabled dev) eqn:Hpat.
    + intros Hd. apply handle_other_kinds in Hd as [-> Hf]. now repeat split.
    + destruct (ggtt_has_aperture dev) eqn:Hap; cbn [negb fst snd];
        [| intros Hd; now destruct Hd].
      intros Hd. apply handle_other_kinds in Hd as [-> Hf]. now repeat split.
  - intros -> ->. reflexivity.
Qed.

(** A successful [i915_gem_mmap_offset_ioctl]: the object, the kind and
    the record behind the offset. *)
Lemma offset_ioctl_result (env : ioctl_env) (dev : mmap_device)
    (found : option mmap_object) (s : ioctl_state M) (file : nat)
    (args : drm_i915_gem_mmap_offset) :
  let r := i915_gem_mmap_offset_ioctl env dev found s file args in
  fst (fst r) = 0 ->
  exists ops t,
    found = Some ops /\ never_mmap ops = false /\
    mo_flags args = mmap_type_val t /\
    match ops_mmap_offset ops with
    | Some hook =>
        mo_offset (snd (fst r)) = hook /\ io_world (snd r) = io_world s
    | None =>
        exists cur,
          lookup_mmo (w_obj (io_world (snd r))) t = Some cur /\
          mmap_type cur = t /\
          mo_offset (snd (fst r)) = drm_vma_node_offset_addr (vma_node cur) /\
          file ∈ vm_files (vma_node cur)
    end.
Proof.
  cbn zeta. unfold i915_gem_mmap_offset_ioctl.
  destruct (Z.eqb_spec (i915_user_extensions env (mo_extensions args)) 0)
    as [Hext | Hext]; cbn [negb fst snd]; [| intros H0; contradiction].
  destruct (mmap_offset_type dev (mo_flags args)) as [err | t] eqn:Hty;
    cbn [fst snd].
  { intros ->.
    apply mmap_offset_type_error in Hty as [[He _] | [He _]]; discriminate. }
  apply mmap_offset_type_kind in Hty as [Hflags _].
  pose proof (handle_result env found s file (mo_handle args) t) as Hres.
  cbn zeta in Hres. destruct found as [ops |].
  2:{ rewrite Hres. cbn [fst snd]. discriminate. }
  destruct Hres as (Hfst & Hw & _).
  destruct (assign_result env ops (io_log s [IoLookup (mo_handle args)]) t file)
    as (_ & _ & Hsame & Hres).
  destruct (__assign_mmap_offset_handle env (Some ops) s file (mo_handle args) t)
    as [[err | offset] s1]; cbn [fst snd] in *.
  - rewrite <- Hfst in Hres. intros ->. contradiction.
  - rewrite <- Hfst in Hres. destruct Hres as [Hnever Hoff].
    intros _. exists ops, t. repeat split; try assumption.
    cbn [mo_offset]. rewrite Hw.
    destruct (ops_mmap_offset ops) as [hook |] eqn:Hhook.
    + split; [exact Hoff |]. apply Hsame. right. left. discriminate.
    + destruct Hoff as (cur & Hl & Ho & Hf).
      exists cur. repeat split; try assumption.
      apply lookup_walk_In in Hl. tauto.
Qed.

(** X15. What a successful [i915_gem_mmap_offset_ioctl] hands to
    userspace. The handle names an object that may be mapped and the flags
    name a kind; the offset stored in the arguments is the one of the
    backend's hook, the registry being left alone, or else the offset (the
    start of the node in bytes) of the record that the registry now holds
    for that kind, on whose allow-list the requester is, so that a later
    mmap of that offset by this file passes the permission check. The
    other fields of the arguments go back as they came, and a failed
    request leaves all of them alone. *)
Theorem offset_ioctl_returns_the_offset_of_the_record (env : ioctl_env)
    (dev : mmap_device) (found : option mmap_object) (s : ioctl_state M)
    (file : nat) (args : drm_i915_gem_mmap_offset) :
  let r := i915_gem_mmap_offset_ioctl env dev found s file args in
  let args' := snd (fst r) in
  (fst (fst r) = 0 ->
   exists ops t,
     found = Some ops /\ never_mmap ops = false /\
     mo_flags args = mmap_type_val t /\
     match ops_mmap_offset ops with
     | Some hook => mo_offset args' = hook /\ io_world (snd r) = io_world s
     | None =>
         exists cur,
           lookup_mmo (w_obj (io_world (snd r))) t = Some cur /\
           mmap_type cur = t /\
           mo_offset args' = drm_vma_node_offset_addr (vma_node cur) /\
           file ∈ vm_files (vma_node cur)
     end) /\
  (fst (fst r) <> 0 -> args' = args) /\
  mo_handle args' = mo_handle args /\ mo_pad args' = mo_pad args /\
  mo_flags args' = mo_flags args /\ mo_extensions args' = mo_extensions args.
Proof.
  cbn zeta. unfold i915_gem_mmap_offset_ioctl.
  destruct (Z.eqb_spec (i915_user_extensions env (mo_extensions args)) 0)
    as [Hext | Hext]; cbn [negb fst snd];
    [| repeat split; try reflexivity; intros H0; contradiction].
  destruct (mmap_offset_type dev (mo_flags args)) as [err | t] eqn:Hty;
    cbn [fst snd].
  { repeat split; try reflexivity. intros ->.
    apply mmap_offset_type_error in Hty as [[He _] | [He _]]; discriminate. }
  apply mmap_offset_type_kind in Hty as [Hflags _].
  pose proof (handle_result env found s file (mo_handle args) t) as Hres.
  cbn zeta in Hres. destruct found as [ops |].
  2:{ rewrite Hres. cbn [fst snd]. repeat split; try reflexivity.
      discriminate. }
  destruct Hres as (Hfst & Hw & _).
  destruct (assign_result env ops (io_log s [IoLookup (mo_handle args)]) t file)
    as (_ & _ & Hsame & Hres).
  destruct (__assign_mmap_offset_handle env (Some ops) s file (mo_handle args) t)
    as [[err | offset] s1]; cbn [fst snd] in *.
  - rewrite <- Hfst in Hres. repeat split; try reflexivity.
    intros ->. contradiction.
  - rewrite <- Hfst in Hres. destruct Hres as [Hnever Hoff].
    split; [| repeat split; try reflexivity; intros H0; now destruct H0].
    intros _. exists ops, t. repeat split; try assumption.
    cbn [mo_offset]. rewrite Hw.
    destruct (ops_mmap_offset ops) as [hook |] eqn:Hhook.
    + split; [exact Hoff |]. apply Hsame. right. left. discriminate.
    + destruct Hoff as (cur & Hl & Ho & Hf).
      exists cur. repeat split; try assumption.
      apply lookup_walk_In in Hl. tauto.
Qed.

Lemma bracket_of_debug (handle : Z) (mid : list ioctl_event) :
  Forall (fun e => e = IoDbgLmem1) mid ->
  reference_bracket handle (IoLookup handle :: mid ++ [IoPut]).
Proof.
  intros Hq. exists mid. split; [reflexivity |].
  eapply Forall_impl; [exact Hq |]. intros e ->. split; discriminate.
Qed.

(** X16. The reference that the lookup of the handle takes on the object
    is dropped on every path, once, and after the last use of the object.
    Each of the three requests either returns before the lookup, leaving
    no event; or looks the handle up in vain and leaves only the lookup;
    or, the handle naming an object, leaves the lookup first, the put
    last, and no other lookup or put in between. *)
Theorem requests_drop_their_reference (env : ioctl_env) (dev : mmap_device)
    (found : option mmap_object) (s : ioctl_state M) (file : nat)
    (oargs : drm_i915_gem_mmap_offset) (margs : drm_i915_gem_mmap)
    (handle : Z) :
  let balanced (h : Z) (s' : ioctl_state M) :=
    exists evs,
      io_trace s' = io_trace s ++ evs /\
      (evs = [] \/ (found = None /\ evs = [IoLookup h]) \/
       (found <> None /\ reference_bracket h evs)) in
  balanced (mo_handle oargs)
           (snd (i915_gem_mmap_offset_ioctl env dev found s file oargs)) /\
  balanced handle
           (snd (i915_gem_dumb_mmap_offset env dev found s file handle)) /\
  balanced (mm_handle margs)
           (snd (i915_gem_mmap_ioctl env dev found s file margs)).
Proof.
  cbn zeta.
  assert (Hnil : exists evs : list ioctl_event,
             io_trace s = io_trace s ++ evs /\
             (evs = [] \/ (found = None /\ evs = [IoLookup handle]) \/
              (found <> None /\ reference_bracket handle evs))).
  { exists []. rewrite app_nil_r. auto. }
  assert (Hhandle : forall h t,
             exists evs,
               io_trace (snd (__assign_mmap_offset_handle env found s file h t))
               = io_trace s ++ evs /\
               (evs = [] \/ (found = None /\ evs = [IoLookup h]) \/
                (found <> None /\ reference_bracket h evs))).
  { intros h t. pose proof (handle_result env found s file h t) as Hres.
    cbn zeta in Hres. destruct found as [ops |].
    - destruct Hres as (_ & _ & mid & Htr & Hq).
      eexists. split; [exact Htr |]. right. right.
      split; [discriminate |]. now apply bracket_of_debug.
    - rewrite Hres. exists [IoLookup h]. cbn. auto. }
  split; [| split].
  - unfold i915_gem_mmap_offset_ioctl.
    destruct (negb (_ =? 0)); cbn [snd].
    { exists []. rewrite app_nil_r. auto. }
    destruct (mmap_offset_type dev (mo_flags oargs)) as [err | t]; cbn [snd].
    { exists []. rewrite app_nil_r. auto. }
    destruct (Hhandle (mo_handle oargs) t) as (evs & Htr & Hcase).
    destruct (__assign_mmap_offset_handle env found s file (mo_handle oargs) t)
      as [[err | offset] s1]; cbn [snd] in *; eauto.
  - unfold i915_gem_dumb_mmap_offset.
    destruct (pat_enabled dev); [apply Hhandle |].
    destruct (negb (ggtt_has_aperture dev)); [exact Hnil | apply Hhandle].
  - unfold i915_gem_mmap_ioctl.
    destruct (negb (Z.land _ (u64 _) =? 0)); cbn [snd].
    { exists []. rewrite app_nil_r. auto. }
    destruct (_ && _); cbn [snd].
    { exists []. rewrite app_nil_r. auto. }
    destruct found as [ops |]; cbn [snd].
    2:{ exists [IoLookup (mm_handle margs)]. cbn. auto. }
    set (s0 := io_log s [IoLookup (mm_handle margs)]).
    destruct (range_overflows env _ _ _); cbn [snd].
    { exists [IoLookup (mm_handle margs); IoPut]. cbn.
      rewrite <- app_assoc. split; [reflexivity |]. right. right.
      split; [discriminate |]. exists []. split; [reflexivity | constructor]. }
    match goal with
    | |- context [__assign_mmap_offset env ops s0 ?t file] =>
        destruct (assign_result env ops s0 t file) as ((evs & Htr & Hq) & _);
        destruct (__assign_mmap_offset env ops s0 t file)
          as [[err | offset] s1]
    end; cbn [fst snd] in *.
    + eexists. cbn. rewrite Htr. cbn. rewrite <- !app_assoc.
      split; [reflexivity |]. right. right. split; [discriminate |].
      now apply bracket_of_debug.
    + assert (Hb : reference_bracket (mm_handle margs)
                     (IoLookup (mm_handle margs)
                      :: (evs ++ [IoVmMmap (mm_size margs)
                                          (u64 (offset + mm_offset margs))])
                      ++ [IoPut])).
      { eexists. split; [reflexivity |]. apply Forall_app. split.
        - eapply Forall_impl; [exact Hq |]. intros e ->. split; discriminate.
        - repeat constructor; discriminate. }
      destruct (vm_mmap env _ _) as [err | addr]; cbn [snd];
        (eexists; cbn; rewrite Htr; cbn; rewrite <- !app_assoc;
         split; [reflexivity |]; right; right; split; [discriminate |];
         rewrite <- app_assoc in Hb; exact Hb).
Qed.

(** X17. The legacy mmap ioctl maps only what the file was admitted to.
    Whenever it calls [vm_mmap], the range asked for passed the check
    against the size of the object, the kind is one the device serves,
    and the offset is the one of the record of that kind, on whose list
    the file now is, plus the offset asked for.  The records of the other
    kinds stay as they were, and the arguments come back unchanged unless
    the request succeeds. *)
Theorem legacy_mmap_maps_only_an_admitted_record (env : ioctl_env)
    (dev : mmap_device) (found : option mmap_object) (s : ioctl_state M)
    (file : nat) (args : drm_i915_gem_mmap) :
  let r := i915_gem_mmap_ioctl env dev found s file args in
  let obj := w_obj (io_world s) in
  let obj' := w_obj (io_world (snd r)) in
  let t := if negb (Z.land (mm_flags args) I915_MMAP_WC =? 0)
           then I915_MMAP_TYPE_WC else I915_MMAP_TYPE_WB in
  (exists evs,
      io_trace (snd r) = io_trace s ++ evs /\
      forall size off,
        In (IoVmMmap size off) evs ->
        size = mm_size args /\
        range_overflows env (mm_offset args) (mm_size args)
                        (u64 (base_size obj)) = false /\
        kind_supported dev t = true /\
        exists ops,
          found = Some ops /\ never_mmap ops = false /\
          match ops_mmap_offset ops with
          | Some hook => off = u64 (hook + mm_offset args)
          | None =>
              exists cur,
                lookup_mmo obj' t = Some cur /\
                off = u64 (drm_vma_node_offset_addr (vma_node cur)
                           + mm_offset args) /\
                file ∈ vm_files (vma_node cur)
          end) /\
  (forall t', t' <> t -> lookup_mmo obj' t' = lookup_mmo obj t') /\
  (fst (fst r) <> 0 -> snd (fst r) = args) /\
  mm_handle (snd (fst r)) = mm_handle args /\
  mm_offset (snd (fst r)) = mm_offset args /\
  mm_size (snd (fst r)) = mm_size args /\
  mm_flags (snd (fst r)) = mm_flags args.
Proof.
  cbn zeta. unfold i915_gem_mmap_ioctl.
  assert (Hquiet : forall evs : list ioctl_event,
             Forall (fun e => e = IoDbgLmem1 \/ e = IoPut \/
                              exists h, e = IoLookup h) evs ->
             forall size off, In (IoVmMmap size off) evs -> False).
  { intros evs Hq size off Hin. rewrite Forall_forall in Hq.
    apply list_elem_of_In in Hin.
    destruct (Hq _ Hin) as [Heq | [Heq | [h Heq]]]; discriminate. }
  assert (Hnone : forall evs : list ioctl_event,
             Forall (fun e => e = IoDbgLmem1) evs ->
             Forall (fun e => e = IoDbgLmem1 \/ e = IoPut \/
                              exists h, e = IoLookup h) evs).
  { intros evs Hq. eapply Forall_impl; [exact Hq |]. intros e ->. now left. }
  destruct (negb (Z.land _ (u64 _) =? 0)); cbn [fst snd].
  { split; [| repeat split; try reflexivity].
    exists []. rewrite app_nil_r. split; [reflexivity |]. intros ? ? []. }
  destruct (negb (Z.land (mm_flags args) I915_MMAP_WC =? 0)) eqn:Hwc;
    destruct (pat_enabled dev) eqn:Hpat; cbn [negb andb fst snd];
    try (split; [| repeat split; reflexivity];
         exists []; rewrite app_nil_r; split; [reflexivity |];
         intros ? ? []).
  all: destruct found as [ops |]; cbn [fst snd];
    [| split; [| repeat split; reflexivity];
       exists [IoLookup (mm_handle args)]; split; [reflexivity |];
       intros size off [Heq | []]; discriminate].
  all: set (s0 := io_log s [IoLookup (mm_handle args)]);
    destruct (range_overflows env _ _ _) eqn:Hrange; cbn [fst snd];
    [split; [| repeat split; reflexivity];
     exists [IoLookup (mm_handle args); IoPut]; cbn;
     rewrite <- app_assoc; split; [reflexivity |];
     intros size off [Heq | [Heq | []]]; discriminate |].
  all: match goal with
       | |- context [__assign_mmap_offset ?e ?o ?s1 ?t ?f] =>
           destruct (assign_result e o s1 t f)
             as ((evs & Htr & Hq) & Hother & _ & Hres);
           destruct (__assign_mmap_offset e o s1 t f)
             as [[err | offset] s1']
       end; subst s0; cbn [fst snd io_log io_world io_trace] in *.
  all: try (split; [| split; [exact Hother | repeat split; reflexivity]];
            exists (IoLookup (mm_handle args) :: evs ++ [IoPut]);
            rewrite Htr; rewrite <- !app_assoc; split; [reflexivity |];
            intros size off [Heq | Hin]; [discriminate |];
            apply in_app_or in Hin; destruct Hin as [Hin | [Heq | []]];
            [exfalso; eapply Hquiet; [apply Hnone; exact Hq | exact Hin]
            | discriminate]).
  all: destruct Hres as (Hnever & Hoff).
  all: assert (Hmapped :
         exists evs0,
           (io_trace s1'
              ++ [IoVmMmap (mm_size args) (u64 (offset + mm_offset args))])
             ++ [IoPut] = io_trace s ++ evs0 /\
           forall size off,
             In (IoVmMmap size off) evs0 ->
             size = mm_size args /\
             off = u64 (offset + mm_offset args)).
  1,3,5: (exists (IoLookup (mm_handle args)
                  :: evs ++ [IoVmMmap (mm_size args)
                                      (u64 (offset + mm_offset args));
                             IoPut]);
          rewrite Htr; rewrite <- !app_assoc; split; [reflexivity |];
          intros size off [Heq | Hin]; [discriminate |];
          apply in_app_or in Hin;
          destruct Hin as [Hin | [Heq | [Heq | []]]];
          [exfalso; eapply Hquiet; [apply Hnone; exact Hq | exact Hin]
          | injection Heq as <- <-; now split
          | discriminate]).
  all: destruct Hmapped as (evs0 & Htr0 & Hin0).
  all: destruct (vm_mmap env _ _) as [err | addr]; cbn [fst snd io_trace
         io_world mm_handle mm_offset mm_size mm_flags].
  all: (split; [| split; [exact Hother | repeat split; try reflexivity;
                          try (intros Hne; now contradict Hne)]]).
  all: exists evs0; split; [exact Htr0 |]; intros size off Hin;
    destruct (Hin0 _ _ Hin) as (-> & ->);
    split; [reflexivity |]; split; [reflexivity |];
    split; [try exact Hpat; reflexivity |];
    exists ops; split; [reflexivity |]; split; [exact Hnever |];
    destruct (ops_mmap_offset ops) as [hook |];
    [now rewrite Hoff
    | destruct Hoff as (cur & Hcur & -> & Hfile); exists cur; auto].
Qed.

End Requests.

(** ** The mmap path *)

Lemma land_masked (f m k r : Z) :
  Z.land m k = r -> Z.land (Z.land f m) k = Z.land f r.
Proof. intros <-. now rewrite Z.land_assoc. Qed.

Lemma land_added (f c k : Z) :
  Z.land c k = 0 -> Z.land (Z.lor f c) k = Z.land f k.
Proof.
  intros Hc. now rewrite Z.land_lor_distr_l, Hc, Z.lor_0_r.
Qed.

Lemma clear_maywrite_write (f : Z) :
  Z.land (Z.land f (u64 (Z.lnot VM_MAYWRITE))) VM_WRITE = Z.land f VM_WRITE.
Proof. apply land_masked. vm_compute. reflexivity. Qed.

Lemma clear_maywrite_maywrite (f : Z) :
  Z.land (Z.land f (u64 (Z.lnot VM_MAYWRITE))) VM_MAYWRITE = 0.
Proof.
  rewrite (land_masked f _ _ 0) by (vm_compute; reflexivity).
  apply Z.land_0_r.
Qed.

Lemma clear_maywrite_rest (f : Z) :
  Z.land (Z.land f (u64 (Z.lnot VM_MAYWRITE))) (u64 (Z.lnot setup_bits))
  = Z.land f (u64 (Z.lnot setup_bits)).
Proof. apply land_masked. vm_compute. reflexivity. Qed.

(** The flags after a successful [i915_gem_update_vma_info], masked. *)
Lemma setup_flags_masked (f k : Z) (io : bool) :
  Z.land (Z.lor (Z.lor (Z.lor VM_PFNMAP VM_DONTEXPAND) VM_DONTDUMP) VM_IO) k
  = 0 ->
  Z.land (if io
          then Z.lor (Z.lor f (Z.lor (Z.lor VM_PFNMAP VM_DONTEXPAND)
                                     VM_DONTDUMP)) VM_IO
          else Z.lor f (Z.lor (Z.lor VM_PFNMAP VM_DONTEXPAND) VM_DONTDUMP)) k
  = Z.land f k.
Proof.
  intros Hk. rewrite Z.land_lor_distr_l in Hk.
  apply Z.lor_eq_0_iff in Hk as (Hk1 & Hk2).
  destruct io.
  - rewrite (land_added _ VM_IO k Hk2). now apply land_added.
  - now apply land_added.
Qed.

(** The shape of what [i915_gem_update_vma_info] returns. *)
Lemma update_vma_info_cases (got : bool) (anon : Z + nat)
    (obj : drm_i915_gem_object) (ops : mmap_object) (mmo : i915_mmap_offset)
    (vma : mmap_vma) (s : mmap_state) :
  let r := i915_gem_update_vma_info got anon obj ops mmo vma s in
  let cleared :=
    if readonly obj
    then Z.land (mv_flags vma) (u64 (Z.lnot VM_MAYWRITE)) else mv_flags vma in
  (readonly obj && negb (Z.land (mv_flags vma) VM_WRITE =? 0) = true /\
   r = (- EINVAL, vma, s)) \/
  (readonly obj && negb (Z.land (mv_flags vma) VM_WRITE =? 0) = false /\
   ((exists err,
        fst (mmap_singleton got anon s) = inl err /\
        r = (err, set_mv_flags vma cleared, snd (mmap_singleton got anon s)))
    \/
    (exists file prot table,
        fst (mmap_singleton got anon s) = inr file /\
        r = (0,
             mk_mmap_vma (mv_start vma) (mv_end vma)
               (drm_vma_node_start (vma_node mmo))
               (if has_iomem ops
                then Z.lor (Z.lor cleared
                                  (Z.lor (Z.lor VM_PFNMAP VM_DONTEXPAND)
                                         VM_DONTDUMP)) VM_IO
                else Z.lor cleared
                           (Z.lor (Z.lor VM_PFNMAP VM_DONTEXPAND)
                                  VM_DONTDUMP))
               (private_mmo mmo) (pgprot_decrypted prot) (Some table) file,
             mm_log (mm_log (snd (mmap_singleton got anon s))
                            [MmDisallowRc6])
                    [MmVmaSetFile file; MmFput file]) /\
        table = match ops_mmap_ops ops with
                | Some t => mmap_ops_of_backend t
                | None => if bool_decide (mmap_type mmo = I915_MMAP_TYPE_GTT)
                          then vm_ops_gtt else vm_ops_cpu
                end))).
Proof.
  cbn zeta. unfold i915_gem_update_vma_info.
  destruct (readonly obj && negb (Z.land (mv_flags vma) VM_WRITE =? 0))
    eqn:Hcheck; [left; now split | right; split; [reflexivity |]].
  assert (Hvma : (if readonly obj
                  then set_mv_flags vma
                         (Z.land (mv_flags vma) (u64 (Z.lnot VM_MAYWRITE)))
                  else vma)
                 = set_mv_flags vma
                     (if readonly obj
                      then Z.land (mv_flags vma) (u64 (Z.lnot VM_MAYWRITE))
                      else mv_flags vma)).
  { destruct (readonly obj); [reflexivity | now destruct vma]. }
  rewrite Hvma. clear Hvma.
  destruct (mmap_singleton got anon s) as [[err | file] s1]; cbn [fst snd].
  { left. now exists err. }
  right. cbn [set_mv_flags mv_start mv_end mv_flags].
  destruct (ops_mmap_ops ops) as [t |].
  { eexists file, _, _. split; [reflexivity |]. split; reflexivity. }
  destruct (mmap_type mmo); cbn [bool_decide decide_rel];
    (eexists file, _, _; split; [reflexivity |]; split; reflexivity).
Qed.

(** X18. A read-only object is never mapped writable.  A request to map
    it with write access is refused with -EINVAL before anything is
    touched; a mapping of it that is set up can neither write nor be
    given write access later, since [VM_MAYWRITE] is cleared.  Whatever
    the outcome and the object, only the bits that mark the mapping
    (may-write, PFN map, do-not-expand, do-not-dump, I/O) can differ
    from the flags the area came with; the write bit never does, and the
    may-write bit of a writable object is left alone. *)
Theorem readonly_object_is_never_mapped_writable (got : bool)
    (anon : Z + nat) (obj : drm_i915_gem_object) (ops : mmap_object)
    (mmo : i915_mmap_offset) (vma : mmap_vma) (s : mmap_state) :
  let r := i915_gem_update_vma_info got anon obj ops mmo vma s in
  let vma' := snd (fst r) in
  (readonly obj = true ->
   (Z.land (mv_flags vma) VM_WRITE <> 0 -> r = (- EINVAL, vma, s)) /\
   (fst (fst r) = 0 ->
    Z.land (mv_flags vma') VM_WRITE = 0 /\
    Z.land (mv_flags vma') VM_MAYWRITE = 0)) /\
  Z.land (mv_flags vma') (u64 (Z.lnot setup_bits))
  = Z.land (mv_flags vma) (u64 (Z.lnot setup_bits)) /\
  Z.land (mv_flags vma') VM_WRITE = Z.land (mv_flags vma) VM_WRITE /\
  (readonly obj = false ->
   Z.land (mv_flags vma') VM_MAYWRITE = Z.land (mv_flags vma) VM_MAYWRITE).
Proof.
  cbn zeta.
  destruct (update_vma_info_cases got anon obj ops mmo vma s)
    as [(Hcheck & ->) | (Hcheck & [(err & _ & ->) | (f & p & t & _ & -> & _)])];
    cbn [fst snd set_mv_flags mv_flags].
  - split; [| now repeat split]. intros Hro. split; [reflexivity |].
    intros Hret. discriminate Hret.
  - destruct (readonly obj) eqn:Hro; cbn [andb] in Hcheck.
    + apply negb_false_iff, Z.eqb_eq in Hcheck.
      rewrite clear_maywrite_write, clear_maywrite_maywrite,
        clear_maywrite_rest.
      split; [| split; [| split]]; try reflexivity; [| discriminate].
      intros _. split; [intros Hw; now contradict Hw |]. intros _.
      now split.
    + split; [discriminate |]. now repeat split.
  - rewrite !setup_flags_masked by (vm_compute; reflexivity).
    destruct (readonly obj) eqn:Hro; cbn [andb] in Hcheck.
    + apply negb_false_iff, Z.eqb_eq in Hcheck.
      rewrite clear_maywrite_write, clear_maywrite_maywrite,
        clear_maywrite_rest.
      split; [| split; [| split]]; try reflexivity; [| discriminate].
      intros _. split; [intros Hw; now contradict Hw |]. intros _.
      now split.
    + split; [discriminate |]. now repeat split.
Qed.

Lemma mmap_singleton_error (got : bool) (anon : Z + nat) (s : mmap_state)
    (err : Z) :
  fst (mmap_singleton got anon s) = inl err -> anon = inl err.
Proof.
  unfold mmap_singleton.
  destruct (gem_mmap_singleton s) as [file |]; [destruct got |];
    cbn [fst snd]; try discriminate;
    destruct anon as [e | f]; cbn [fst]; congruence.
Qed.

(** X19. A mapping that [i915_gem_update_vma_info] has set up is one the
    fault handlers can serve from the start of the object: the area
    carries the mapping record, its page offset is the start of the
    record's node, so that the object offset a fault computes is zero and
    the window of an object without segments is the whole area; and on a
    read-only object the area is not writable, so that the check of the
    fault handlers never fires on it. *)
Theorem fresh_mapping_faults_from_the_start_of_the_object (fenv : fault_env)
    (got : bool) (anon : Z + nat) (obj : drm_i915_gem_object)
    (ops : mmap_object) (mmo : i915_mmap_offset) (vma : mmap_vma)
    (s : mmap_state) :
  (forall err, anon = inl err -> err <> 0) ->
  fst (fst (i915_gem_update_vma_info got anon obj ops mmo vma s)) = 0 ->
  exists area,
    fault_area (snd (fst (i915_gem_update_vma_info got anon obj ops mmo vma
                                                   s)))
    = Some area /\
    vm_private_data area = mmo /\
    vm_start area = mv_start vma /\
    vm_end area = mv_end vma /\
    readonly obj && area_write area = false /\
    forall addr,
      fault_obj_offset (mk_vmf area addr) = 0 /\
      (has_segments obj = false ->
       cpu_window fenv (mk_vmf area addr) obj
       = Some (obj, mv_start vma, mv_end vma, 0)).
Proof.
  intros Hanon Hret.
  destruct (update_vma_info_cases got anon obj ops mmo vma s)
    as [(Hcheck & Hr) | (Hcheck & [(err & Herr & Hr)
                                  | (f & p & t & _ & Hr & _)])];
    rewrite Hr in *; cbn [fst snd] in *.
  - discriminate Hret.
  - apply mmap_singleton_error in Herr. now apply Hanon in Herr.
  - unfold fault_area.
    cbn [mv_private mv_start mv_end mv_pgoff mv_flags].
    eexists. split; [reflexivity |].
    cbn [vm_private_data vm_start vm_end]. repeat split.
    + unfold area_write. cbn [vm_flags].
      rewrite setup_flags_masked by (vm_compute; reflexivity).
      destruct (readonly obj); [| reflexivity].
      now rewrite clear_maywrite_write.
    + unfold fault_obj_offset. cbn [vmf_vma vm_pgoff vm_private_data].
      now rewrite Z.sub_diag.
    + intros Hseg. unfold cpu_window, cpu_segment. rewrite Hseg.
      unfold fault_obj_offset. cbn [vmf_vma vm_pgoff vm_private_data
                                     vm_start vm_end].
      now rewrite Z.sub_diag.
Qed.

Lemma fresh_mapping_faults_from_the_start_of_the_object_witness :
  exists area,
    fault_area (snd (fst (i915_gem_update_vma_info false (inr 3%nat)
                            readonly_object plain_ops
                            (record_of I915_MMAP_TYPE_WB 4096) fresh_vma
                            idle_mmap)))
    = Some area /\
    fault_obj_offset (mk_vmf area (65536 + 8192)) = 0.
Proof.
  destruct (fresh_mapping_faults_from_the_start_of_the_object calm_env false
              (inr 3%nat) readonly_object plain_ops
              (record_of I915_MMAP_TYPE_WB 4096) fresh_vma idle_mmap)
    as (area & Harea & _ & _ & _ & _ & Hfault);
    [intros err Herr; discriminate Herr | reflexivity |].
  exists area. split; [exact Harea | apply Hfault].
Defined.

Lemma count_event_app (e : mmap_event) (l1 l2 : list mmap_event) :
  count_event e (l1 ++ l2) = (count_event e l1 + count_event e l2)%nat.
Proof. unfold count_event. now rewrite filter_app, length_app. Qed.

Lemma obj_refs_app (l1 l2 : list mmap_event) :
  obj_refs (l1 ++ l2) = obj_refs l1 + obj_refs l2.
Proof. unfold obj_refs. rewrite !count_event_app. lia. Qed.

Lemma rc6_holds_app (l1 l2 : list mmap_event) :
  rc6_holds (l1 ++ l2) = rc6_holds l1 + rc6_holds l2.
Proof. unfold rc6_holds. rewrite !count_event_app. lia. Qed.

Lemma dev_refs_app (l1 l2 : list mmap_event) :
  dev_refs (l1 ++ l2) = dev_refs l1 + dev_refs l2.
Proof. unfold dev_refs. rewrite !count_event_app. lia. Qed.

(** [mmap_singleton] takes no reference on an object and no hold on
    rc6. *)
Lemma mmap_singleton_quiet (got : bool) (anon : Z + nat) (s : mmap_state) :
  exists evs,
    mm_trace (snd (mmap_singleton got anon s)) = mm_trace s ++ evs /\
    obj_refs evs = 0 /\ rc6_holds evs = 0.
Proof.
  unfold mmap_singleton.
  destruct (gem_mmap_singleton s) as [file |]; [destruct got |];
    try destruct anon as [err | f]; cbn [fst snd mm_log mm_trace
                                          set_singleton];
    rewrite <- ?app_assoc; eexists; (split; [reflexivity |]);
    split; reflexivity.
Qed.

(** What [i915_gem_update_vma_info] leaves held: no reference on the
    object, and one hold on rc6 when it succeeds. *)
Lemma update_vma_info_holds (got : bool) (anon : Z + nat)
    (obj : drm_i915_gem_object) (ops : mmap_object) (mmo : i915_mmap_offset)
    (vma : mmap_vma) (s : mmap_state) :
  (forall err, anon = inl err -> err <> 0) ->
  exists evs,
    mm_trace (snd (i915_gem_update_vma_info got anon obj ops mmo vma s))
    = mm_trace s ++ evs /\
    obj_refs evs = 0 /\
    rc6_holds evs
    = if fst (fst (i915_gem_update_vma_info got anon obj ops mmo vma s)) =? 0
      then 1 else 0.
Proof.
  intros Hanon.
  destruct (mmap_singleton_quiet got anon s) as (evs & Htr & Hobj & Hrc6).
  destruct (update_vma_info_cases got anon obj ops mmo vma s)
    as [(_ & ->) | (_ & [(err & Herr & ->) | (f & p & t & _ & -> & _)])];
    cbn [fst snd mm_log mm_trace].
  - exists []. rewrite app_nil_r. now repeat split.
  - apply mmap_singleton_error, Hanon in Herr.
    apply Z.eqb_neq in Herr. rewrite Herr. now exists evs.
  - rewrite Htr, <- !app_assoc. eexists. split; [reflexivity |].
    rewrite obj_refs_app, rc6_holds_app, Hobj, Hrc6. split; reflexivity.
Qed.

(** The shape of what [i915_pci_barrier_mmap] returns. *)
Lemma barrier_mmap_cases (env : mmap_env) (dev : mmap_device)
    (vma : mmap_vma) (s : mmap_state) :
  let r := i915_pci_barrier_mmap env dev vma s in
  let flags :=
    Z.lor (Z.land (mv_flags vma)
                  (u64 (Z.lnot (Z.lor VM_MAYREAD VM_MAYEXEC))))
          (Z.lor (Z.lor (Z.lor VM_PFNMAP VM_DONTEXPAND) VM_DONTDUMP)
                 VM_IO) in
  let insert :=
    MmInsertPfn (mv_start vma)
                (PHYS_PFN (pci_resource_start_0 dev + LAST_DB_PAGE_OFFSET))
                (pgprot_noncached (vm_get_page_prot flags)) in
  (fst (fst r) <> 0 /\ snd (fst r) = vma /\ snd r = s) \/
  (12 <= GRAPHICS_VER dev /\
   u64 (mv_end vma - mv_start vma) <= PAGE_SIZE /\
   is_cow_mapping env (mv_flags vma) = false /\
   Z.land (mv_flags vma) (Z.lor VM_READ VM_EXEC) = 0 /\
   ((fst (fst r) = - EFAULT /\ snd (fst r) = set_mv_flags vma flags /\
     snd r = mm_log s [insert]) \/
    (r = (0,
          mk_mmap_vma (mv_start vma) (mv_end vma) (mv_pgoff vma) flags
                      private_dev (mv_page_prot vma) (Some vm_ops_barrier)
                      (mv_file vma),
          mm_log (mm_log s [insert]) [MmDevGet])))).
Proof.
  cbn zeta. unfold i915_pci_barrier_mmap.
  destruct (GRAPHICS_VER dev <? 12) eqn:Hver;
    [left; repeat split; discriminate |].
  destruct (PAGE_SIZE <? u64 (mv_end vma - mv_start vma)) eqn:Hsize;
    [left; repeat split; discriminate |].
  destruct (is_cow_mapping env (mv_flags vma)) eqn:Hcow;
    [left; repeat split; discriminate |].
  destruct (Z.land (mv_flags vma) (Z.lor VM_READ VM_EXEC) =? 0) eqn:Hrx;
    cbn [negb]; [| left; repeat split; discriminate].
  right. apply Z.ltb_ge in Hver, Hsize. apply Z.eqb_eq in Hrx.
  split; [exact Hver |]. split; [exact Hsize |]. split; [reflexivity |].
  split; [exact Hrx |]. cbn [set_mv_flags mv_start mv_end mv_pgoff mv_flags
                              mv_private mv_page_prot mv_ops mv_file].
  destruct (vmf_insert_pfn_prot env _ _ _); cbn [fst snd];
    first [right; reflexivity | left; now repeat split].
Qed.

(** X20. The barrier page is mapped for writing only, and only on a
    device that has it.  [i915_pci_barrier_mmap] refuses a device older
    than graphics version 12 with -ENODEV and, on a newer one, an area of
    more than a page, a copy-on-write area and an area that asks for read
    or execute access with -EINVAL, area and state being left as they
    came.  So it succeeds only for an area of one page at most that is
    not copy-on-write and came with neither the read nor the execute bit;
    the area it leaves can neither read nor execute nor be given either
    access later, while its write bits are as they came.  It inserts the
    one page frame of the last doorbell page at the start of the area,
    uncached, and holds one reference on the device, which a failure does
    not take. *)
Theorem barrier_page_is_write_only (env : mmap_env) (dev : mmap_device)
    (vma : mmap_vma) (s : mmap_state) :
  let r := i915_pci_barrier_mmap env dev vma s in
  let vma' := snd (fst r) in
  (GRAPHICS_VER dev < 12 -> r = (- ENODEV, vma, s)) /\
  (12 <= GRAPHICS_VER dev ->
   PAGE_SIZE < u64 (mv_end vma - mv_start vma) \/
   is_cow_mapping env (mv_flags vma) = true \/
   Z.land (mv_flags vma) (Z.lor VM_READ VM_EXEC) <> 0 ->
   r = (- EINVAL, vma, s)) /\
  (fst (fst r) = 0 ->
   12 <= GRAPHICS_VER dev /\
   u64 (mv_end vma - mv_start vma) <= PAGE_SIZE /\
   is_cow_mapping env (mv_flags vma) = false /\
   Z.land (mv_flags vma) (Z.lor VM_READ VM_EXEC) = 0 /\
   Z.land (mv_flags vma')
          (Z.lor (Z.lor VM_READ VM_EXEC) (Z.lor VM_MAYREAD VM_MAYEXEC)) = 0 /\
   mv_private vma' = private_dev /\
   mv_ops vma' = Some vm_ops_barrier /\
   mm_trace (snd r)
   = mm_trace s
     ++ [MmInsertPfn (mv_start vma)
                     (Z.shiftr (u64 (pci_resource_start_0 dev + 0x7ff001))
                               PAGE_SHIFT)
                     (pgprot_noncached (vm_get_page_prot (mv_flags vma')));
         MmDevGet]) /\
  (fst (fst r) <> 0 ->
   mv_private vma' = mv_private vma /\ mv_ops vma' = mv_ops vma /\
   exists evs, mm_trace (snd r) = mm_trace s ++ evs /\ dev_refs evs = 0) /\
  Z.land (mv_flags vma') (Z.lor VM_WRITE VM_MAYWRITE)
  = Z.land (mv_flags vma) (Z.lor VM_WRITE VM_MAYWRITE) /\
  mv_start vma' = mv_start vma /\ mv_end vma' = mv_end vma /\
  mv_pgoff vma' = mv_pgoff vma.
Proof.
  cbn zeta.
  assert (Hrejected :
            (GRAPHICS_VER dev < 12 ->
             i915_pci_barrier_mmap env dev vma s = (- ENODEV, vma, s)) /\
            (12 <= GRAPHICS_VER dev ->
             PAGE_SIZE < u64 (mv_end vma - mv_start vma) \/
             is_cow_mapping env (mv_flags vma) = true \/
             Z.land (mv_flags vma) (Z.lor VM_READ VM_EXEC) <> 0 ->
             i915_pci_barrier_mmap env dev vma s = (- EINVAL, vma, s))).
  { unfold i915_pci_barrier_mmap. split.
    - intros Hver. apply Z.ltb_lt in Hver. now rewrite Hver.
    - intros Hver Hbad. apply Z.ltb_ge in Hver. rewrite Hver.
      destruct (PAGE_SIZE <? u64 (mv_end vma - mv_start vma)) eqn:Hsize;
        [reflexivity |].
      destruct (is_cow_mapping env (mv_flags vma)) eqn:Hcow; [reflexivity |].
      destruct (Z.land (mv_flags vma) (Z.lor VM_READ VM_EXEC) =? 0) eqn:Hrx;
        [| reflexivity].
      apply Z.ltb_ge in Hsize. apply Z.eqb_eq in Hrx.
      destruct Hbad as [Hbad | [Hbad | Hbad]];
        [lia | discriminate Hbad | now contradict Hbad]. }
  split; [exact (proj1 Hrejected) |]. split; [exact (proj2 Hrejected) |].
  clear Hrejected.
  assert (Hrw : forall f,
             Z.land (Z.lor (Z.land f
                              (u64 (Z.lnot (Z.lor VM_MAYREAD VM_MAYEXEC))))
                           (Z.lor (Z.lor (Z.lor VM_PFNMAP VM_DONTEXPAND)
                                         VM_DONTDUMP) VM_IO))
                    (Z.lor VM_WRITE VM_MAYWRITE)
             = Z.land f (Z.lor VM_WRITE VM_MAYWRITE)).
  { intros f. rewrite land_added by (vm_compute; reflexivity).
    apply land_masked. vm_compute. reflexivity. }
  destruct (barrier_mmap_cases env dev vma s)
    as [(Herr & -> & ->)
       | (Hver & Hsize & Hcow & Hrx & [(Herr & -> & ->) | ->])];
    cbn [fst snd set_mv_flags mv_start mv_end mv_pgoff mv_flags
         mv_private mv_ops mm_log mm_trace] in *.
  - split; [intros Hret; now contradict Herr |].
    split; [| now repeat split].
    intros _. split; [reflexivity |]. split; [reflexivity |].
    exists []. now rewrite app_nil_r.
  - split; [intros Hret; rewrite Hret in Herr; discriminate Herr |].
    split; [| split; [apply Hrw | now repeat split]].
    intros _. split; [reflexivity |]. split; [reflexivity |].
    eexists. split; reflexivity.
  - split; [| split; [intros Hne; now contradict Hne
                    | split; [apply Hrw | now repeat split]]].
    intros _. split; [exact Hver |]. split; [exact Hsize |].
    split; [exact Hcow |]. split; [exact Hrx |].
    split; [| split; [reflexivity |]].
    + rewrite land_added by (vm_compute; reflexivity).
      rewrite Z.land_lor_distr_r.
      rewrite <- (Z.land_assoc _ _ (Z.lor VM_MAYREAD VM_MAYEXEC)).
      replace (Z.land (u64 (Z.lnot (Z.lor VM_MAYREAD VM_MAYEXEC)))
                      (Z.lor VM_MAYREAD VM_MAYEXEC)) with 0
        by (vm_compute; reflexivity).
      rewrite Z.land_0_r, Z.lor_0_r.
      rewrite (Z.land_comm (Z.land _ _)), Z.land_assoc,
        (Z.land_comm _ (mv_flags vma)), Hrx. reflexivity.
    + split; [reflexivity |]. now rewrite <- app_assoc.
Qed.

(** What [i915_gem_mmap] leaves held. *)
Lemma mmap_holds (env : mmap_env) (dev : mmap_device) (priv : nat)
    (obj : drm_i915_gem_object) (ops : mmap_object) (vma : mmap_vma)
    (s : mmap_state) :
  anon_error env ->
  exists evs,
    mm_trace (snd (i915_gem_mmap env dev priv obj ops vma s))
    = mm_trace s ++ evs /\
    obj_refs evs = rc6_holds evs /\
    (mv_pgoff vma <> BARRIER_MMAP_PGOFF dev ->
     obj_refs evs
     = if fst (fst (i915_gem_mmap env dev priv obj ops vma s)) =? 0
       then 1 else 0).
Proof.
  intros Hanon. unfold i915_gem_mmap.
  assert (Hnil : forall err : Z,
             err <> 0 ->
             exists evs,
               mm_trace s = mm_trace s ++ evs /\
               obj_refs evs = rc6_holds evs /\
               (mv_pgoff vma <> BARRIER_MMAP_PGOFF dev ->
                obj_refs evs = if err =? 0 then 1 else 0)).
  { intros err Herr. exists []. rewrite app_nil_r.
    apply Z.eqb_neq in Herr. rewrite Herr. now repeat split. }
  destruct (drm_dev_is_unplugged dev); cbn [fst snd];
    [now apply Hnil |].
  destruct (mv_pgoff vma =? BARRIER_MMAP_PGOFF dev) eqn:Hpgoff.
  { apply Z.eqb_eq in Hpgoff.
    destruct (barrier_mmap_cases env dev vma s)
      as [(_ & _ & ->) | (_ & _ & _ & _ & [(_ & _ & ->) | ->])];
      cbn [fst snd mm_log mm_trace]; rewrite <- ?app_assoc.
    - exists []. rewrite app_nil_r. now repeat split.
    - eexists. split; [reflexivity |]. now split.
    - eexists. split; [reflexivity |]. now split. }
  destruct (drm_vma_offset_exact_lookup_locked env _ _) as [mmo |];
    [| now apply Hnil].
  destruct (bool_decide (priv ∈ vm_files (vma_node mmo)));
    [| now apply Hnil].
  destruct (i915_gem_object_get_rcu env); cbn [fst snd].
  2:{ exists [MmObjGetRcu false]. split; [reflexivity |].
      split; [reflexivity |]. intros _. reflexivity. }
  destruct (update_vma_info_holds (get_file_rcu env) (anon_inode_getfile env)
              obj ops mmo vma (mm_log s [MmObjGetRcu true]) Hanon)
    as (evs & Htr & Hobj & Hrc6).
  destruct (i915_gem_update_vma_info _ _ obj ops mmo vma _)
    as [[err vma1] s1]; cbn [fst snd mm_log mm_trace] in *.
  destruct (err =? 0) eqn:Herr; cbn [negb fst snd mm_log mm_trace];
    rewrite Htr, <- ?app_assoc; (eexists; split; [reflexivity |]);
    cbn [app]; rewrite ?Herr;
    change (MmObjGetRcu true :: ?l) with ([MmObjGetRcu true] ++ l);
    rewrite !obj_refs_app, !rc6_holds_app, Hobj, Hrc6; now split.
Qed.

(** X21. [mmap] on the device file serves only a file that is on the
    list of the node.  Away from the barrier offset, a call that succeeds
    has found a record at exactly the offset and size asked for, with the
    calling file on its list and an object that is not on its way to be
    freed, and has made that record the private data of the area.  A
    device that is unplugged gives -ENODEV, an offset without a node
    -EINVAL, and a node that the file may not use or whose object is
    dying -EACCES, the area being left as it came.  The reference taken
    on the object and the hold on rc6 are kept exactly when the call
    succeeds. *)
Theorem mmap_serves_only_files_on_the_list (env : mmap_env)
    (dev : mmap_device) (priv : nat) (obj : drm_i915_gem_object)
    (ops : mmap_object) (vma : mmap_vma) (s : mmap_state) :
  anon_error env ->
  mv_pgoff vma <> BARRIER_MMAP_PGOFF dev ->
  let r := i915_gem_mmap env dev priv obj ops vma s in
  let node :=
    drm_vma_offset_exact_lookup_locked env (mv_pgoff vma) (vma_pages vma) in
  (fst (fst r) = 0 ->
   drm_dev_is_unplugged dev = false /\
   i915_gem_object_get_rcu env = true /\
   exists mmo,
     node = Some mmo /\ priv ∈ vm_files (vma_node mmo) /\
     mv_private (snd (fst r)) = private_mmo mmo) /\
  (drm_dev_is_unplugged dev = true -> r = (- ENODEV, vma, s)) /\
  (drm_dev_is_unplugged dev = false ->
   match node with
   | None => r = (- EINVAL, vma, s)
   | Some mmo =>
       priv ∉ vm_files (vma_node mmo) \/ i915_gem_object_get_rcu env = false
       -> fst (fst r) = - EACCES /\ snd (fst r) = vma
   end) /\
  exists evs,
    mm_trace (snd r) = mm_trace s ++ evs /\
    obj_refs evs = (if fst (fst r) =? 0 then 1 else 0) /\
    rc6_holds evs = (if fst (fst r) =? 0 then 1 else 0).
Proof.
  intros Hanon Hpgoff. cbn zeta.
  split; [| split; [| split]].
  - unfold i915_gem_mmap.
    destruct (drm_dev_is_unplugged dev); [discriminate |].
    apply Z.eqb_neq in Hpgoff. rewrite Hpgoff.
    destruct (drm_vma_offset_exact_lookup_locked env _ _) as [mmo |];
      [| discriminate].
    destruct (bool_decide (priv ∈ vm_files (vma_node mmo))) eqn:Hallowed;
      [| discriminate].
    apply bool_decide_eq_true in Hallowed.
    destruct (i915_gem_object_get_rcu env); [| discriminate].
    destruct (update_vma_info_cases (get_file_rcu env)
                (anon_inode_getfile env) obj ops mmo vma
                (mm_log s [MmObjGetRcu true]))
      as [(_ & ->) | (_ & [(err & Herr & ->) | (f & p & t & _ & -> & _)])];
      cbn [fst snd negb Z.eqb]; [discriminate | |].
    + apply mmap_singleton_error, Hanon in Herr.
      apply Z.eqb_neq in Herr. rewrite Herr. cbn [negb fst snd].
      intros Hret. apply Z.eqb_neq in Herr. now contradict Herr.
    + intros _. split; [reflexivity |]. split; [reflexivity |].
      exists mmo. now repeat split.
  - unfold i915_gem_mmap. now intros ->.
  - unfold i915_gem_mmap. intros ->.
    apply Z.eqb_neq in Hpgoff. rewrite Hpgoff.
    destruct (drm_vma_offset_exact_lookup_locked env _ _) as [mmo |];
      [| reflexivity].
    intros [Hnot | Hdying].
    + rewrite (bool_decide_eq_false_2 _ Hnot). now split.
    + rewrite Hdying. now destruct (bool_decide _).
  - destruct (mmap_holds env dev priv obj ops vma s Hanon)
      as (evs & Htr & Heq & Hobj).
    exists evs. split; [exact Htr |]. rewrite <- Heq.
    split; now apply Hobj.
Qed.

Lemma lookup_env_anon_error : anon_error lookup_env.
Proof. intros err Herr. discriminate Herr. Qed.

Lemma mmap_serves_only_files_on_the_list_witness :
  fst (fst (i915_gem_mmap lookup_env modern_device 7
              (blank_object 1 (16 * 4096)) plain_ops fresh_vma idle_mmap))
  = 0 /\
  7%nat ∈ vm_files (vma_node listed_record) /\
  mv_private (snd (fst (i915_gem_mmap lookup_env modern_device 7
                          (blank_object 1 (16 * 4096)) plain_ops fresh_vma
                          idle_mmap)))
  = private_mmo listed_record.
Proof.
  destruct (mmap_serves_only_files_on_the_list lookup_env modern_device 7
              (blank_object 1 (16 * 4096)) plain_ops fresh_vma idle_mmap
              lookup_env_anon_error)
    as (Hok & _); [vm_compute; congruence |].
  assert (Hret : fst (fst (i915_gem_mmap lookup_env modern_device 7
                             (blank_object 1 (16 * 4096)) plain_ops fresh_vma
                             idle_mmap)) = 0) by reflexivity.
  destruct (Hok Hret) as (_ & _ & mmo & Hnode & Hin & Hprivate).
  injection Hnode as <-.
  split; [exact Hret | split; [exact Hin | exact Hprivate]].
Defined.

(** X22. Through any history of calls into the mmap path, the holds on
    rc6 are as many as the references that mappings hold on objects:
    [i915_gem_mmap] keeps one of each when it succeeds and none when it
    fails, [vm_open] takes one of each and [vm_close] gives one of each
    back. *)
Theorem rc6_is_held_once_per_mapping_reference (calls : list mmap_call)
    (s : mmap_state) :
  Forall call_anon_error calls ->
  exists evs,
    mm_trace (run_calls calls s) = mm_trace s ++ evs /\
    obj_refs evs = rc6_holds evs.
Proof.
  intros Hcalls. revert s.
  induction Hcalls as [| c calls Hc _ IH]; intros s.
  - exists []. now rewrite app_nil_r.
  - cbn [run_calls fold_left].
    destruct (IH (run_call s c)) as (evs & Htr & Heq).
    assert (Hstep : exists evs0,
               mm_trace (run_call s c) = mm_trace s ++ evs0 /\
               obj_refs evs0 = rc6_holds evs0).
    { destruct c as [env dev priv obj ops vma | |]; cbn [run_call].
      - destruct (mmap_holds env dev priv obj ops vma s Hc)
          as (evs0 & Htr0 & Heq0 & _).
        now exists evs0.
      - eexists. split; reflexivity.
      - eexists. split; reflexivity. }
    destruct Hstep as (evs0 & Htr0 & Heq0).
    exists (evs0 ++ evs). unfold run_calls in Htr.
    rewrite Htr, Htr0, <- app_assoc. split; [reflexivity |].
    rewrite obj_refs_app, rc6_holds_app. lia.
Qed.

Lemma rc6_is_held_once_per_mapping_reference_witness :
  exists evs,
    mm_trace (run_calls [CallMmap lookup_env modern_device 7
                                  (blank_object 1 (16 * 4096)) plain_ops
                                  fresh_vma;
                         CallOpen; CallClose; CallClose] idle_mmap)
    = mm_trace idle_mmap ++ evs /\
    obj_refs evs = rc6_holds evs.
Proof.
  apply rc6_is_held_once_per_mapping_reference.
  repeat constructor. exact lookup_env_anon_error.
Defined.

Lemma created_app (l1 l2 : list mmap_event) :
  created (l1 ++ l2) = created l1 ++ created l2.
Proof. apply omap_app. Qed.

(** What holds along the histories of the anonymous file. *)
Lemma singleton_history_inv (released : list nat) (s : mmap_state) :
  singleton_history released s ->
  (forall file, gem_mmap_singleton s = Some file ->
                file ∈ created (mm_trace s) /\ file ∉ released) /\
  dev_refs (mm_trace s)
  = Z.of_nat (length (created (mm_trace s))) - Z.of_nat (length released) /\
  (forall file, file ∈ released -> file ∈ created (mm_trace s)) /\
  NoDup (created (mm_trace s)) /\
  NoDup released.
Proof.
  induction 1 as [| released s got anon _ IH Hfresh
                  | released s file _ IH Hmade Hnot].
  - cbn. split; [intros file Hin; discriminate Hin |].
    split; [reflexivity |].
    split; [intros file Hin; now apply elem_of_nil in Hin |].
    split; apply NoDup_nil_2.
  - destruct IH as (Hsingle & Hdev & Hsub & Hmadedup & Hreldup).
    assert (Hquiet : forall evs,
               created evs = [] -> dev_refs evs = 0 ->
               (forall file, gem_mmap_singleton s = Some file ->
                             file ∈ created (mm_trace s ++ evs) /\
                             file ∉ released) /\
               dev_refs (mm_trace s ++ evs)
               = Z.of_nat (length (created (mm_trace s ++ evs)))
                 - Z.of_nat (length released) /\
               (forall file, file ∈ released ->
                             file ∈ created (mm_trace s ++ evs)) /\
               NoDup (created (mm_trace s ++ evs)) /\
               NoDup released).
    { intros evs Hmade Hrefs.
      rewrite created_app, dev_refs_app, Hmade, Hrefs, app_nil_r.
      split; [exact Hsingle |]. split; [lia |]. now split. }
    assert (Hnew : forall evs file,
               anon = inr file ->
               created evs = [file] -> dev_refs evs = 1 ->
               (forall f, Some file = Some f ->
                          f ∈ created (mm_trace s ++ evs) /\
                          f ∉ released) /\
               dev_refs (mm_trace s ++ evs)
               = Z.of_nat (length (created (mm_trace s ++ evs)))
                 - Z.of_nat (length released) /\
               (forall f, f ∈ released ->
                          f ∈ created (mm_trace s ++ evs)) /\
               NoDup (created (mm_trace s ++ evs)) /\
               NoDup released).
    { intros evs file Hanon Hmade Hrefs.
      specialize (Hfresh file Hanon).
      rewrite created_app, dev_refs_app, Hmade, Hrefs, Hdev, length_app.
      cbn [length].
      split; [| split; [lia | split; [| split; [| exact Hreldup]]]].
      - intros f [= <-]. split.
        + apply elem_of_app. right. apply list_elem_of_singleton.
          reflexivity.
        + intros Hin. now apply Hfresh, Hsub.
      - intros f Hin. apply elem_of_app. left. now apply Hsub.
      - apply NoDup_app. split; [exact Hmadedup |].
        split; [| apply NoDup_singleton].
        intros f Hin Hf. apply list_elem_of_singleton in Hf as ->.
        now apply Hfresh. }
    unfold mmap_singleton.
    destruct (gem_mmap_singleton s) as [cur |] eqn:Hcur;
      [destruct got |]; cbn [fst snd].
    + cbn [mm_log mm_trace gem_mmap_singleton]. rewrite Hcur.
      now apply Hquiet.
    + destruct anon as [err | file];
        cbn [fst snd mm_log mm_trace gem_mmap_singleton set_singleton];
        rewrite <- ?app_assoc.
      * rewrite Hcur. now apply Hquiet.
      * now apply Hnew.
    + destruct anon as [err | file];
        cbn [fst snd mm_log mm_trace gem_mmap_singleton set_singleton];
        rewrite <- ?app_assoc.
      * rewrite Hcur. now apply Hquiet.
      * now apply Hnew.
  - destruct IH as (Hsingle & Hdev & Hsub & Hmadedup & Hreldup).
    unfold singleton_release. cbn [snd mm_log mm_trace].
    assert (Hsame : mm_trace (if bool_decide (gem_mmap_singleton s
                                              = Some file)
                              then set_singleton s None else s)
                    = mm_trace s) by now destruct (bool_decide _).
    rewrite Hsame, created_app, dev_refs_app, Hdev, app_nil_r.
    cbn [length]. split; [| split; [| split; [| split]]].
    + intros f Hf.
      destruct (bool_decide (gem_mmap_singleton s = Some file)) eqn:Hd;
        [discriminate Hf |].
      apply bool_decide_eq_false in Hd. cbn in Hf.
      destruct (Hsingle f Hf) as (Hin & Hout). split; [exact Hin |].
      rewrite elem_of_cons. intros [-> | Hrel]; [congruence | now apply Hout].
    + change (dev_refs [MmDevPut]) with (-1). lia.
    + intros f. rewrite elem_of_cons. intros [-> | Hin]; auto.
    + exact Hmadedup.
    + apply NoDup_cons. now split.
Qed.

(** X23. The anonymous file of the device never dangles, and the device
    is held once per anonymous file.  Along any history of
    [mmap_singleton] and [singleton_release], the file the device points
    to is one that was made and has not been released: a release clears
    the pointer only when it still points to the file released, so that a
    newer file stays in place.  The references taken on the device less
    those given back are the files made less the files released. *)
Theorem singleton_never_dangles (released : list nat) (s : mmap_state) :
  singleton_history released s ->
  (forall file, gem_mmap_singleton s = Some file ->
                file ∈ created (mm_trace s) /\ file ∉ released) /\
  dev_refs (mm_trace s)
  = Z.of_nat (length (created (mm_trace s))) - Z.of_nat (length released) /\
  (forall got anon,
      match fst (mmap_singleton got anon s) with
      | inr file =>
          gem_mmap_singleton (snd (mmap_singleton got anon s)) = Some file
      | inl err =>
          anon = inl err /\
          gem_mmap_singleton (snd (mmap_singleton got anon s))
          = gem_mmap_singleton s
      end) /\
  (forall file other,
      gem_mmap_singleton s = Some other -> other <> file ->
      gem_mmap_singleton (snd (singleton_release file s)) = Some other).
Proof.
  intros Hhist.
  destruct (singleton_history_inv released s Hhist) as (Hsingle & Hdev & _).
  split; [exact Hsingle |]. split; [exact Hdev |]. split.
  - intros got anon. unfold mmap_singleton.
    destruct (gem_mmap_singleton s) as [cur |] eqn:Hcur;
      [destruct got |]; cbn [fst snd mm_log gem_mmap_singleton];
      try exact Hcur;
      destruct anon as [err | file];
      cbn [fst snd mm_log gem_mmap_singleton set_singleton]; auto.
  - intros file other Hcur Hne. unfold singleton_release. cbn [snd mm_log].
    rewrite bool_decide_eq_false_2 by congruence. exact Hcur.
Qed.

Lemma singleton_never_dangles_witness :
  singleton_history [3%nat] second_singleton /\
  gem_mmap_singleton second_singleton = Some 5%nat /\
  dev_refs (mm_trace second_singleton) = 2 - 1.
Proof.
  assert (Hhist : singleton_history [3%nat] second_singleton).
  { apply history_release.
    - apply history_get.
      + apply history_get; [apply history_start |].
        intros file _. cbn. apply not_elem_of_nil.
      + intros file [= <-]. cbn. rewrite list_elem_of_singleton. lia.
    - cbn. rewrite !elem_of_cons. auto.
    - apply not_elem_of_nil. }
  destruct (singleton_never_dangles _ _ Hhist) as (_ & Hdev & _).
  split; [exact Hhist | split; [reflexivity | exact Hdev]].
Defined.

(** ** Access to the contents of a mapping *)

Lemma u64_range (x : Z) : 0 <= u64 x < 2 ^ 64.
Proof. unfold u64. apply Z.mod_pos_bound. lia. Qed.

Lemma access_target_offset (env : access_env) (area : vm_area_struct)
    (obj target : drm_i915_gem_object) (addr len offset : Z) (write : bool) :
  access_target env area obj addr len write = inr (target, offset) ->
  0 <= offset < 2 ^ 64.
Proof.
  unfold access_target.
  destruct (readonly obj && write); [discriminate |].
  destruct (range_overflows_t env _ _ _); [discriminate |].
  destruct (has_segments obj).
  - destruct (lookup_segment_at env _) as [[seg off] |]; [| discriminate].
    destruct (_ <? _); [discriminate |]. intros [= _ <-]. apply u64_range.
  - intros [= _ <-]. apply u64_range.
Qed.

(** What a copy into a mapping changes. *)
Lemma memcpy_to_frame (bytes buf bytes' : list Z) (offset len : Z) :
  0 <= offset -> 0 <= len ->
  memcpy_to bytes offset buf len = Some bytes' ->
  length bytes' = length bytes /\
  (forall i : nat, Z.of_nat i < offset \/ offset + len <= Z.of_nat i ->
                   bytes' !! i = bytes !! i) /\
  offset + len <= Z.of_nat (length bytes) /\
  forall buf2,
    len <= Z.of_nat (length buf2) ->
    memcpy_from buf2 bytes' offset len
    = Some (take (Z.to_nat len) buf ++ drop (Z.to_nat len) buf2).
Proof.
  intros Hoff Hlen. unfold memcpy_to.
  destruct (_ && _) eqn:Hfits; [| discriminate].
  apply andb_true_iff in Hfits as (Hin & Hbuf).
  apply Z.leb_le in Hin, Hbuf. intros [= <-].
  assert (Hlen' : length (take (Z.to_nat offset) bytes
                          ++ take (Z.to_nat len) buf
                          ++ drop (Z.to_nat (offset + len)) bytes)
                  = length bytes).
  { rewrite !length_app, !length_take, length_drop. lia. }
  split; [exact Hlen' |]. split; [| split; [exact Hin |]].
  - intros i [Hi | Hi].
    + rewrite lookup_app_l by (rewrite length_take; lia).
      apply lookup_take_lt. lia.
    + rewrite lookup_app_r by (rewrite length_take; lia).
      rewrite lookup_app_r by (rewrite !length_take; lia).
      rewrite lookup_drop, !length_take. f_equal. lia.
  - intros buf2 Hbuf2. unfold memcpy_from. rewrite Hlen'.
    rewrite (proj2 (Z.leb_le _ _) Hin), (proj2 (Z.leb_le _ _) Hbuf2).
    cbn [andb]. f_equal. f_equal.
    rewrite drop_app_length' by (rewrite length_take; lia).
    rewrite take_app_length' by (rewrite length_take; lia).
    reflexivity.
Qed.

(** The outcomes of one pass of [vm_access]. *)
Lemma access_pass_cases (env : access_env) (obj : drm_i915_gem_object)
    (offset : Z) (buf : list Z) (len : Z) (write : bool) (n : nat)
    (st : access_state) :
  let r := access_pass env obj offset buf len write n st in
  (contents (snd r) = contents st /\
   exists err, err <> 0 /\ fst r = Some (err, buf) /\
               (err = access_lock env n \/ err = pin_map env n)) \/
  (fst r = None /\ contents (snd r) = contents st /\
   if write
   then memcpy_to (contents st (obj_id obj)) offset buf (u64 len) = None
   else memcpy_from buf (contents st (obj_id obj)) offset (u64 len) = None)
  \/
  (if write then
     exists bytes,
       memcpy_to (contents st (obj_id obj)) offset buf (u64 len)
       = Some bytes /\
       fst r = Some (0, buf) /\
       contents (snd r)
       = fun i => if bool_decide (i = obj_id obj) then bytes
                  else contents st i
   else
     exists out,
       memcpy_from buf (contents st (obj_id obj)) offset (u64 len)
       = Some out /\
       fst r = Some (0, out) /\
       contents (snd r) = contents st).
Proof.
  cbn zeta. unfold access_pass.
  destruct (access_lock env n =? 0) eqn:Hlock; cbn [negb].
  2:{ left. split; [reflexivity |]. apply Z.eqb_neq in Hlock.
      exists (access_lock env n). auto. }
  destruct (pin_map env n =? 0) eqn:Hpin; cbn [negb].
  2:{ left. split; [reflexivity |]. apply Z.eqb_neq in Hpin.
      exists (pin_map env n). auto. }
  cbn [ac_log contents]. right. destruct write.
  - destruct (memcpy_to _ _ _ _) as [bytes |] eqn:Hcopy; cbn [fst snd].
    + right. exists bytes. now repeat split.
    + left. now repeat split.
  - destruct (memcpy_from _ _ _ _) as [out |] eqn:Hcopy; cbn [fst snd].
    + right. exists out. now repeat split.
    + left. now repeat split.
Qed.

(** The outcomes of the locking transaction of [vm_access]. *)
Lemma access_retry_cases (env : access_env) (obj : drm_i915_gem_object)
    (offset : Z) (buf : list Z) (len : Z) (write : bool) (fuel n : nat)
    (st : access_state) :
  let r := access_retry env obj offset buf len write fuel n st in
  access_fails env buf st r \/
  access_faults obj offset buf len write st r \/
  access_copies obj offset buf len write st r.
Proof.
  cbn zeta. revert n st.
  induction fuel as [| fuel IH]; intros n st; cbn [access_retry].
  { left. split; [reflexivity | now left]. }
  destruct (access_pass_cases env obj offset buf len write n st)
    as [(Hsame & err & Herr & Hret & Hfrom) | [(Hret & Hsame & Hcopy) | Hok]].
  - destruct (access_pass env obj offset buf len write n st) as [res st1].
    cbn [fst snd] in *. subst res.
    destruct (err =? - EDEADLK) eqn:Hdead.
    + destruct (access_backoff env n =? 0) eqn:Hback.
      * specialize (IH (S n) (ac_log st1 [AcWwBackoff])).
        unfold access_fails, access_faults, access_copies in *.
        cbn [ac_log contents] in IH. rewrite Hsame in IH. exact IH.
      * left. split; [exact Hsame |]. right. apply Z.eqb_neq in Hback.
        exists (access_backoff env n), n. cbn [fst negb]. auto.
    + left. split; [exact Hsame |]. right. exists err, n. cbn [fst].
      rewrite (proj2 (Z.eqb_neq _ _) Herr). cbn [negb].
      split; [exact Herr |]. split; [reflexivity |].
      destruct Hfrom; auto.
  - destruct (access_pass env obj offset buf len write n st) as [res st1].
    cbn [fst snd] in *. subst res. right. left. now repeat split.
  - right. right. unfold access_copies.
    destruct (access_pass env obj offset buf len write n st) as [res st1].
    cbn [fst snd] in *.
    destruct write.
    + destruct Hok as (bytes & Hcopy & -> & Hset). exists bytes.
      cbn [Z.eqb negb fst snd ac_log contents]. now repeat split.
    + destruct Hok as (out & Hcopy & -> & Hset). exists out.
      cbn [Z.eqb negb fst snd ac_log contents]. now repeat split.
Qed.

(** The outcomes of [vm_access] once it has a target. *)
Lemma vm_access_cases (env : access_env) (area : vm_area_struct)
    (obj target : drm_i915_gem_object) (addr : Z) (buf : list Z)
    (len offset : Z) (write : bool) (fuel : nat) (st : access_state) :
  access_target env area obj addr len write = inr (target, offset) ->
  let r := vm_access env area obj addr buf len write fuel st in
  access_fails env buf st r \/
  access_faults target offset buf len write st r \/
  access_copies target offset buf len write st r.
Proof.
  intros Htarget. cbn zeta. unfold vm_access. rewrite Htarget.
  apply (access_retry_cases env target offset buf len write fuel 0
           (ac_log st [AcWwInit])).
Qed.

Ltac same_contents Hsame :=
  rewrite Hsame;
  split; [intros ? _; reflexivity |];
  split; [reflexivity |];
  split; [intros ? _; reflexivity |];
  intros Hne; now contradict Hne.

(** X24. [vm_access] changes nothing but the bytes it is asked to write.
    A read leaves the contents of every object as they are; a write to a
    read-only object is refused with -EACCES before anything is done; an
    access that fails before the locking transaction does nothing; and
    whatever the outcome, the contents of the objects other than the one
    mapped, the size of its contents and its bytes outside
    [offset, offset + len) stay as they were.  The contents change only
    when a write succeeds, and the buffer only when a read does. *)
Theorem access_changes_only_what_it_writes (env : access_env)
    (area : vm_area_struct) (obj : drm_i915_gem_object) (addr : Z)
    (buf : list Z) (len : Z) (write : bool) (fuel : nat)
    (st : access_state) :
  let r := vm_access env area obj addr buf len write fuel st in
  (write = false -> contents (snd r) = contents st) /\
  (readonly obj = true -> write = true -> r = (Done (- EACCES, buf), st)) /\
  (forall err, access_target env area obj addr len write = inl err ->
               r = (Done (err, buf), st)) /\
  (forall ret out, fst r = Done (ret, out) -> out <> buf ->
                   write = false /\ ret = len) /\
  (forall target offset,
      access_target env area obj addr len write = inr (target, offset) ->
      (forall id, id <> obj_id target ->
                  contents (snd r) id = contents st id) /\
      length (contents (snd r) (obj_id target))
      = length (contents st (obj_id target)) /\
      (forall i : nat,
          Z.of_nat i < offset \/ offset + u64 len <= Z.of_nat i ->
          contents (snd r) (obj_id target) !! i
          = contents st (obj_id target) !! i) /\
      (contents (snd r) <> contents st ->
       write = true /\ fst r = Done (len, buf))).
Proof.
  cbn zeta.
  assert (Hinl : forall err,
             access_target env area obj addr len write = inl err ->
             vm_access env area obj addr buf len write fuel st
             = (Done (err, buf), st)).
  { intros err Herr. unfold vm_access. now rewrite Herr. }
  destruct (access_target env area obj addr len write)
    as [err | [target offset]] eqn:Htarget.
  { rewrite (Hinl err eq_refl). cbn [fst snd].
    split; [reflexivity |]. split; [| split; [| split]].
    - intros Hro ->. unfold access_target in Htarget. rewrite Hro in Htarget.
      cbn [andb] in Htarget. congruence.
    - now intros e [= <-].
    - intros ret out [= _ <-] Hne. now contradict Hne.
    - discriminate. }
  pose proof (access_target_offset env area obj target addr len offset write
                Htarget) as Hoffset.
  pose proof (u64_range len) as Hlen.
  split; [| split; [| split; [discriminate |]]].
  - intros ->.
    destruct (vm_access_cases env area obj target addr buf len offset false
                fuel st Htarget)
      as [(Hsame & _) | [(_ & Hsame & _) | (out & _ & _ & Hsame)]];
      exact Hsame.
  - intros Hro ->. unfold access_target in Htarget. rewrite Hro in Htarget.
    discriminate Htarget.
  - destruct (vm_access_cases env area obj target addr buf len offset write
                fuel st Htarget)
      as [(Hsame & Hfail) | [(Hret & Hsame & _) | Hcopy]].
    + split.
      * intros ret out Hret Hne.
        destruct Hfail as [Hfuel | (err & k & _ & Hdone & _)];
          rewrite Hret in *; [discriminate |].
        injection Hdone as _ ->. now contradict Hne.
      * intros t o [= <- <-]. same_contents Hsame.
    + split.
      * intros ret out Hdone. rewrite Hret in Hdone. discriminate Hdone.
      * intros t o [= <- <-]. same_contents Hsame.
    + unfold access_copies in Hcopy. destruct write.
      * destruct Hcopy as (bytes & Hto & Hret & Hset).
        destruct (memcpy_to_frame _ _ _ _ _ (proj1 Hoffset) (proj1 Hlen) Hto)
          as (Hsize & Hrest & _).
        split.
        -- intros ret out Hdone Hne. rewrite Hret in Hdone.
           injection Hdone as _ ->. now contradict Hne.
        -- intros t o [= <- <-]. rewrite Hset.
           split; [| split; [| split]].
           ++ intros id Hid. now rewrite bool_decide_eq_false_2.
           ++ now rewrite bool_decide_eq_true_2.
           ++ intros i Hi. rewrite bool_decide_eq_true_2 by reflexivity.
              now apply Hrest.
           ++ intros _. now split.
      * destruct Hcopy as (out & _ & Hret & Hsame).
        split.
        -- intros ret o Hdone _. rewrite Hret in Hdone.
           injection Hdone as <- _. now split.
        -- intros t o [= <- <-]. same_contents Hsame.
Qed.

(** X25. What [vm_access] has written it reads back.  When a write of
    [len] bytes at an address succeeds and a later read of as many bytes
    at the same address of the same mapping succeeds, the buffer of the
    read starts with the bytes that were written and is otherwise as it
    was. *)
Theorem access_reads_back_what_was_written (env env2 : access_env)
    (area : vm_area_struct) (obj target : drm_i915_gem_object)
    (addr offset : Z) (buf buf2 out : list Z) (len : Z) (fuel fuel2 : nat)
    (st : access_state) :
  0 <= len < 2 ^ 31 ->
  (forall k, access_lock env k <= 0 /\ pin_map env k <= 0 /\
             access_backoff env k <= 0) ->
  (forall k, access_lock env2 k <= 0 /\ pin_map env2 k <= 0 /\
             access_backoff env2 k <= 0) ->
  access_target env area obj addr len true = inr (target, offset) ->
  access_target env2 area obj addr len false = inr (target, offset) ->
  fst (vm_access env area obj addr buf len true fuel st)
  = Done (len, buf) ->
  fst (vm_access env2 area obj addr buf2 len false fuel2
                 (snd (vm_access env area obj addr buf len true fuel st)))
  = Done (len, out) ->
  out = take (Z.to_nat len) buf ++ drop (Z.to_nat len) buf2.
Proof.
  intros Hlen Henv Henv2 Htarget Htarget2 Hwrite Hread.
  pose proof (access_target_offset _ _ _ _ _ _ _ _ Htarget) as Hoffset.
  assert (Hu : u64 len = len) by (apply u64_small; lia).
  assert (Hfailed : forall (e : access_env) b s r,
             (forall k, access_lock e k <= 0 /\ pin_map e k <= 0 /\
                        access_backoff e k <= 0) ->
             access_fails e b s r -> forall o, fst r <> Done (len, o)).
  { intros e b s r He (_ & [Hfuel | (err & k & Herr & Hdone & Hfrom)]) o Hret;
      rewrite Hret in *; [discriminate |].
    injection Hdone as -> _. destruct (He k) as (Hl & Hp & Hb).
    destruct Hfrom as [Heq | [Heq | Heq]]; rewrite <- Heq in *; lia. }
  destruct (vm_access_cases env area obj target addr buf len offset true
              fuel st Htarget)
    as [Hfail | [(Hret & _) | (bytes & Hto & _ & Hset)]].
  { now apply (Hfailed _ _ _ _ Henv Hfail) in Hwrite. }
  { rewrite Hret in Hwrite. discriminate Hwrite. }
  destruct (vm_access_cases env2 area obj target addr buf2 len offset false
              fuel2 (snd (vm_access env area obj addr buf len true fuel st))
              Htarget2)
    as [Hfail | [(Hret & _) | (out2 & Hfrom & Hret & _)]].
  { now apply (Hfailed _ _ _ _ Henv2 Hfail) in Hread. }
  { rewrite Hret in Hread. discriminate Hread. }
  rewrite Hret in Hread. injection Hread as <-.
  rewrite Hset, bool_decide_eq_true_2, Hu in Hfrom by reflexivity.
  rewrite Hu in Hto.
  destruct (memcpy_to_frame _ _ _ _ _ (proj1 Hoffset) (proj1 Hlen) Hto)
    as (_ & _ & _ & Hback).
  assert (Hbuf2 : len <= Z.of_nat (length buf2)).
  { unfold memcpy_from in Hfrom.
    destruct (_ && _) eqn:Hfits; [| discriminate Hfrom].
    apply andb_true_iff in Hfits as (_ & Hfits). now apply Z.leb_le. }
  rewrite (Hback buf2 Hbuf2) in Hfrom. now injection Hfrom as <-.
Qed.

Lemma access_reads_back_what_was_written_witness :
  exists out,
    fst (vm_access calm_access_env writable_area (blank_object 1 8)
                   (65536 + 2) [1; 1; 1; 1] 3 false 1
                   (snd (vm_access calm_access_env writable_area
                                   (blank_object 1 8) (65536 + 2) [7; 8; 9] 3
                                   true 1 zeroed)))
    = Done (3, out) /\
    out = [7; 8; 9; 1].
Proof.
  exists [7; 8; 9; 1]. split; [vm_compute; reflexivity |].
  apply (access_reads_back_what_was_written calm_access_env calm_access_env
           writable_area (blank_object 1 8) (blank_object 1 8) (65536 + 2) 2
           [7; 8; 9] [1; 1; 1; 1] [7; 8; 9; 1] 3 1 1 zeroed);
    [lia | cbn; lia | cbn; lia | vm_compute; reflexivity
    | vm_compute; reflexivity | vm_compute; reflexivity
    | vm_compute; reflexivity].
Defined.

(** X26. [vm_access] stays inside the object.  When the range check
    rejects every range that leaves the object, the segment lookup
    returns an offset inside the segment, the mapping of the target is as
    long as the object and the buffer holds [len] bytes, the copy neither
    leaves the mapping nor the buffer: the access does not fault, and the
    bytes it touches lie between the offset and the end of the target. *)
Theorem access_stays_inside_the_object (env : access_env)
    (area : vm_area_struct) (obj : drm_i915_gem_object) (addr : Z)
    (buf : list Z) (len : Z) (write : bool) (fuel : nat)
    (st : access_state) :
  (forall start size max,
      range_overflows_t env start size max = false -> start + size <= max) ->
  (forall a seg off,
      lookup_segment_at env a = Some (seg, off) ->
      0 <= off <= base_size seg /\ base_size seg < 2 ^ 64) ->
  0 <= base_size obj < 2 ^ 64 ->
  (forall target offset,
      access_target env area obj addr len write = inr (target, offset) ->
      Z.of_nat (length (contents st (obj_id target))) = base_size target) ->
  u64 len <= Z.of_nat (length buf) ->
  fst (vm_access env area obj addr buf len write fuel st) <> Oops /\
  forall target offset,
    access_target env area obj addr len write = inr (target, offset) ->
    0 <= offset /\ offset + u64 len <= base_size target.
Proof.
  intros Hrange Hlookup Hsize Hcontents Hbuf.
  assert (Hinside : forall target offset,
             access_target env area obj addr len write
             = inr (target, offset) ->
             0 <= offset /\ offset + u64 len <= base_size target).
  { intros target offset Htarget.
    split; [eapply access_target_offset; exact Htarget |].
    unfold access_target in Htarget.
    destruct (readonly obj && write); [discriminate |].
    destruct (range_overflows_t env _ _ _) eqn:Hr; [discriminate |].
    apply Hrange in Hr. rewrite (u64_small (base_size obj)) in Hr by lia.
    destruct (has_segments obj).
    - destruct (lookup_segment_at env _) as [[seg off] |] eqn:Hseg;
        [| discriminate].
      destruct (Hlookup _ _ _ Hseg) as (Hoff & Hmax).
      rewrite (u64_small off) in Htarget by lia.
      rewrite (u64_small (base_size seg - off)) in Htarget by lia.
      destruct (_ <? _) eqn:Hfit; [discriminate |].
      apply Z.ltb_ge in Hfit. injection Htarget as <- <-. lia.
    - injection Htarget as <- <-. exact Hr. }
  split; [| exact Hinside].
  destruct (access_target env area obj addr len write)
    as [err | [target offset]] eqn:Htarget.
  { unfold vm_access. rewrite Htarget. discriminate. }
  destruct (Hinside target offset eq_refl) as (Hlo & Hhi).
  specialize (Hcontents target offset eq_refl).
  destruct (vm_access_cases env area obj target addr buf len offset write
              fuel st Htarget)
    as [(_ & [Hret | (err & k & _ & Hret & _)])
       | [(_ & _ & Hcopy) | Hcopy]].
  - rewrite Hret. discriminate.
  - rewrite Hret. discriminate.
  - exfalso. unfold memcpy_to, memcpy_from in Hcopy.
    rewrite Hcontents in Hcopy.
    rewrite (proj2 (Z.leb_le _ _) Hhi), (proj2 (Z.leb_le _ _) Hbuf) in Hcopy.
    destruct write; discriminate Hcopy.
  - unfold access_copies in Hcopy.
    destruct write; destruct Hcopy as (x & _ & Hret & _); rewrite Hret;
      discriminate.
Qed.

Lemma access_stays_inside_the_object_witness :
  fst (vm_access calm_access_env writable_area (blank_object 1 8)
                 (65536 + 2) [7; 8; 9] 3 true 1 zeroed) <> Oops /\
  fst (vm_access calm_access_env writable_area (blank_object 1 8)
                 (65536 + 6) [7; 8; 9] 3 true 1 zeroed) <> Oops.
Proof.
  assert (Hrange : forall start size max,
             range_overflows_t calm_access_env start size max = false ->
             start + size <= max).
  { intros start size max. cbn. intros Hfits.
    apply orb_false_iff in Hfits as (Hstart & Hfits).
    apply Z.leb_gt in Hstart. apply Z.ltb_ge in Hfits. lia. }
  assert (Hlookup : forall a seg off,
             lookup_segment_at calm_access_env a = Some (seg, off) ->
             0 <= off <= base_size seg /\ base_size seg < 2 ^ 64)
    by (intros a seg off Hseg; discriminate Hseg).
  split.
  - apply (access_stays_inside_the_object calm_access_env writable_area
             (blank_object 1 8) (65536 + 2) [7; 8; 9] 3 true 1 zeroed
             Hrange Hlookup);
      [cbn; lia | | vm_compute; congruence].
    intros target offset Htarget. vm_compute in Htarget.
    injection Htarget as <- <-. reflexivity.
  - apply (access_stays_inside_the_object calm_access_env writable_area
             (blank_object 1 8) (65536 + 6) [7; 8; 9] 3 true 1 zeroed
             Hrange Hlookup);
      [cbn; lia | | vm_compute; congruence].
    intros target offset Htarget. vm_compute in Htarget.
    discriminate Htarget.
Defined.

(** ** From the offset to the mapping *)

Section OffsetThenMmap.
Context `{VmaManager M}.

(** X27. The offset that [i915_gem_mmap_offset_ioctl] hands out can be
    mapped by the file that asked for it, and only by a file on the
    list.  After a successful request for an object without an offset
    hook, when the manager finds the record of the kind at the page
    offset of the area, [i915_gem_mmap] by the requester passes the
    permission check: unless the object is dying it goes on to set up the
    area with that record and returns what that returns.  A file that is
    not on the list of the record is refused with -EACCES. *)
Theorem offset_from_the_ioctl_can_be_mapped (ienv : ioctl_env)
    (dev : mmap_device) (ops : mmap_object) (s : ioctl_state M) (file : nat)
    (args : drm_i915_gem_mmap_offset) (t : i915_mmap_type)
    (menv : mmap_env) (obj : drm_i915_gem_object) (vma : mmap_vma)
    (ms : mmap_state) :
  fst (fst (i915_gem_mmap_offset_ioctl ienv dev (Some ops) s file args)) = 0 ->
  ops_mmap_offset ops = None ->
  mo_flags args = mmap_type_val t ->
  drm_vma_offset_exact_lookup_locked menv (mv_pgoff vma) (vma_pages vma)
  = lookup_mmo
      (w_obj (io_world
                (snd (i915_gem_mmap_offset_ioctl ienv dev (Some ops) s file
                                                 args)))) t ->
  drm_dev_is_unplugged dev = false ->
  mv_pgoff vma <> BARRIER_MMAP_PGOFF dev ->
  exists cur,
    drm_vma_offset_exact_lookup_locked menv (mv_pgoff vma) (vma_pages vma)
    = Some cur /\
    mmap_type cur = t /\
    file ∈ vm_files (vma_node cur) /\
    (i915_gem_object_get_rcu menv = true ->
     fst (i915_gem_mmap menv dev file obj ops vma ms)
     = fst (i915_gem_update_vma_info (get_file_rcu menv)
              (anon_inode_getfile menv) obj ops cur vma
              (mm_log ms [MmObjGetRcu true]))) /\
    (i915_gem_object_get_rcu menv = false ->
     fst (i915_gem_mmap menv dev file obj ops vma ms) = (- EACCES, vma)) /\
    (forall other,
        other ∉ vm_files (vma_node cur) ->
        i915_gem_mmap menv dev other obj ops vma ms = (- EACCES, vma, ms)).
Proof.
  intros Hret Hhook Hflags Hlookup Hplugged Hpgoff.
  destruct (offset_ioctl_result ienv dev (Some ops) s file args Hret)
    as (ops' & t' & [= <-] & _ & Hflags' & Hrecord).
  assert (t' = t) as ->.
  { rewrite Hflags in Hflags'. now destruct t, t'. }
  rewrite Hhook in Hrecord.
  destruct Hrecord as (cur & Hcur & Hkind & _ & Hfile).
  rewrite Hcur in Hlookup. exists cur.
  split; [exact Hlookup |]. split; [exact Hkind |]. split; [exact Hfile |].
  apply Z.eqb_neq in Hpgoff.
  unfold i915_gem_mmap. rewrite Hplugged, Hpgoff, Hlookup.
  split; [| split].
  - intros Hlive. rewrite Hlive, (bool_decide_eq_true_2 _ Hfile).
    destruct (i915_gem_update_vma_info _ _ obj ops cur vma _)
      as [[err vma1] s1].
    now destruct (negb (err =? 0)).
  - intros Hdying. now rewrite Hdying, (bool_decide_eq_true_2 _ Hfile).
  - intros other Hother. now rewrite (bool_decide_eq_false_2 _ Hother).
Qed.

End OffsetThenMmap.

Lemma offset_from_the_ioctl_can_be_mapped_witness :
  exists cur,
    drm_vma_offset_exact_lookup_locked lookup_env (mv_pgoff fresh_vma)
                                       (vma_pages fresh_vma) = Some cur /\
    7%nat ∈ vm_files (vma_node cur) /\
    i915_gem_mmap lookup_env modern_device 9 (blank_object 1 (16 * 4096))
                  plain_ops fresh_vma idle_mmap
    = (- EACCES, fresh_vma, idle_mmap).
Proof.
  destruct (offset_from_the_ioctl_can_be_mapped calm_ioctl_env modern_device
              plain_ops (mk_ioctl race_world []) 7 write_back_request
              I915_MMAP_TYPE_WB lookup_env (blank_object 1 (16 * 4096))
              fresh_vma idle_mmap)
    as (cur & Hcur & _ & Hfile & _ & _ & Hother);
    [vm_compute; reflexivity | reflexivity | reflexivity
    | vm_compute; reflexivity | reflexivity | vm_compute; congruence |].
  exists cur. split; [exact Hcur |]. split; [exact Hfile |].
  apply Hother. vm_compute in Hcur. injection Hcur as <-.
  cbn. rewrite list_elem_of_singleton. lia.
Defined.
